(* ===== verification/_CoqProject ===== *)
-Q . S2P
Prelude.v
Words.v
Float32.v
Config.v
Instruction.v
Ring.v
Text.v
Numerals.v
OStream.v
Assembler.v
RegisterFile.v
RegisterRemappingTable.v
ReorderBuffer.v
CommonDataBus.v
BufferStation.v
FifoSpec.v
DispatchUtils.v
ReservationStation.v
LoadStoreBuffer.v
InstructionQueue.v
CommitUnit.v
Simulator.v
Output.v
ISA.v
Execute.v
StationFacts.v
StationInvariant.v
LSBFacts.v
Broadcast.v
Invariant.v
SeqFacts.v
UnitFacts.v
Completion.v
LoadPhase.v
LoadValues.v
ExecutePhase.v
SnoopPhase.v
CommitPhase.v
DispatchPhase.v
Progress.v
Cycle.v
Coherence.v
Refinement.v
Trace.v
PrintFacts.v
OutputFacts.v
Programs.v
AssemblerFacts.v
Disassembler.v
AssemblerLines.v
AssemblerErrors.v
FinalText.v
FloatText.v
SystemProperties.v
UnitProperties.v
DatapathProperties.v
AssemblerProperties.v
PipelineProperties.v
ControlProperties.v
OutputProperties.v
HwPkg.v
HwUnits.v
HwTables.v
HwStation.v
HwControl.v
HwCore.v
HwDecode.v
HwUnitFacts.v
HwFloatFacts.v
HwQueueFacts.v
HwBroadcast.v
HwSequential.v
HwFlow.v
HwInvariant.v
HwAccess.v
HwStraight.v
HwPrograms.v
HwAgreement.v
HwBoard.v
HwProperties.v
