(* ===== verification/Prelude.v ===== *)
(** * Tomasulo engine: verification of the software simulator and the core

    [src/sim/sim_soft] is a cycle-accurate simulator of an out-of-order RV32IF
    processor: an assembler reads a source file, and a clock loop moves
    instructions through fetch, dispatch, six reservation stations, a
    load/store buffer, a result bus and in-order commit. This library models
    that program function by function and proves that what it computes, cycle
    after cycle, is what a sequential machine computes.

    [src/hardware] is a processor of the same design in SystemVerilog, a
    program of its own with the same structures under the same names. The
    files whose names start with Hw model it register by register, prove that
    it runs programs without branches as a sequential machine does, and compare
    it with the simulator.

    ** The model of the simulator

    Every file of this group translates the C++ files it is named after;
    a class is a record of its fields, a method a function from the record (and
    what it is passed) to its result and the new record.

    - Prelude: the error monad [res] ([assert], out-of-range vectors, uncaught
      exceptions, fuel), vectors indexed by integers, loops that can fault.
    - Words, Float32: [uint32_t], [int32_t] and [float] (utils.h and the casts
      of execute_op).
    - Config, Instruction: config.h, instruction.h, instruction.cpp.
    - Text, Numerals: the C++ string functions the code calls, reading and
      printing integers.
    - OStream: [std::ostream] as the code uses it: a stream is its format
      state (base, width, fill) and its text; [float]s print as [%g] does.
      [std::ofstream] and the file system as far as the program sees it.
    - Assembler: [tokenize] .. [parse_program] of sim.cpp and the diagnostics
      they write.
    - RegisterFile, RegisterRemappingTable, ReorderBuffer, CommonDataBus,
      BufferStation, DispatchUtils, ReservationStation, LoadStoreBuffer,
      InstructionQueue, CommitUnit: the units, one file each, with their
      [dump], [open_log] and [log_cycle].
    - Simulator: [try_dispatch] and the seven phases of the clock loop of
      sim.cpp. [Sim] is the set of local variables of [main] that the machine
      consists of.
    - Output: the rest of [main]: the command line, the directories, the
      fourteen streams of a run ([Streams]) through the clock loop,
      final_regs.txt, the console and the exit code ([Exit]).

    The clock loop appears twice: [Simulator.clock_loop] without the streams,
    on which the proofs about the machine work, and [Output.clock_loop_io] with
    them; [main_writes_report] relates the two.

    Phases and their order (sim.cpp, [main]): the stations and the load/store
    buffer tick (1), finished stores are reported to the reorder buffer (2),
    results go to the reorder buffer and the bus (3), every unit listens (4),
    the commit unit retires at most one instruction and redirects fetch after
    a branch (5), fetch and dispatch (6), the bus is cleared (7). The phases
    are [execute_phase] (1-3), [snoop_phase], [commit_phase],
    [fetch_dispatch_phase] and [end_cycle]; [step_cycle] composes them. The
    dumps happen before phase 1 ([dump_start]), the bus is dumped after phase 3
    ([dump_bus]).

    ** The model of the core

    A SystemVerilog module is a Rocq module with its registers as a record
    [state], their values after [reset], its outputs and wires as functions of
    the registers and inputs, and its clock edge [next]. All right-hand sides
    of an edge read the old state, and the last write to a register wins.

    - HwPkg: rv32if_pkg.sv and the vector operations of the language.
    - HwUnits: alu_unit, branch_unit; fp_add, fp_cvt, fp_mul, fp_div, fp_round.
    - HwTables: arbiter, cdb; instr_queue, rob; rat, regfile. HwStation:
      reservation_station, load_store_buffer, data_mem, instr_mem. HwControl:
      the decoder of tomasulo_core, dispatch, commit_unit.
    - HwCore: tomasulo_core, all of these wired together; and the core with its
      fetch stage and its memories, as sim_compliance.sv has them. HwPrograms:
      the lines that testbench prints, and two of its recorded runs.
    - HwBoard, Module [cpu]: cpu.sv, the core on the board: the reset
      synchroniser, the loader that copies a program of a ROM into both memories
      ([next_loader]), core, memories and fetch stage, the cycle counter, the
      review of the memory and the displays ([next]).

    ** The specifications

    - ISA: the sequential machine; registers and memory are functions, and
      arithmetic is stated on integers modulo 2^32 (docs/ISA.md). The values of
      loads can be given ([steps_with]); Coherence says which ones a run can
      have.
    - FifoSpec: the reorder buffer as a list of entries.
    - UnitProperties: the renaming table as a function from registers to
      producers, the register file as two banks of words.
    - LSBFacts: the load/store buffer as a list, oldest first.
    - Broadcast: what a source of results promises the loops of phase 3
      (class [ResultSource], instances for stations and load/store buffer).
    - Disassembler: the text of an instruction.
    - OutputFacts: [report], the files of a run from the list of states shown
      ([history]); every text depends on one state and one unit.
    - FinalText: a reader of final_regs.txt; FloatText: a reader of decimal
      numbers, and floats as rationals.
    - HwDecode: the 32-bit encoding of an assembled instruction. HwQueueFacts:
      the reorder buffer of the core as a list ([rob_queue]), with all the
      operations one clock edge can combine. HwBroadcast: the arbiter as a
      search ([round_robin]). HwSequential: the sequential machine of the core
      ([hw_seq]): one instruction reads registers and memory, a unit computes
      its result in one step, register and memory are written.

    ** How the proof goes

    The engine runs a load as soon as it sees no older store to the same byte
    address, and stores write memory when they commit; so a load can return a
    word that a store at another byte of it has changed since, or a forwarded
    value that memory does not keep. Everything else follows the program. The
    sequential machine therefore takes load values: [Loads] (Invariant) gives a
    value to some loads by their number, [st_at] is the state it reaches with
    them, [ins_at] and [res_at] the instruction executed there and its result;
    [from_memory_all] of Coherence gives none, and the machine is then the plain one.

    Instructions are numbered in the order they are dispatched. The invariant
    relates the units to a window of such a run: the reorder buffer holds
    instructions [b .. b + n - 1], [b] having committed, all of which name
    registers that exist ([named_to]); each station and load/store entry belongs to one of them, with operands that are values of
    the run, final ones ([settled]), or tags of older instructions in flight;
    a load value given is one the load has seen ([load_sees]); the renaming
    table maps each register to its last writer in the window; fetch holds the
    instructions that follow. SeqFacts, UnitFacts and Completion supply the
    lemmas the phases share; LoadPhase, ExecutePhase, SnoopPhase, CommitPhase
    and DispatchPhase show that each phase keeps the invariant, where
    LoadPhase follows what a load meets in the buffer and LoadValues changes to
    the run in which the loads that just finished return what they got: states
    before the first of them are as before, and so is every value already in
    use ([agree_to], [next_loads_inv]). Progress bounds what the oldest
    instruction still needs; Cycle puts a cycle together. The one fault a cycle
    can meet is the assertion on a register number when an instruction is
    dispatched; DispatchPhase says which instruction of the run that is
    ([register_stop]), and [step_cycle_cases] of Cycle has it as the other
    case of a cycle.

    Coherence says what load values mean without the units ([sees],
    [valid_loads]), and that the run is the plain sequential one when the
    program is [forwarding_safe]. Refinement takes a run through the clock loop,
    Trace through the history of commits. Ring, the end of
    InstructionQueue, Execute, StationFacts and StationInvariant hold the facts
    of single units.

    Output is proved from the texts up. PrintFacts: a dump on a stream in its
    default format leaves it in that format and adds the same text whatever
    the stream holds ([prints]); OutputFacts lifts this to cycles, loops and
    [main], and identifies the lines of cu.log with the commits of Trace.

    The facts about the core go by unit. HwDecode reads each format back.
    HwUnitFacts: the integer units against ISA; when the simulator rounds up
    ([round_up]), and with HwFloatFacts the words of the floating-point units,
    through their pipelines, which are the rounded result or one below.
    HwQueueFacts: the four writes of an edge of the reorder buffer are four
    list operations. HwBroadcast: a result keeps its place until it is granted
    ([result_stays]), and every grant to another unit brings its own closer
    ([round_robin_closer]). HwPrograms: runs of whole programs, by computation.

    That the core runs a straight program (no branches) in order is an invariant
    of the whole core. Instructions are numbered as they are fetched; number [k]
    has tag [k mod 16]; [b] have committed, [d] were dispatched, [f] fetched.
    HwFlow: stations and units are lists through which instructions pass, a
    functional unit being what keeps the laws of the class [FuncUnitLaws], with
    an instance for each of the five; a station with its unit is a [lane].
    HwInvariant: reorder buffer, renaming tables and register file agree with the
    sequential machine for the window [b .. d - 1], through every edge that agrees
    with it ([edge_ok]), and dispatch then reads the value of an operand or the tag of
    its writer. HwAccess: the load/store buffer is the list of the accesses not
    finished; a load leaves it when all older stores have written, so the memory
    it reads is the one it should see. HwStraight: every tag in flight has
    exactly one owner, a lane or the buffer ([tags_ok]); with the queue of
    fetched instructions this is [core_inv], which an edge keeps ([core_edge]);
    and when nothing commits and nothing is dispatched, something advances
    ([stalled]), so [countdown] reaches the next commit.

    HwAgreement: on encoded instructions [hw_seq] is ISA ([step_same]), so
    simulator and core agree. HwBoard: the loader word by word ([booting]), then
    the board is the testbench ([mirrors]).

    ** The theorems

    - SystemProperties: for every program the assembler can return, a run ends
      in a state of the sequential machine with load values its loads can
      return, or in an assertion at the first instruction of that machine's
      run that names a register that does not exist; it commits in program
      order with the results of that machine and follows the program's control
      flow. When the registers exist an instruction commits at least every 18
      cycles. For [forwarding_safe] programs it ends in the
      registers and memory of the plain sequential machine, within 18 cycles for
      each instruction and 18 more, if the cycle limit leaves room for them.
    - UnitProperties: reorder buffer, functional units, renaming table,
      register file, operand resolution.
    - DatapathProperties: stations (size, occupancy and exclusivity, first free
      slot, exact latency, listening, broadcast loops), load/store buffer
      (forwarding, timing, commit of stores), delay line, fetch, floats and
      words.
    - AssemblerProperties: the assembler inverts the disassembler; what it
      accepts is well formed but for register numbers; labels resolve; errors
      it tolerates. AssemblerErrors: the lines at which it stops; which operands
      can be read is said without the readers ([operand_ok], [operand_fault]).
    - PipelineProperties: the contents of the units in every reachable state,
      and that a result has one owner.
    - ControlProperties: dispatch and commit in any state.
    - OutputProperties: every way [main] can end; it writes the report of its
      run; cu.log lists its commits, those of the sequential machine with load values; for
      [forwarding_safe] programs final_regs.txt read back is the final state of
      the plain machine, with the cycles of the run, and cu.log its run; the two
      fields of a floating-point register agree to six digits.
    - HwProperties: decoding inverts encoding; the integer units are those of
      the simulator and the floating-point units within one unit in the last
      place, divisions apart; every result is broadcast within seven cycles;
      the reorder buffer is a queue; a jump writes 0 to its link register.
      For every image without branches and
      jumps the core has, in every cycle, the registers and the memory of its
      sequential machine after the instructions that committed, one in 13
      cycles at least; for programs of integer operations, loads and stores it
      ends with the registers and the memory of the simulator. The board runs
      the program it was told to, and shows the words it should.

    Recorded runs validate the definitions, by evaluation, at the end of two
    files. SystemProperties: the seven tests of sim/test_sim with their cycle
    counts ([recorded_tests]), and three programs on which the engine and the
    plain machine differ, two not [forwarding_safe], one with a register that
    does not exist ([engine_differs]). HwProperties: two recorded simulations of
    the RTL cycle by cycle ([recorded_rtl_traces]), the test programs on the core,
    and four programs on which it departs from the simulator
    ([core_versus_simulator]).

    ** Assumptions, bounds and fuel

    - The core: unknown values of the RTL simulation are 0; so is the word the
      data memory returns before the first clock edge, when no load is
      pending. The reorder buffer is a queue as long as bus tags have four bits
      and the branch unit resolves branches that are in it ([wf_inputs]). For
      images without branches the core keeps to this ([straight_wf_run]); with
      branches it need not, as a late broadcast can complete an entry of another
      branch, which then commits before its own result comes. The witness
      also has the inputs of a recorded run with branches, where it holds.
    - [jump_writes_zero]: until the slot of the entry is allocated again or
      flushed ([keeps_slot]), for all inputs of the core.
    - [hw_seq.straight]: no word of the image is a branch or a jump; nothing
      else is assumed, and unused words are 0, which decode to NOP. The core
      does not stop at HALT and runs around the instruction memory, and so does
      [hw_seq.run]. With branches the statement is false
      ([core_versus_simulator]).
    - 13 cycles: [fu_latency], 9, bounds the moves of a result through any unit;
      with its issue an instruction waiting in a station counts 10, and 12 before
      it is dispatched. Each cycle without a commit or a dispatch takes one of
      these units of work away, wherever it is, so that between two commits there
      are never more cycles than there is work; each commit makes room for 12
      more. 194 is the countdown at reset, for the 16 places of the reorder
      buffer and the first fetch. Neither number is claimed to be the best.
    - [agreed], [data_behind]: the data memory of the simulator starts empty,
      that of the core with the words of the program; accesses are therefore to
      the words behind them, inside the memory, which the core addresses modulo
      1024 words and the simulator does not. Floating-point arithmetic is left out,
      as the units of the core truncate.
    - The board: the contents of the ROM are a function, read at the clock edge;
      a reset sets every register of the core, also those the RTL leaves alone,
      which are only read under a valid bit.
    - [wf_text]: fields are those of the format, immediates are [int]s, and there
      are fewer than 2^30 instructions; the assembler returns nothing else
      ([assembled_text]) for sources of fewer than 2^30 lines. [wf_source]: also,
      register numbers are below 32, which the assembler does not check; a
      negative number is no register.
    - [forwarding_safe], where the plain sequential machine is mentioned: in its
      run, a load and a store among the 15 instructions before it (no more are
      in flight beside the load) touch different words of memory, or the same
      byte address inside it. Accesses are otherwise free: misaligned ones
      reach the word they lie in, and outside the 1024 words loads give 0 and
      stores are lost, in the engine as in the sequential machine. Without it
      the theorems hold with load values: the word memory had at most 15
      instructions before, or the data of a store that recent. The two
      counterexamples of SystemProperties show that neither part can be
      dropped.
    - [MAX_CYCLES], 200000: theorems that say that a run ends where the
      sequential machine does assume [18 * (fuel + 1) <= MAX_CYCLES], so at most
      11110 instructions; those without this assumption have the cycle limit
      as a case.
    - [FPEnv]: which NaN an operation returns and what an out-of-range
      conversion gives, both open in C++. Theorems hold for every choice;
      computed examples use [x86_fp].
    - Signed overflow and left shifts of negative numbers, undefined in C++17,
      are modelled as the wrap-around the compiled program has;
      [execute_op_defined] says where they are defined. [int] counters (cycle,
      word counters) are integers; they stay far below 2^31.
    - [FileSystem]: which files can be read and written and which directories
      can be made; a parameter. A stream that could be opened does not fail
      later. What a run that ends in a fault had written before is not stated.
    - The text of a NaN carries its sign, as glibc prints it; no theorem
      depends on it. Programs.[final_of] gives the values of final_regs.txt as
      data; FinalText shows that the text of the file denotes them.
    - A broadcast loop has one unit of fuel more than the unit has slots, and
      each iteration frees one. The clock loop has [MAX_CYCLES + 1]; each
      iteration counts a cycle. Running out is the fault [OutOfFuel], which
      the theorems exclude.
    - 18 cycles: the oldest instruction commits within 16 (a division of 8
      cycles that waits for another one), and an empty pipeline dispatches the
      next instruction within one.

    ** Not modelled

    Generated FPGA files and memory images, and the wrapper of the ROM;
    program_lib_rom.sv, which is instantiated nowhere, and the empty testbench
    sim.sv; the compliance macros, which are third-party. The console output of
    a run that ends in a fault, and the failure of a write to an open file.

    Programs with branches have no theorem of their own on the core: a branch
    that was not taken can complete an instruction that took over its tag, so
    the core does not run them in order in general. What there is holds for any
    program: the reorder buffer as a queue, the broadcasts, the value of a jump,
    the recorded runs. *)

From stdpp Require Export base option list numbers strings.
From Stdlib Require Export ZArith Lia.

Declare Scope tomasulo_scope.
Delimit Scope tomasulo_scope with tom.
Open Scope Z_scope.
Open Scope tomasulo_scope.

(** ** Faults and the error monad *)

(** What stops the C++ program short of a normal return: a failed [assert]
    (the build keeps assertions on), an access past the end of a vector, an
    exception no caller catches, and, for the loops modelled with fuel, a
    bound that was too small. *)
Inductive Fault : Type :=
| AssertionFailed (site : string)
| OutOfBounds
| Uncaught (exn : string)
| OutOfFuel.

Inductive res (A : Type) : Type :=
| Ok (a : A)
| Stop (f : Fault).
Arguments Ok {A} a.
Arguments Stop {A} f.

#[global] Instance Fault_eq_dec : EqDecision Fault.
Proof. solve_decision. Defined.

#[global] Instance res_eq_dec `{EqDecision A} : EqDecision (res A).
Proof. solve_decision. Defined.

Definition rbind {A B} (m : res A) (k : A -> res B) : res B :=
  match m with
  | Ok a => k a
  | Stop f => Stop f
  end.

Notation "'let!' x ':=' m 'in' k" := (rbind m (fun x => k))
  (at level 10, x pattern, m at level 100, k at level 200)
  : tomasulo_scope.

(** [assert(b)] at the named function. *)
Definition require (site : string) (b : bool) : res unit :=
  if b then Ok tt else Stop (AssertionFailed site).

(** ** Vectors indexed by machine integers *)

(** The length of a list as an integer. *)
Abbreviation len l := (Z.of_nat (length l)) (only parsing).

(** [v[i]] and [v[i] = x] for a [std::vector] or a C array; out of range is
    undefined behaviour in C++, a fault here. *)
Definition vec_get {A} (l : list A) (i : Z) : res A :=
  if i <? 0 then Stop OutOfBounds
  else match l !! Z.to_nat i with
       | Some x => Ok x
       | None => Stop OutOfBounds
       end.

Definition vec_set {A} (l : list A) (i : Z) (x : A) : res (list A) :=
  if (0 <=? i) && (i <? len l) then Ok (<[Z.to_nat i := x]> l)
  else Stop OutOfBounds.

(** A [for] loop whose body can fault: [foldM f s l] threads the state [s]
    through the elements of [l]. *)
Fixpoint foldM {S X} (f : S -> X -> res S) (s : S) (l : list X) : res S :=
  match l with
  | [] => Ok s
  | x :: l' => let! s' := f s x in foldM f s' l'
  end.

(** ** Lemmas on the monad *)

Lemma rbind_Ok {A B} (m : res A) (k : A -> res B) b :
  rbind m k = Ok b <-> exists a, m = Ok a /\ k a = Ok b.
Proof. destruct m; simpl; naive_solver. Qed.

Lemma rbind_step {A B} (m : res A) (k : A -> res B) a r : m = Ok a -> k a = r -> rbind m k = r.
Proof. by intros ->. Qed.

Lemma rbind_Stop {A B} (m : res A) (k : A -> res B) f :
  rbind m k = Stop f <-> m = Stop f \/ exists a, m = Ok a /\ k a = Stop f.
Proof. destruct m; simpl; naive_solver. Qed.

Lemma rbind_stop {A B} (m : res A) (k : A -> res B) f : m = Stop f -> rbind m k = Stop f.
Proof. by intros ->. Qed.

Lemma require_Ok site b u : require site b = Ok u <-> b = true.
Proof. destruct b, u; simpl; naive_solver. Qed.

Lemma vec_get_Ok {A} (l : list A) i x :
  vec_get l i = Ok x <-> 0 <= i /\ l !! Z.to_nat i = Some x.
Proof.
  unfold vec_get. destruct (Z.ltb_spec i 0).
  - split; [done | lia].
  - destruct (l !! Z.to_nat i) eqn:E; split; intros; naive_solver.
Qed.

Lemma vec_set_Ok {A} (l l' : list A) i x :
  vec_set l i x = Ok l' <-> 0 <= i < len l /\ l' = <[Z.to_nat i := x]> l.
Proof.
  unfold vec_set.
  destruct (Z.leb_spec 0 i), (Z.ltb_spec i (len l)); simpl; naive_solver lia.
Qed.

Lemma vec_get_in_range {A} (l : list A) i :
  0 <= i < len l -> exists x, vec_get l i = Ok x /\ l !! Z.to_nat i = Some x.
Proof.
  intros Hi. destruct (lookup_lt_is_Some_2 l (Z.to_nat i)) as [x Hx]; [lia|].
  exists x. split; [|done]. apply vec_get_Ok. split; [lia|done].
Qed.

(** A loop invariant that every iteration preserves, and that no iteration
    faults, gives the final state. *)
Lemma foldM_invariant {S X} (f : S -> X -> res S) (P : list X -> S -> Prop) l0 s0 l :
  P l0 s0 ->
  (forall done s x todo, l = done ++ x :: todo -> P (l0 ++ done) s ->
     exists s', f s x = Ok s' /\ P (l0 ++ done ++ [x]) s') ->
  exists s', foldM f s0 l = Ok s' /\ P (l0 ++ l) s'.
Proof.
  revert l0 s0. induction l as [|x l IH]; intros l0 s0 H0 Hstep.
  - exists s0. rewrite app_nil_r. done.
  - destruct (Hstep [] s0 x l) as (s1 & Hf & H1); [done| |].
    { by rewrite app_nil_r. }
    simpl. rewrite Hf. simpl.
    destruct (IH (l0 ++ [x]) s1) as (s' & Hs' & HP); [done| |].
    + intros dn s y todo -> HP.
      destruct (Hstep (x :: dn) s y todo) as (s' & Hs' & HP'); [done| |].
      { by rewrite <- (assoc_L (++)) in HP. }
      exists s'. split; [done|]. by rewrite <- (assoc_L (++)).
    + exists s'. split; [done|]. by rewrite <- (assoc_L (++)) in HP.
Qed.

Create HintDb tom.
#[export] Hint Rewrite @length_insert @length_app @length_fmap @length_replicate : tom.

(** Split every [let!], [require], [vec_get] and [vec_set] that succeeded into
    what its success says. *)
Ltac inv_res :=
  repeat match goal with
  | H : rbind _ _ = Ok _ |- _ => apply rbind_Ok in H as (? & ? & ?)
  | H : require _ _ = Ok _ |- _ => apply require_Ok in H
  | H : vec_get _ _ = Ok _ |- _ => apply vec_get_Ok in H as [? ?]
  | H : vec_set _ _ _ = Ok _ |- _ => apply vec_set_Ok in H as [? ?]
  | H : Ok _ = Ok _ |- _ => injection H as H
  | H : Stop _ = Ok _ |- _ => discriminate H
  end; simplify_eq/=.
