(* ===== verification/Words.v ===== *)
(** * Machine integers of the simulator

    [uint32_t] and [int32_t] are integers in their ranges; the conversions
    wrap around. Signed arithmetic is modelled with the two's complement
    wrap-around the compiled program has; where C++17 leaves an expression
    undefined, a separate predicate says so (see [ReservationStation]). *)

From S2P Require Import Prelude.

Definition u32 (z : Z) : Z := z mod 2 ^ 32.

Definition s32 (z : Z) : Z :=
  let u := z mod 2 ^ 32 in if u <? 2 ^ 31 then u else u - 2 ^ 32.

Definition is_u32 (z : Z) : Prop := 0 <= z < 2 ^ 32.
Definition is_s32 (z : Z) : Prop := - 2 ^ 31 <= z < 2 ^ 31.

(** [int32_t + int32_t], [int32_t - int32_t] and [int32_t << int]. *)
Definition add32 (x y : Z) : Z := s32 (x + y).
Definition sub32 (x y : Z) : Z := s32 (x - y).
Definition shl32 (x n : Z) : Z := s32 (Z.shiftl x n).

(** [uint32_t + uint32_t]. *)
Definition addu32 (x y : Z) : Z := u32 (x + y).

(** ** Lemmas *)

Lemma u32_range z : is_u32 (u32 z).
Proof. unfold is_u32, u32. apply Z.mod_pos_bound. lia. Qed.

Lemma s32_range z : is_s32 (s32 z).
Proof.
  unfold is_s32, s32. pose proof (Z.mod_pos_bound z (2 ^ 32) ltac:(lia)).
  destruct (Z.ltb_spec (z mod 2 ^ 32) (2 ^ 31)); lia.
Qed.

Lemma u32_id z : is_u32 z -> u32 z = z.
Proof. apply Z.mod_small. Qed.

Lemma s32_id z : is_s32 z -> s32 z = z.
Proof.
  unfold is_s32, s32. intros Hz.
  destruct (Z.ltb_spec (z mod 2 ^ 32) (2 ^ 31)) as [H|H];
    revert H; Z.to_euclidean_division_equations; lia.
Qed.

(** [s32 z] differs from [z] by a multiple of 2^32. *)
Lemma s32_cong z : exists k, s32 z = z + k * 2 ^ 32.
Proof.
  unfold s32. destruct (z mod 2 ^ 32 <? 2 ^ 31).
  - exists (- (z / 2 ^ 32)). Z.to_euclidean_division_equations; lia.
  - exists (- (z / 2 ^ 32) - 1). Z.to_euclidean_division_equations; lia.
Qed.

Lemma u32_cong z : exists k, u32 z = z + k * 2 ^ 32.
Proof. exists (- (z / 2 ^ 32)). unfold u32. Z.to_euclidean_division_equations; lia. Qed.

Lemma u32_add_mul z k : u32 (z + k * 2 ^ 32) = u32 z.
Proof. apply Z_mod_plus_full. Qed.

Lemma u32_s32 z : u32 (s32 z) = u32 z.
Proof. destruct (s32_cong z) as [k ->]. apply u32_add_mul. Qed.

Lemma u32_u32 z : u32 (u32 z) = u32 z.
Proof. apply u32_id, u32_range. Qed.

Lemma s32_add_mul z k : s32 (z + k * 2 ^ 32) = s32 z.
Proof. unfold s32. by rewrite Z_mod_plus_full. Qed.

Lemma s32_u32 z : s32 (u32 z) = s32 z.
Proof. destruct (u32_cong z) as [k ->]. apply s32_add_mul. Qed.

Lemma s32_inj x y : is_u32 x -> is_u32 y -> s32 x = s32 y -> x = y.
Proof.
  intros Hx Hy E. apply (f_equal u32) in E. by rewrite !u32_s32, !u32_id in E.
Qed.

(** Converting the operands first does not change a sum or difference modulo
    2^32. *)
Lemma u32_add_s32 x y : u32 (s32 x + s32 y) = u32 (x + y).
Proof.
  destruct (s32_cong x) as [j ->], (s32_cong y) as [k ->].
  replace (x + j * 2 ^ 32 + (y + k * 2 ^ 32)) with (x + y + (j + k) * 2 ^ 32) by lia.
  apply u32_add_mul.
Qed.

Lemma u32_add_s32_l x y : u32 (s32 x + y) = u32 (x + y).
Proof.
  destruct (s32_cong x) as [j ->].
  replace (x + j * 2 ^ 32 + y) with (x + y + j * 2 ^ 32) by lia. apply u32_add_mul.
Qed.

Lemma u32_sub_s32 x y : u32 (s32 x - s32 y) = u32 (x - y).
Proof.
  destruct (s32_cong x) as [j ->], (s32_cong y) as [k ->].
  replace (x + j * 2 ^ 32 - (y + k * 2 ^ 32)) with (x - y + (j - k) * 2 ^ 32) by lia.
  apply u32_add_mul.
Qed.

Lemma u32_add_u32_r x y : u32 (x + u32 y) = u32 (x + y).
Proof.
  destruct (u32_cong y) as [k ->].
  replace (x + (y + k * 2 ^ 32)) with (x + y + k * 2 ^ 32) by lia. apply u32_add_mul.
Qed.

(** Bitwise operations stay within the width. *)
Lemma is_u32_testbit z : 0 <= z -> is_u32 z <-> forall n, 32 <= n -> Z.testbit z n = false.
Proof.
  unfold is_u32. intros Hz. split.
  - intros H n Hn. rewrite Z.testbit_false by lia.
    rewrite Z.div_small; [done|]. split; [lia|].
    apply Z.lt_le_trans with (2 ^ 32); [lia|]. apply Z.pow_le_mono_r; lia.
  - intros H. split; [done|].
    destruct (Z.lt_ge_cases z (2 ^ 32)) as [|Hge]; [done|].
    assert (32 <= Z.log2 z) as Hlog by (apply Z.log2_le_pow2; lia).
    specialize (H (Z.log2 z) Hlog). rewrite Z.bit_log2 in H by lia. done.
Qed.

Lemma is_u32_land x y : is_u32 x -> is_u32 (Z.land x y).
Proof.
  intros Hx. assert (0 <= Z.land x y) by (apply Z.land_nonneg; left; apply Hx).
  apply is_u32_testbit; [done|]. intros n Hn. rewrite Z.land_spec.
  rewrite (proj1 (is_u32_testbit x ltac:(apply Hx)) Hx n Hn). done.
Qed.

Lemma is_u32_lor x y : is_u32 x -> is_u32 y -> is_u32 (Z.lor x y).
Proof.
  intros Hx Hy. assert (0 <= Z.lor x y) by (apply Z.lor_nonneg; split; [apply Hx|apply Hy]).
  apply is_u32_testbit; [done|]. intros n Hn. rewrite Z.lor_spec.
  rewrite (proj1 (is_u32_testbit x ltac:(apply Hx)) Hx n Hn).
  rewrite (proj1 (is_u32_testbit y ltac:(apply Hy)) Hy n Hn). done.
Qed.

Lemma is_u32_lxor x y : is_u32 x -> is_u32 y -> is_u32 (Z.lxor x y).
Proof.
  intros Hx Hy.
  assert (0 <= Z.lxor x y).
  { apply Z.lxor_nonneg. destruct Hx, Hy. tauto. }
  apply is_u32_testbit; [done|]. intros n Hn. rewrite Z.lxor_spec.
  rewrite (proj1 (is_u32_testbit x ltac:(apply Hx)) Hx n Hn).
  rewrite (proj1 (is_u32_testbit y ltac:(apply Hy)) Hy n Hn). done.
Qed.

Lemma is_u32_shiftr x n : is_u32 x -> 0 <= n -> is_u32 (Z.shiftr x n).
Proof.
  unfold is_u32. intros Hx Hn. rewrite Z.shiftr_div_pow2 by done.
  assert (0 < 2 ^ n) by (apply Z.pow_pos_nonneg; lia).
  split; [apply Z.div_pos; lia|]. apply Z.div_lt_upper_bound; nia.
Qed.

#[export] Hint Resolve u32_range s32_range is_u32_land is_u32_lor is_u32_lxor is_u32_shiftr : tom.
#[export] Hint Rewrite u32_s32 u32_u32 s32_u32 u32_add_s32 u32_sub_s32 : tom.
