(* ===== verification/Float32.v ===== *)
(** * Single-precision floats of the simulator

    A C++ [float] is its 32-bit object representation, so that [memcpy]
    between a [float] and a [uint32_t] ([utils.h]) keeps the bits. Its value
    is a [spec_float] of the Standard Library's model of IEEE 754, at the
    precision and exponent range of binary32; [+], [-], [*], [/] and the
    conversions compute on the values with round-to-nearest-even.

    C++ leaves two things open, which are the class [FPEnv]: the payload of a
    NaN result, and the integer an out-of-range [float] converts to. *)

From Stdlib Require Import SpecFloat.
From S2P Require Import Prelude Words.

Definition prec32 : Z := 24.
Definition emax32 : Z := 128.

Record float : Type := F32 { repr : Z }.

(** utils.h: reinterpretation by [memcpy], both ways. *)
Definition bits_to_float (b : Z) : float := F32 b.
Definition float_to_bits (f : float) : Z := repr f.

#[global] Instance float_eq_dec : EqDecision float.
Proof. solve_decision. Defined.

(** The three bit fields of a binary32, and the value they encode. *)
Definition sign_field (b : Z) : bool := Z.testbit b 31.
Definition exp_field (b : Z) : Z := (b / 2 ^ 23) mod 2 ^ 8.
Definition man_field (b : Z) : Z := b mod 2 ^ 23.

Definition pack (s : bool) (e m : Z) : Z :=
  (if s then 2 ^ 31 else 0) + (e mod 2 ^ 8) * 2 ^ 23 + m mod 2 ^ 23.

Definition value (f : float) : spec_float :=
  let b := repr f in
  let s := sign_field b in
  let e := exp_field b in
  let m := man_field b in
  if e =? 255 then if m =? 0 then S754_infinity s else S754_nan
  else if e =? 0 then
    match m with Zpos p => S754_finite s p (-149) | _ => S754_zero s end
  else S754_finite s (Z.to_pos (m + 2 ^ 23)) (e - 150).

(** The representation of a value; [nan] supplies the bits of a NaN. *)
Definition of_value (nan : Z) (x : spec_float) : float :=
  F32 match x with
      | S754_zero s => pack s 0 0
      | S754_infinity s => pack s 255 0
      | S754_nan => nan
      | S754_finite s m e =>
          if Zpos m <? 2 ^ 23 then pack s 0 (Zpos m)
          else pack s (e + 150) (Zpos m - 2 ^ 23)
      end.

Inductive FPOp : Type := FAdd | FSub | FMul | FDiv.

(** What the compiled program does where C++ does not say. *)
Class FPEnv : Type := {
  fp_nan : FPOp -> float -> float -> Z;
  fp_nan_range : forall o x y, is_u32 (fp_nan o x y);
  fp_nan_value : forall o x y, value (F32 (fp_nan o x y)) = S754_nan;
  cvt_undef : float -> Z;
  cvt_undef_range : forall x, is_s32 (cvt_undef x)
}.

Section Ops.
Context `{FE : FPEnv}.

Definition fp_value_op (o : FPOp) : spec_float -> spec_float -> spec_float :=
  match o with
  | FAdd => SFadd prec32 emax32
  | FSub => SFsub prec32 emax32
  | FMul => SFmul prec32 emax32
  | FDiv => SFdiv prec32 emax32
  end.

(** [x + y], [x - y], [x * y] and [x / y] on [float]. *)
Definition fp_arith (o : FPOp) (x y : float) : float :=
  of_value (fp_nan o x y) (fp_value_op o (value x) (value y)).

(** The integer part of a finite value, rounded towards zero. *)
Definition trunc_value (x : spec_float) : option Z :=
  match x with
  | S754_zero _ => Some 0
  | S754_finite s m e =>
      let n := if 0 <=? e then Z.shiftl (Zpos m) e else Z.shiftr (Zpos m) (- e) in
      Some (if s then - n else n)
  | _ => None
  end.

(** Whether [static_cast<int32_t>(f)] is defined, and what it gives. *)
Definition f2i_defined (f : float) : bool :=
  match trunc_value (value f) with
  | Some z => (- 2 ^ 31 <=? z) && (z <? 2 ^ 31)
  | None => false
  end.

Definition f2i (f : float) : Z :=
  match trunc_value (value f) with
  | Some z => if (- 2 ^ 31 <=? z) && (z <? 2 ^ 31) then z else cvt_undef f
  | None => cvt_undef f
  end.

(** [static_cast<float>(z)] for an [int32_t]. *)
Definition i2f (z : Z) : float :=
  of_value 0 (binary_normalize prec32 emax32 z 0 false).

End Ops.

(** The environment of the x86-64 build: SSE instructions return the first
    NaN operand made quiet, or the default NaN, and [cvttss2si] returns
    [INT_MIN]. *)
Definition quiet (b : Z) : Z := Z.lor b (2 ^ 22).
Definition is_nan (f : float) : bool :=
  match value f with S754_nan => true | _ => false end.
Definition x86_nan (x y : float) : Z :=
  if is_nan x then pack (sign_field (repr x)) 255 (quiet (man_field (repr x)))
  else if is_nan y then pack (sign_field (repr y)) 255 (quiet (man_field (repr y)))
  else pack true 255 (2 ^ 22).

(** ** Ranges *)

Lemma pack_range s e m : is_u32 (pack s e m).
Proof.
  unfold is_u32, pack. pose proof (Z.mod_pos_bound e (2 ^ 8) ltac:(lia)).
  pose proof (Z.mod_pos_bound m (2 ^ 23) ltac:(lia)). destruct s; lia.
Qed.

Lemma of_value_range nan x : is_u32 nan -> is_u32 (repr (of_value nan x)).
Proof.
  intros Hn. destruct x as [s|s| |s m e]; simpl; try apply pack_range; [done|].
  case_match; apply pack_range.
Qed.

Lemma fp_arith_range `{FPEnv} o x y : is_u32 (float_to_bits (fp_arith o x y)).
Proof. apply of_value_range, fp_nan_range. Qed.

Lemma i2f_range z : is_u32 (float_to_bits (i2f z)).
Proof. apply of_value_range. unfold is_u32. lia. Qed.

Lemma f2i_range `{FPEnv} f : is_s32 (f2i f).
Proof.
  unfold f2i. destruct (trunc_value (value f)) as [z|]; [|apply cvt_undef_range].
  destruct (_ && _) eqn:E; [|apply cvt_undef_range].
  apply andb_true_iff in E as [?%Z.leb_le ?%Z.ltb_lt]. unfold is_s32. lia.
Qed.

(** ** The fields of a packed word *)

Lemma sign_field_pack s e m : sign_field (pack s e m) = s.
Proof.
  unfold sign_field, pack. pose proof (Z.mod_pos_bound e (2 ^ 8) ltac:(lia)).
  pose proof (Z.mod_pos_bound m (2 ^ 23) ltac:(lia)).
  rewrite Z.testbit_eqb by lia.
  destruct s; [apply Z.eqb_eq | apply Z.eqb_neq]; Z.to_euclidean_division_equations; lia.
Qed.

Lemma exp_field_pack s e m : exp_field (pack s e m) = e mod 2 ^ 8.
Proof.
  unfold exp_field, pack. pose proof (Z.mod_pos_bound e (2 ^ 8) ltac:(lia)).
  pose proof (Z.mod_pos_bound m (2 ^ 23) ltac:(lia)).
  remember (e mod 2 ^ 8) as x eqn:Ex. remember (m mod 2 ^ 23) as y eqn:Ey. clear Ex Ey.
  destruct s; Z.to_euclidean_division_equations; lia.
Qed.

Lemma man_field_pack s e m : man_field (pack s e m) = m mod 2 ^ 23.
Proof.
  unfold man_field, pack. pose proof (Z.mod_pos_bound e (2 ^ 8) ltac:(lia)).
  pose proof (Z.mod_pos_bound m (2 ^ 23) ltac:(lia)).
  remember (e mod 2 ^ 8) as x eqn:Ex. remember (m mod 2 ^ 23) as y eqn:Ey. clear Ex Ey.
  destruct s; Z.to_euclidean_division_equations; lia.
Qed.

Lemma pack_fields b : is_u32 b -> pack (sign_field b) (exp_field b) (man_field b) = b.
Proof.
  unfold is_u32, pack, exp_field, man_field, sign_field. intros Hb.
  rewrite !Z.mod_mod by lia. rewrite Z.testbit_eqb by lia.
  destruct (Z.eqb_spec ((b / 2 ^ 31) mod 2) 1); Z.to_euclidean_division_equations; lia.
Qed.

#[export] Hint Rewrite sign_field_pack exp_field_pack man_field_pack : tom.


Lemma exp_field_range b : 0 <= exp_field b < 256.
Proof. unfold exp_field. apply Z.mod_pos_bound. lia. Qed.

Lemma man_field_range b : 0 <= man_field b < 2 ^ 23.
Proof. unfold man_field. apply Z.mod_pos_bound. lia. Qed.

(** ** The value of a word, by its exponent field *)

Lemma value_special b :
  exp_field b = 255 ->
  value (F32 b) = if man_field b =? 0 then S754_infinity (sign_field b) else S754_nan.
Proof. intros He. unfold value. cbn [repr]. by rewrite He. Qed.

Lemma value_subnormal b :
  exp_field b = 0 ->
  value (F32 b) = match man_field b with
                  | Zpos m => S754_finite (sign_field b) m (-149)
                  | _ => S754_zero (sign_field b)
                  end.
Proof. intros He. unfold value. cbn [repr]. by rewrite He. Qed.

Lemma value_normal b :
  0 < exp_field b < 255 ->
  value (F32 b) =
  S754_finite (sign_field b) (Z.to_pos (man_field b + 2 ^ 23)) (exp_field b - 150).
Proof.
  intros He. unfold value. cbn [repr].
  destruct (Z.eqb_spec (exp_field b) 255), (Z.eqb_spec (exp_field b) 0); [lia|lia|lia|done].
Qed.

(** ** Round trips *)

(** Assembling the value of a number gives its bits back. *)
Lemma of_value_value nan f :
  is_u32 (repr f) -> value f <> S754_nan -> of_value nan (value f) = f.
Proof.
  destruct f as [b]. intros Hb Hnan. cbn [repr] in Hb. pose proof (pack_fields b Hb) as Hp.
  pose proof (exp_field_range b) as He. pose proof (man_field_range b) as Hm.
  unfold of_value. f_equal.
  destruct (decide (exp_field b = 255)) as [E|N].
  { rewrite (value_special b E) in *. destruct (Z.eqb_spec (man_field b) 0) as [E'|]; [|done].
    by rewrite <- Hp at 2; rewrite E, E'. }
  destruct (decide (exp_field b = 0)) as [E|N'].
  { rewrite (value_subnormal b E). destruct (man_field b) as [|m|m] eqn:Em; [| |lia].
    - rewrite <- Hp at 2. by rewrite E.
    - destruct (Z.ltb_spec (Zpos m) (2 ^ 23)); [|lia]. rewrite <- Hp at 2. by rewrite E. }
  rewrite value_normal by lia. rewrite Z2Pos.id by lia.
  destruct (Z.ltb_spec (man_field b + 2 ^ 23) (2 ^ 23)); [lia|].
  rewrite <- Hp at 4. f_equal; lia.
Qed.

Lemma digits2_pos_bounds m :
  2 ^ (Zpos (digits2_pos m) - 1) <= Zpos m < 2 ^ Zpos (digits2_pos m).
Proof.
  induction m as [m IH|m IH|]; cbn [digits2_pos]; [| |simpl; lia];
    rewrite Pos2Z.inj_succ; (replace (Z.succ (Zpos (digits2_pos m)) - 1)
      with (Z.succ (Zpos (digits2_pos m) - 1)) by lia);
    rewrite !Z.pow_succ_r by lia; lia.
Qed.

(** A canonical binary32: subnormal, or a 24-bit mantissa with an exponent in
    range. *)
Lemma bounded_cases m e :
  bounded prec32 emax32 m e = true ->
  (e = -149 /\ Zpos m < 2 ^ 23) \/ (2 ^ 23 <= Zpos m < 2 ^ 24 /\ -149 <= e <= 104).
Proof.
  unfold bounded, canonical_mantissa, fexp, emin, prec32, emax32.
  intros [E%Z.eqb_eq He%Z.leb_le]%andb_true_iff.
  pose proof (digits2_pos_bounds m) as Hd. set (d := Zpos (digits2_pos m)) in *.
  destruct (Z.lt_ge_cases d 24) as [Hlt|Hge].
  - left. split; [lia|]. apply Z.lt_le_trans with (2 ^ d); [lia|]. apply Z.pow_le_mono_r; lia.
  - right. assert (d = 24) as Ed by lia. rewrite Ed in Hd. lia.
Qed.

(** The bits of a canonical value denote it. *)
Lemma value_of_value nan x :
  valid_binary prec32 emax32 x = true -> x <> S754_nan -> value (of_value nan x) = x.
Proof.
  destruct x as [s|s| |s m e]; intros Hv Hn; [| |done|]; unfold of_value.
  - rewrite value_subnormal; autorewrite with tom; done.
  - rewrite value_special; autorewrite with tom; done.
  - apply bounded_cases in Hv as [[-> Hm]|[Hm He]].
    + destruct (Z.ltb_spec (Zpos m) (2 ^ 23)); [|lia].
      rewrite value_subnormal; autorewrite with tom; [|done].
      rewrite Z.mod_small by lia. done.
    + destruct (Z.ltb_spec (Zpos m) (2 ^ 23)); [lia|].
      assert ((e + 150) mod 2 ^ 8 = e + 150) as Ee by (apply Z.mod_small; lia).
      rewrite value_normal; autorewrite with tom; rewrite Ee; [|lia].
      rewrite (Z.mod_small (Zpos m - _)) by lia.
      replace (Zpos m - 2 ^ 23 + 2 ^ 23) with (Zpos m) by lia.
      f_equal; simpl; lia.
Qed.

Lemma quiet_man_nonzero m : 0 <= m < 2 ^ 23 -> (quiet m) mod 2 ^ 23 <> 0.
Proof.
  unfold quiet. intros Hm E.
  assert (Z.testbit (Z.lor m (2 ^ 22) mod 2 ^ 23) 22 = true) as Hb.
  { rewrite Z.mod_pow2_bits_low, Z.lor_spec, Z.pow2_bits_true by lia. apply orb_true_r. }
  rewrite E in Hb. by rewrite Z.bits_0 in Hb.
Qed.

Lemma x86_nan_value x y : value (F32 (x86_nan x y)) = S754_nan.
Proof.
  unfold x86_nan. repeat case_match; rewrite value_special; autorewrite with tom; try done.
  - rewrite (proj2 (Z.eqb_neq _ _)); [done|]. apply quiet_man_nonzero, man_field_range.
  - rewrite (proj2 (Z.eqb_neq _ _)); [done|]. apply quiet_man_nonzero, man_field_range.
Qed.

Lemma x86_nan_range x y : is_u32 (x86_nan x y).
Proof. unfold x86_nan. repeat case_match; apply pack_range. Qed.

Lemma x86_cvt_range : is_s32 (- 2 ^ 31).
Proof. unfold is_s32. lia. Qed.

#[global] Instance x86_fp : FPEnv := {|
  fp_nan _ := x86_nan;
  fp_nan_range _ := x86_nan_range;
  fp_nan_value _ := x86_nan_value;
  cvt_undef _ := - 2 ^ 31;
  cvt_undef_range _ := x86_cvt_range
|}.
