(* ===== verification/Config.v ===== *)
(** * config.h: latencies, pipelining flags and structural sizes *)

From S2P Require Import Prelude.

Definition LAT_INT_ALU : Z := 1.
Definition LAT_INT_LS : Z := 2.
Definition LAT_BRANCH : Z := 1.
Definition LAT_FP_ADDSUB : Z := 2.
Definition LAT_FP_MUL : Z := 4.
Definition LAT_FP_DIV : Z := 8.
Definition LAT_FP_LS : Z := 2.
Definition LAT_FP_CVT : Z := 2.
Definition LAT_MISC : Z := 1.

Definition PIPE_INT_ALU : bool := true.
Definition PIPE_INT_LS : bool := false.
Definition PIPE_BRANCH : bool := false.
Definition PIPE_FP_ADDSUB : bool := true.
Definition PIPE_FP_MUL : bool := true.
Definition PIPE_FP_DIV : bool := false.
Definition PIPE_FP_LS : bool := false.
Definition PIPE_FP_CVT : bool := true.
Definition PIPE_MISC : bool := false.

Definition IQ_CAPACITY : Z := 8.
Definition IQ_FETCH_WIDTH : Z := 1.
Definition ROB_SIZE : Z := 16.
Definition RS_ALU_SIZE : Z := 6.
Definition RS_BRANCH_SIZE : Z := 2.
Definition RS_FP_ADDSUB_SIZE : Z := 3.
Definition RS_FP_MUL_SIZE : Z := 2.
Definition RS_FP_DIV_SIZE : Z := 2.
Definition RS_FP_CVT_SIZE : Z := 2.
Definition LSB_SIZE : Z := 8.

Definition NUM_INT_REGS : Z := 32.
Definition NUM_FP_REGS : Z := 32.

Definition MEM_SIZE : Z := 1024.
