(* ===== verification/Instruction.v ===== *)
(** * instruction.h, instruction.cpp: opcodes and decoded instructions *)

From S2P Require Import Prelude Config.

Inductive Opcode : Type :=
| ADD | SUB | AND | OR | XOR | SLL | SRL | SRA
| ADDI | ANDI | ORI | XORI | SLLI | SRLI
| LUI
| LW | SW
| BEQ | BNE | BLT | BGE
| JAL | JALR
| FADD_S | FSUB_S | FMUL_S | FDIV_S
| FLW | FSW
| FCVT_W_S | FCVT_S_W
| NOP | HALT.

#[global] Instance Opcode_eq_dec : EqDecision Opcode.
Proof. solve_decision. Defined.

(** [op == Opcode::X] *)
Definition op_eqb (a b : Opcode) : bool := bool_decide (a = b).

(** A decoded instruction; register index -1 is "none". *)
Record Instruction : Type := mkInstruction {
  op : Opcode;
  rd : Z;
  rs1 : Z;
  rs2 : Z;
  imm : Z;          (* int32_t *)
  rd_fp : bool;
  rs1_fp : bool;
  rs2_fp : bool;
  pc : Z            (* uint32_t *)
}.

#[global] Instance Instruction_eq_dec : EqDecision Instruction.
Proof. solve_decision. Defined.

(** [Instruction{}] *)
Definition default_instruction : Instruction :=
  mkInstruction NOP (-1) (-1) (-1) 0 false false false 0.

(** [instr.pc = v] *)
Definition set_pc (i : Instruction) (v : Z) : Instruction :=
  mkInstruction (op i) (rd i) (rs1 i) (rs2 i) (imm i) (rd_fp i) (rs1_fp i) (rs2_fp i) v.

Definition latency_of (o : Opcode) : Z :=
  match o with
  | ADD => LAT_INT_ALU
  | SUB => LAT_INT_ALU
  | AND => LAT_INT_ALU
  | OR => LAT_INT_ALU
  | XOR => LAT_INT_ALU
  | SLL => LAT_INT_ALU
  | SRL => LAT_INT_ALU
  | SRA => LAT_INT_ALU
  | ADDI => LAT_INT_ALU
  | LUI => LAT_INT_ALU
  | ANDI => LAT_INT_ALU
  | ORI => LAT_INT_ALU
  | XORI => LAT_INT_ALU
  | SLLI => LAT_INT_ALU
  | SRLI => LAT_INT_ALU
  | LW => LAT_INT_LS
  | SW => LAT_INT_LS
  | BEQ => LAT_BRANCH
  | BNE => LAT_BRANCH
  | BLT => LAT_BRANCH
  | BGE => LAT_BRANCH
  | JAL => LAT_BRANCH
  | JALR => LAT_BRANCH
  | FADD_S => LAT_FP_ADDSUB
  | FSUB_S => LAT_FP_ADDSUB
  | FMUL_S => LAT_FP_MUL
  | FDIV_S => LAT_FP_DIV
  | FLW => LAT_FP_LS
  | FSW => LAT_FP_LS
  | FCVT_W_S => LAT_FP_CVT
  | FCVT_S_W => LAT_FP_CVT
  | _ => LAT_MISC
  end.

Definition is_pipelined (o : Opcode) : bool :=
  match o with
  | FADD_S => PIPE_FP_ADDSUB
  | FSUB_S => PIPE_FP_ADDSUB
  | FMUL_S => PIPE_FP_MUL
  | FDIV_S => PIPE_FP_DIV
  | FLW => PIPE_FP_LS
  | FSW => PIPE_FP_LS
  | FCVT_W_S => PIPE_FP_CVT
  | FCVT_S_W => PIPE_FP_CVT
  | LW => PIPE_INT_LS
  | SW => PIPE_INT_LS
  | BEQ => PIPE_BRANCH
  | BNE => PIPE_BRANCH
  | BLT => PIPE_BRANCH
  | BGE => PIPE_BRANCH
  | JAL => PIPE_BRANCH
  | JALR => PIPE_BRANCH
  | _ => PIPE_INT_ALU
  end.

Definition opcode_name (o : Opcode) : string :=
  match o with
  | ADD => "ADD"
  | SUB => "SUB"
  | AND => "AND"
  | OR => "OR"
  | XOR => "XOR"
  | SLL => "SLL"
  | SRL => "SRL"
  | SRA => "SRA"
  | ADDI => "ADDI"
  | LUI => "LUI"
  | ANDI => "ANDI"
  | ORI => "ORI"
  | XORI => "XORI"
  | SLLI => "SLLI"
  | SRLI => "SRLI"
  | LW => "LW"
  | SW => "SW"
  | BEQ => "BEQ"
  | BNE => "BNE"
  | BLT => "BLT"
  | BGE => "BGE"
  | FADD_S => "FADD.S"
  | FSUB_S => "FSUB.S"
  | FMUL_S => "FMUL.S"
  | FDIV_S => "FDIV.S"
  | FLW => "FLW"
  | FSW => "FSW"
  | FCVT_W_S => "FCVT.W.S"
  | FCVT_S_W => "FCVT.S.W"
  | JAL => "JAL"
  | JALR => "JALR"
  | NOP => "NOP"
  | HALT => "HALT"
  end.

Definition is_branch (o : Opcode) : bool :=
  op_eqb o BEQ || op_eqb o BNE || op_eqb o BLT || op_eqb o BGE.

Definition is_jump (o : Opcode) : bool := op_eqb o JAL || op_eqb o JALR.

Definition is_load (o : Opcode) : bool := op_eqb o LW || op_eqb o FLW.

Definition is_store (o : Opcode) : bool := op_eqb o SW || op_eqb o FSW.

Definition is_fp_op (o : Opcode) : bool :=
  op_eqb o FADD_S || op_eqb o FSUB_S || op_eqb o FMUL_S || op_eqb o FDIV_S ||
  op_eqb o FLW || op_eqb o FSW || op_eqb o FCVT_W_S || op_eqb o FCVT_S_W.

(** ** Facts about every opcode *)

Lemma latency_of_bounds o : 1 <= latency_of o <= 8.
Proof. destruct o; cbv; split; discriminate. Qed.

(** The only operation that occupies its unit for several cycles without
    being pipelined, among those a reservation station holds, is the divide. *)
Lemma multi_cycle_unpipelined o :
  is_load o = false -> is_store o = false -> is_pipelined o = false ->
  1 < latency_of o -> o = FDIV_S.
Proof. destruct o; try discriminate; try done; intros; exfalso; revert H2; cbv; discriminate. Qed.
