(* ===== verification/Ring.v ===== *)
(** * Circular buffers

    The reorder buffer and the load/store buffer are circular arrays with a
    head index, a tail index and a count. [ring_view] is the queue such an
    array holds, oldest element first; the lemmas say what writing the tail
    slot, clearing the head slot and overwriting a slot do to the queue. *)

From S2P Require Import Prelude.

Section Ring.
Context {A : Type}.
Implicit Types (es : list A) (x : A).

Definition ring_view (head count : Z) (es : list A) : list A :=
  take (Z.to_nat count) (rotate (Z.to_nat head) es).

Record ring_ok (size head tail count : Z) (es : list A) : Prop := {
  ring_size : 0 < size;
  ring_len : len es = size;
  ring_head : 0 <= head < size;
  ring_count : 0 <= count <= size;
  ring_tail : tail = (head + count) mod size
}.

Lemma ring_index_range size head k :
  0 < size -> 0 <= (head + k) mod size < size.
Proof. intros. by apply Z.mod_pos_bound. Qed.

(** Two positions of the ring at a distance below the size differ. *)
Lemma ring_index_inj size a b :
  0 < size -> 0 <= a <= b -> b < a + size -> a mod size = b mod size -> a = b.
Proof.
  intros Hs Hab Hd E. pose proof (Z.div_mod a size ltac:(lia)).
  pose proof (Z.div_mod b size ltac:(lia)). rewrite E in *.
  assert (size * (b / size - a / size) = b - a) as Hd' by lia.
  assert (b / size - a / size = 0) as Hq by nia. rewrite Hq in Hd'. lia.
Qed.

Lemma ring_index_ne size head j k :
  0 < size -> 0 <= head -> 0 <= j < size -> 0 <= k < size -> j <> k ->
  (head + j) mod size <> (head + k) mod size.
Proof.
  intros Hs Hh Hj Hk Hne E. destruct (Z.lt_ge_cases j k).
  - pose proof (ring_index_inj size (head + j) (head + k)). lia.
  - pose proof (ring_index_inj size (head + k) (head + j)). lia.
Qed.

Lemma ring_view_lookup size head tail count es k :
  ring_ok size head tail count es ->
  ring_view head count es !! k =
    if decide (Z.of_nat k < count)
    then es !! Z.to_nat ((head + Z.of_nat k) mod size) else None.
Proof.
  intros [Hs Hl Hh Hc _]. unfold ring_view. destruct (decide _) as [Hk|Hk].
  - rewrite lookup_take_lt by lia. rewrite lookup_rotate_r by lia.
    f_equal. unfold rotate_nat_add. f_equal. rewrite Hl. f_equal. lia.
  - apply lookup_take_ge. lia.
Qed.

Lemma ring_view_length size head tail count es :
  ring_ok size head tail count es -> len (ring_view head count es) = count.
Proof.
  intros [Hs Hl Hh Hc _]. unfold ring_view. rewrite length_take, length_rotate. lia.
Qed.

Lemma ring_view_at size head tail count es k :
  ring_ok size head tail count es -> 0 <= k < count ->
  es !! Z.to_nat ((head + k) mod size) = ring_view head count es !! Z.to_nat k.
Proof.
  intros Hr Hk. rewrite (ring_view_lookup _ _ _ _ _ _ Hr), Z2Nat.id by lia.
  by rewrite decide_True by lia.
Qed.

Lemma ring_push size head tail count es x :
  ring_ok size head tail count es -> count < size ->
  ring_ok size head ((tail + 1) mod size) (count + 1) (<[Z.to_nat tail := x]> es) /\
  ring_view head (count + 1) (<[Z.to_nat tail := x]> es) = ring_view head count es ++ [x].
Proof.
  intros Hr Hlt. assert (Hr' : ring_ok size head ((tail + 1) mod size) (count + 1)
    (<[Z.to_nat tail := x]> es)).
  { destruct Hr as [Hs Hl Hh Hc ->]. constructor; rewrite ?length_insert; try lia.
    rewrite Zplus_mod_idemp_l. f_equal. lia. }
  split; [done|]. apply list_eq. intros k.
  rewrite (ring_view_lookup _ _ _ _ _ _ Hr').
  pose proof (ring_view_length _ _ _ _ _ Hr) as Hvl.
  pose proof Hr as [Hs Hl Hh Hc Ht].
  pose proof (ring_index_range size head count Hs).
  destruct (decide (Z.of_nat k < count + 1)) as [Hk|Hk].
  - destruct (decide (Z.of_nat k = count)) as [E|N].
    + rewrite lookup_app_r by lia. rewrite E, <- Ht.
      rewrite list_lookup_insert_eq by lia.
      replace (k - _)%nat with 0%nat by lia. done.
    + rewrite lookup_app_l by lia. rewrite (ring_view_lookup _ _ _ _ _ _ Hr).
      rewrite decide_True by lia. rewrite list_lookup_insert_ne; [done|].
      pose proof (ring_index_ne size head count (Z.of_nat k)).
      pose proof (ring_index_range size head (Z.of_nat k) Hs). lia.
  - symmetry. apply lookup_ge_None. rewrite length_app. simpl. lia.
Qed.

Lemma ring_update size head tail count es k x :
  ring_ok size head tail count es -> 0 <= k < count ->
  ring_ok size head tail count (<[Z.to_nat ((head + k) mod size) := x]> es) /\
  ring_view head count (<[Z.to_nat ((head + k) mod size) := x]> es) =
    <[Z.to_nat k := x]> (ring_view head count es).
Proof.
  intros Hr Hk. assert (Hr' : ring_ok size head tail count
    (<[Z.to_nat ((head + k) mod size) := x]> es)).
  { destruct Hr. constructor; rewrite ?length_insert; done. }
  split; [done|]. apply list_eq. intros j.
  pose proof (ring_view_length _ _ _ _ _ Hr) as Hvl.
  rewrite (ring_view_lookup _ _ _ _ _ _ Hr').
  pose proof Hr as [Hs Hl Hh Hc Ht].
  destruct (decide (Z.of_nat j = k)) as [E|N].
  - rewrite decide_True by lia. rewrite E.
    replace j with (Z.to_nat k) by lia. pose proof (ring_index_range size head k Hs).
    by rewrite !list_lookup_insert_eq by lia.
  - rewrite (list_lookup_insert_ne _ (Z.to_nat k)) by lia.
    rewrite (ring_view_lookup _ _ _ _ _ _ Hr).
    destruct (decide (Z.of_nat j < count)); [|done].
    apply list_lookup_insert_ne.
    pose proof (ring_index_ne size head k (Z.of_nat j)).
    pose proof (ring_index_range size head k Hs).
    pose proof (ring_index_range size head (Z.of_nat j) Hs). lia.
Qed.

Lemma ring_pop size head tail count es d :
  ring_ok size head tail count es -> 0 < count ->
  ring_ok size ((head + 1) mod size) tail (count - 1) (<[Z.to_nat head := d]> es) /\
  exists x, es !! Z.to_nat head = Some x /\
    ring_view head count es =
      x :: ring_view ((head + 1) mod size) (count - 1) (<[Z.to_nat head := d]> es).
Proof.
  intros Hr Hc0. pose proof Hr as [Hs Hl Hh Hc Ht].
  assert (Hr' : ring_ok size ((head + 1) mod size) tail (count - 1)
    (<[Z.to_nat head := d]> es)).
  { constructor; rewrite ?length_insert; try lia.
    - by apply ring_index_range.
    - rewrite Zplus_mod_idemp_l, Ht. f_equal. lia. }
  split; [done|]. destruct (lookup_lt_is_Some_2 es (Z.to_nat head)) as [x Hx]; [lia|].
  exists x. split; [done|]. apply list_eq. intros [|k].
  - rewrite (ring_view_lookup _ _ _ _ _ _ Hr). rewrite decide_True by lia.
    simpl. rewrite Z.add_0_r, Z.mod_small by lia. done.
  - simpl. rewrite (ring_view_lookup _ _ _ _ _ _ Hr), (ring_view_lookup _ _ _ _ _ _ Hr').
    rewrite Zplus_mod_idemp_l. replace (head + 1 + Z.of_nat k) with (head + Z.of_nat (S k)) by lia.
    destruct (decide (Z.of_nat (S k) < count)); [|by rewrite decide_False by lia].
    rewrite decide_True by lia. symmetry. apply list_lookup_insert_ne.
    pose proof (ring_index_ne size head 0 (Z.of_nat (S k))) as Hne.
    rewrite Z.add_0_r, (Z.mod_small head) in Hne by lia.
    pose proof (ring_index_range size head (Z.of_nat (S k)) Hs). lia.
Qed.

Lemma ring_empty size d :
  0 < size ->
  ring_ok size 0 0 0 (replicate (Z.to_nat size) d) /\
  ring_view 0 0 (replicate (Z.to_nat size) d) = [].
Proof.
  intros Hs. split; [|done]. constructor; rewrite ?length_replicate; try lia.
  by rewrite Z.mod_0_l by lia.
Qed.

End Ring.
