(* ===== verification/Text.v ===== *)
(** * Text: the C++ string functions the assembler uses

    [std::string] as Rocq strings of 8-bit characters; [npos] is [None].
    [std::stoi] and [std::stoul] throw on text without digits and on values
    out of range. *)

From S2P Require Import Prelude Words.
From Stdlib Require Import Ascii.

Definition code (c : ascii) : Z := Z.of_N (N_of_ascii c).

(** [isspace] in the C locale. *)
Definition is_space (c : ascii) : bool := (code c =? 32) || ((9 <=? code c) && (code c <=? 13)).

(** Value of a digit in the given base. *)
Definition digit (base : Z) (c : ascii) : option Z :=
  let n := code c in
  let d := if (48 <=? n) && (n <=? 57) then n - 48
           else if (97 <=? n) && (n <=? 122) then n - 87
           else if (65 <=? n) && (n <=? 90) then n - 55
           else base in
  if d <? base then Some d else None.

Fixpoint skip_space (s : string) : string :=
  match s with
  | String c s' => if is_space c then skip_space s' else s
  | EmptyString => s
  end.

(** An optional sign: whether the number is negative, and what follows. *)
Definition sign (s : string) : bool * string :=
  match s with
  | String "+" s' => (false, s')
  | String "-" s' => (true, s')
  | _ => (false, s)
  end.

(** The longest run of digits; [acc] is the value so far, [None] before the
    first digit. *)
Fixpoint read_digits (base : Z) (acc : option Z) (s : string) : option Z :=
  match s with
  | String c s' =>
      match digit base c with
      | Some d => read_digits base (Some (default 0 acc * base + d)) s'
      | None => acc
      end
  | EmptyString => acc
  end.

(** [std::stoi(s)], base 10. *)
Definition stoi (s : string) : res Z :=
  let (neg, s') := sign (skip_space s) in
  match read_digits 10 None s' with
  | None => Stop (Uncaught "std::invalid_argument")
  | Some v =>
      let z := if neg : bool then - v else v in
      if (- 2 ^ 31 <=? z) && (z <? 2 ^ 31) then Ok z else Stop (Uncaught "std::out_of_range")
  end.

(** The base [strtoul] detects when it is given base 0, and what follows the
    prefix; a [0x] without a hexadecimal digit behind it is the number 0. *)
Definition detect_base (s : string) : Z * string :=
  match s with
  | String "0" (String x (String d s')) =>
      if ((code x =? 120) || (code x =? 88)) && bool_decide (is_Some (digit 16 d))
      then (16, String d s') else (8, s)
  | String "0" _ => (8, s)
  | _ => (10, s)
  end.

(** [std::stoul(s, nullptr, 0)], with a 64-bit [unsigned long]. *)
Definition stoul0 (s : string) : res Z :=
  let (neg, s') := sign (skip_space s) in
  let (base, s'') := detect_base s' in
  match read_digits base None s'' with
  | None => Stop (Uncaught "std::invalid_argument")
  | Some v =>
      if v <? 2 ^ 64 then Ok ((if neg : bool then - v else v) mod 2 ^ 64)
      else Stop (Uncaught "std::out_of_range")
  end.

(** [s.find(c)]. *)
Fixpoint find_char (c : ascii) (s : string) : option nat :=
  match s with
  | EmptyString => None
  | String c' s' => if bool_decide (c' = c) then Some O else option_map S (find_char c s')
  end.

Fixpoint drop_chars (n : nat) (s : string) : string :=
  match n, s with
  | S n', String _ s' => drop_chars n' s'
  | _, _ => s
  end.

Fixpoint take_chars (n : nat) (s : string) : string :=
  match n, s with
  | S n', String c s' => String c (take_chars n' s')
  | _, _ => EmptyString
  end.

(** [s.substr(pos)]: [pos] past the end throws. *)
Definition substr_from (s : string) (pos : nat) : res string :=
  if (String.length s <? pos)%nat then Stop (Uncaught "std::out_of_range") else Ok (drop_chars pos s).

(** [toks[0].back()] of a non-empty token. *)
Fixpoint last_char (s : string) : option ascii :=
  match s with
  | EmptyString => None
  | String c EmptyString => Some c
  | String _ s' => last_char s'
  end.

(** The character [\n]. *)
Definition newline : ascii := "010".

(** The line the text starts with, and the lines after it. *)
Fixpoint split_lines (s : string) : string * list string :=
  match s with
  | EmptyString => (EmptyString, [])
  | String c s' =>
      let (l, ls) := split_lines s' in
      if bool_decide (c = newline)
      then (EmptyString, match s' with EmptyString => [] | _ => l :: ls end)
      else (String c l, ls)
  end.

(** [while (std::getline(f, line)) raw.push_back(line);] *)
Definition getlines (s : string) : list string :=
  match s with
  | EmptyString => []
  | _ => let (l, ls) := split_lines s in l :: ls
  end.

(** ** Strings *)

(** Every character of a string satisfies a test. *)
Fixpoint all_chars (f : ascii -> bool) (s : string) : bool :=
  match s with
  | EmptyString => true
  | String c s' => f c && all_chars f s'
  end.

Lemma app_cons c s t : String c s +:+ t = String c (s +:+ t).
Proof. done. Qed.

Lemma empty_app s : EmptyString +:+ s = s.
Proof. done. Qed.

Lemma app_empty s : s +:+ EmptyString = s.
Proof. induction s as [|c s IH]; [done|]. by rewrite app_cons, IH. Qed.

#[global] Instance append_assoc : Assoc (=) String.append.
Proof. intros s t u. induction s as [|c s IH]; [done|]. by rewrite !app_cons, IH. Qed.

Lemma all_chars_app f s t : all_chars f (s +:+ t) = all_chars f s && all_chars f t.
Proof. induction s as [|c s IH]; [done|]. rewrite app_cons. cbn. by rewrite IH, andb_assoc. Qed.

Lemma length_append s t : String.length (s +:+ t) = (String.length s + String.length t)%nat.
Proof. induction s as [|c s IH]; [done|]. rewrite app_cons. cbn. by rewrite IH. Qed.

Lemma drop_chars_app s t : drop_chars (String.length s) (s +:+ t) = t.
Proof. induction s as [|c s IH]; [by destruct t|]. rewrite app_cons. done. Qed.
