(* ===== verification/Numerals.v ===== *)
(** * Numerals: integers as text

    The digits of a natural number in a base between 2 and 16, as
    [std::ostream] and the disassembler print them, and what the number
    readers of Text make of them. *)

From stdpp Require Import strings.
From Stdlib Require Import Ascii.
From S2P Require Import Prelude Words Text.

Local Open Scope Z_scope.

(** Digits past 9 are lower-case letters. *)
Definition digit_char (d : Z) : ascii :=
  ascii_of_N (Z.to_N (if d <? 10 then 48 + d else 87 + d)).

(** Digits of [n], most significant first, in front of [acc]. *)
Fixpoint digits (base : Z) (fuel : nat) (n : Z) (acc : string) : string :=
  let acc' := String (digit_char (n mod base)) acc in
  if n <? base then acc'
  else match fuel with O => acc' | S fuel' => digits base fuel' (n / base) acc' end.

(** A number has at most one digit more than its binary logarithm. *)
Definition show_nat (base n : Z) : string := digits base (Z.to_nat (Z.log2 n)) n EmptyString.

(** ** Single digits *)

Lemma hex_digit_cases (P : Z -> Prop) :
  Forall P [0; 1; 2; 3; 4; 5; 6; 7; 8; 9; 10; 11; 12; 13; 14; 15] ->
  forall d, 0 <= d < 16 -> P d.
Proof.
  intros HP d Hd. rewrite Forall_forall in HP. apply HP.
  assert (d = 0 \/ d = 1 \/ d = 2 \/ d = 3 \/ d = 4 \/ d = 5 \/ d = 6 \/ d = 7 \/ d = 8 \/
    d = 9 \/ d = 10 \/ d = 11 \/ d = 12 \/ d = 13 \/ d = 14 \/ d = 15) as Hc by lia.
  rewrite !elem_of_cons. tauto.
Qed.

Lemma digit_digit_char base d :
  base <= 16 -> 0 <= d < base -> digit base (digit_char d) = Some d.
Proof.
  intros Hb Hd.
  apply (hex_digit_cases (fun d => forall b, d < b -> digit b (digit_char d) = Some d)); [|lia..].
  repeat constructor; intros b Hlt; unfold digit; simpl; by rewrite (proj2 (Z.ltb_lt _ _)) by exact Hlt.
Qed.

(** ** Digit strings *)

(** Signed decimal numbers, as [os << int] prints them. *)
Definition print_nat (n : Z) : string := show_nat 10 n.

Definition print_int (z : Z) : string :=
  if z <? 0 then String "-" (print_nat (- z)) else print_nat z.

Section Base.
Context (base : Z) (Hbase : 2 <= base <= 16).

Lemma digits_small fuel n acc :
  0 <= n < base -> digits base fuel n acc = String (digit_char n) acc.
Proof. intros Hn. destruct fuel; cbn; rewrite Z.mod_small, (proj2 (Z.ltb_lt n base)) by lia; done. Qed.

Lemma digits_step fuel n acc :
  base <= n ->
  digits base (S fuel) n acc = digits base fuel (n / base) (String (digit_char (n mod base)) acc).
Proof. intros Hn. cbn. by rewrite (proj2 (Z.ltb_ge n base)) by lia. Qed.

Lemma digits_quotient (fuel : nat) n : base <= n < base ^ (Z.of_nat (S fuel) + 1) ->
  0 < n / base < base ^ (Z.of_nat fuel + 1).
Proof.
  intros Hn. split; [apply Z.div_str_pos; lia|]. apply Z.div_lt_upper_bound; [lia|].
  replace (base * base ^ (Z.of_nat fuel + 1)) with (base ^ (Z.of_nat (S fuel) + 1)); [lia|].
  rewrite <- Z.pow_succ_r by lia. f_equal. lia.
Qed.

(** Induction over the digits, least significant first. *)
Lemma digits_ind (P : nat -> Z -> Prop) :
  (forall fuel n, 0 <= n < base -> P fuel n) ->
  (forall fuel n, base <= n -> 0 < n / base < base ^ (Z.of_nat fuel + 1) ->
     P fuel (n / base) -> P (S fuel) n) ->
  forall fuel n, 0 <= n < base ^ (Z.of_nat fuel + 1) -> P fuel n.
Proof.
  intros Hsmall Hstep. induction fuel as [|fuel IH]; intros n Hn;
    (destruct (Z.lt_ge_cases n base) as [Hlt|Hge]; [apply Hsmall; lia|]).
  - exfalso. cbn in Hn. lia.
  - pose proof (digits_quotient fuel n (conj Hge (proj2 Hn))).
    apply Hstep; [done|done|]. apply IH. lia.
Qed.

(** Reading the digits back. *)
Lemma read_digits_acc fuel n acc :
  0 <= n < base ^ (Z.of_nat fuel + 1) ->
  read_digits base None (digits base fuel n acc) = read_digits base (Some n) acc.
Proof.
  intros Hn. revert fuel n Hn acc.
  apply (digits_ind (fun fuel n => forall acc, read_digits base None (digits base fuel n acc) =
    read_digits base (Some n) acc)).
  - intros fuel n Hn acc. rewrite digits_small by done. cbn [read_digits].
    by rewrite digit_digit_char by lia.
  - intros fuel n Hge Hq IH acc. rewrite digits_step, IH by done. cbn [read_digits].
    rewrite digit_digit_char by (lia || apply Z.mod_pos_bound; lia). cbn [default].
    f_equal. f_equal. pose proof (Z.div_mod n base ltac:(lia)). unfold id. lia.
Qed.

(** The first character is a digit, and 0 only for 0. *)
Lemma digits_first fuel n acc :
  0 <= n < base ^ (Z.of_nat fuel + 1) ->
  exists d s, digits base fuel n acc = String (digit_char d) s /\ 0 <= d < base /\ (d = 0 -> n = 0).
Proof.
  intros Hn. revert fuel n Hn acc.
  apply (digits_ind (fun fuel n => forall acc, exists d s,
    digits base fuel n acc = String (digit_char d) s /\ 0 <= d < base /\ (d = 0 -> n = 0))).
  - intros fuel n Hn acc. rewrite digits_small by done. exists n, acc. split; [done|]. split; [done|tauto].
  - intros fuel n Hge Hq IH acc. rewrite digits_step by done.
    destruct (IH (String (digit_char (n mod base)) acc)) as (d & s & E & Hd & H0).
    exists d, s. split; [done|]. split; [done|]. intros E0. specialize (H0 E0). lia.
Qed.

(** Below [base ^ k] there are at most [k] digits. *)
Lemma digits_length fuel n acc k :
  0 <= n < base ^ Z.of_nat (S k) ->
  (String.length (digits base fuel n acc) <= S k + String.length acc)%nat.
Proof.
  revert n acc k. induction fuel as [|fuel IH]; intros n acc k Hn; cbn [digits].
  - destruct (n <? base); cbn; lia.
  - destruct (Z.ltb_spec n base); [cbn; lia|]. destruct k as [|k].
    + exfalso. change (Z.of_nat 1) with 1 in Hn. lia.
    + assert (0 <= n / base < base ^ Z.of_nat (S k)) as Hq.
      { split; [apply Z.div_pos; lia|]. apply Z.div_lt_upper_bound; [lia|].
        rewrite <- Z.pow_succ_r by lia. replace (Z.succ (Z.of_nat (S k))) with (Z.of_nat (S (S k))) by lia. lia. }
      specialize (IH (n / base) (String (digit_char (n mod base)) acc) k Hq). cbn in IH |- *. lia.
Qed.

Lemma log2_fuel n : 0 <= n -> 0 <= n < base ^ (Z.of_nat (Z.to_nat (Z.log2 n)) + 1).
Proof.
  intros Hn. split; [done|]. rewrite Z2Nat.id by apply Z.log2_nonneg.
  destruct (Z.eq_dec n 0) as [->|]; [cbn; lia|].
  apply Z.lt_le_trans with (2 ^ (Z.log2 n + 1)).
  - pose proof (Z.log2_spec n ltac:(lia)). rewrite Z.add_1_r. lia.
  - apply Z.pow_le_mono_l. lia.
Qed.

(** Text behind the digits is not looked at when it starts with something
    else. *)
Definition stops (s : string) : Prop :=
  match s with String c _ => digit base c = None | EmptyString => True end.

Lemma read_stops v s : stops s -> read_digits base (Some v) s = Some v.
Proof. destruct s as [|c s]; [done|]. cbn. by intros ->. Qed.

Lemma digits_app fuel n acc s : digits base fuel n acc +:+ s = digits base fuel n (acc +:+ s).
Proof.
  revert n acc. induction fuel as [|fuel IH]; intros n acc; cbn [digits]; destruct (n <? base); done.
Qed.

Lemma read_show_nat n s : 0 <= n -> stops s -> read_digits base None (show_nat base n +:+ s) = Some n.
Proof.
  intros Hn Hs. unfold show_nat. rewrite digits_app, read_digits_acc by by apply log2_fuel.
  by apply read_stops.
Qed.

(** The same behind a zero. *)
Lemma read_show_nat_zero n s :
  0 <= n -> stops s -> read_digits base (Some 0) (show_nat base n +:+ s) = Some n.
Proof.
  intros Hn Hs. rewrite <- (read_show_nat n s Hn Hs). unfold show_nat.
  destruct (digits_first (Z.to_nat (Z.log2 n)) n EmptyString (log2_fuel n Hn)) as (d & t & -> & Hd & _).
  rewrite app_cons. cbn [read_digits]. by rewrite digit_digit_char by lia.
Qed.

Lemma show_nat_length n k : 0 <= n < base ^ Z.of_nat (S k) -> (String.length (show_nat base n) <= S k)%nat.
Proof. intros Hn. unfold show_nat. pose proof (digits_length (Z.to_nat (Z.log2 n)) n EmptyString k Hn). cbn in *. lia. Qed.

(** The characters of a number are digits. *)
Lemma digits_chars (f : ascii -> bool) fuel n acc :
  (forall d, 0 <= d < base -> f (digit_char d) = true) ->
  all_chars f acc = true -> all_chars f (digits base fuel n acc) = true.
Proof.
  intros Hf. revert n acc. induction fuel as [|fuel IH]; intros n acc Ha;
    (assert (Hc : all_chars f (String (digit_char (n mod base)) acc) = true)
      by (cbn; rewrite Ha, Hf by (apply Z.mod_pos_bound; lia); done));
    cbn [digits]; destruct (n <? base); auto.
Qed.

Lemma show_nat_chars f n :
  (forall d, 0 <= d < base -> f (digit_char d) = true) -> all_chars f (show_nat base n) = true.
Proof. intros Hf. apply digits_chars; [exact Hf|reflexivity]. Qed.

End Base.

(** ** Decimal numbers *)

Lemma print_nat_first n :
  0 <= n -> exists d s, print_nat n = String (digit_char d) s /\ 0 <= d < 10 /\ (d = 0 -> n = 0).
Proof. intros Hn. apply digits_first; [lia|]. apply log2_fuel; lia. Qed.

Lemma read_print_nat n : 0 <= n -> read_digits 10 None (print_nat n) = Some n.
Proof. intros Hn. rewrite <- (app_empty (print_nat n)). by apply read_show_nat; [lia| |]. Qed.

Lemma print_int_chars f z :
  (forall d, 0 <= d < 10 -> f (digit_char d) = true) -> f "-"%char = true ->
  all_chars f (print_int z) = true.
Proof.
  intros Hf Hm. unfold print_int, print_nat.
  destruct (z <? 0); cbn [all_chars]; rewrite ?Hm; cbn [andb]; apply show_nat_chars; (lia || done).
Qed.

Lemma print_int_nonempty z : print_int z <> EmptyString.
Proof.
  unfold print_int. destruct (Z.ltb_spec z 0); [done|].
  by destruct (print_nat_first z) as (d & s & -> & _).
Qed.
