(* ===== verification/OStream.v ===== *)
(** * std::ostream: formatted output

    A stream is its format state and the text written so far. [std::hex],
    [std::dec] and [std::setfill] stay in force until they are changed;
    [std::setw] holds for the next inserted value only. Adjustment and
    precision are the defaults everywhere: padding on the left, six
    significant digits. *)

From stdpp Require Import strings.
From Stdlib Require Export Ascii.
From Stdlib Require Import SpecFloat.
From S2P Require Import Prelude Words Float32 Text Numerals.

Local Open Scope Z_scope.

Fixpoint repeat_char (n : nat) (c : ascii) : string :=
  match n with O => EmptyString | S n' => String c (repeat_char n' c) end.

(** [s] brought to width [w] with [c] on the left. *)
Definition pad (w : Z) (c : ascii) (s : string) : string :=
  repeat_char (Z.to_nat (w - Z.of_nat (String.length s))) c +:+ s.

(** ** Floating point, the conversion [%g] with six digits *)

(** [n / d] rounded to nearest, ties to even. *)
Definition div_even (n d : Z) : Z :=
  let q := n / d in
  match Z.compare (2 * (n mod d)) d with
  | Lt => q
  | Gt => q + 1
  | Eq => if Z.even q then q else q + 1
  end.

(** [n / d * 10 ^ k] as a fraction. *)
Definition scale10 (n d k : Z) : Z * Z :=
  if 0 <=? k then (n * 10 ^ k, d) else (n, d * 10 ^ (- k)).

(** The least [x] from [x0] on with [n / d < 10 ^ (x + 1)]. *)
Fixpoint exponent10 (fuel : nat) (x0 n d : Z) : Z :=
  match fuel with
  | O => x0
  | S fuel' =>
      let (n', d') := scale10 n d (- (x0 + 1)) in
      if n' <? d' then x0 else exponent10 fuel' (x0 + 1) n d
  end.

(** [n / d], between 10^-46 and 10^39, as [q * 10 ^ (x - 5)] with six digits
    in [q]. *)
Definition scientific (n d : Z) : Z * Z :=
  let x := exponent10 90 (-46) n d in
  let (n', d') := scale10 n d (5 - x) in
  let q := div_even n' d' in
  if q =? 10 ^ 6 then (10 ^ 5, x + 1) else (q, x).

Definition all_zeros (s : string) : bool := all_chars (fun c => bool_decide (c = "0"%char)) s.

(** Without the zeros at the end. *)
Fixpoint strip_zeros (s : string) : string :=
  match s with
  | EmptyString => EmptyString
  | String c s' => if all_zeros s then EmptyString else String c (strip_zeros s')
  end.

(** A point and the decimals, when there are any. *)
Definition fraction (s : string) : string :=
  match strip_zeros s with EmptyString => EmptyString | t => String "." t end.

(** Sign and at least two digits. *)
Definition show_exponent (x : Z) : string :=
  String "e" (String (if x <? 0 then "-"%char else "+"%char) (pad 2 "0" (print_nat (Z.abs x)))).

Definition show_scientific (q x : Z) : string :=
  let s := print_nat q in
  if (-4 <=? x) && (x <? 6) then
    if 0 <=? x then
      take_chars (Z.to_nat (x + 1)) s +:+ fraction (drop_chars (Z.to_nat (x + 1)) s)
    else String "0" (fraction (repeat_char (Z.to_nat (- x - 1)) "0" +:+ s))
  else take_chars 1 s +:+ fraction (drop_chars 1 s) +:+ show_exponent x.

Definition sign_text (neg : bool) : string := if neg then "-" else EmptyString.

(** A binary floating-point number [m * 2 ^ e] as a fraction. *)
Definition fraction_of (m : positive) (e : Z) : Z * Z :=
  if 0 <=? e then (Zpos m * 2 ^ e, 1) else (Zpos m, 2 ^ (- e)).

(** The sign of a NaN is printed, as the C library does. *)
Definition show_float (f : float) : string :=
  match value f with
  | S754_nan => sign_text (sign_field (repr f)) +:+ "nan"
  | S754_infinity s => sign_text s +:+ "inf"
  | S754_zero s => sign_text s +:+ "0"
  | S754_finite s m e =>
      let (n, d) := fraction_of m e in
      let (q, x) := scientific n d in
      sign_text s +:+ show_scientific q x
  end.

(** ** Streams *)

Record ostream : Type := mkOstream {
  os_hex : bool;
  os_width : Z;
  os_fill : ascii;
  os_text : string
}.

(** The right-hand sides of [<<]: text, [int], [uint32_t] or [size_t],
    [float], and the manipulators. *)
Inductive Arg : Type :=
| Str (s : string)
| Int (z : Z)
| Unsigned (n : Z)
| Float (f : float)
| setw (n : Z)
| setfill (c : ascii)
| hex
| dec.

(** A formatted output function: pad, write, and forget the width. *)
Definition os_insert (os : ostream) (s : string) : ostream :=
  mkOstream (os_hex os) 0 (os_fill os) (os_text os +:+ pad (os_width os) (os_fill os) s).

(** [os << x]; in hexadecimal an [int] is converted to [unsigned]. *)
Definition put (os : ostream) (x : Arg) : ostream :=
  match x with
  | Str s => os_insert os s
  | Int z => os_insert os (if os_hex os then show_nat 16 (u32 z) else print_int z)
  | Unsigned n => os_insert os (show_nat (if os_hex os then 16 else 10) n)
  | Float f => os_insert os (show_float f)
  | setw n => mkOstream (os_hex os) n (os_fill os) (os_text os)
  | setfill c => mkOstream (os_hex os) (os_width os) c (os_text os)
  | hex => mkOstream true (os_width os) (os_fill os) (os_text os)
  | dec => mkOstream false (os_width os) (os_fill os) (os_text os)
  end.

Coercion Str : string >-> Arg.
Coercion Int : Z >-> Arg.

Declare Scope ostream_scope.
Delimit Scope ostream_scope with os.
Notation "os << x" := (put os x) (at level 50, left associativity) : ostream_scope.

(** [os << ] a line break. *)
Definition endl : Arg := Str (String newline EmptyString).

(** A new stream that already holds [t]. *)
Definition fresh_os (t : string) : ostream := mkOstream false 0 " " t.

(** ** Files *)

(** What the program sees of the file system: the text of the files it can
    read, the files it can write, the directories it can make. *)
Record FileSystem : Type := mkFileSystem {
  readable : string -> option string;
  writable : string -> bool;
  makeable : string -> bool
}.

(** [std::ofstream]; [None] when it is not open. *)
Definition ofstream : Type := option ostream.

(** [open(path, out | trunc)] *)
Definition file_open (fs : FileSystem) (path : string) : ofstream :=
  if writable fs path then Some (fresh_os EmptyString) else None.

Definition is_open (f : ofstream) : bool := match f with Some _ => true | None => false end.

(** Output through a file stream: the code runs all the same when the file is
    not open, and leaves nothing. *)
Definition write_to (f : ofstream) (w : ostream -> res ostream) : res ofstream :=
  match f with
  | Some os => let! os' := w os in Ok (Some os')
  | None => let! _ := w (fresh_os EmptyString) in Ok None
  end.

(** [if (log_.is_open()) dump(log_, cycle);] *)
Definition log_to (f : ofstream) (w : ostream -> res ostream) : res ofstream :=
  if is_open f then write_to f w else Ok f.
