(* ===== verification/Assembler.v ===== *)
(** * sim.cpp: the assembler

    From the lines of a source file to the decoded program. An exception that
    no caller catches and an access past the last token stop the program. *)

From S2P Require Import Prelude Words Config Instruction Text Numerals.
From stdpp Require Import gmap strings.
From Stdlib Require Import Ascii.

(** ** Tokens *)

(** [s = s.substr(0, s.find('#'))] and commas become spaces. *)
Fixpoint strip (s : string) : string :=
  match s with
  | EmptyString => EmptyString
  | String c s' =>
      if bool_decide (c = "#"%char) then EmptyString
      else String (if bool_decide (c = ","%char) then " "%char else c) (strip s')
  end.

(** A token, unless it is empty, in front of the others. *)
Definition push (w : string) (ws : list string) : list string :=
  match w with EmptyString => ws | _ => w :: ws end.

(** The characters before the first space, and the tokens after it. *)
Fixpoint words (s : string) : string * list string :=
  match s with
  | EmptyString => (EmptyString, [])
  | String c s' =>
      let (w, ws) := words s' in
      if is_space c then (EmptyString, push w ws) else (String c w, ws)
  end.

Definition tokenize (line : string) : list string :=
  let (w, ws) := words (strip line) in push w ws.

(** ** Operands *)

(** [toks[i]] *)
Definition tok (toks : list string) (i : nat) : res string :=
  match toks !! i with Some t => Ok t | None => Stop OutOfBounds end.

Definition preg (s : string) : res Z :=
  let! t := substr_from s 1 in stoi t.

(** [parse_mem]: the offset and the base register. Without parentheses [npos]
    arithmetic makes the whole token the register. *)
Definition parse_mem (s : string) : res (Z * Z) :=
  match find_char "("%char s with
  | None =>
      let! im := stoi s in
      let! base := preg s in
      Ok (im, base)
  | Some lp =>
      let! im := stoi (take_chars lp s) in
      let rest := drop_chars (S lp) s in
      let! base := preg (match find_char ")"%char rest with
                         | Some n => take_chars n rest
                         | None => rest
                         end) in
      Ok (im, base)
  end.

Definition Labels := gmap string Z.

(** An offset that [stoi] reads, or a label; an unknown label gives 0. *)
Definition branch_offset (s : string) (labels : Labels) (cur_pc : Z) : Z :=
  match stoi s with
  | Ok z => z
  | Stop _ =>
      match labels !! s with
      | None => 0
      | Some target => sub32 target (s32 cur_pc)
      end
  end.

(** ** The two passes *)

(** [toks[0].back() == ':'] on the tokens of a line that has some. *)
Definition is_label (toks : list string) : bool :=
  match toks with
  | t :: _ => bool_decide (last_char t = Some ":"%char)
  | [] => false
  end.

(** First pass: the label table and the word counter. *)
Fixpoint collect_labels (raw : list string) (labels : Labels) (wpc : Z) : Labels :=
  match raw with
  | [] => labels
  | l :: raw' =>
      match tokenize l with
      | [] => collect_labels raw' labels wpc
      | t :: ts =>
          if is_label (t :: ts)
          then collect_labels raw' (<[take_chars (String.length t - 1) t := (wpc * 4)%Z]> labels) wpc
          else collect_labels raw' labels (wpc + 1)
      end
  end.

(** The formats of the second pass. *)
Definition instr (o : Opcode) (rd rs1 rs2 im : Z) (dfp fp1 fp2 : bool) (pc : Z) : Instruction :=
  mkInstruction o rd rs1 rs2 im dfp fp1 fp2 pc.

(** [rd, rs1, rs2] *)
Definition reg3 (o : Opcode) (fp : bool) (toks : list string) (pc : Z) : res Instruction :=
  let! t1 := tok toks 1 in let! rd := preg t1 in
  let! t2 := tok toks 2 in let! rs1 := preg t2 in
  let! t3 := tok toks 3 in let! rs2 := preg t3 in
  Ok (instr o rd rs1 rs2 0 fp fp fp pc).

(** [rd, rs1, imm] *)
Definition reg2_imm (o : Opcode) (toks : list string) (pc : Z) : res Instruction :=
  let! t1 := tok toks 1 in let! rd := preg t1 in
  let! t2 := tok toks 2 in let! rs1 := preg t2 in
  let! t3 := tok toks 3 in let! im := stoi t3 in
  Ok (instr o rd rs1 (-1) im false false false pc).

(** [rd, imm(rs1)] *)
Definition load_fmt (o : Opcode) (fp : bool) (toks : list string) (pc : Z) : res Instruction :=
  let! t1 := tok toks 1 in let! rd := preg t1 in
  let! t2 := tok toks 2 in let! (im, rs1) := parse_mem t2 in
  Ok (instr o rd rs1 (-1) im fp false false pc).

(** [rs2, imm(rs1)] *)
Definition store_fmt (o : Opcode) (fp : bool) (toks : list string) (pc : Z) : res Instruction :=
  let! t1 := tok toks 1 in let! rs2 := preg t1 in
  let! t2 := tok toks 2 in let! (im, rs1) := parse_mem t2 in
  Ok (instr o (-1) rs1 rs2 im false false fp pc).

(** [rs1, rs2, offset-or-label] *)
Definition branch_fmt (o : Opcode) (labels : Labels) (toks : list string) (pc : Z)
  : res Instruction :=
  let! t1 := tok toks 1 in let! rs1 := preg t1 in
  let! t2 := tok toks 2 in let! rs2 := preg t2 in
  let! t3 := tok toks 3 in
  Ok (instr o (-1) rs1 rs2 (branch_offset t3 labels pc) false false false pc).

(** [rd, rs1] of the conversions *)
Definition convert_fmt (o : Opcode) (dfp fp1 : bool) (toks : list string) (pc : Z)
  : res Instruction :=
  let! t1 := tok toks 1 in let! rd := preg t1 in
  let! t2 := tok toks 2 in let! rs1 := preg t2 in
  Ok (instr o rd rs1 (-1) 0 dfp fp1 false pc).

Definition lui_fmt (toks : list string) (pc : Z) : res Instruction :=
  let! t1 := tok toks 1 in let! rd := preg t1 in
  let! t2 := tok toks 2 in let! v := stoul0 t2 in
  Ok (instr LUI rd (-1) (-1) (s32 v) false false false pc).

Definition jal_fmt (labels : Labels) (toks : list string) (pc : Z) : res Instruction :=
  let! t1 := tok toks 1 in let! rd := preg t1 in
  let! t2 := tok toks 2 in
  Ok (instr JAL rd (-1) (-1) (branch_offset t2 labels pc) false false false pc).

(** [JALR rd, imm(rs1)] or [JALR rd, rs1, imm] *)
Definition jalr_fmt (toks : list string) (pc : Z) : res Instruction :=
  let! t1 := tok toks 1 in let! rd := preg t1 in
  let! t2 := tok toks 2 in
  match find_char "("%char t2 with
  | Some _ =>
      let! (im, rs1) := parse_mem t2 in
      Ok (instr JALR rd rs1 (-1) im false false false pc)
  | None =>
      let! rs1 := preg t2 in
      let! t3 := tok toks 3 in let! im := stoi t3 in
      Ok (instr JALR rd rs1 (-1) im false false false pc)
  end.

(** The chain of comparisons on the mnemonic; an unknown one leaves the
    default instruction, a NOP. *)
Definition decode (labels : Labels) (mn : string) (toks : list string) (pc : Z)
  : res Instruction :=
  if bool_decide (mn = "ADD") then reg3 ADD false toks pc
  else if bool_decide (mn = "SUB") then reg3 SUB false toks pc
  else if bool_decide (mn = "AND") then reg3 AND false toks pc
  else if bool_decide (mn = "OR") then reg3 OR false toks pc
  else if bool_decide (mn = "XOR") then reg3 XOR false toks pc
  else if bool_decide (mn = "SLL") then reg3 SLL false toks pc
  else if bool_decide (mn = "SRL") then reg3 SRL false toks pc
  else if bool_decide (mn = "SRA") then reg3 SRA false toks pc
  else if bool_decide (mn = "ADDI") then reg2_imm ADDI toks pc
  else if bool_decide (mn = "LUI") then lui_fmt toks pc
  else if bool_decide (mn = "ANDI") then reg2_imm ANDI toks pc
  else if bool_decide (mn = "ORI") then reg2_imm ORI toks pc
  else if bool_decide (mn = "XORI") then reg2_imm XORI toks pc
  else if bool_decide (mn = "SLLI") then reg2_imm SLLI toks pc
  else if bool_decide (mn = "SRLI") then reg2_imm SRLI toks pc
  else if bool_decide (mn = "LW") then load_fmt LW false toks pc
  else if bool_decide (mn = "FLW") then load_fmt FLW true toks pc
  else if bool_decide (mn = "SW") then store_fmt SW false toks pc
  else if bool_decide (mn = "FSW") then store_fmt FSW true toks pc
  else if bool_decide (mn = "BEQ") then branch_fmt BEQ labels toks pc
  else if bool_decide (mn = "BNE") then branch_fmt BNE labels toks pc
  else if bool_decide (mn = "BLT") then branch_fmt BLT labels toks pc
  else if bool_decide (mn = "BGE") then branch_fmt BGE labels toks pc
  else if bool_decide (mn = "JAL") then jal_fmt labels toks pc
  else if bool_decide (mn = "JALR") then jalr_fmt toks pc
  else if bool_decide (mn = "FADD.S") then reg3 FADD_S true toks pc
  else if bool_decide (mn = "FSUB.S") then reg3 FSUB_S true toks pc
  else if bool_decide (mn = "FMUL.S") then reg3 FMUL_S true toks pc
  else if bool_decide (mn = "FDIV.S") then reg3 FDIV_S true toks pc
  else if bool_decide (mn = "FCVT.W.S") then convert_fmt FCVT_W_S false true toks pc
  else if bool_decide (mn = "FCVT.S.W") then convert_fmt FCVT_S_W true false toks pc
  else if bool_decide (mn = "NOP") then Ok (set_pc default_instruction pc)
  else if bool_decide (mn = "HALT") then Ok (instr HALT (-1) (-1) (-1) 0 false false false pc)
  else Ok (set_pc default_instruction pc).

(** Second pass. *)
Fixpoint decode_lines (labels : Labels) (raw : list string) (wpc : Z) : res (list Instruction) :=
  match raw with
  | [] => Ok []
  | l :: raw' =>
      match tokenize l with
      | [] => decode_lines labels raw' wpc
      | t :: ts =>
          if is_label (t :: ts) then decode_lines labels raw' wpc
          else
            let! i := decode labels t (t :: ts) (u32 (wpc * 4)) in
            let! instrs := decode_lines labels raw' (wpc + 1) in
            Ok (i :: instrs)
      end
  end.

(** [parse_program] on the lines of the file. *)
Definition parse_program (raw : list string) : res (list Instruction) :=
  decode_lines (collect_labels raw ∅ 0) raw 0.

(** ** What the second pass writes to [std::cerr] *)

(** The message of [branch_offset]. *)
Definition label_message (s : string) (labels : Labels) : string :=
  match stoi s, labels !! s with
  | Stop _, None => "Unknown label: " +:+ s +:+ String newline EmptyString
  | _, _ => EmptyString
  end.

Definition mnemonics : list string :=
  ["ADD"; "SUB"; "AND"; "OR"; "XOR"; "SLL"; "SRL"; "SRA"; "ADDI"; "LUI"; "ANDI"; "ORI"; "XORI";
   "SLLI"; "SRLI"; "LW"; "FLW"; "SW"; "FSW"; "BEQ"; "BNE"; "BLT"; "BGE"; "JAL"; "JALR"; "FADD.S";
   "FSUB.S"; "FMUL.S"; "FDIV.S"; "FCVT.W.S"; "FCVT.S.W"; "NOP"; "HALT"].

(** The messages of one line: the label of a branch or jump, or the mnemonic. *)
Definition line_messages (labels : Labels) (toks : list string) (wpc : Z) : string :=
  match toks with
  | [] => EmptyString
  | mn :: _ =>
      if bool_decide (mn ∈ ["BEQ"; "BNE"; "BLT"; "BGE"]) then
        match toks !! 3%nat with Some t => label_message t labels | None => EmptyString end
      else if bool_decide (mn = "JAL") then
        match toks !! 2%nat with Some t => label_message t labels | None => EmptyString end
      else if bool_decide (mn ∈ mnemonics) then EmptyString
      else "Unknown opcode '" +:+ mn +:+ "' at word " +:+ print_int wpc
             +:+ String newline EmptyString
  end.

Fixpoint messages (labels : Labels) (raw : list string) (wpc : Z) : string :=
  match raw with
  | [] => EmptyString
  | l :: raw' =>
      match tokenize l with
      | [] => messages labels raw' wpc
      | t :: ts =>
          if is_label (t :: ts) then messages labels raw' wpc
          else line_messages labels (t :: ts) wpc +:+ messages labels raw' (wpc + 1)
      end
  end.

(** Everything [parse_program] writes, when it returns. *)
Definition parse_messages (raw : list string) : string :=
  messages (collect_labels raw ∅ 0) raw 0.
