(* ===== verification/RegisterFile.v ===== *)
(** * regfile.h, regfile.cpp: the architectural register file *)

From S2P Require Import Prelude Words Config Float32 OStream.

(** [int_regs_] holds [int32_t] values, [fp_regs_] floats. *)
Record RegisterFile : Type := mkRegisterFile {
  int_regs_ : list Z;
  fp_regs_ : list float
}.

#[global] Instance RegisterFile_eq_dec : EqDecision RegisterFile.
Proof. solve_decision. Defined.

(** The constructor: every register zero. *)
Definition init : RegisterFile :=
  mkRegisterFile (replicate (Z.to_nat NUM_INT_REGS) 0)
                 (replicate (Z.to_nat NUM_FP_REGS) (F32 0)).

Definition read_int (rf : RegisterFile) (idx : Z) : res Z :=
  let! _ := require "RegisterFile::read_int" ((0 <=? idx) && (idx <? NUM_INT_REGS)) in
  vec_get (int_regs_ rf) idx.

Definition write_int (rf : RegisterFile) (idx : Z) (val : Z) : res RegisterFile :=
  let! _ := require "RegisterFile::write_int" ((0 <=? idx) && (idx <? NUM_INT_REGS)) in
  if idx =? 0 then Ok rf
  else let! regs := vec_set (int_regs_ rf) idx val in
       Ok (mkRegisterFile regs (fp_regs_ rf)).

Definition read_fp (rf : RegisterFile) (idx : Z) : res float :=
  let! _ := require "RegisterFile::read_fp" ((0 <=? idx) && (idx <? NUM_FP_REGS)) in
  vec_get (fp_regs_ rf) idx.

Definition write_fp (rf : RegisterFile) (idx : Z) (val : float) : res RegisterFile :=
  let! _ := require "RegisterFile::write_fp" ((0 <=? idx) && (idx <? NUM_FP_REGS)) in
  let! regs := vec_set (fp_regs_ rf) idx val in
  Ok (mkRegisterFile (int_regs_ rf) regs).

(** ** Output *)

(** [for (i = 0; i < NUM_INT_REGS; ++i) os << ] and what it prints for [i]. *)
Definition dump_int (rf : RegisterFile) (os : ostream) (i : nat) : res ostream :=
  let! v := vec_get (int_regs_ rf) (Z.of_nat i) in
  Ok (os << " x" << Z.of_nat i << "=" << v)%os.

Definition dump_fp (rf : RegisterFile) (os : ostream) (i : nat) : res ostream :=
  let! f := vec_get (fp_regs_ rf) (Z.of_nat i) in
  Ok (os << " f" << Z.of_nat i << "=" << Float f)%os.

Definition dump (rf : RegisterFile) (os : ostream) (cycle : Z) : res ostream :=
  let os := (os << "[RF   cycle=" << setw 4 << cycle << "]" << endl << "  INT:")%os in
  let! os := foldM (dump_int rf) os (seq 0 (Z.to_nat NUM_INT_REGS)) in
  let os := (os << endl << "  FP: ")%os in
  let! os := foldM (dump_fp rf) os (seq 0 (Z.to_nat NUM_FP_REGS)) in
  Ok (os << endl)%os.

Definition open_log (fs : FileSystem) (path : string) : ofstream := file_open fs path.

Definition log_cycle (log_ : ofstream) (rf : RegisterFile) (cycle : Z) : res ofstream :=
  log_to log_ (fun os => dump rf os cycle).

(** ** Well-formedness *)

(** Both banks have their declared size, every word is in range and x0 is 0. *)
Record rf_ok (rf : RegisterFile) : Prop := {
  rf_int_len : len (int_regs_ rf) = NUM_INT_REGS;
  rf_fp_len : len (fp_regs_ rf) = NUM_FP_REGS;
  rf_int_range : Forall is_s32 (int_regs_ rf);
  rf_fp_range : Forall (fun f => is_u32 (repr f)) (fp_regs_ rf);
  rf_x0 : int_regs_ rf !! 0%nat = Some 0
}.

(** A register index the instruction set can name. *)
Definition reg_index (r : Z) : Prop := 0 <= r < 32.

(** The bits a source operand reads, as the dispatch stage sees them. *)
Definition read_bits (rf : RegisterFile) (r : Z) (fp : bool) : res Z :=
  if fp then let! f := read_fp rf r in Ok (float_to_bits f)
  else let! v := read_int rf r in Ok (u32 v).

(** Writing the bits [v] to the register the flag selects, as commit does. *)
Definition write_bits (rf : RegisterFile) (r : Z) (fp : bool) (v : Z) : res RegisterFile :=
  if fp then write_fp rf r (bits_to_float v) else write_int rf r (s32 v).

Lemma require_index site idx n : 0 <= idx < n -> require site ((0 <=? idx) && (idx <? n)) = Ok tt.
Proof.
  intros. unfold require. by rewrite (proj2 (Z.leb_le _ _)), (proj2 (Z.ltb_lt _ _)) by lia.
Qed.

Lemma require_index_inv site idx n u :
  require site ((0 <=? idx) && (idx <? n)) = Ok u -> 0 <= idx < n.
Proof. intros [?%Z.leb_le ?%Z.ltb_lt]%require_Ok%andb_true_iff. lia. Qed.

Lemma rf_init_ok : rf_ok init.
Proof.
  constructor; try done; apply Forall_replicate; unfold is_s32, is_u32; simpl; lia.
Qed.

Lemma vec_set_in_range {A} (l : list A) i x :
  0 <= i < len l -> vec_set l i x = Ok (<[Z.to_nat i := x]> l).
Proof. intros. apply vec_set_Ok. split; [lia|done]. Qed.

Lemma vec_get_insert {A} (l : list A) i j x :
  0 <= i < len l -> 0 <= j ->
  vec_get (<[Z.to_nat i := x]> l) j = if i =? j then Ok x else vec_get l j.
Proof.
  intros Hi Hj. unfold vec_get. destruct (Z.ltb_spec j 0); [lia|].
  destruct (Z.eqb_spec i j) as [->|Hne].
  - by rewrite list_lookup_insert_eq by lia.
  - by rewrite list_lookup_insert_ne by lia.
Qed.

(** Reading is total on register indices. *)
Lemma read_bits_total rf r fp : rf_ok rf -> reg_index r -> exists v, read_bits rf r fp = Ok v.
Proof.
  intros [Hi Hf _ _ _] Hr. unfold reg_index in Hr. unfold read_bits, read_fp, read_int.
  destruct fp; rewrite require_index by done; simpl.
  - destruct (vec_get_in_range (fp_regs_ rf) r) as (f & -> & _); [rewrite Hf; done|]. eauto.
  - destruct (vec_get_in_range (int_regs_ rf) r) as (f & -> & _); [rewrite Hi; done|]. eauto.
Qed.

Lemma read_bits_range rf r fp v : rf_ok rf -> read_bits rf r fp = Ok v -> is_u32 v.
Proof.
  intros [_ _ Hri Hrf _] H. unfold read_bits, read_fp, read_int in H.
  destruct fp; inv_res; [|apply u32_range].
  eapply Forall_lookup_1 in Hrf; eauto.
Qed.

(** Writing is total on register indices, keeps the file well-formed, and
    changes the named register only, and not even that one for x0. *)
Lemma write_bits_spec rf r fp v :
  rf_ok rf -> reg_index r -> is_u32 v ->
  exists rf', write_bits rf r fp v = Ok rf' /\ rf_ok rf' /\
    forall r' fp', reg_index r' ->
      read_bits rf' r' fp' =
        if bool_decide (r' = r /\ fp' = fp /\ (fp = true \/ r <> 0))
        then Ok v else read_bits rf r' fp'.
Proof.
  intros [Hi Hf Hri Hrf H0] Hr Hv. unfold reg_index in *.
  unfold write_bits, write_fp, write_int.
  destruct fp; rewrite require_index by done; simpl.
  - rewrite vec_set_in_range by (rewrite Hf; done). simpl. eexists. split; [done|]. split.
    { constructor; simpl; rewrite ?length_insert; try done. by apply Forall_insert. }
    intros r' fp' Hr'. unfold read_bits, read_fp, read_int.
    rewrite !require_index by done. simpl.
    destruct fp'; [|by rewrite bool_decide_eq_false_2 by naive_solver].
    rewrite vec_get_insert by (rewrite ?Hf; unfold NUM_FP_REGS; lia).
    destruct (Z.eqb_spec r r') as [->|].
    + rewrite bool_decide_eq_true_2 by naive_solver. done.
    + by rewrite bool_decide_eq_false_2 by naive_solver.
  - destruct (Z.eqb_spec r 0) as [->|Hr0].
    { eexists. split; [done|]. split; [done|]. intros r' fp' _.
      by rewrite bool_decide_eq_false_2 by naive_solver. }
    rewrite vec_set_in_range by (rewrite Hi; done). simpl. eexists. split; [done|]. split.
    { constructor; simpl; rewrite ?length_insert; try done.
      - apply Forall_insert; [done|apply s32_range].
      - rewrite list_lookup_insert_ne by lia. done. }
    intros r' fp' Hr'. unfold read_bits, read_fp, read_int.
    rewrite !require_index by done. simpl.
    destruct fp'; [by rewrite bool_decide_eq_false_2 by naive_solver|].
    rewrite vec_get_insert by (rewrite ?Hi; unfold NUM_INT_REGS; lia).
    destruct (Z.eqb_spec r r') as [->|].
    + rewrite bool_decide_eq_true_2 by naive_solver. simpl.
      by rewrite u32_s32, u32_id.
    + by rewrite bool_decide_eq_false_2 by naive_solver.
Qed.
