(* ===== verification/RegisterRemappingTable.v ===== *)
(** * register_remapping_table.h, register_remapping_table.cpp: renaming *)

From S2P Require Import Prelude Config OStream RegisterFile.

Record RATEntry : Type := mkRATEntry {
  valid : bool;
  rob_tag : Z
}.

Record RegisterRemappingTable : Type := mkRegisterRemappingTable {
  int_rat_ : list RATEntry;
  fp_rat_ : list RATEntry
}.

#[global] Instance RATEntry_eq_dec : EqDecision RATEntry.
Proof. solve_decision. Defined.
#[global] Instance RegisterRemappingTable_eq_dec : EqDecision RegisterRemappingTable.
Proof. solve_decision. Defined.

(** [{false, -1}] *)
Definition no_mapping : RATEntry := mkRATEntry false (-1).

(** [reg_idx >= 0 && reg_idx < (fp ? NUM_FP_REGS : NUM_INT_REGS)] *)
Definition index_ok (reg_idx : Z) (fp : bool) : bool :=
  (0 <=? reg_idx) && (reg_idx <? (if fp then NUM_FP_REGS else NUM_INT_REGS)).

(** [fp ? fp_rat_ : int_rat_], and the table with that bank replaced. *)
Definition bank (rat : RegisterRemappingTable) (fp : bool) : list RATEntry :=
  if fp then fp_rat_ rat else int_rat_ rat.
Definition set_bank (rat : RegisterRemappingTable) (fp : bool) (b : list RATEntry)
  : RegisterRemappingTable :=
  if fp then mkRegisterRemappingTable (int_rat_ rat) b
  else mkRegisterRemappingTable b (fp_rat_ rat).

Definition lookup (rat : RegisterRemappingTable) (reg_idx : Z) (fp : bool) : res RATEntry :=
  let! _ := require "RegisterRemappingTable::lookup" (index_ok reg_idx fp) in
  vec_get (bank rat fp) reg_idx.

Definition map (rat : RegisterRemappingTable) (reg_idx : Z) (fp : bool) (tag : Z)
  : res RegisterRemappingTable :=
  let! _ := require "RegisterRemappingTable::map" (index_ok reg_idx fp) in
  if negb fp && (reg_idx =? 0) then Ok rat
  else let! b := vec_set (bank rat fp) reg_idx (mkRATEntry true tag) in
       Ok (set_bank rat fp b).

Definition commit (rat : RegisterRemappingTable) (reg_idx : Z) (fp : bool) (tag : Z)
  : res RegisterRemappingTable :=
  let! _ := require "RegisterRemappingTable::commit" (index_ok reg_idx fp) in
  let! e := vec_get (bank rat fp) reg_idx in
  if valid e && (rob_tag e =? tag)
  then let! b := vec_set (bank rat fp) reg_idx no_mapping in Ok (set_bank rat fp b)
  else Ok rat.

(** [flush] overwrites every entry of both banks, whatever they held; it is
    also the constructor. *)
Definition flush : RegisterRemappingTable :=
  mkRegisterRemappingTable (replicate (Z.to_nat NUM_INT_REGS) no_mapping)
                           (replicate (Z.to_nat NUM_FP_REGS) no_mapping).

(** ** Output *)

Definition dump_mapping (prefix : string) (bank : list RATEntry) (os : ostream) (i : nat)
  : res ostream :=
  let! e := vec_get bank (Z.of_nat i) in
  Ok (if valid e then os << prefix << Z.of_nat i << "->ROB" << rob_tag e else os)%os.

Definition dump (rat : RegisterRemappingTable) (os : ostream) (cycle : Z) : res ostream :=
  let os := (os << "[RAT  cycle=" << setw 4 << cycle << "]" << endl << "  INT:")%os in
  let! os := foldM (dump_mapping " x" (int_rat_ rat)) os (seq 0 (Z.to_nat NUM_INT_REGS)) in
  let os := (os << endl << "  FP: ")%os in
  let! os := foldM (dump_mapping " f" (fp_rat_ rat)) os (seq 0 (Z.to_nat NUM_FP_REGS)) in
  Ok (os << endl)%os.

Definition open_log (fs : FileSystem) (path : string) : ofstream := file_open fs path.

Definition log_cycle (log_ : ofstream) (rat : RegisterRemappingTable) (cycle : Z) : res ofstream :=
  log_to log_ (fun os => dump rat os cycle).

(** ** Well-formedness and functional behaviour *)

Record rat_ok (rat : RegisterRemappingTable) : Prop := {
  rat_int_len : len (int_rat_ rat) = NUM_INT_REGS;
  rat_fp_len : len (fp_rat_ rat) = NUM_FP_REGS;
  rat_x0 : int_rat_ rat !! 0%nat = Some no_mapping
}.

(** The producer of a register, as an option. *)
Definition mapping (rat : RegisterRemappingTable) (r : Z) (fp : bool) : option Z :=
  e ← bank rat fp !! Z.to_nat r; if valid e then Some (rob_tag e) else None.

Lemma rat_flush_ok : rat_ok flush.
Proof. by constructor. Qed.

Lemma bank_len rat fp : rat_ok rat -> len (bank rat fp) = 32.
Proof. intros [Hi Hf _]. by destruct fp. Qed.

Lemma index_ok_reg r fp : index_ok r fp = true <-> reg_index r.
Proof.
  unfold index_ok, reg_index, NUM_FP_REGS, NUM_INT_REGS.
  rewrite andb_true_iff, Z.leb_le. destruct fp; rewrite Z.ltb_lt; done.
Qed.

Lemma require_index_ok site r fp : reg_index r -> require site (index_ok r fp) = Ok tt.
Proof. intros. unfold require. by rewrite (proj2 (index_ok_reg r fp)). Qed.

Lemma bank_set_bank rat fp fp' b :
  bank (set_bank rat fp b) fp' = if bool_decide (fp = fp') then b else bank rat fp'.
Proof. by destruct fp, fp'. Qed.

(** The assertions that a register past the end of a bank runs into. *)
Definition register_fault (f : Fault) : Prop :=
  f = AssertionFailed "RegisterRemappingTable::lookup" \/
  f = AssertionFailed "RegisterRemappingTable::map".

Lemma index_past r fp : 32 <= r -> index_ok r fp = false.
Proof.
  intros Hr. unfold index_ok, NUM_FP_REGS, NUM_INT_REGS. apply andb_false_iff. right.
  apply Z.ltb_ge. by destruct fp.
Qed.

Lemma lookup_past rat r fp :
  32 <= r -> lookup rat r fp = Stop (AssertionFailed "RegisterRemappingTable::lookup").
Proof. intros Hr. unfold lookup. by rewrite index_past. Qed.

Lemma map_past rat r fp tag :
  32 <= r -> map rat r fp tag = Stop (AssertionFailed "RegisterRemappingTable::map").
Proof. intros Hr. unfold map. by rewrite index_past. Qed.

(** [lookup] is total on register indices and agrees with [mapping]. *)
Lemma rat_lookup_spec rat r fp :
  rat_ok rat -> reg_index r ->
  exists e, lookup rat r fp = Ok e /\
    mapping rat r fp = if valid e then Some (rob_tag e) else None.
Proof.
  intros Hok Hr. unfold lookup. rewrite require_index_ok by done. simpl.
  destruct (vec_get_in_range (bank rat fp) r) as (e & -> & He).
  { rewrite bank_len by done. done. }
  exists e. split; [done|]. unfold mapping. by rewrite He.
Qed.

Lemma mapping_set_bank rat fp r x r' fp' :
  rat_ok rat -> reg_index r -> reg_index r' ->
  mapping (set_bank rat fp (<[Z.to_nat r := x]> (bank rat fp))) r' fp' =
    if bool_decide (r' = r /\ fp' = fp)
    then (if valid x then Some (rob_tag x) else None) else mapping rat r' fp'.
Proof.
  intros Hok Hr Hr'. unfold reg_index in *. unfold mapping. rewrite bank_set_bank.
  pose proof (bank_len rat fp Hok).
  destruct (decide (fp = fp')) as [->|Hne].
  - rewrite (bool_decide_eq_true_2 (fp' = fp')) by done.
    destruct (decide (r' = r)) as [->|Hr''].
    + rewrite bool_decide_eq_true_2 by done. by rewrite list_lookup_insert_eq by lia.
    + rewrite bool_decide_eq_false_2 by naive_solver. by rewrite list_lookup_insert_ne by lia.
  - rewrite (bool_decide_eq_false_2 (fp = fp')) by done.
    by rewrite bool_decide_eq_false_2 by naive_solver.
Qed.

Lemma set_bank_ok rat fp r x :
  rat_ok rat -> reg_index r -> (fp = true \/ r <> 0 \/ x = no_mapping) ->
  rat_ok (set_bank rat fp (<[Z.to_nat r := x]> (bank rat fp))).
Proof.
  unfold reg_index. intros [Hi Hf H0] Hr Hx.
  destruct fp; constructor; simpl; rewrite ?length_insert; try done.
  destruct (decide (r = 0)) as [->|Hne].
  - destruct Hx as [?|[?| ->]]; [done|done|]. apply list_lookup_insert_eq.
    apply lookup_lt_Some in H0. simpl. lia.
  - by rewrite list_lookup_insert_ne by lia.
Qed.

(** [map] records the new producer of every register but x0, and no other
    register changes. *)
Lemma rat_map_spec rat r fp tag :
  rat_ok rat -> reg_index r ->
  exists rat', map rat r fp tag = Ok rat' /\ rat_ok rat' /\
    forall r' fp', reg_index r' ->
      mapping rat' r' fp' =
        if bool_decide (r' = r /\ fp' = fp /\ (fp = true \/ r <> 0))
        then Some tag else mapping rat r' fp'.
Proof.
  intros Hok Hr. unfold map. rewrite require_index_ok by done. simpl.
  destruct (negb fp && (r =? 0)) eqn:E.
  - apply andb_true_iff in E as [Hfp ->%Z.eqb_eq]. destruct fp; [done|].
    eexists. split; [done|]. split; [done|]. intros r' fp' _.
    by rewrite bool_decide_eq_false_2 by naive_solver.
  - assert (fp = true \/ r <> 0) as Hx.
    { destruct fp; [by left|]. right. by apply Z.eqb_neq in E. }
    rewrite vec_set_in_range by (rewrite bank_len by done; done). simpl.
    eexists. split; [done|]. split; [apply set_bank_ok; naive_solver|].
    intros r' fp' Hr'. rewrite mapping_set_bank by done. simpl.
    by rewrite (bool_decide_ext (r' = r /\ fp' = fp) (r' = r /\ fp' = fp /\ (fp = true \/ r <> 0)))
      by naive_solver.
Qed.

(** [commit] clears the register's mapping when it is still the committing
    instruction's, keeps a newer one, and changes no other register. *)
Lemma rat_commit_spec rat r fp tag :
  rat_ok rat -> reg_index r ->
  exists rat', commit rat r fp tag = Ok rat' /\ rat_ok rat' /\
    forall r' fp', reg_index r' ->
      mapping rat' r' fp' =
        if bool_decide (r' = r /\ fp' = fp /\ mapping rat r fp = Some tag)
        then None else mapping rat r' fp'.
Proof.
  intros Hok Hr. unfold commit. rewrite require_index_ok by done. simpl.
  destruct (vec_get_in_range (bank rat fp) r) as (e & -> & He).
  { rewrite bank_len by done. done. }
  assert (Hm : mapping rat r fp = if valid e then Some (rob_tag e) else None).
  { unfold mapping. by rewrite He. }
  simpl. destruct (valid e && (rob_tag e =? tag)) eqn:E.
  - apply andb_true_iff in E as [Hv Ht%Z.eqb_eq]. rewrite Hv, Ht in Hm.
    rewrite vec_set_in_range by (rewrite bank_len by done; done). simpl.
    eexists. split; [done|]. split; [apply set_bank_ok; naive_solver|].
    intros r' fp' Hr'. rewrite mapping_set_bank by done. simpl.
    by rewrite (bool_decide_ext (r' = r /\ fp' = fp) (r' = r /\ fp' = fp /\ mapping rat r fp = Some tag))
      by naive_solver.
  - eexists. split; [done|]. split; [done|]. intros r' fp' Hr'.
    rewrite bool_decide_eq_false_2; [done|]. intros (-> & -> & Hm').
    rewrite Hm in Hm'. destruct (valid e); [|done].
    injection Hm' as Ht. by rewrite Ht, Z.eqb_refl in E.
Qed.

(** After [flush] every register is read from the register file. *)
Lemma mapping_flush r fp : mapping flush r fp = None.
Proof.
  unfold mapping, flush, bank. destruct (_ !! Z.to_nat r) as [e|] eqn:E; [|done].
  destruct fp; apply lookup_replicate in E as [-> _]; done.
Qed.
