(* ===== verification/ReorderBuffer.v ===== *)
(** * reorder_buffer.h, reorder_buffer.cpp: the reorder buffer *)

From S2P Require Import Prelude Ring Config OStream Instruction.

Inductive ROBState : Type := IDLE | IN_FLIGHT | DONE.

#[global] Instance ROBState_eq_dec : EqDecision ROBState.
Proof. solve_decision. Defined.

Record ROBEntry : Type := mkROBEntry {
  re_state : ROBState;
  re_op : Opcode;
  re_rd : Z;
  re_rd_fp : bool;
  re_result : Z;
  re_pc : Z
}.

#[global] Instance ROBEntry_eq_dec : EqDecision ROBEntry.
Proof. solve_decision. Defined.

(** [ROBEntry{}] *)
Definition default_entry : ROBEntry := mkROBEntry IDLE NOP (-1) false 0 0.

Record ReorderBuffer : Type := mkReorderBuffer {
  size_ : Z;
  head_ : Z;
  tail_ : Z;
  count_ : Z;
  entries_ : list ROBEntry
}.

#[global] Instance ReorderBuffer_eq_dec : EqDecision ReorderBuffer.
Proof. solve_decision. Defined.

(** The constructor. *)
Definition create (size : Z) : res ReorderBuffer :=
  let! _ := require "ReorderBuffer::ReorderBuffer" (1 <=? size) in
  Ok (mkReorderBuffer size 0 0 0 (replicate (Z.to_nat size) default_entry)).

Definition full (r : ReorderBuffer) : bool := count_ r =? size_ r.
Definition empty (r : ReorderBuffer) : bool := count_ r =? 0.

(** The entry [allocate] writes for [instr]. *)
Definition dispatched (instr : Instruction) : ROBEntry :=
  mkROBEntry IN_FLIGHT (op instr) (rd instr) (rd_fp instr) 0 (pc instr).

Definition allocate (r : ReorderBuffer) (instr : Instruction) : res (Z * ReorderBuffer) :=
  if full r then Ok (-1, r)
  else
    let tag := tail_ r in
    let! es := vec_set (entries_ r) tag (dispatched instr) in
    Ok (tag, mkReorderBuffer (size_ r) (head_ r) (Z.rem (tail_ r + 1) (size_ r))
               (count_ r + 1) es).

Definition write_result (r : ReorderBuffer) (tag result : Z) : res ReorderBuffer :=
  let! _ := require "ReorderBuffer::write_result" ((0 <=? tag) && (tag <? size_ r)) in
  let! e := vec_get (entries_ r) tag in
  let! _ := require "ReorderBuffer::write_result" (bool_decide (re_state e = IN_FLIGHT)) in
  let! es := vec_set (entries_ r) tag
               (mkROBEntry DONE (re_op e) (re_rd e) (re_rd_fp e) result (re_pc e)) in
  Ok (mkReorderBuffer (size_ r) (head_ r) (tail_ r) (count_ r) es).

Definition head_ready (r : ReorderBuffer) : res bool :=
  if empty r then Ok false
  else let! e := vec_get (entries_ r) (head_ r) in Ok (bool_decide (re_state e = DONE)).

Definition commit (r : ReorderBuffer) : res (ROBEntry * ReorderBuffer) :=
  let! ready := head_ready r in
  let! _ := require "ReorderBuffer::commit" ready in
  let! entry := vec_get (entries_ r) (head_ r) in
  let! es := vec_set (entries_ r) (head_ r) default_entry in
  Ok (entry, mkReorderBuffer (size_ r) (Z.rem (head_ r + 1) (size_ r)) (tail_ r)
               (count_ r - 1) es).

Definition peek (r : ReorderBuffer) (tag : Z) : res ROBEntry :=
  let! _ := require "ReorderBuffer::peek" ((0 <=? tag) && (tag <? size_ r)) in
  vec_get (entries_ r) tag.

Definition head_tag (r : ReorderBuffer) : res Z :=
  let! _ := require "ReorderBuffer::head_tag" (negb (empty r)) in Ok (head_ r).

Definition flush (r : ReorderBuffer) : ReorderBuffer :=
  mkReorderBuffer (size_ r) 0 0 0 (replicate (Z.to_nat (size_ r)) default_entry).

(** ** Output *)

Definition rob_state_str (s : ROBState) : string :=
  match s with IDLE => "IDLE" | IN_FLIGHT => "INFLT" | DONE => "DONE" end.

Definition dump_entry (r : ReorderBuffer) (os : ostream) (i : nat) : res ostream :=
  let! e := vec_get (entries_ r) (Z.of_nat i) in
  Ok (if bool_decide (re_state e = IDLE) then os
      else os << "  [" << setw 2 << Z.of_nat i << "] " << rob_state_str (re_state e) << " "
              << opcode_name (re_op e) << " rd=" << (if re_rd_fp e then "f" else "x") << re_rd e
              << " PC=0x" << hex << setw 4 << setfill "0" << Unsigned (re_pc e)
              << dec << setfill " " << endl)%os.

Definition dump (r : ReorderBuffer) (os : ostream) (cycle : Z) : res ostream :=
  let os := (os << "[ROB  cycle=" << setw 4 << cycle << "]" << " head=" << head_ r
                << " tail=" << tail_ r << " count=" << count_ r << "/" << size_ r << endl)%os in
  foldM (dump_entry r) os (seq 0 (Z.to_nat (size_ r))).

Definition open_log (fs : FileSystem) (path : string) : ofstream := file_open fs path.

Definition log_cycle (log_ : ofstream) (r : ReorderBuffer) (cycle : Z) : res ofstream :=
  log_to log_ (fun os => dump r os cycle).

(** ** The queue a reorder buffer holds *)

(** The entries in program order, oldest first. *)
Definition queue (r : ReorderBuffer) : list ROBEntry :=
  ring_view (head_ r) (count_ r) (entries_ r).

(** The tag of the [k]-th oldest entry. *)
Definition tag_at (r : ReorderBuffer) (k : Z) : Z := (head_ r + k) mod size_ r.

(** The indices are those of a circular buffer, and exactly the slots between
    head and tail are in use. *)
Record rob_ok (r : ReorderBuffer) : Prop := {
  rob_ring : ring_ok (size_ r) (head_ r) (tail_ r) (count_ r) (entries_ r);
  rob_busy : Forall (fun e => re_state e <> IDLE) (queue r);
  rob_idle : forall k, count_ r <= k < size_ r ->
    entries_ r !! Z.to_nat (tag_at r k) = Some default_entry
}.

Lemma rob_len r : rob_ok r -> len (entries_ r) = size_ r.
Proof. by intros [[] _ _]. Qed.

Lemma tag_at_range r k : rob_ok r -> 0 <= tag_at r k < size_ r.
Proof. intros [[] _ _]. by apply ring_index_range. Qed.

Lemma tag_at_ne r j k :
  rob_ok r -> 0 <= j < size_ r -> 0 <= k < size_ r -> j <> k -> tag_at r j <> tag_at r k.
Proof. intros [[] _ _] Hj Hk Hne. apply ring_index_ne; lia. Qed.

Lemma rob_queue_lookup r k :
  rob_ok r -> 0 <= k < count_ r ->
  entries_ r !! Z.to_nat (tag_at r k) = queue r !! Z.to_nat k.
Proof. intros [Hr _ _] Hk. eapply ring_view_at; eauto. Qed.

Lemma rob_queue_length r : rob_ok r -> len (queue r) = count_ r.
Proof. intros [Hr _ _]. by eapply ring_view_length. Qed.

Lemma rob_empty_queue r : rob_ok r -> empty r = true <-> queue r = [].
Proof.
  intros Hok. pose proof (rob_queue_length r Hok). unfold empty. rewrite Z.eqb_eq.
  destruct (queue r); simpl in *; split; intros; try done; lia.
Qed.

Lemma rem_mod a b : 0 <= a -> 0 < b -> Z.rem a b = a mod b.
Proof. apply Z.rem_mod_nonneg. Qed.

(** Every slot of the array is some [tag_at]. *)
Lemma tag_at_surj r t :
  rob_ok r -> 0 <= t < size_ r -> exists k, 0 <= k < size_ r /\ tag_at r k = t.
Proof.
  intros [[] _ _] Ht. exists ((t - head_ r) mod size_ r). split.
  - apply Z.mod_pos_bound. lia.
  - unfold tag_at. rewrite Zplus_mod_idemp_r. rewrite Z.mod_small; lia.
Qed.

(** ** Operations as queue operations *)

Lemma rob_create_spec size :
  1 <= size ->
  exists r, create size = Ok r /\ rob_ok r /\ size_ r = size /\ queue r = [].
Proof.
  intros Hs. unfold create, require. rewrite (proj2 (Z.leb_le 1 size)) by done. simpl.
  eexists. split; [done|].
  destruct (ring_empty size default_entry) as [Hr Hq]; [lia|].
  split; [|done]. constructor; simpl; [done|constructor|].
  intros k Hk. unfold tag_at. simpl. rewrite lookup_replicate_2; [done|].
  rewrite Z.mod_small by lia. lia.
Qed.

(** [allocate] appends an in-flight entry and returns its tag; it answers -1
    and leaves the buffer alone exactly when the buffer is full. *)
Lemma rob_allocate_spec r i :
  rob_ok r ->
  if full r then allocate r i = Ok (-1, r)
  else exists r', allocate r i = Ok (tag_at r (count_ r), r') /\ rob_ok r' /\
         size_ r' = size_ r /\ head_ r' = head_ r /\ count_ r' = count_ r + 1 /\
         entries_ r' = <[Z.to_nat (tag_at r (count_ r)) := dispatched i]> (entries_ r) /\
         queue r' = queue r ++ [dispatched i].
Proof.
  intros Hok. unfold allocate, full. destruct (Z.eqb_spec (count_ r) (size_ r)) as [|Hne]; [done|].
  destruct Hok as [Hr Hb Hi]. pose proof Hr as [Hs Hl Hh Hc Ht].
  destruct (ring_push _ _ _ _ _ (dispatched i) Hr ltac:(lia)) as [Hr' Hq].
  pose proof (ring_index_range (size_ r) (head_ r) (count_ r) Hs).
  assert (Hset : vec_set (entries_ r) (tail_ r) (dispatched i) =
    Ok (<[Z.to_nat (tail_ r) := dispatched i]> (entries_ r))).
  { apply vec_set_Ok. split; [lia|done]. }
  rewrite Hset. simpl. unfold tag_at. rewrite <- Ht. rewrite rem_mod by lia.
  eexists. split; [done|]. simpl. split; [|done].
  constructor; simpl; [done| |].
  - unfold queue. simpl. rewrite Hq. apply Forall_app. split; [done|].
    by apply Forall_singleton.
  - intros k Hk. unfold tag_at. simpl. rewrite list_lookup_insert_ne.
    + apply Hi. lia.
    + pose proof (ring_index_ne (size_ r) (head_ r) (count_ r) k).
      pose proof (ring_index_range (size_ r) (head_ r) k Hs). lia.
Qed.

(** The entry [write_result] leaves in place of [e]. *)
Definition finish (e : ROBEntry) (v : Z) : ROBEntry :=
  mkROBEntry DONE (re_op e) (re_rd e) (re_rd_fp e) v (re_pc e).

(** [write_result] on an in-flight entry of the queue completes that entry. *)
Lemma rob_write_result_spec r k e v :
  rob_ok r -> 0 <= k < count_ r -> queue r !! Z.to_nat k = Some e -> re_state e = IN_FLIGHT ->
  exists r', write_result r (tag_at r k) v = Ok r' /\ rob_ok r' /\
    size_ r' = size_ r /\ head_ r' = head_ r /\ count_ r' = count_ r /\
    entries_ r' = <[Z.to_nat (tag_at r k) := finish e v]> (entries_ r) /\
    queue r' = <[Z.to_nat k := finish e v]> (queue r).
Proof.
  intros Hok Hk He Hst. pose proof (tag_at_range r k Hok) as Ht.
  pose proof (rob_len r Hok) as Hlen.
  assert (He' : entries_ r !! Z.to_nat (tag_at r k) = Some e).
  { by rewrite rob_queue_lookup. }
  unfold write_result, require.
  rewrite (proj2 (Z.leb_le _ _)), (proj2 (Z.ltb_lt _ _)) by lia. simpl.
  assert (vec_get (entries_ r) (tag_at r k) = Ok e) as -> by (apply vec_get_Ok; split; [lia|done]).
  simpl. rewrite bool_decide_eq_true_2 by done. simpl.
  assert (vec_set (entries_ r) (tag_at r k) (finish e v) =
    Ok (<[Z.to_nat (tag_at r k) := finish e v]> (entries_ r))) as Hset.
  { apply vec_set_Ok. split; [lia|done]. }
  unfold finish in Hset at 1. rewrite Hset. simpl. eexists. split; [done|].
  destruct Hok as [Hr Hb Hi].
  destruct (ring_update _ _ _ _ _ k (finish e v) Hr Hk) as [Hr' Hq].
  split; [|done]. constructor; simpl; [done| |].
  - unfold queue. simpl. unfold tag_at. rewrite Hq. by apply Forall_insert.
  - intros j Hj. unfold tag_at. simpl. rewrite list_lookup_insert_ne; [by apply Hi|].
    pose proof Hr as [Hs _ Hh Hc _].
    pose proof (ring_index_ne (size_ r) (head_ r) k j).
    pose proof (ring_index_range (size_ r) (head_ r) j Hs). unfold tag_at in Ht. lia.
Qed.

(** No operation of the buffer is a loop with fuel. *)
Lemma write_result_fuel r tag v : write_result r tag v <> Stop OutOfFuel.
Proof.
  unfold write_result, require, vec_get, vec_set.
  repeat (case_match; simplify_eq/=; try done).
Qed.

Lemma rob_head_ready_spec r :
  rob_ok r ->
  head_ready r = Ok (match queue r with e :: _ => bool_decide (re_state e = DONE) | [] => false end).
Proof.
  intros Hok. unfold head_ready, empty. pose proof (rob_queue_length r Hok) as Hlen.
  destruct (Z.eqb_spec (count_ r) 0) as [Hz|Hz].
  - destruct (queue r); [done|simpl in *; lia].
  - destruct Hok as [Hr Hb Hi]. pose proof Hr as [Hs Hl Hh Hc Ht].
    destruct (ring_pop _ _ _ _ _ default_entry Hr ltac:(lia)) as (_ & e & He & Hq).
    unfold queue. rewrite Hq. unfold vec_get.
    destruct (Z.ltb_spec (head_ r) 0); [lia|]. by rewrite He.
Qed.

(** [commit] removes the oldest entry and returns it. *)
Lemma rob_commit_spec r e q :
  rob_ok r -> queue r = e :: q -> re_state e = DONE ->
  exists r', commit r = Ok (e, r') /\ rob_ok r' /\
    size_ r' = size_ r /\ head_ r' = (head_ r + 1) mod size_ r /\ count_ r' = count_ r - 1 /\
    entries_ r' = <[Z.to_nat (head_ r) := default_entry]> (entries_ r) /\
    queue r' = q.
Proof.
  intros Hok Hqe Hst. unfold commit. rewrite rob_head_ready_spec by done. rewrite Hqe.
  simpl. rewrite bool_decide_eq_true_2 by done. simpl.
  pose proof (rob_queue_length r Hok) as Hlen. rewrite Hqe in Hlen. simpl in Hlen.
  destruct Hok as [Hr Hb Hi]. pose proof Hr as [Hs Hl Hh Hc Ht].
  destruct (ring_pop _ _ _ _ _ default_entry Hr ltac:(lia)) as (Hr' & e' & He & Hq).
  unfold queue in Hqe. rewrite Hq in Hqe. injection Hqe as -> Hq'.
  assert (vec_get (entries_ r) (head_ r) = Ok e) as -> by (apply vec_get_Ok; split; [lia|done]).
  simpl. assert (vec_set (entries_ r) (head_ r) default_entry =
    Ok (<[Z.to_nat (head_ r) := default_entry]> (entries_ r))) as Hset.
  { apply vec_set_Ok. split; [lia|done]. }
  rewrite Hset. simpl. rewrite rem_mod by lia. eexists. split; [done|].
  split; [|done]. constructor; simpl; [done| |].
  - unfold queue. simpl. rewrite Hq'. unfold queue in Hb. rewrite Hq, Hq' in Hb.
    by apply Forall_cons in Hb as [_ ?].
  - intros k Hk. unfold tag_at. simpl. rewrite Zplus_mod_idemp_l.
    destruct (decide (k = size_ r - 1)) as [->|Hne].
    + replace (head_ r + 1 + (size_ r - 1)) with (head_ r + 1 * size_ r) by lia.
      rewrite Z_mod_plus_full, Z.mod_small by lia. apply list_lookup_insert_eq. lia.
    + rewrite list_lookup_insert_ne.
      * replace (head_ r + 1 + k) with (head_ r + (k + 1)) by lia. apply Hi. lia.
      * pose proof (ring_index_ne (size_ r) (head_ r) 0 (1 + k)) as Hn.
        rewrite Z.add_0_r, (Z.mod_small (head_ r)), Z.add_assoc in Hn by lia.
        pose proof (ring_index_range (size_ r) (head_ r + 1) k Hs). lia.
Qed.

(** [flush] forgets everything. *)
Lemma rob_flush_spec r : rob_ok r -> rob_ok (flush r) /\ queue (flush r) = [].
Proof.
  intros Hok. pose proof Hok as [[Hs _ _ _ _] _ _].
  destruct (rob_create_spec (size_ r)) as (r' & Hc & Hok' & _ & Hq); [lia|].
  unfold create, require in Hc. rewrite (proj2 (Z.leb_le 1 (size_ r))) in Hc by lia.
  simpl in Hc. injection Hc as <-. done.
Qed.
