(* ===== verification/CommonDataBus.v ===== *)
(** * common_data_bus.h, common_data_bus.cpp: the result broadcast bus *)

From S2P Require Import Prelude OStream.

Record CDBResult : Type := mkCDBResult {
  cdb_tag : Z;
  cdb_value : Z
}.

#[global] Instance CDBResult_eq_dec : EqDecision CDBResult.
Proof. solve_decision. Defined.

(** [pending_], oldest result first. *)
Record CommonDataBus : Type := mkCommonDataBus { pending_ : list CDBResult }.

#[global] Instance CommonDataBus_eq_dec : EqDecision CommonDataBus.
Proof. solve_decision. Defined.

Definition init : CommonDataBus := mkCommonDataBus [].

Definition broadcast (c : CommonDataBus) (tag value : Z) : CommonDataBus :=
  mkCommonDataBus (pending_ c ++ [mkCDBResult tag value]).

Definition has_results (c : CommonDataBus) : bool :=
  match pending_ c with [] => false | _ => true end.

Definition results (c : CommonDataBus) : list CDBResult := pending_ c.

Definition flush (c : CommonDataBus) : CommonDataBus := mkCommonDataBus [].

(** ** Output *)

Definition dump_result (os : ostream) (r : CDBResult) : ostream :=
  (os << " ROB" << cdb_tag r << "=0x" << hex << setw 8 << setfill "0" << Unsigned (cdb_value r)
      << dec << setfill " ")%os.

Definition dump (c : CommonDataBus) (os : ostream) (cycle : Z) : ostream :=
  let os := (os << "[CDB  cycle=" << setw 4 << cycle << "]")%os in
  match pending_ c with
  | [] => (os << " idle" << endl)%os
  | _ => (foldl dump_result os (pending_ c) << endl)%os
  end.

Definition open_log (fs : FileSystem) (path : string) : ofstream := file_open fs path.

Definition log_cycle (log_ : ofstream) (c : CommonDataBus) (cycle : Z) : res ofstream :=
  log_to log_ (fun os => Ok (dump c os cycle)).

(** ** Listening on the bus *)

(** One source operand of a waiting entry: its value and the tag it waits on.
    [capture1] is what a listener does with one result. *)
Definition capture1 (vq : Z * Z) (r : CDBResult) : Z * Z :=
  if snd vq =? cdb_tag r then (cdb_value r, -1) else vq.

Definition capture (vq : Z * Z) (rs : list CDBResult) : Z * Z := foldl capture1 vq rs.

(** Tags on the bus name reorder-buffer slots. *)
Definition tags_ok (rs : list CDBResult) : Prop := Forall (fun r => 0 <= cdb_tag r) rs.

Lemma capture_cons vq r rs : capture vq (r :: rs) = capture (capture1 vq r) rs.
Proof. done. Qed.

Lemma capture1_spec v q r :
  capture1 (v, q) r = if bool_decide (q = cdb_tag r) then (cdb_value r, -1) else (v, q).
Proof. unfold capture1. cbn [snd]. by destruct (Z.eqb_spec q (cdb_tag r)); case_bool_decide. Qed.

(** An operand whose tag is not on the bus is left alone. *)
Lemma capture_absent v q rs : Forall (fun r => cdb_tag r <> q) rs -> capture (v, q) rs = (v, q).
Proof.
  induction 1 as [|r rs Hr _ IH]; [done|].
  by rewrite capture_cons, capture1_spec, bool_decide_eq_false_2 by congruence.
Qed.

Lemma capture_ready v rs : tags_ok rs -> capture (v, -1) rs = (v, -1).
Proof. intros Hok. apply capture_absent. eapply Forall_impl; [exact Hok|]. simpl. lia. Qed.

(** An operand whose tag is on the bus takes the value of the first result
    with that tag and stops waiting. *)
Lemma capture_present v q rs :
  tags_ok rs -> Exists (fun r => cdb_tag r = q) rs ->
  exists r, r ∈ rs /\ cdb_tag r = q /\ capture (v, q) rs = (cdb_value r, -1).
Proof.
  intros Hok. induction rs as [|r rs IH]; intros Hex; [by apply Exists_nil in Hex|].
  apply Forall_cons in Hok as [Hr Hok]. rewrite capture_cons, capture1_spec.
  case_bool_decide as E.
  - exists r. split; [apply elem_of_cons; by left|]. split; [done|]. by apply capture_ready.
  - apply Exists_cons in Hex as [?|Hex]; [congruence|].
    destruct (IH Hok Hex) as (r' & Hin & Ht & Hc). exists r'.
    split; [apply elem_of_cons; by right|done].
Qed.

(** A listener takes the first result with its tag. *)
Lemma capture_find v q rs :
  tags_ok rs ->
  capture (v, q) rs =
  match List.find (fun r => cdb_tag r =? q) rs with
  | Some r => (cdb_value r, -1)
  | None => (v, q)
  end.
Proof.
  intros Hok. induction rs as [|r rs IH]; [done|]. apply Forall_cons in Hok as [Hr Hok].
  rewrite capture_cons, capture1_spec. cbn [List.find].
  destruct (Z.eqb_spec (cdb_tag r) q) as [E|E].
  - rewrite bool_decide_eq_true_2 by done. by apply capture_ready.
  - rewrite bool_decide_eq_false_2 by congruence. by apply IH.
Qed.

Lemma broadcast_results c t v : results (broadcast c t v) = results c ++ [mkCDBResult t v].
Proof. done. Qed.
