(* ===== verification/BufferStation.v ===== *)
(** * buffer_station.h, buffer_station.cpp: a pipelined delay element *)

From S2P Require Import Prelude OStream.

Record BufSlot : Type := mkBufSlot {
  slot_valid : bool;
  slot_tag : Z;
  slot_value : Z
}.

#[global] Instance BufSlot_eq_dec : EqDecision BufSlot.
Proof. solve_decision. Defined.

(** [BufSlot{}] *)
Definition default_slot : BufSlot := mkBufSlot false (-1) 0.

Record BufferStation : Type := mkBufferStation {
  depth_ : Z;
  pipelined_ : bool;
  stages_ : list BufSlot
}.

Definition create (depth : Z) (pipelined : bool) : res BufferStation :=
  let! _ := require "BufferStation::BufferStation" (1 <=? depth) in
  Ok (mkBufferStation depth pipelined (replicate (Z.to_nat (depth + 1)) default_slot)).

Definition busy (b : BufferStation) : bool := existsb slot_valid (stages_ b).

Definition accept (b : BufferStation) (tag value : Z) : res (bool * BufferStation) :=
  if negb (pipelined_ b) && busy b then Ok (false, b)
  else
    let! s0 := vec_get (stages_ b) 0 in
    if slot_valid s0 then Ok (false, b)
    else
      let! st := vec_set (stages_ b) 0 (mkBufSlot true tag value) in
      Ok (true, mkBufferStation (depth_ b) (pipelined_ b) st).

(** [for (i = depth_; i > 0; --i) stages_[i] = stages_[i - 1];] *)
Fixpoint shift (i : nat) (st : list BufSlot) : res (list BufSlot) :=
  match i with
  | O => Ok st
  | S i' =>
      let! s := vec_get st (Z.of_nat i') in
      let! st' := vec_set st (Z.of_nat i) s in
      shift i' st'
  end.

Definition tick (b : BufferStation) : res BufferStation :=
  let! st := shift (Z.to_nat (depth_ b)) (stages_ b) in
  let! st' := vec_set st 0 default_slot in
  Ok (mkBufferStation (depth_ b) (pipelined_ b) st').

Definition has_output (b : BufferStation) : res bool :=
  let! s := vec_get (stages_ b) (depth_ b) in Ok (slot_valid s).

Definition pop_output (b : BufferStation) : res (BufSlot * BufferStation) :=
  let! ready := has_output b in
  let! _ := require "BufferStation::pop_output" ready in
  let! out := vec_get (stages_ b) (depth_ b) in
  let! st := vec_set (stages_ b) (depth_ b) default_slot in
  Ok (out, mkBufferStation (depth_ b) (pipelined_ b) st).

(** ** Output *)

Definition dump_slot (b : BufferStation) (os : ostream) (i : nat) : res ostream :=
  let! s := vec_get (stages_ b) (Z.of_nat i) in
  Ok (if negb (slot_valid s) then os
      else os << " [" << Z.of_nat i << "]=ROB" << slot_tag s
              << "=0x" << hex << Unsigned (slot_value s) << dec)%os.

Definition dump (b : BufferStation) (os : ostream) (cycle : Z) : res ostream :=
  let os := (os << "[BS   cycle=" << setw 4 << cycle << "] depth=" << depth_ b << "/"
                << (if pipelined_ b then "pipe" else "nopipe"))%os in
  let! os := foldM (dump_slot b) os (seq 0 (Z.to_nat (depth_ b + 1))) in
  Ok (os << endl)%os.

Definition open_log (fs : FileSystem) (path : string) : ofstream := file_open fs path.

Definition log_cycle (log_ : ofstream) (b : BufferStation) (cycle : Z) : res ofstream :=
  log_to log_ (fun os => dump b os cycle).

(** ** Behaviour *)

Record bs_ok (b : BufferStation) : Prop := {
  bs_depth : 1 <= depth_ b;
  bs_len : len (stages_ b) = depth_ b + 1
}.

Lemma bs_create_ok depth p :
  1 <= depth -> exists b, create depth p = Ok b /\ bs_ok b /\ busy b = false.
Proof.
  intros Hd. unfold create, require. rewrite (proj2 (Z.leb_le _ _)) by done. simpl.
  eexists. split; [done|]. split.
  - constructor; simpl; rewrite ?length_replicate; lia.
  - unfold busy. simpl. induction (Z.to_nat (depth + 1)); done.
Qed.

(** Moving every stage one step keeps stage 0 in place and drops the last. *)
Lemma shift_spec i st :
  (i < length st)%nat ->
  exists st', shift i st = Ok st' /\ length st' = length st /\
    forall k, st' !! k = if decide (1 <= k <= i)%nat then st !! (k - 1)%nat else st !! k.
Proof.
  revert st. induction i as [|i IH]; intros st Hi.
  - exists st. split; [done|]. split; [done|]. intros k. by rewrite decide_False by lia.
  - simpl. destruct (lookup_lt_is_Some_2 st i) as [s Hs]; [lia|].
    assert (vec_get st (Z.of_nat i) = Ok s) as ->.
    { apply vec_get_Ok. rewrite Nat2Z.id. split; [lia|done]. }
    simpl. assert (vec_set st (Z.of_nat (S i)) s = Ok (<[S i := s]> st)) as Hset.
    { apply vec_set_Ok. rewrite Nat2Z.id. split; [lia|done]. }
    replace (Z.pos (Pos.of_succ_nat i)) with (Z.of_nat (S i)) by lia. rewrite Hset. simpl.
    destruct (IH (<[S i := s]> st)) as (st' & Hsh & Hlen & Hk).
    { rewrite length_insert. lia. }
    exists st'. split; [done|]. rewrite length_insert in Hlen. split; [done|].
    intros k. rewrite Hk. destruct (decide (1 <= k <= i)%nat).
    + rewrite decide_True by lia. by rewrite list_lookup_insert_ne by lia.
    + destruct (decide (k = S i)) as [->|].
      * rewrite decide_True by lia. rewrite list_lookup_insert_eq by lia.
        by replace (S i - 1)%nat with i by lia.
      * rewrite decide_False by lia. by rewrite list_lookup_insert_ne by lia.
Qed.

(** [tick] moves the content of every stage to the next one, empties the
    input stage, and cannot fault. *)
Lemma bs_tick_spec b :
  bs_ok b ->
  exists b', tick b = Ok b' /\ bs_ok b' /\ depth_ b' = depth_ b /\
    pipelined_ b' = pipelined_ b /\
    stages_ b' !! 0%nat = Some default_slot /\
    forall k, (k < length (stages_ b) - 1)%nat -> stages_ b' !! S k = stages_ b !! k.
Proof.
  intros [Hd Hl]. unfold tick.
  destruct (shift_spec (Z.to_nat (depth_ b)) (stages_ b)) as (st & -> & Hlen & Hk); [lia|].
  simpl. assert (vec_set st 0 default_slot = Ok (<[0%nat := default_slot]> st)) as ->.
  { apply vec_set_Ok. split; [lia|done]. }
  simpl. eexists. split; [done|]. simpl. split; [|split; [done|split; [done|split]]].
  - constructor; simpl; [done|]. rewrite length_insert. lia.
  - apply list_lookup_insert_eq. lia.
  - intros k Hlt. rewrite list_lookup_insert_ne by lia. rewrite Hk.
    rewrite decide_True by lia. f_equal. lia.
Qed.

(** [n] cycles of [tick]. *)
Fixpoint ticks (n : nat) (b : BufferStation) : res BufferStation :=
  match n with
  | O => Ok b
  | S n' => let! b' := tick b in ticks n' b'
  end.

Lemma bs_ticks_spec n b :
  bs_ok b -> (n <= Z.to_nat (depth_ b))%nat ->
  exists b', ticks n b = Ok b' /\ bs_ok b' /\ depth_ b' = depth_ b /\
    forall k, (n + k < length (stages_ b))%nat -> stages_ b' !! (n + k)%nat = stages_ b !! k.
Proof.
  revert b. induction n as [|n IH]; intros b Hok Hn.
  - exists b. done.
  - simpl. destruct (bs_tick_spec b Hok) as (b1 & -> & Hok1 & Hd1 & _ & _ & Hk1). simpl.
    destruct (IH b1) as (b' & Hb' & Hok' & Hd' & Hk'); [done|rewrite Hd1; lia|].
    exists b'. split; [done|]. split; [done|]. split; [congruence|].
    intros k Hlt. destruct Hok as [_ Hl], Hok1 as [_ Hl1].
    replace (S (n + k))%nat with (n + S k)%nat by lia.
    rewrite Hk' by lia. apply Hk1. lia.
Qed.

(** A delay line: what [accept] takes in is at the output after exactly
    [depth_] ticks. *)
Lemma bs_accept_output b tag v b1 :
  bs_ok b -> accept b tag v = Ok (true, b1) ->
  exists b2, ticks (Z.to_nat (depth_ b)) b1 = Ok b2 /\ has_output b2 = Ok true /\
    exists b3, pop_output b2 = Ok (mkBufSlot true tag v, b3).
Proof.
  intros [Hd Hl] Hacc. unfold accept in Hacc.
  destruct (negb (pipelined_ b) && busy b); [done|].
  inv_res. destruct (slot_valid x); inv_res.
  set (b1 := mkBufferStation _ _ _).
  assert (bs_ok b1) as Hok1 by (constructor; simpl; rewrite ?length_insert; done).
  destruct (bs_ticks_spec (Z.to_nat (depth_ b)) b1) as (b2 & Hb2 & [_ Hl2] & Hd2 & Hk); [done|simpl; lia|].
  exists b2. split; [done|].
  assert (vec_get (stages_ b2) (depth_ b2) = Ok (mkBufSlot true tag v)) as Hg.
  { apply vec_get_Ok. rewrite Hd2. simpl. split; [lia|].
    specialize (Hk 0%nat). rewrite Nat.add_0_r in Hk. rewrite Hk.
    - apply list_lookup_insert_eq. lia.
    - simpl. rewrite length_insert. lia. }
  split; [unfold has_output; by rewrite Hg|].
  unfold pop_output, has_output. rewrite Hg. simpl.
  assert (exists st, vec_set (stages_ b2) (depth_ b2) default_slot = Ok st) as [st ->].
  { eexists. apply vec_set_Ok. split; [|done]. rewrite Hd2 in *. simpl in *. lia. }
  simpl. eauto.
Qed.
