(* ===== verification/FifoSpec.v ===== *)
(** * The reorder buffer implements a queue

    The abstract reorder buffer is a list of entries, oldest first, and the
    tag of the oldest. Every operation of the circular buffer gives the
    outcome of the list operation, faults included, and keeps the relation. *)

From S2P Require Import Prelude Ring Config Instruction ReorderBuffer RegisterFile.

(** ** The specification *)

Record Fifo : Type := mkFifo { fifo_size : Z; fifo_first : Z; fifo_items : list ROBEntry }.

(** Position of a tag in the queue. *)
Definition fifo_pos (f : Fifo) (tag : Z) : nat := Z.to_nat ((tag - fifo_first f) mod fifo_size f).

Definition fifo_allocate (f : Fifo) (i : Instruction) : res (Z * Fifo) :=
  if len (fifo_items f) =? fifo_size f then Ok (-1, f)
  else Ok ((fifo_first f + len (fifo_items f)) mod fifo_size f,
           mkFifo (fifo_size f) (fifo_first f) (fifo_items f ++ [dispatched i])).

(** Results go to in-flight entries only. *)
Definition fifo_write_result (f : Fifo) (tag v : Z) : res Fifo :=
  if (0 <=? tag) && (tag <? fifo_size f) then
    match fifo_items f !! fifo_pos f tag with
    | Some e =>
        if bool_decide (re_state e = IN_FLIGHT)
        then Ok (mkFifo (fifo_size f) (fifo_first f) (<[fifo_pos f tag := finish e v]> (fifo_items f)))
        else Stop (AssertionFailed "ReorderBuffer::write_result")
    | None => Stop (AssertionFailed "ReorderBuffer::write_result")
    end
  else Stop (AssertionFailed "ReorderBuffer::write_result").

Definition fifo_head_ready (f : Fifo) : bool :=
  match fifo_items f with e :: _ => bool_decide (re_state e = DONE) | [] => false end.

(** The oldest entry leaves once it is done. *)
Definition fifo_commit (f : Fifo) : res (ROBEntry * Fifo) :=
  match fifo_items f with
  | e :: q =>
      if bool_decide (re_state e = DONE)
      then Ok (e, mkFifo (fifo_size f) ((fifo_first f + 1) mod fifo_size f) q)
      else Stop (AssertionFailed "ReorderBuffer::commit")
  | [] => Stop (AssertionFailed "ReorderBuffer::commit")
  end.

Definition fifo_flush (f : Fifo) : Fifo := mkFifo (fifo_size f) 0 [].

(** ** Operation sequences *)

Inductive RobOp : Type :=
| OpAllocate (i : Instruction)
| OpWriteResult (tag v : Z)
| OpCommit
| OpFlush.

(** What the caller sees of an operation. *)
Inductive RobOut : Type :=
| OutTag (tag : Z)
| OutEntry (e : ROBEntry)
| OutNone.

Definition rob_op (r : ReorderBuffer) (o : RobOp) : res (RobOut * ReorderBuffer) :=
  match o with
  | OpAllocate i => let! (t, r') := allocate r i in Ok (OutTag t, r')
  | OpWriteResult t v => let! r' := write_result r t v in Ok (OutNone, r')
  | OpCommit => let! (e, r') := commit r in Ok (OutEntry e, r')
  | OpFlush => Ok (OutNone, flush r)
  end.

Definition fifo_op (f : Fifo) (o : RobOp) : res (RobOut * Fifo) :=
  match o with
  | OpAllocate i => let! (t, f') := fifo_allocate f i in Ok (OutTag t, f')
  | OpWriteResult t v => let! f' := fifo_write_result f t v in Ok (OutNone, f')
  | OpCommit => let! (e, f') := fifo_commit f in Ok (OutEntry e, f')
  | OpFlush => Ok (OutNone, fifo_flush f)
  end.

(** The outputs of a sequence, up to the first fault. *)
Fixpoint outputs {S} (op : S -> RobOp -> res (RobOut * S)) (s : S) (os : list RobOp)
  : res (list RobOut) :=
  match os with
  | [] => Ok []
  | o :: os' =>
      let! (out, s') := op s o in
      let! outs := outputs op s' os' in
      Ok (out :: outs)
  end.

(** ** The simulation *)

Record rob_sim (r : ReorderBuffer) (f : Fifo) : Prop := {
  rs_ok : rob_ok r;
  rs_size : fifo_size f = size_ r;
  rs_first : fifo_first f = head_ r;
  rs_items : fifo_items f = queue r
}.

(** Two outcomes of an operation correspond. *)
Definition outcome_sim (x : res (RobOut * ReorderBuffer)) (y : res (RobOut * Fifo)) : Prop :=
  match x, y with
  | Ok (o, r), Ok (o', f) => o = o' /\ rob_sim r f
  | Stop a, Stop b => a = b
  | _, _ => False
  end.

Section Simulation.
Context (r : ReorderBuffer) (f : Fifo).
Hypothesis Hs : rob_sim r f.

Lemma sim_allocate i : outcome_sim (rob_op r (OpAllocate i)) (fifo_op f (OpAllocate i)).
Proof.
  destruct Hs as [Hok Hsz Hf Hq]. pose proof (rob_queue_length r Hok) as Hlen.
  pose proof (rob_allocate_spec r i Hok) as Hal. unfold rob_op, fifo_op, fifo_allocate.
  rewrite Hq, Hsz, Hf, Hlen. unfold full in Hal. destruct (Z.eqb_spec (count_ r) (size_ r)).
  - rewrite Hal. cbn. split; [done|]. by constructor.
  - destruct Hal as (r' & -> & Hok' & Hsz' & Hh' & _ & _ & Hq'). cbn. split; [done|].
    constructor; cbn; congruence.
Qed.

Lemma sim_flush : outcome_sim (rob_op r OpFlush) (fifo_op f OpFlush).
Proof.
  destruct Hs as [Hok Hsz _ _]. destruct (rob_flush_spec r Hok) as [Hok' Hq]. cbn.
  split; [done|]. by constructor; cbn.
Qed.

Lemma sim_commit : outcome_sim (rob_op r OpCommit) (fifo_op f OpCommit).
Proof.
  destruct Hs as [Hok Hsz Hf Hq]. unfold rob_op, fifo_op, fifo_commit. rewrite Hq, Hsz, Hf.
  destruct (queue r) as [|e q] eqn:Eq.
  - unfold commit. rewrite rob_head_ready_spec, Eq by done. done.
  - case_bool_decide as Hd.
    + destruct (rob_commit_spec r e q Hok Eq Hd) as (r' & -> & Hok' & Hsz' & Hh' & _ & _ & Hq').
      cbn. split; [done|]. by constructor.
    + unfold commit. rewrite rob_head_ready_spec, Eq by done.
      by rewrite bool_decide_eq_false_2.
Qed.

(** A tag in range is the tag of its position. *)
Lemma tag_at_pos tag :
  0 <= tag < size_ r -> tag_at r (Z.of_nat (fifo_pos f tag)) = tag /\
  Z.of_nat (fifo_pos f tag) < size_ r.
Proof.
  intros Ht. destruct Hs as [Hok Hsz Hf _]. pose proof Hok as [[Hpos _ Hh _ _] _ _].
  unfold fifo_pos. rewrite Hsz, Hf.
  pose proof (Z.mod_pos_bound (tag - head_ r) (size_ r) Hpos).
  rewrite Z2Nat.id by lia. split; [|lia]. unfold tag_at.
  rewrite Zplus_mod_idemp_r. replace (head_ r + (tag - head_ r)) with tag by lia.
  by rewrite Z.mod_small.
Qed.

Lemma sim_write_result tag v :
  outcome_sim (rob_op r (OpWriteResult tag v)) (fifo_op f (OpWriteResult tag v)).
Proof.
  pose proof Hs as [Hok Hsz Hf Hq]. unfold rob_op, fifo_op, fifo_write_result. rewrite Hsz, Hq.
  destruct ((0 <=? tag) && (tag <? size_ r)) eqn:Erange.
  2: { unfold write_result, require. by rewrite Erange. }
  assert (Ht : 0 <= tag < size_ r).
  { apply andb_true_iff in Erange as [?%Z.leb_le ?%Z.ltb_lt]. lia. }
  destruct (tag_at_pos tag Ht) as [Hat Hpos]. pose proof (rob_queue_length r Hok) as Hlen.
  destruct (queue r !! fifo_pos f tag) as [e|] eqn:He.
  - apply lookup_lt_Some in He as Hlt.
    assert (Hget : entries_ r !! Z.to_nat tag = Some e).
    { rewrite <- Hat, rob_queue_lookup by (done || lia). by rewrite Nat2Z.id. }
    case_bool_decide as Hst.
    + destruct (rob_write_result_spec r (Z.of_nat (fifo_pos f tag)) e v Hok)
        as (r' & Hw & Hok' & Hsz' & Hh' & _ & _ & Hq'); [lia|by rewrite Nat2Z.id|done|].
      rewrite Hat in Hw. rewrite Hw. cbn. split; [done|].
      rewrite Nat2Z.id in Hq'. constructor; cbn; congruence.
    + unfold write_result, require. rewrite Erange. cbn.
      assert (vec_get (entries_ r) tag = Ok e) as -> by (apply vec_get_Ok; split; [lia|done]).
      cbn. by rewrite bool_decide_eq_false_2.
  - apply lookup_ge_None in He.
    assert (Hget : entries_ r !! Z.to_nat tag = Some default_entry).
    { rewrite <- Hat. apply Hok. lia. }
    unfold write_result, require. rewrite Erange. cbn.
    assert (vec_get (entries_ r) tag = Ok default_entry) as -> by (apply vec_get_Ok; split; [lia|done]).
    done.
Qed.

Lemma sim_op o : outcome_sim (rob_op r o) (fifo_op f o).
Proof. destruct o; [apply sim_allocate|apply sim_write_result|apply sim_commit|apply sim_flush]. Qed.

End Simulation.

(** Step by step the outputs agree. *)
Lemma sim_outputs r f os : rob_sim r f -> outputs rob_op r os = outputs fifo_op f os.
Proof.
  revert r f. induction os as [|o os IH]; intros r f Hs; [done|]. cbn [outputs].
  pose proof (sim_op r f Hs o) as H. unfold outcome_sim in H.
  destruct (rob_op r o) as [[out r']|a], (fifo_op f o) as [[out' f']|b]; cbn; try done.
  - destruct H as [-> Hs']. by rewrite (IH r' f' Hs').
  - by rewrite H.
Qed.

Lemma create_sim size r : create size = Ok r -> rob_sim r (mkFifo size 0 []).
Proof.
  intros H. pose proof H as H'. unfold create in H'. apply rbind_Ok in H' as (u & Hreq & Hr).
  apply require_Ok, Z.leb_le in Hreq. destruct (rob_create_spec size Hreq) as (r' & Hc & Hok & Hsz & Hq).
  rewrite H in Hc. injection Hc as <-. constructor; cbn; try done. by injection Hr as <-.
Qed.
