(* ===== verification/DispatchUtils.v ===== *)
(** * dispatch_utils.h: operand resolution at dispatch *)

From S2P Require Import Prelude Words Config Float32 Instruction.
From S2P Require Import RegisterFile RegisterRemappingTable ReorderBuffer.

(** [resolve_operand] writes [out_val] and [out_q] through references; the
    model takes the old [out_val] and returns the pair. [out_val] keeps its old
    content when the operand has to wait. *)
Definition resolve_operand (reg_idx : Z) (fp : bool) (rat : RegisterRemappingTable)
    (rf : RegisterFile) (rob : ReorderBuffer) (old_val : Z) : res (Z * Z) :=
  if reg_idx <? 0 then Ok (0, -1)
  else
    let! re := RegisterRemappingTable.lookup rat reg_idx fp in
    if negb (RegisterRemappingTable.valid re) then
      if fp then
        let! f := RegisterFile.read_fp rf reg_idx in Ok (float_to_bits f, -1)
      else
        let! v := RegisterFile.read_int rf reg_idx in Ok (u32 v, -1)
    else
      let! rob_e := ReorderBuffer.peek rob (RegisterRemappingTable.rob_tag re) in
      if bool_decide (ReorderBuffer.re_state rob_e = ReorderBuffer.DONE)
      then Ok (ReorderBuffer.re_result rob_e, -1)
      else Ok (old_val, RegisterRemappingTable.rob_tag re).
