(* ===== verification/ReservationStation.v ===== *)
(** * reservation_station.h, reservation_station.cpp: reservation stations *)

From S2P Require Import Prelude Words Config Float32 OStream Instruction.
From S2P Require Import RegisterFile RegisterRemappingTable ReorderBuffer.
From S2P Require Import CommonDataBus DispatchUtils.

Record RSEntry : Type := mkRSEntry {
  se_busy : bool;
  se_op : Opcode;
  se_rob_tag : Z;
  se_vj : Z;
  se_vk : Z;
  se_qj : Z;
  se_qk : Z;
  se_imm : Z;
  se_rd_fp : bool;
  se_done : bool;
  se_cycles_rem : Z;
  se_result : Z;
  se_pc : Z
}.

#[global] Instance RSEntry_eq_dec : EqDecision RSEntry.
Proof. solve_decision. Defined.

(** [RSEntry{}] *)
Definition default_entry : RSEntry :=
  mkRSEntry false NOP (-1) 0 0 (-1) (-1) 0 false false 0 0 0.

(** Assignments to the fields an operation changes. *)
Definition set_operands (e : RSEntry) (j k : Z * Z) : RSEntry :=
  mkRSEntry (se_busy e) (se_op e) (se_rob_tag e) (fst j) (fst k) (snd j) (snd k) (se_imm e)
    (se_rd_fp e) (se_done e) (se_cycles_rem e) (se_result e) (se_pc e).
Definition set_cycles (e : RSEntry) (c : Z) : RSEntry :=
  mkRSEntry (se_busy e) (se_op e) (se_rob_tag e) (se_vj e) (se_vk e) (se_qj e) (se_qk e)
    (se_imm e) (se_rd_fp e) (se_done e) c (se_result e) (se_pc e).
Definition set_done (e : RSEntry) (v : Z) : RSEntry :=
  mkRSEntry (se_busy e) (se_op e) (se_rob_tag e) (se_vj e) (se_vk e) (se_qj e) (se_qk e)
    (se_imm e) (se_rd_fp e) true (se_cycles_rem e) v (se_pc e).

Record ReservationStation : Type := mkReservationStation {
  size_ : Z;
  count_ : Z;
  entries_ : list RSEntry
}.

#[global] Instance ReservationStation_eq_dec : EqDecision ReservationStation.
Proof. solve_decision. Defined.

(** [ReservationStation(size)]: [entries_.resize(size_)]. *)
Definition create (size : Z) : ReservationStation :=
  mkReservationStation size 0 (replicate (Z.to_nat size) default_entry).

Definition full (s : ReservationStation) : bool := count_ s =? size_ s.
Definition empty (s : ReservationStation) : bool := count_ s =? 0.

Definition flush (s : ReservationStation) : ReservationStation :=
  mkReservationStation (size_ s) 0 (replicate (Z.to_nat (size_ s)) default_entry).

Section Execute.
Context `{FE : FPEnv}.

(** [e.pc + static_cast<uint32_t>(e.imm)] or [e.pc + 4u], on a comparison. *)
Definition branch_target (e : RSEntry) (taken : bool) : Z :=
  if taken then addu32 (se_pc e) (u32 (se_imm e)) else addu32 (se_pc e) 4.

(** [execute_op]. Signed sums, differences and left shifts wrap around;
    [>>] on a negative [int32_t] is the arithmetic shift of the compiler. *)
Definition execute_op (e : RSEntry) : Z :=
  let sj := s32 (se_vj e) in
  let sk := s32 (se_vk e) in
  let uj := se_vj e in
  let fj := bits_to_float (se_vj e) in
  let fk := bits_to_float (se_vk e) in
  match se_op e with
  | ADD => u32 (add32 sj sk)
  | SUB => u32 (sub32 sj sk)
  | AND => Z.land uj (se_vk e)
  | OR => Z.lor uj (se_vk e)
  | XOR => Z.lxor uj (se_vk e)
  | SLL => u32 (shl32 sj (Z.land (se_vk e) 31))
  | SRL => Z.shiftr uj (Z.land (se_vk e) 31)
  | SRA => u32 (Z.shiftr sj (Z.land (se_vk e) 31))
  | ADDI => u32 (add32 sj (se_imm e))
  | LUI => u32 (Z.shiftl (u32 (se_imm e)) 12)
  | ANDI => Z.land uj (u32 (se_imm e))
  | ORI => Z.lor uj (u32 (se_imm e))
  | XORI => Z.lxor uj (u32 (se_imm e))
  | SLLI => u32 (shl32 sj (Z.land (se_imm e) 31))
  | SRLI => Z.shiftr uj (Z.land (se_imm e) 31)
  | LW | FLW | SW | FSW => u32 (add32 sj (se_imm e))
  | BEQ => branch_target e (sj =? sk)
  | BNE => branch_target e (negb (sj =? sk))
  | BLT => branch_target e (sj <? sk)
  | BGE => branch_target e (sk <=? sj)
  | JAL => addu32 (se_pc e) (u32 (se_imm e))
  | JALR => Z.land (u32 (add32 sj (se_imm e))) (2 ^ 32 - 2)
  | FADD_S => float_to_bits (fp_arith FAdd fj fk)
  | FSUB_S => float_to_bits (fp_arith FSub fj fk)
  | FMUL_S => float_to_bits (fp_arith FMul fj fk)
  | FDIV_S => float_to_bits (fp_arith FDiv fj fk)
  | FCVT_W_S => u32 (f2i fj)
  | FCVT_S_W => float_to_bits (i2f sj)
  | NOP | HALT => 0
  end.

(** Whether C++17 gives the expression [execute_op] evaluates a meaning: a
    signed result out of range, a left shift of a negative number or past the
    width's unsigned range, and an out-of-range float conversion have none. *)
Definition in_s32 (z : Z) : bool := (- 2 ^ 31 <=? z) && (z <? 2 ^ 31).

Definition execute_op_defined (e : RSEntry) : bool :=
  let sj := s32 (se_vj e) in
  let sk := s32 (se_vk e) in
  match se_op e with
  | ADD => in_s32 (sj + sk)
  | SUB => in_s32 (sj - sk)
  | ADDI | LW | FLW | SW | FSW | JALR => in_s32 (sj + se_imm e)
  | SLL => (0 <=? sj) && (Z.shiftl sj (Z.land (se_vk e) 31) <? 2 ^ 32)
  | SLLI => (0 <=? sj) && (Z.shiftl sj (Z.land (se_imm e) 31) <? 2 ^ 32)
  | FCVT_W_S => f2i_defined (bits_to_float (se_vj e))
  | _ => true
  end.

(** The loop of [issue]: fill the first free slot. *)
Fixpoint issue_loop (fill : RSEntry -> res RSEntry) (es : list RSEntry)
  : res (option (list RSEntry)) :=
  match es with
  | [] => Ok None
  | e :: es' =>
      if se_busy e then
        let! r := issue_loop fill es' in Ok (option_map (cons e) r)
      else
        let! e' := fill e in Ok (Some (e' :: es'))
  end.

(** What [issue] stores in the slot whose old content is [e]. *)
Definition issue_entry (instr : Instruction) (rob_tag : Z) (rat : RegisterRemappingTable)
    (rf : RegisterFile) (rob : ReorderBuffer) (e : RSEntry) : res RSEntry :=
  let! j := resolve_operand (rs1 instr) (rs1_fp instr) rat rf rob (se_vj e) in
  let! k := resolve_operand (rs2 instr) (rs2_fp instr) rat rf rob (se_vk e) in
  Ok (mkRSEntry true (op instr) rob_tag (fst j) (fst k) (snd j) (snd k) (imm instr)
        (rd_fp instr) false 0 0 (pc instr)).

Definition issue (s : ReservationStation) (instr : Instruction) (rob_tag : Z)
    (rat : RegisterRemappingTable) (rf : RegisterFile) (rob : ReorderBuffer)
  : res (bool * ReservationStation) :=
  let! r := issue_loop (issue_entry instr rob_tag rat rf rob) (entries_ s) in
  match r with
  | Some es => Ok (true, mkReservationStation (size_ s) (count_ s + 1) es)
  | None => Ok (false, s)
  end.

(** The body of the inner loop of [snoop]. *)
Definition snoop_entry (r : CDBResult) (e : RSEntry) : RSEntry :=
  if negb (se_busy e) || se_done e then e
  else set_operands e (capture1 (se_vj e, se_qj e) r) (capture1 (se_vk e, se_qk e) r).

Definition snoop (s : ReservationStation) (cdb : CommonDataBus) : ReservationStation :=
  mkReservationStation (size_ s) (count_ s)
    (foldl (fun es r => snoop_entry r <$> es) (entries_ s) (results cdb)).

(** First pass of [tick]: count down, and compute at zero. *)
Definition countdown (e : RSEntry) : RSEntry :=
  if negb (se_busy e) || se_done e || (se_cycles_rem e =? 0) then e
  else
    let e' := set_cycles e (se_cycles_rem e - 1) in
    if se_cycles_rem e' =? 0 then set_done e' (execute_op e') else e'.

(** Another entry with the same operation is executing. *)
Definition fu_busy (o : Opcode) (others : list RSEntry) : bool :=
  existsb (fun other => se_busy other && negb (se_done other) && op_eqb (se_op other) o &&
                        (0 <? se_cycles_rem other)) others.

(** Second pass of [tick] on one entry; [others] is the rest of the station. *)
Definition start_entry (others : list RSEntry) (e : RSEntry) : RSEntry :=
  if negb (se_busy e) || se_done e || negb (se_qj e =? -1) || negb (se_qk e =? -1)
     || negb (se_cycles_rem e =? 0) then e
  else if negb (is_pipelined (se_op e)) && fu_busy (se_op e) others then e
  else
    let lat := latency_of (se_op e) in
    if lat <=? 1 then set_done e (execute_op e) else set_cycles e (lat - 1).

(** The second pass goes over the slots in order and sees its own updates:
    [pre] holds the slots already treated. *)
Fixpoint start_pass (pre post : list RSEntry) : list RSEntry :=
  match post with
  | [] => pre
  | e :: post' => start_pass (pre ++ [start_entry (pre ++ post') e]) post'
  end.

Definition tick (s : ReservationStation) : ReservationStation :=
  mkReservationStation (size_ s) (count_ s) (start_pass [] (countdown <$> entries_ s)).

Definition has_result (s : ReservationStation) : bool :=
  existsb (fun e => se_busy e && se_done e) (entries_ s).

(** The loop of [pop_result]: clear the first finished slot. *)
Fixpoint pop_loop (es : list RSEntry) : option (RSEntry * list RSEntry) :=
  match es with
  | [] => None
  | e :: es' =>
      if se_busy e && se_done e then Some (e, default_entry :: es')
      else match pop_loop es' with
           | Some (out, es'') => Some (out, e :: es'')
           | None => None
           end
  end.

Definition pop_result (s : ReservationStation) : res (RSEntry * ReservationStation) :=
  match pop_loop (entries_ s) with
  | Some (out, es) => Ok (out, mkReservationStation (size_ s) (count_ s - 1) es)
  | None => Stop (AssertionFailed "ReservationStation::pop_result")
  end.

End Execute.

(** ** Output *)

Definition dump_entry (s : ReservationStation) (os : ostream) (i : nat) : res ostream :=
  let! e := vec_get (entries_ s) (Z.of_nat i) in
  Ok (if negb (se_busy e) then os
      else
        let os := (os << "  [" << setw 2 << Z.of_nat i << "] " << opcode_name (se_op e)
                      << " ROB=" << se_rob_tag e)%os in
        let os := (if negb (se_qj e =? -1) then os << " qj=ROB" << se_qj e
                   else os << " vj=0x" << hex << Unsigned (se_vj e) << dec)%os in
        let os := (if negb (se_qk e =? -1) then os << " qk=ROB" << se_qk e
                   else os << " vk=0x" << hex << Unsigned (se_vk e) << dec)%os in
        let os := (if 0 <? se_cycles_rem e then os << " rem=" << se_cycles_rem e else os)%os in
        let os := (if se_done e then os << " DONE" else os)%os in
        (os << endl)%os).

Definition dump (s : ReservationStation) (os : ostream) (cycle : Z) : res ostream :=
  let os := (os << "[RS   cycle=" << setw 4 << cycle << "]" << endl)%os in
  foldM (dump_entry s) os (seq 0 (Z.to_nat (size_ s))).

Definition open_log (fs : FileSystem) (path : string) : ofstream := file_open fs path.

Definition log_cycle (log_ : ofstream) (s : ReservationStation) (cycle : Z) : res ofstream :=
  log_to log_ (fun os => dump s os cycle).
