(* ===== verification/LoadStoreBuffer.v ===== *)
(** * load_store_buffer.h, load_store_buffer.cpp: the load/store buffer *)

From S2P Require Import Prelude Words Ring Config Float32 OStream Instruction.
From S2P Require Import RegisterFile RegisterRemappingTable ReorderBuffer.
From S2P Require Import CommonDataBus DispatchUtils.

Inductive LSBState : Type := IDLE | WAITING | ADDR_READY | EXECUTING | DONE.

#[global] Instance LSBState_eq_dec : EqDecision LSBState.
Proof. solve_decision. Defined.

Record LSBEntry : Type := mkLSBEntry {
  le_state : LSBState;
  le_op : Opcode;
  le_rob_tag : Z;
  le_vj : Z;
  le_vk : Z;
  le_qj : Z;
  le_qk : Z;
  le_imm : Z;
  le_rd_fp : bool;
  le_eff_addr : Z;
  le_cycles_rem : Z;
  le_result : Z;
  le_pc : Z
}.

#[global] Instance LSBEntry_eq_dec : EqDecision LSBEntry.
Proof. solve_decision. Defined.

(** [LSBEntry{}] *)
Definition default_entry : LSBEntry :=
  mkLSBEntry IDLE NOP (-1) 0 0 (-1) (-1) 0 false 0 0 0 0.

(** Assignments to the fields an operation changes. *)
Definition set_operands (e : LSBEntry) (j k : Z * Z) : LSBEntry :=
  mkLSBEntry (le_state e) (le_op e) (le_rob_tag e) (fst j) (fst k) (snd j) (snd k) (le_imm e)
    (le_rd_fp e) (le_eff_addr e) (le_cycles_rem e) (le_result e) (le_pc e).
Definition set_addr (e : LSBEntry) (a : Z) : LSBEntry :=
  mkLSBEntry ADDR_READY (le_op e) (le_rob_tag e) (le_vj e) (le_vk e) (le_qj e) (le_qk e)
    (le_imm e) (le_rd_fp e) a (le_cycles_rem e) (le_result e) (le_pc e).
Definition set_state (e : LSBEntry) (s : LSBState) : LSBEntry :=
  mkLSBEntry s (le_op e) (le_rob_tag e) (le_vj e) (le_vk e) (le_qj e) (le_qk e)
    (le_imm e) (le_rd_fp e) (le_eff_addr e) (le_cycles_rem e) (le_result e) (le_pc e).
Definition set_cycles (e : LSBEntry) (c : Z) : LSBEntry :=
  mkLSBEntry (le_state e) (le_op e) (le_rob_tag e) (le_vj e) (le_vk e) (le_qj e) (le_qk e)
    (le_imm e) (le_rd_fp e) (le_eff_addr e) c (le_result e) (le_pc e).
Definition set_result (e : LSBEntry) (v : Z) : LSBEntry :=
  mkLSBEntry DONE (le_op e) (le_rob_tag e) (le_vj e) (le_vk e) (le_qj e) (le_qk e)
    (le_imm e) (le_rd_fp e) (le_eff_addr e) (le_cycles_rem e) v (le_pc e).

Record LoadStoreBuffer : Type := mkLoadStoreBuffer {
  size_ : Z;
  head_ : Z;
  tail_ : Z;
  count_ : Z;
  entries_ : list LSBEntry
}.

#[global] Instance LoadStoreBuffer_eq_dec : EqDecision LoadStoreBuffer.
Proof. solve_decision. Defined.

Definition create (size : Z) : res LoadStoreBuffer :=
  let! _ := require "LoadStoreBuffer::LoadStoreBuffer" (1 <=? size) in
  Ok (mkLoadStoreBuffer size 0 0 0 (replicate (Z.to_nat size) default_entry)).

Definition phys (b : LoadStoreBuffer) (logical : Z) : Z := Z.rem (head_ b + logical) (size_ b).

Definition full (b : LoadStoreBuffer) : bool := count_ b =? size_ b.
Definition empty (b : LoadStoreBuffer) : bool := count_ b =? 0.

Definition set_entries (b : LoadStoreBuffer) (es : list LSBEntry) : LoadStoreBuffer :=
  mkLoadStoreBuffer (size_ b) (head_ b) (tail_ b) (count_ b) es.

(** What [issue] stores in the slot whose old content is [e]; [eff_addr] keeps
    its old value. *)
Definition issue_entry (instr : Instruction) (rob_tag : Z) (rat : RegisterRemappingTable)
    (rf : RegisterFile) (rob : ReorderBuffer) (e : LSBEntry) : res LSBEntry :=
  let! j := resolve_operand (rs1 instr) false rat rf rob (le_vj e) in
  let! k := resolve_operand (rs2 instr) (rs2_fp instr) rat rf rob (le_vk e) in
  Ok (mkLSBEntry WAITING (op instr) rob_tag (fst j) (fst k) (snd j) (snd k) (imm instr)
        (rd_fp instr) (le_eff_addr e) 0 0 (pc instr)).

Definition issue (b : LoadStoreBuffer) (instr : Instruction) (rob_tag : Z)
    (rat : RegisterRemappingTable) (rf : RegisterFile) (rob : ReorderBuffer)
  : res (bool * LoadStoreBuffer) :=
  if full b then Ok (false, b)
  else
    let! e := vec_get (entries_ b) (tail_ b) in
    let! e' := issue_entry instr rob_tag rat rf rob e in
    let! es := vec_set (entries_ b) (tail_ b) e' in
    Ok (true, mkLoadStoreBuffer (size_ b) (head_ b) (Z.rem (tail_ b + 1) (size_ b))
                (count_ b + 1) es).

(** [for (i = 0; i < count_; ++i) { LSBEntry& e = entries_[phys(i)]; ... }]:
    the body sees the array as the iterations before it left it. *)
Definition for_entries (b : LoadStoreBuffer)
    (body : list LSBEntry -> nat -> LSBEntry -> res LSBEntry) : res LoadStoreBuffer :=
  let! es := foldM (fun es i =>
      let! e := vec_get es (phys b (Z.of_nat i)) in
      let! e' := body es i e in
      vec_set es (phys b (Z.of_nat i)) e')
    (entries_ b) (seq 0 (Z.to_nat (count_ b))) in
  Ok (set_entries b es).

(** The body of the inner loop of [snoop]. *)
Definition snoop_entry (r : CDBResult) (e : LSBEntry) : LSBEntry :=
  if bool_decide (le_state e = IDLE) || bool_decide (le_state e = DONE) then e
  else set_operands e (capture1 (le_vj e, le_qj e) r) (capture1 (le_vk e, le_qk e) r).

Definition snoop (b : LoadStoreBuffer) (cdb : CommonDataBus) : res LoadStoreBuffer :=
  foldM (fun b r => for_entries b (fun _ _ e => Ok (snoop_entry r e))) b (results cdb).

(** [(wa < mem.size()) ? mem[wa] : 0u] with [wa = eff_addr >> 2]. *)
Definition mem_read (mem : list Z) (eff_addr : Z) : res Z :=
  let wa := Z.shiftr eff_addr 2 in
  if wa <? len mem then vec_get mem wa else Ok 0.

(** Pass 1: effective address. *)
Definition pass1 (e : LSBEntry) : LSBEntry :=
  if negb (bool_decide (le_state e = WAITING)) || negb (le_qj e =? -1) then e
  else set_addr e (u32 (add32 (s32 (le_vj e)) (le_imm e))).

(** Pass 2: a store whose data is there is DONE. *)
Definition pass2 (e : LSBEntry) : LSBEntry :=
  if negb (bool_decide (le_state e = ADDR_READY)) || negb (is_store (le_op e))
     || negb (le_qk e =? -1) then e
  else set_state e DONE.

(** The scan of pass 3 over the older entries: whether the load is blocked,
    and the slot to forward from (-1 for none). *)
Fixpoint scan_older (b : LoadStoreBuffer) (es : list LSBEntry) (addr : Z) (js : list nat)
    (fwd_slot : Z) : res (bool * Z) :=
  match js with
  | [] => Ok (false, fwd_slot)
  | j :: js' =>
      let! older := vec_get es (phys b (Z.of_nat j)) in
      if negb (is_store (le_op older)) then scan_older b es addr js' fwd_slot
      else if bool_decide (le_state older = WAITING) then Ok (true, -1)
      else if negb (le_eff_addr older =? addr) then scan_older b es addr js' fwd_slot
      else if bool_decide (le_state older = DONE)
      then scan_older b es addr js' (Z.of_nat j)
      else Ok (true, -1)
  end.

(** Pass 3: a load forwards, starts its access, or stays blocked. *)
Definition pass3 (b : LoadStoreBuffer) (mem : list Z) (es : list LSBEntry) (i : nat)
    (e : LSBEntry) : res LSBEntry :=
  if negb (bool_decide (le_state e = ADDR_READY)) || negb (is_load (le_op e)) then Ok e
  else
    let! (blocked, fwd_slot) := scan_older b es (le_eff_addr e) (seq 0 i) (-1) in
    if blocked then Ok e
    else if 0 <=? fwd_slot then
      let! st := vec_get es (phys b fwd_slot) in Ok (set_result e (le_vk st))
    else
      let lat := latency_of (le_op e) in
      if lat <=? 1 then
        let! v := mem_read mem (le_eff_addr e) in Ok (set_result e v)
      else Ok (set_state (set_cycles e (lat - 1)) EXECUTING).

(** Pass 4: count executing loads down and read memory at zero. *)
Definition pass4 (mem : list Z) (e : LSBEntry) : res LSBEntry :=
  if negb (bool_decide (le_state e = EXECUTING)) then Ok e
  else
    let e' := set_cycles e (le_cycles_rem e - 1) in
    if le_cycles_rem e' =? 0 then
      let! v := mem_read mem (le_eff_addr e') in Ok (set_result e' v)
    else Ok e'.

Definition tick (b : LoadStoreBuffer) (mem : list Z) : res LoadStoreBuffer :=
  let! b1 := for_entries b (fun _ _ e => Ok (pass1 e)) in
  let! b2 := for_entries b1 (fun _ _ e => Ok (pass2 e)) in
  let! b3 := for_entries b2 (pass3 b2 mem) in
  for_entries b3 (fun _ _ e => pass4 mem e).

Definition has_load_result (b : LoadStoreBuffer) : res bool :=
  if empty b then Ok false
  else
    let! h := vec_get (entries_ b) (head_ b) in
    Ok (bool_decide (le_state h = DONE) && is_load (le_op h)).

(** The slot of the head is cleared and the head advances. *)
Definition pop_head (b : LoadStoreBuffer) : res LoadStoreBuffer :=
  let! es := vec_set (entries_ b) (head_ b) default_entry in
  Ok (mkLoadStoreBuffer (size_ b) (Z.rem (head_ b + 1) (size_ b)) (tail_ b) (count_ b - 1) es).

Definition pop_load_result (b : LoadStoreBuffer) : res (LSBEntry * LoadStoreBuffer) :=
  let! ready := has_load_result b in
  let! _ := require "LoadStoreBuffer::pop_load_result" ready in
  let! out := vec_get (entries_ b) (head_ b) in
  let! b' := pop_head b in
  Ok (out, b').

Definition can_commit_store (b : LoadStoreBuffer) : res bool :=
  if empty b then Ok false
  else
    let! h := vec_get (entries_ b) (head_ b) in
    Ok (bool_decide (le_state h = DONE) && is_store (le_op h)).

Definition commit_store (b : LoadStoreBuffer) (mem : list Z) : res (LoadStoreBuffer * list Z) :=
  let! ready := can_commit_store b in
  let! _ := require "LoadStoreBuffer::commit_store" ready in
  let! h := vec_get (entries_ b) (head_ b) in
  let wa := Z.shiftr (le_eff_addr h) 2 in
  let! mem' := (if wa <? len mem then vec_set mem wa (le_vk h) else Ok mem) in
  let! b' := pop_head b in
  Ok (b', mem').

Definition update_rob (b : LoadStoreBuffer) (rob : ReorderBuffer) : res ReorderBuffer :=
  foldM (fun rob i =>
      let! e := vec_get (entries_ b) (phys b (Z.of_nat i)) in
      if is_store (le_op e) && bool_decide (le_state e = DONE) then
        let! re := ReorderBuffer.peek rob (le_rob_tag e) in
        if bool_decide (ReorderBuffer.re_state re = ReorderBuffer.IN_FLIGHT)
        then ReorderBuffer.write_result rob (le_rob_tag e) 0
        else Ok rob
      else Ok rob)
    rob (seq 0 (Z.to_nat (count_ b))).

Definition flush (b : LoadStoreBuffer) : LoadStoreBuffer :=
  mkLoadStoreBuffer (size_ b) 0 0 0 (replicate (Z.to_nat (size_ b)) default_entry).

(** ** Output *)

Definition lsb_state_str (s : LSBState) : string :=
  match s with
  | IDLE => "IDLE"
  | WAITING => "WAIT"
  | ADDR_READY => "ARDY"
  | EXECUTING => "EXEC"
  | DONE => "DONE"
  end.

Definition dump_entry (b : LoadStoreBuffer) (os : ostream) (i : nat) : res ostream :=
  let! e := vec_get (entries_ b) (phys b (Z.of_nat i)) in
  let os := (os << "  [" << setw 2 << phys b (Z.of_nat i) << "] "
                << lsb_state_str (le_state e) << " " << opcode_name (le_op e)
                << " ROB=" << le_rob_tag e)%os in
  let os := (if negb (le_qj e =? -1) then os << " qj=ROB" << le_qj e
             else os << " vj=0x" << hex << Unsigned (le_vj e) << dec)%os in
  let os := (if is_store (le_op e) then
               if negb (le_qk e =? -1) then os << " qk=ROB" << le_qk e
               else os << " vk=0x" << hex << Unsigned (le_vk e) << dec
             else os)%os in
  let os := (if negb (bool_decide (le_state e = IDLE)) && negb (bool_decide (le_state e = WAITING))
             then os << " addr=0x" << hex << Unsigned (le_eff_addr e) << dec
             else os)%os in
  let os := (if 0 <? le_cycles_rem e then os << " rem=" << le_cycles_rem e else os)%os in
  Ok (os << " PC=0x" << hex << setw 4 << setfill "0" << Unsigned (le_pc e)
         << dec << setfill " " << endl)%os.

Definition dump (b : LoadStoreBuffer) (os : ostream) (cycle : Z) : res ostream :=
  let os := (os << "[LSB  cycle=" << setw 4 << cycle << "]" << " head=" << head_ b
                << " tail=" << tail_ b << " count=" << count_ b << "/" << size_ b << endl)%os in
  foldM (dump_entry b) os (seq 0 (Z.to_nat (count_ b))).

Definition open_log (fs : FileSystem) (path : string) : ofstream := file_open fs path.

Definition log_cycle (log_ : ofstream) (b : LoadStoreBuffer) (cycle : Z) : res ofstream :=
  log_to log_ (fun os => dump b os cycle).
