(* ===== verification/InstructionQueue.v ===== *)
(** * instruction_queue.h, instruction_queue.cpp: the fetch buffer

    The queue, and at the end that its buffer is a window of the program. *)

From S2P Require Import Prelude Words Config OStream Instruction.

Record InstructionQueue : Type := mkInstructionQueue {
  capacity_ : Z;
  program_ : list Instruction;
  pc_ : Z;
  buffer_ : list Instruction
}.

#[global] Instance InstructionQueue_eq_dec : EqDecision InstructionQueue.
Proof. solve_decision. Defined.

Definition create (capacity : Z) : res InstructionQueue :=
  let! _ := require "InstructionQueue::InstructionQueue" (1 <=? capacity) in
  Ok (mkInstructionQueue capacity [] 0 []).

(** Stamp each instruction with its byte address, [static_cast<uint32_t>(i) * 4]. *)
Definition stamp (prog : list Instruction) : list Instruction :=
  imap (fun i instr => set_pc instr (u32 (Z.of_nat i * 4))) prog.

Definition load_program (q : InstructionQueue) (prog : list Instruction) : InstructionQueue :=
  mkInstructionQueue (capacity_ q) (stamp prog) 0 [].

(** The loop of [tick]; [n] iterations are left. *)
Fixpoint fetch_loop (n : nat) (q : InstructionQueue) : res InstructionQueue :=
  match n with
  | O => Ok q
  | S n' =>
      if len (program_ q) <=? pc_ q then Ok q
      else if capacity_ q <=? len (buffer_ q) then Ok q
      else
        let! i := vec_get (program_ q) (pc_ q) in
        fetch_loop n' (mkInstructionQueue (capacity_ q) (program_ q) (pc_ q + 1)
                         (buffer_ q ++ [i]))
  end.

Definition tick (q : InstructionQueue) : res InstructionQueue :=
  fetch_loop (Z.to_nat IQ_FETCH_WIDTH) q.

Definition can_dispatch (q : InstructionQueue) : bool :=
  match buffer_ q with [] => false | _ => true end.

Definition peek (q : InstructionQueue) : res Instruction :=
  let! _ := require "InstructionQueue::peek" (can_dispatch q) in
  vec_get (buffer_ q) 0.

Definition dispatch (q : InstructionQueue) : res (Instruction * InstructionQueue) :=
  let! _ := require "InstructionQueue::dispatch" (can_dispatch q) in
  let! front := vec_get (buffer_ q) 0 in
  Ok (front, mkInstructionQueue (capacity_ q) (program_ q) (pc_ q) (drop 1 (buffer_ q))).

Definition done (q : InstructionQueue) : bool :=
  (len (program_ q) <=? pc_ q) && match buffer_ q with [] => true | _ => false end.

Definition seek (q : InstructionQueue) (byte_pc : Z) : InstructionQueue :=
  mkInstructionQueue (capacity_ q) (program_ q) (Z.shiftr byte_pc 2) [].

(** ** Output *)

Definition dump_instr (os : ostream) (i : Instruction) : ostream :=
  (os << "  [PC=0x" << hex << setw 4 << setfill "0" << Unsigned (pc i) << " " << opcode_name (op i)
      << "]" << dec << setfill " ")%os.

Definition dump (q : InstructionQueue) (os : ostream) (cycle : Z) : ostream :=
  let os := (os << "[IQ  cycle=" << setw 4 << cycle << "] " << "fetched=" << pc_ q
                << " buf=" << Unsigned (len (buffer_ q)) << "/" << capacity_ q)%os in
  (foldl dump_instr os (buffer_ q) << endl)%os.

Definition open_log (fs : FileSystem) (path : string) : ofstream := file_open fs path.

Definition log_cycle (log_ : ofstream) (q : InstructionQueue) (cycle : Z) : res ofstream :=
  log_to log_ (fun os => Ok (dump q os cycle)).

(** ** The fetch buffer is a window of the program *)

(** The buffer holds the instructions before the fetch pointer, in order. *)
Record window (q : InstructionQueue) (first : nat) : Prop := {
  wd_buffer : buffer_ q = take (length (buffer_ q)) (drop first (program_ q));
  wd_pc : pc_ q = Z.of_nat first + len (buffer_ q);
  wd_cap : len (buffer_ q) <= capacity_ q
}.

Lemma window_fetch n q k :
  window q k -> exists q', fetch_loop n q = Ok q' /\ window q' k /\
    program_ q' = program_ q /\ capacity_ q' = capacity_ q /\
    len (buffer_ q) <= len (buffer_ q') <= len (buffer_ q) + Z.of_nat n.
Proof.
  revert q. induction n as [|n IH]; intros q Hw; cbn [fetch_loop].
  { exists q. split_and!; try done; lia. }
  pose proof Hw as [Hb Hp Hc].
  destruct (Z.leb_spec (len (program_ q)) (pc_ q)); [exists q; split_and!; try done; lia|].
  destruct (Z.leb_spec (capacity_ q) (len (buffer_ q))); [exists q; split_and!; try done; lia|].
  destruct (vec_get_in_range (program_ q) (pc_ q)) as (i & -> & Hi); [lia|]. cbn [rbind].
  edestruct (IH (mkInstructionQueue (capacity_ q) (program_ q) (pc_ q + 1) (buffer_ q ++ [i])))
    as (q' & Hq' & Hw' & Hpr & Hcap & Hlen).
  - constructor; cbn; rewrite length_app; cbn [length]; [|lia|lia].
    rewrite Nat.add_1_r. erewrite take_S_r; [by rewrite <- Hb|].
    rewrite lookup_drop. rewrite <- Hi. f_equal. lia.
  - exists q'. cbn in *. rewrite length_app in Hlen. cbn [length] in Hlen.
    split_and!; try done; lia.
Qed.

Lemma window_dispatch q k :
  window q k -> can_dispatch q = true ->
  exists i q', peek q = Ok i /\ dispatch q = Ok (i, q') /\ program_ q !! k = Some i /\ window q' (S k).
Proof.
  intros [Hb Hp Hc] Hcan. unfold peek, dispatch. rewrite Hcan. cbn [require rbind].
  unfold can_dispatch in Hcan. destruct q as [cap pr p0 buf]. cbn in *.
  destruct buf as [|i buf]; [done|].
  assert (Hi : pr !! k = Some i).
  { rewrite <- (Nat.add_0_r k), <- lookup_drop. cbn [length take] in Hb.
    destruct (drop k pr); [done|]. cbn [take] in Hb. by injection Hb as <-. }
  eexists i, _. split; [done|]. split; [done|]. split; [done|].
  assert (Hd : drop 1 (i :: buf) = buf) by (by cbn; rewrite drop_0).
  rewrite Hd. cbn [length] in *. constructor; cbn; [|lia|lia].
  rewrite (drop_S _ i k Hi) in Hb. cbn [take] in Hb. by injection Hb.
Qed.

Lemma window_seek q a : 0 <= a -> 0 <= capacity_ q -> window (seek q a) (Z.to_nat (a / 4)).
Proof.
  intros Ha Hc. assert (0 <= a / 4) by (apply Z.div_pos; lia).
  constructor; cbn; [by rewrite take_0| |done].
  rewrite Z.shiftr_div_pow2 by lia. change (2 ^ 2) with 4. lia.
Qed.
