(* ===== verification/CommitUnit.v ===== *)
(** * commit_unit.h, commit_unit.cpp: in-order retirement *)

From S2P Require Import Prelude Words Config Float32 OStream Instruction.
From S2P Require Import RegisterFile RegisterRemappingTable ReorderBuffer LoadStoreBuffer.

Record CommitRecord : Type := mkCommitRecord {
  cr_valid : bool;
  cr_op : Opcode;
  cr_rd : Z;
  cr_rd_fp : bool;
  cr_result : Z;
  cr_pc : Z
}.

#[global] Instance CommitRecord_eq_dec : EqDecision CommitRecord.
Proof. solve_decision. Defined.

(** [CommitRecord{}] *)
Definition default_record : CommitRecord := mkCommitRecord false NOP (-1) false 0 0.

(** What a tick reads and writes: the units it is passed by reference, the two
    output parameters, and [last_]. *)
Record CommitState : Type := mkCommitState {
  cs_rob : ReorderBuffer;
  cs_rf : RegisterFile;
  cs_rat : RegisterRemappingTable;
  cs_lsb : LoadStoreBuffer;
  cs_mem : list Z;
  cs_next_pc : Z;
  cs_halted : bool;
  cs_last : CommitRecord
}.

Definition record_of (e : ROBEntry) : CommitRecord :=
  mkCommitRecord true (re_op e) (re_rd e) (re_rd_fp e) (re_result e) (re_pc e).

(** [CommitUnit::tick]: [false] with an idle record when the head is not
    ready. *)
Definition tick (s : CommitState) : res (bool * CommitState) :=
  let '(mkCommitState rob rf rat lsb mem next_pc halted _) := s in
  let! ready := ReorderBuffer.head_ready rob in
  if negb ready then
    Ok (false, mkCommitState rob rf rat lsb mem next_pc halted default_record)
  else
    let! rob_tag := ReorderBuffer.head_tag rob in
    let! (entry, rob') := ReorderBuffer.commit rob in
    let last := record_of entry in
    if op_eqb (re_op entry) HALT then
      Ok (true, mkCommitState rob' rf rat lsb mem next_pc true last)
    else if is_branch (re_op entry) then
      Ok (true, mkCommitState rob' rf rat lsb mem (re_result entry) halted last)
    else if is_jump (re_op entry) then
      if 0 <=? re_rd entry then
        let! rf' := RegisterFile.write_int rf (re_rd entry) (s32 (addu32 (re_pc entry) 4)) in
        let! rat' := RegisterRemappingTable.commit rat (re_rd entry) false rob_tag in
        Ok (true, mkCommitState rob' rf' rat' lsb mem (re_result entry) halted last)
      else
        Ok (true, mkCommitState rob' rf rat lsb mem (re_result entry) halted last)
    else if is_store (re_op entry) then
      let! ok := LoadStoreBuffer.can_commit_store lsb in
      let! _ := require "CommitUnit::tick" ok in
      let! (lsb', mem') := LoadStoreBuffer.commit_store lsb mem in
      Ok (true, mkCommitState rob' rf rat lsb' mem' next_pc halted last)
    else if 0 <=? re_rd entry then
      let! rf' := (if re_rd_fp entry
                   then RegisterFile.write_fp rf (re_rd entry) (bits_to_float (re_result entry))
                   else RegisterFile.write_int rf (re_rd entry) (s32 (re_result entry))) in
      let! rat' := RegisterRemappingTable.commit rat (re_rd entry) (re_rd_fp entry) rob_tag in
      Ok (true, mkCommitState rob' rf' rat' lsb mem next_pc halted last)
    else
      Ok (true, mkCommitState rob' rf rat lsb mem next_pc halted last).

(** ** Output *)

(** [dump] reads [last_] only. *)
Definition dump (last_ : CommitRecord) (os : ostream) (cycle : Z) : ostream :=
  let os := (os << "[CU   cycle=" << setw 4 << cycle << "]")%os in
  if negb (cr_valid last_) then (os << " idle" << endl)%os
  else
    let os := (os << " COMMIT " << opcode_name (cr_op last_) << " PC=0x" << hex << setw 4
                  << setfill "0" << Unsigned (cr_pc last_) << dec << setfill " ")%os in
    let os := (if 0 <=? cr_rd last_
               then os << " " << (if cr_rd_fp last_ then "f" else "x") << cr_rd last_
                       << "=0x" << hex << Unsigned (cr_result last_) << dec
               else os)%os in
    (os << endl)%os.

Definition open_log (fs : FileSystem) (path : string) : ofstream := file_open fs path.

Definition log_cycle (log_ : ofstream) (last_ : CommitRecord) (cycle : Z) : res ofstream :=
  log_to log_ (fun os => Ok (dump last_ os cycle)).
