(* ===== verification/Simulator.v ===== *)
(** * sim.cpp: dispatch and the clock loop

    The units are the fields of [Sim]; a pointer or reference to one of the six
    reservation stations is an [RSId]. The per-cycle dumps and logs, which
    read the units and write to streams only, are in Output. *)

From S2P Require Import Prelude Words Config Float32 Instruction.
From S2P Require Import RegisterFile RegisterRemappingTable ReorderBuffer.
From S2P Require Import CommonDataBus ReservationStation LoadStoreBuffer.
From S2P Require Import InstructionQueue CommitUnit.

Inductive RSId : Type :=
| rs_alu | rs_branch | rs_fp_addsub | rs_fp_mul | rs_fp_div | rs_fp_cvt.

#[global] Instance RSId_eq_dec : EqDecision RSId.
Proof. solve_decision. Defined.

(** [{&rs_alu, &rs_branch, &rs_fp_addsub, &rs_fp_mul, &rs_fp_div, &rs_fp_cvt}] *)
Definition rs_ids : list RSId :=
  [rs_alu; rs_branch; rs_fp_addsub; rs_fp_mul; rs_fp_div; rs_fp_cvt].

Record Stations : Type := mkStations {
  st_alu : ReservationStation;
  st_branch : ReservationStation;
  st_fp_addsub : ReservationStation;
  st_fp_mul : ReservationStation;
  st_fp_div : ReservationStation;
  st_fp_cvt : ReservationStation
}.

(** [*rs], and [*rs = v]. *)
Definition station (ss : Stations) (k : RSId) : ReservationStation :=
  match k with
  | rs_alu => st_alu ss
  | rs_branch => st_branch ss
  | rs_fp_addsub => st_fp_addsub ss
  | rs_fp_mul => st_fp_mul ss
  | rs_fp_div => st_fp_div ss
  | rs_fp_cvt => st_fp_cvt ss
  end.

Definition set_station (ss : Stations) (k : RSId) (v : ReservationStation) : Stations :=
  let '(mkStations a b c d e f) := ss in
  match k with
  | rs_alu => mkStations v b c d e f
  | rs_branch => mkStations a v c d e f
  | rs_fp_addsub => mkStations a b v d e f
  | rs_fp_mul => mkStations a b c v e f
  | rs_fp_div => mkStations a b c d v f
  | rs_fp_cvt => mkStations a b c d e v
  end.

Record Sim : Type := mkSim {
  mem : list Z;
  rf : RegisterFile;
  rat : RegisterRemappingTable;
  rob : ReorderBuffer;
  cdb : CommonDataBus;
  stations : Stations;
  lsb : LoadStoreBuffer;
  iq : InstructionQueue;
  last : CommitRecord;
  halted : bool;
  branch_in_flight : bool;
  cycle : Z
}.

(** Where [try_dispatch] sends an operation: a station, or the LSB. *)
Definition target_rs (o : Opcode) : option RSId :=
  if is_load o || is_store o then None
  else if is_branch o || is_jump o then Some rs_branch
  else match o with
       | FADD_S | FSUB_S => Some rs_fp_addsub
       | FMUL_S => Some rs_fp_mul
       | FDIV_S => Some rs_fp_div
       | FCVT_W_S | FCVT_S_W => Some rs_fp_cvt
       | _ => Some rs_alu
       end.

(** [if (instr.rd >= 0) rat.map(instr.rd, instr.rd_fp, rob_tag);] *)
Definition map_dest (rat : RegisterRemappingTable) (instr : Instruction) (rob_tag : Z)
  : res RegisterRemappingTable :=
  if 0 <=? rd instr then RegisterRemappingTable.map rat (rd instr) (rd_fp instr) rob_tag
  else Ok rat.

(** What dispatch changes. *)
Record Front : Type := mkFront {
  fr_iq : InstructionQueue;
  fr_rob : ReorderBuffer;
  fr_rat : RegisterRemappingTable;
  fr_stations : Stations;
  fr_lsb : LoadStoreBuffer;
  fr_branch : bool           (* branch_dispatched *)
}.

(** [try_dispatch]: whether an instruction was issued, and the units. *)
Definition try_dispatch (fr : Front) (rf : RegisterFile) : res (bool * Front) :=
  let '(mkFront iq rob rat ss lsb bd) := fr in
  if negb (InstructionQueue.can_dispatch iq) then Ok (false, fr)
  else
    let! instr := InstructionQueue.peek iq in
    let full_rob := ReorderBuffer.full rob in
    let bd' := bd || (is_branch (op instr) || is_jump (op instr)) in
    match target_rs (op instr) with
    | None =>
        if negb full_rob && negb (LoadStoreBuffer.full lsb) then
          let! (rob_tag, rob') := ReorderBuffer.allocate rob instr in
          let! (_, lsb') := LoadStoreBuffer.issue lsb instr rob_tag rat rf rob' in
          let! rat' := map_dest rat instr rob_tag in
          let! (_, iq') := InstructionQueue.dispatch iq in
          Ok (true, mkFront iq' rob' rat' ss lsb' bd')
        else Ok (false, fr)
    | Some k =>
        if negb full_rob && negb (ReservationStation.full (station ss k)) then
          let! (rob_tag, rob') := ReorderBuffer.allocate rob instr in
          let! (_, s') := ReservationStation.issue (station ss k) instr rob_tag rat rf rob' in
          let! rat' := map_dest rat instr rob_tag in
          let! (_, iq') := InstructionQueue.dispatch iq in
          Ok (true, mkFront iq' rob' rat' (set_station ss k s') lsb bd')
        else Ok (false, fr)
    end.

(** ** The phases of one cycle *)

Section Cycle.
Context `{FE : FPEnv}.

(** Phase 1, the stations: [rs_alu.tick(); ... rs_fp_cvt.tick();] *)
Definition tick_stations (ss : Stations) : Stations :=
  foldl (fun ss k => set_station ss k (ReservationStation.tick (station ss k))) ss rs_ids.

(** Phase 3, one station: [while (rs->has_result()) { ... }]; every iteration
    frees a slot, and [fuel] is the number of slots plus one. *)
Fixpoint drain (fuel : nat) (s : ReservationStation) (rob : ReorderBuffer) (cdb : CommonDataBus)
  : res (ReservationStation * ReorderBuffer * CommonDataBus) :=
  if negb (ReservationStation.has_result s) then Ok (s, rob, cdb)
  else match fuel with
       | O => Stop OutOfFuel
       | S fuel' =>
           let! (r, s') := ReservationStation.pop_result s in
           let! rob' := ReorderBuffer.write_result rob (se_rob_tag r) (se_result r) in
           drain fuel' s' rob' (CommonDataBus.broadcast cdb (se_rob_tag r) (se_result r))
       end.

Definition drain_station (x : Stations * ReorderBuffer * CommonDataBus) (k : RSId)
  : res (Stations * ReorderBuffer * CommonDataBus) :=
  let '(ss, rob, cdb) := x in
  let s := station ss k in
  let! (s', rob', cdb') :=
    drain (S (length (ReservationStation.entries_ s))) s rob cdb in
  Ok (set_station ss k s', rob', cdb').

(** [while (lsb.has_load_result()) { ... }] *)
Fixpoint drain_lsb (fuel : nat) (b : LoadStoreBuffer) (rob : ReorderBuffer) (cdb : CommonDataBus)
  : res (LoadStoreBuffer * ReorderBuffer * CommonDataBus) :=
  let! ready := LoadStoreBuffer.has_load_result b in
  if negb ready then Ok (b, rob, cdb)
  else match fuel with
       | O => Stop OutOfFuel
       | S fuel' =>
           let! (r, b') := LoadStoreBuffer.pop_load_result b in
           let! rob' := ReorderBuffer.write_result rob (le_rob_tag r) (le_result r) in
           drain_lsb fuel' b' rob' (CommonDataBus.broadcast cdb (le_rob_tag r) (le_result r))
       end.

(** Phases 1 to 3: execute, report finished stores, broadcast results. *)
Definition execute_phase (s : Sim) : res Sim :=
  let ss1 := tick_stations (stations s) in
  let! lsb1 := LoadStoreBuffer.tick (lsb s) (mem s) in
  let! rob1 := LoadStoreBuffer.update_rob lsb1 (rob s) in
  let! (ss2, rob2, cdb2) := foldM drain_station (ss1, rob1, cdb s) rs_ids in
  let! (lsb3, rob3, cdb3) := drain_lsb (S (length (LoadStoreBuffer.entries_ lsb1))) lsb1 rob2 cdb2 in
  Ok (mkSim (mem s) (rf s) (rat s) rob3 cdb3 ss2 lsb3 (iq s) (last s) (halted s)
        (branch_in_flight s) (cycle s)).

(** Phase 4: every station and the LSB listen to the bus. *)
Definition snoop_phase (s : Sim) : res Sim :=
  let ss' := foldl (fun ss k =>
    set_station ss k (ReservationStation.snoop (station ss k) (cdb s))) (stations s) rs_ids in
  let! lsb' := LoadStoreBuffer.snoop (lsb s) (cdb s) in
  Ok (mkSim (mem s) (rf s) (rat s) (rob s) (cdb s) ss' lsb' (iq s) (last s) (halted s)
        (branch_in_flight s) (cycle s)).

(** Phase 5: commit; a branch or jump redirects fetch. *)
Definition commit_phase (s : Sim) : res Sim :=
  let! (committed, c) := CommitUnit.tick
    (mkCommitState (rob s) (rf s) (rat s) (lsb s) (mem s) 0 (halted s) (last s)) in
  let redirect := committed && (is_branch (cr_op (cs_last c)) || is_jump (cr_op (cs_last c))) in
  Ok (mkSim (cs_mem c) (cs_rf c) (cs_rat c) (cs_rob c) (cdb s) (stations s) (cs_lsb c)
        (if redirect then InstructionQueue.seek (iq s) (cs_next_pc c) else iq s)
        (cs_last c) (cs_halted c)
        (if redirect then false else branch_in_flight s) (cycle s)).

(** Phase 6, the dispatch loop; [n] iterations are left. *)
Fixpoint dispatch_loop (n : nat) (s : Sim) : res Sim :=
  match n with
  | O => Ok s
  | S n' =>
      let! peek_pc := (if InstructionQueue.can_dispatch (iq s)
                       then let! i := InstructionQueue.peek (iq s) in Ok (pc i)
                       else Ok 0) in
      let! (issued, fr) := try_dispatch
        (mkFront (iq s) (rob s) (rat s) (stations s) (lsb s) false) (rf s) in
      let s' q b := mkSim (mem s) (rf s) (fr_rat fr) (fr_rob fr) (cdb s) (fr_stations fr)
                      (fr_lsb fr) q (last s) (halted s) b (cycle s) in
      if negb issued then Ok (s' (fr_iq fr) (branch_in_flight s))
      else if fr_branch fr then
        Ok (s' (InstructionQueue.seek (fr_iq fr) (addu32 peek_pc 4)) true)
      else dispatch_loop n' (s' (fr_iq fr) (branch_in_flight s))
  end.

Definition fetch_dispatch_phase (s : Sim) : res Sim :=
  if negb (branch_in_flight s) && negb (halted s) then
    let! q := InstructionQueue.tick (iq s) in
    dispatch_loop (Z.to_nat IQ_FETCH_WIDTH)
      (mkSim (mem s) (rf s) (rat s) (rob s) (cdb s) (stations s) (lsb s) q (last s) (halted s)
         (branch_in_flight s) (cycle s))
  else Ok s.

(** Phase 7 and the end of the loop body: clear the bus, [++cycle]. *)
Definition end_cycle (s : Sim) : Sim :=
  mkSim (mem s) (rf s) (rat s) (rob s) (CommonDataBus.flush (cdb s)) (stations s) (lsb s)
    (iq s) (last s) (halted s) (branch_in_flight s) (cycle s + 1).

(** One iteration of the clock loop, without its final [break] test. *)
Definition step_cycle (s : Sim) : res Sim :=
  let! s1 := execute_phase s in
  let! s2 := snoop_phase s1 in
  let! s3 := commit_phase s2 in
  let! s4 := fetch_dispatch_phase s3 in
  Ok (end_cycle s4).

(** [if (!halted && iq.done() && rob.empty()) break;] *)
Definition finished (s : Sim) : bool :=
  negb (halted s) && InstructionQueue.done (iq s) && ReorderBuffer.empty (rob s).

Definition MAX_CYCLES : Z := 200000.

(** [while (!halted && cycle <= MAX_CYCLES)]; every iteration counts a cycle,
    and [main] gives one unit of fuel more than the limit. *)
Fixpoint clock_loop (fuel : nat) (s : Sim) : res Sim :=
  if negb (halted s) && (cycle s <=? MAX_CYCLES) then
    match fuel with
    | O => Stop OutOfFuel
    | S fuel' =>
        let! s' := step_cycle s in
        if finished s' then Ok s' else clock_loop fuel' s'
    end
  else Ok s.

End Cycle.

(** The units [main] creates, with the program loaded. *)
Definition init_sim (program : list Instruction) : res Sim :=
  let! rob := ReorderBuffer.create ROB_SIZE in
  let! lsb := LoadStoreBuffer.create LSB_SIZE in
  let! iq := InstructionQueue.create IQ_CAPACITY in
  Ok (mkSim (replicate (Z.to_nat MEM_SIZE) 0) RegisterFile.init RegisterRemappingTable.flush rob
        CommonDataBus.init
        (mkStations (ReservationStation.create RS_ALU_SIZE)
                    (ReservationStation.create RS_BRANCH_SIZE)
                    (ReservationStation.create RS_FP_ADDSUB_SIZE)
                    (ReservationStation.create RS_FP_MUL_SIZE)
                    (ReservationStation.create RS_FP_DIV_SIZE)
                    (ReservationStation.create RS_FP_CVT_SIZE))
        lsb (InstructionQueue.load_program iq program) default_record false false 1).

(** [main] from the decoded program to the final state. *)
Definition simulate `{FE : FPEnv} (program : list Instruction) : res Sim :=
  let! s := init_sim program in
  clock_loop (Z.to_nat (MAX_CYCLES + 1)) s.
