(* ===== verification/Output.v ===== *)
(** * sim.cpp: the command line, the files and what they are given

    [main] with its streams: the dumps and logs of every cycle, final_regs.txt
    and the console. The machine itself is that of Simulator. *)

From stdpp Require Import strings.
From S2P Require Import Prelude Words Config Float32 Text Numerals OStream Instruction.
From S2P Require Import Assembler RegisterFile RegisterRemappingTable ReorderBuffer.
From S2P Require Import CommonDataBus ReservationStation LoadStoreBuffer.
From S2P Require Import InstructionQueue CommitUnit Simulator.

Local Open Scope Z_scope.

(** ** The streams of a run *)

(** [trace], and the [log_] of each unit. *)
Record Streams : Type := mkStreams {
  io_trace : ofstream;
  io_iq : ofstream;
  io_rob : ofstream;
  io_rs_alu : ofstream;
  io_rs_branch : ofstream;
  io_rs_fp_addsub : ofstream;
  io_rs_fp_mul : ofstream;
  io_rs_fp_div : ofstream;
  io_rs_fp_cvt : ofstream;
  io_lsb : ofstream;
  io_cdb : ofstream;
  io_rat : ofstream;
  io_rf : ofstream;
  io_cu : ofstream
}.

(** The calls of [open_log], then the trace. *)
Definition open_logs (fs : FileSystem) (log_path : string -> string) : Streams :=
  mkStreams (file_open fs (log_path "trace.txt"))
    (InstructionQueue.open_log fs (log_path "iq.log"))
    (ReorderBuffer.open_log fs (log_path "rob.log"))
    (ReservationStation.open_log fs (log_path "rs_alu.log"))
    (ReservationStation.open_log fs (log_path "rs_branch.log"))
    (ReservationStation.open_log fs (log_path "rs_fp_addsub.log"))
    (ReservationStation.open_log fs (log_path "rs_fp_mul.log"))
    (ReservationStation.open_log fs (log_path "rs_fp_div.log"))
    (ReservationStation.open_log fs (log_path "rs_fp_cvt.log"))
    (LoadStoreBuffer.open_log fs (log_path "lsb.log"))
    (CommonDataBus.open_log fs (log_path "cdb.log"))
    (RegisterRemappingTable.open_log fs (log_path "rat.log"))
    (RegisterFile.open_log fs (log_path "rf.log"))
    (CommitUnit.open_log fs (log_path "cu.log")).

(** The state at the start of a cycle, as it goes to the trace. *)
Definition dump_cycle (s : Sim) (os : ostream) : res ostream :=
  let c := cycle s in
  let ss := stations s in
  let os := (os << endl << "=== CYCLE " << c << " ===" << endl)%os in
  let os := InstructionQueue.dump (iq s) os c in
  let! os := ReorderBuffer.dump (rob s) os c in
  let! os := ReservationStation.dump (st_alu ss) os c in
  let! os := ReservationStation.dump (st_branch ss) os c in
  let! os := ReservationStation.dump (st_fp_addsub ss) os c in
  let! os := ReservationStation.dump (st_fp_mul ss) os c in
  let! os := ReservationStation.dump (st_fp_div ss) os c in
  let! os := ReservationStation.dump (st_fp_cvt ss) os c in
  let! os := LoadStoreBuffer.dump (lsb s) os c in
  let! os := RegisterRemappingTable.dump (rat s) os c in
  Ok (CommitUnit.dump (last s) os c).

(** The [log_cycle] calls at the start of a cycle; the trace has had its
    dump. *)
Definition log_units (s : Sim) (io : Streams) : res Streams :=
  let c := cycle s in
  let ss := stations s in
  let! l_iq := InstructionQueue.log_cycle (io_iq io) (iq s) c in
  let! l_rob := ReorderBuffer.log_cycle (io_rob io) (rob s) c in
  let! l_alu := ReservationStation.log_cycle (io_rs_alu io) (st_alu ss) c in
  let! l_branch := ReservationStation.log_cycle (io_rs_branch io) (st_branch ss) c in
  let! l_addsub := ReservationStation.log_cycle (io_rs_fp_addsub io) (st_fp_addsub ss) c in
  let! l_mul := ReservationStation.log_cycle (io_rs_fp_mul io) (st_fp_mul ss) c in
  let! l_div := ReservationStation.log_cycle (io_rs_fp_div io) (st_fp_div ss) c in
  let! l_cvt := ReservationStation.log_cycle (io_rs_fp_cvt io) (st_fp_cvt ss) c in
  let! l_lsb := LoadStoreBuffer.log_cycle (io_lsb io) (lsb s) c in
  let! l_rat := RegisterRemappingTable.log_cycle (io_rat io) (rat s) c in
  let! l_rf := RegisterFile.log_cycle (io_rf io) (rf s) c in
  let! l_cu := CommitUnit.log_cycle (io_cu io) (last s) c in
  Ok (mkStreams (io_trace io) l_iq l_rob l_alu l_branch l_addsub l_mul l_div l_cvt l_lsb
        (io_cdb io) l_rat l_rf l_cu).

Definition dump_start (s : Sim) (io : Streams) : res Streams :=
  let! tr := write_to (io_trace io) (dump_cycle s) in
  log_units s (mkStreams tr (io_iq io) (io_rob io) (io_rs_alu io) (io_rs_branch io)
    (io_rs_fp_addsub io) (io_rs_fp_mul io) (io_rs_fp_div io) (io_rs_fp_cvt io) (io_lsb io)
    (io_cdb io) (io_rat io) (io_rf io) (io_cu io)).

(** After the broadcasts of phase 3: [cdb.dump(trace, cycle); cdb.log_cycle(cycle);] *)
Definition dump_bus (s : Sim) (io : Streams) : res Streams :=
  let! tr := write_to (io_trace io) (fun os => Ok (CommonDataBus.dump (cdb s) os (cycle s))) in
  let! l_cdb := CommonDataBus.log_cycle (io_cdb io) (cdb s) (cycle s) in
  Ok (mkStreams tr (io_iq io) (io_rob io) (io_rs_alu io) (io_rs_branch io)
        (io_rs_fp_addsub io) (io_rs_fp_mul io) (io_rs_fp_div io) (io_rs_fp_cvt io) (io_lsb io)
        l_cdb (io_rat io) (io_rf io) (io_cu io)).

Section Main.
Context `{FE : FPEnv}.

(** One iteration of the clock loop with its output. *)
Definition step_cycle_io (x : Sim * Streams) : res (Sim * Streams) :=
  let '(s, io) := x in
  let! io1 := dump_start s io in
  let! s1 := execute_phase s in
  let! io2 := dump_bus s1 io1 in
  let! s2 := snoop_phase s1 in
  let! s3 := commit_phase s2 in
  let! s4 := fetch_dispatch_phase s3 in
  Ok (end_cycle s4, io2).

Fixpoint clock_loop_io (fuel : nat) (x : Sim * Streams) : res (Sim * Streams) :=
  if negb (halted (fst x)) && (cycle (fst x) <=? MAX_CYCLES) then
    match fuel with
    | O => Stop OutOfFuel
    | S fuel' =>
        let! x' := step_cycle_io x in
        if finished (fst x') then Ok x' else clock_loop_io fuel' x'
    end
  else Ok x.

(** ** final_regs.txt *)

Definition final_int (s : Sim) (os : ostream) (i : nat) : res ostream :=
  let! v := RegisterFile.read_int (rf s) (Z.of_nat i) in
  Ok (os << "x" << setw 2 << setfill "0" << Z.of_nat i << " 0x" << hex << setw 8 << setfill "0"
         << Unsigned (u32 v) << dec << setfill " " << endl)%os.

Definition final_fp (s : Sim) (os : ostream) (i : nat) : res ostream :=
  let! f := RegisterFile.read_fp (rf s) (Z.of_nat i) in
  Ok (os << "f" << setw 2 << setfill "0" << Z.of_nat i << " 0x" << hex << setw 8 << setfill "0"
         << Unsigned (float_to_bits f) << dec << setfill " " << " (" << Float f << "f)" << endl)%os.

Definition final_mem (s : Sim) (os : ostream) (i : nat) : res ostream :=
  let! v := vec_get (mem s) (Z.of_nat i) in
  Ok (if v =? 0 then os
      else os << "mem[" << setw 4 << Z.of_nat i << "] 0x" << hex << setw 8 << setfill "0"
              << Unsigned v << dec << setfill " " << endl)%os.

Definition final_state (asm_path : string) (s : Sim) (os : ostream) : res ostream :=
  let final_cycle := cycle s - 1 in
  let os := (os << "# Tomasulo simulation: " << asm_path << endl
                << "# Total cycles: " << final_cycle << endl << endl << "[INT_REGS]" << endl)%os in
  let! os := foldM (final_int s) os (seq 0 (Z.to_nat NUM_INT_REGS)) in
  let os := (os << endl << "[FP_REGS]" << endl)%os in
  let! os := foldM (final_fp s) os (seq 0 (Z.to_nat NUM_FP_REGS)) in
  let os := (os << endl << "[MEM_NONZERO]" << endl)%os in
  foldM (final_mem s) os (seq 0 (Z.to_nat MEM_SIZE)).

(** The end of the trace. *)
Definition dump_final (s : Sim) (os : ostream) : res ostream :=
  let final_cycle := cycle s - 1 in
  let os := (os << endl << "=== FINAL STATE (cycle " << final_cycle << ") ===" << endl)%os in
  RegisterFile.dump (rf s) os final_cycle.

(** ** The program *)

(** What a run leaves: the exit code, the console, the directories asked for
    and the files written, in the order they were opened. *)
Record Exit : Type := mkExit {
  exit_code : Z;
  out_cout : string;
  out_cerr : string;
  out_dirs : list string;
  out_files : list (string * string)
}.

Definition closed (path : string) (f : ofstream) : list (string * string) :=
  match f with Some os => [(path, os_text os)] | None => [] end.

Definition log_files (log_path : string -> string) (io : Streams) : list (string * string) :=
  closed (log_path "iq.log") (io_iq io) ++ closed (log_path "rob.log") (io_rob io) ++
  closed (log_path "rs_alu.log") (io_rs_alu io) ++
  closed (log_path "rs_branch.log") (io_rs_branch io) ++
  closed (log_path "rs_fp_addsub.log") (io_rs_fp_addsub io) ++
  closed (log_path "rs_fp_mul.log") (io_rs_fp_mul io) ++
  closed (log_path "rs_fp_div.log") (io_rs_fp_div io) ++
  closed (log_path "rs_fp_cvt.log") (io_rs_fp_cvt io) ++
  closed (log_path "lsb.log") (io_lsb io) ++ closed (log_path "cdb.log") (io_cdb io) ++
  closed (log_path "rat.log") (io_rat io) ++ closed (log_path "rf.log") (io_rf io) ++
  closed (log_path "cu.log") (io_cu io) ++ closed (log_path "trace.txt") (io_trace io).

(** [std::filesystem::create_directories(path)] *)
Definition create_directories (fs : FileSystem) (path : string) : res unit :=
  if makeable fs path then Ok tt else Stop (Uncaught "std::filesystem::filesystem_error").

(** [parse_program(path)]: the instructions, and what it writes to [cerr]. *)
Definition parse_file (fs : FileSystem) (path : string) : res (list Instruction * string) :=
  match readable fs path with
  | None => Ok ([], "Cannot open program: " +:+ path +:+ String newline EmptyString)
  | Some text =>
      let! program := parse_program (getlines text) in
      Ok (program, parse_messages (getlines text))
  end.

(** The message on [std::cout]. *)
Definition done_message (out_dir : string) (s : Sim) (os : ostream) : ostream :=
  (os << "Done. " << (cycle s - 1) << " cycles." << endl
      << "  logs/  -> " << (out_dir +:+ "/logs") << "/" << endl
      << "  final/ -> " << (out_dir +:+ "/final") << "/" << endl)%os.

(** From the decoded program on. *)
Definition run_program (fs : FileSystem) (asm_path out_dir cerr : string) (program : list Instruction)
  : res Exit :=
  let logs_dir := out_dir +:+ "/logs" in
  let final_dir := out_dir +:+ "/final" in
  let log_path name := logs_dir +:+ "/" +:+ name in
  let final_path name := final_dir +:+ "/" +:+ name in
  let io := open_logs fs log_path in
  let! s := init_sim program in
  let! (s, io) := clock_loop_io (Z.to_nat (MAX_CYCLES + 1)) (s, io) in
  let! final_f := write_to (file_open fs (final_path "final_regs.txt")) (final_state asm_path s) in
  let! tr := write_to (io_trace io) (dump_final s) in
  let io := mkStreams tr (io_iq io) (io_rob io) (io_rs_alu io) (io_rs_branch io)
    (io_rs_fp_addsub io) (io_rs_fp_mul io) (io_rs_fp_div io) (io_rs_fp_cvt io) (io_lsb io)
    (io_cdb io) (io_rat io) (io_rf io) (io_cu io) in
  let cout := done_message out_dir s (fresh_os EmptyString) in
  Ok (mkExit 0 (os_text cout) cerr [logs_dir; final_dir]
        (log_files log_path io ++ closed (final_path "final_regs.txt") final_f)).

(** [main(argc, argv)]; [argv0] is [argv[0]], [args] the rest. *)
Definition main (fs : FileSystem) (argv0 : string) (args : list string) : res Exit :=
  match args with
  | asm_path :: out_dir :: _ =>
      let! _ := create_directories fs (out_dir +:+ "/logs") in
      let! _ := create_directories fs (out_dir +:+ "/final") in
      let! (program, cerr) := parse_file fs asm_path in
      match program with
      | [] => Ok (mkExit 1 EmptyString
                    (cerr +:+ "No instructions loaded." +:+ String newline EmptyString)
                    [out_dir +:+ "/logs"; out_dir +:+ "/final"] [])
      | _ => run_program fs asm_path out_dir cerr program
      end
  | _ => Ok (mkExit 1 EmptyString
               ("Usage: " +:+ argv0 +:+ " <program.asm> <output_dir/>" +:+ String newline EmptyString)
               [] [])
  end.

End Main.
