(* ===== verification/ISA.v ===== *)
(** * The sequential machine

    The architecture the pipeline implements, one instruction at a time: the
    operation tables of docs/ISA.md over registers and memory as functions. It
    does not mention any pipeline unit; arithmetic is stated on the integers
    modulo 2^32 rather than through the casts of the C++ code. *)

From S2P Require Import Prelude Words Config Float32 Instruction.

(** Signed reading of a word. *)
Definition signed (x : Z) : Z := if x <? 2 ^ 31 then x else x - 2 ^ 32.

Record Arch : Type := mkArch {
  ax : Z -> Z;      (* x1-x31, as words *)
  af : Z -> Z;      (* f0-f31, as bits *)
  am : Z -> Z;      (* data memory, by word index *)
  apc : Z
}.

Definition arch_init : Arch := mkArch (fun _ => 0) (fun _ => 0) (fun _ => 0) 0.

(** Function update. *)
Definition upd (f : Z -> Z) (k v : Z) : Z -> Z := fun k' => if k' =? k then v else f k'.

(** Register reads: index -1 is "no operand", x0 is 0. *)
Definition read_reg (a : Arch) (r : Z) (fp : bool) : Z :=
  if r <? 0 then 0
  else if fp then af a r
  else if r =? 0 then 0 else ax a r.

Definition write_reg (a : Arch) (r : Z) (fp : bool) (v : Z) : Arch :=
  if r <? 0 then a
  else if fp then mkArch (ax a) (upd (af a) r v) (am a) (apc a)
  else mkArch (upd (ax a) r v) (af a) (am a) (apc a).

(** Word-addressed memory of [MEM_SIZE] words; outside it, loads give 0 and
    stores have no effect. *)
Definition load_word (a : Arch) (addr : Z) : Z :=
  if addr / 4 <? MEM_SIZE then am a (addr / 4) else 0.

Definition store_word (a : Arch) (addr v : Z) : Arch :=
  if addr / 4 <? MEM_SIZE then mkArch (ax a) (af a) (upd (am a) (addr / 4) v) (apc a) else a.

Definition set_apc (a : Arch) (v : Z) : Arch := mkArch (ax a) (af a) (am a) v.

Section Semantics.
Context `{FE : FPEnv}.

(** The operation tables: result of an operation on operand words [x] and [y],
    immediate [im] and instruction address [p]; for branches and jumps the
    address of the next instruction. *)
Definition alu (o : Opcode) (x y im p : Z) : Z :=
  let w z := z mod 2 ^ 32 in
  let target (taken : bool) := if taken then w (p + im) else w (p + 4) in
  match o with
  | ADD => w (x + y)
  | SUB => w (x - y)
  | AND => Z.land x y
  | OR => Z.lor x y
  | XOR => Z.lxor x y
  | SLL => w (x * 2 ^ (y mod 32))
  | SRL => x / 2 ^ (y mod 32)
  | SRA => w (signed x / 2 ^ (y mod 32))
  | ADDI => w (x + im)
  | LUI => w (im * 2 ^ 12)
  | ANDI => Z.land x (w im)
  | ORI => Z.lor x (w im)
  | XORI => Z.lxor x (w im)
  | SLLI => w (x * 2 ^ (im mod 32))
  | SRLI => x / 2 ^ (im mod 32)
  | LW | SW | FLW | FSW => w (x + im)
  | BEQ => target (x =? y)
  | BNE => target (negb (x =? y))
  | BLT => target (signed x <? signed y)
  | BGE => target (signed y <=? signed x)
  | JAL => w (p + im)
  | JALR => 2 * (w (x + im) / 2)
  | FADD_S => float_to_bits (fp_arith FAdd (bits_to_float x) (bits_to_float y))
  | FSUB_S => float_to_bits (fp_arith FSub (bits_to_float x) (bits_to_float y))
  | FMUL_S => float_to_bits (fp_arith FMul (bits_to_float x) (bits_to_float y))
  | FDIV_S => float_to_bits (fp_arith FDiv (bits_to_float x) (bits_to_float y))
  | FCVT_W_S => w (f2i (bits_to_float x))
  | FCVT_S_W => float_to_bits (i2f (signed x))
  | NOP | HALT => 0
  end.

(** Effective address of a load or store: integer base plus offset. *)
Definition eff_addr (i : Instruction) (a : Arch) : Z :=
  (read_reg a (rs1 i) false + imm i) mod 2 ^ 32.

(** What an instruction computes: the loaded word, 0 for a store, the result
    or the next address for the others. *)
Definition result (i : Instruction) (a : Arch) : Z :=
  if is_load (op i) then load_word a (eff_addr i a)
  else if is_store (op i) then 0
  else alu (op i) (read_reg a (rs1 i) (rs1_fp i)) (read_reg a (rs2 i) (rs2_fp i)) (imm i) (pc i).

(** The value an instruction with result [v] gives its destination: jumps write
    the return address. *)
Definition dest_value (i : Instruction) (v : Z) : Z :=
  if is_jump (op i) then (pc i + 4) mod 2 ^ 32 else v.

(** The state after an instruction with result [v], HALT included, which only
    advances. *)
Definition exec_with (i : Instruction) (v : Z) (a : Arch) : Arch :=
  let a1 := if is_store (op i)
            then store_word a (eff_addr i a) (read_reg a (rs2 i) (rs2_fp i)) else a in
  let a2 := write_reg a1 (rd i) (rd_fp i) (dest_value i v) in
  set_apc a2 (if is_branch (op i) || is_jump (op i) then v else (pc i + 4) mod 2 ^ 32).

(** Execution of one instruction. *)
Definition exec (i : Instruction) (a : Arch) : Arch := exec_with i (result i a) a.

(** Instruction memory: byte address to word index. *)
Definition fetch (p : list Instruction) (addr : Z) : option Instruction :=
  p !! Z.to_nat (addr / 4).

(** One step; past the end of the program nothing happens. *)
Definition step (p : list Instruction) (a : Arch) : Arch :=
  match fetch p (apc a) with
  | Some i => exec i a
  | None => a
  end.

Fixpoint steps (p : list Instruction) (n : nat) (a : Arch) : Arch :=
  match n with
  | O => a
  | S n' => step p (steps p n' a)
  end.

(** The machine proper: it stops before the first HALT, or past the end;
    [None] when [fuel] instructions were not enough. *)
Fixpoint run (p : list Instruction) (fuel : nat) (a : Arch) : option Arch :=
  match fetch p (apc a) with
  | None => Some a
  | Some i =>
      if op_eqb (op i) HALT then Some a
      else match fuel with
           | O => None
           | S fuel' => run p fuel' (exec i a)
           end
  end.

(** ** Loads with given values *)

(** The result of an instruction that, if it is a load, returns [o]; [None]
    stands for the word memory holds. *)
Definition result_with (o : option Z) (i : Instruction) (a : Arch) : Z :=
  match o with
  | Some v => if is_load (op i) then v mod 2 ^ 32 else result i a
  | None => result i a
  end.

(** The sequential machine whose load number [k] returns [loaded k]. *)
Fixpoint steps_with (loaded : nat -> option Z) (p : list Instruction) (n : nat) (a : Arch) : Arch :=
  match n with
  | O => a
  | S n' =>
      let a' := steps_with loaded p n' a in
      match fetch p (apc a') with
      | Some i => exec_with i (result_with (loaded n') i a') a'
      | None => a'
      end
  end.

End Semantics.

(** ** Well-formed instructions *)

(** What the assembler produces: each operation has the fields of its format.
    Nothing is said of register numbers. *)
Definition wf_instr (i : Instruction) : bool :=
  (- 2 ^ 31 <=? imm i) && (imm i <? 2 ^ 31) &&
  (if is_store (op i) || is_branch (op i) || op_eqb (op i) HALT then rd i =? -1 else true) &&
  (if is_load (op i) then rs2 i =? -1 else true) &&
  (if is_jump (op i) then negb (rd_fp i) else true).

(** The registers an instruction names exist; a negative number names none. *)
Definition named (i : Instruction) : bool := (rd i <? 32) && (rs1 i <? 32) && (rs2 i <? 32).

Lemma named_regs i : named i = true <-> rd i < 32 /\ rs1 i < 32 /\ rs2 i < 32.
Proof. unfold named. rewrite !andb_true_iff, !Z.ltb_lt. tauto. Qed.

Definition all_named (p : list Instruction) : Prop := Forall (fun i => named i = true) p.

Lemma all_named_regs p :
  all_named p <-> Forall (fun i => rd i < 32 /\ rs1 i < 32 /\ rs2 i < 32) p.
Proof. apply Forall_iff, named_regs. Qed.

(** ** States in range *)

Record arch_ok (a : Arch) : Prop := {
  ok_x : forall r, is_u32 (ax a r);
  ok_f : forall r, is_u32 (af a r);
  ok_m : forall w, is_u32 (am a w);
  ok_pc : is_u32 (apc a)
}.

Lemma is_u32_0 : is_u32 0.
Proof. unfold is_u32. lia. Qed.

Lemma arch_init_ok : arch_ok arch_init.
Proof. constructor; intros; apply is_u32_0. Qed.

Lemma upd_u32 f k v : (forall r, is_u32 (f r)) -> is_u32 v -> forall r, is_u32 (upd f k v r).
Proof. intros Hf Hv r. unfold upd. by case_match. Qed.

Lemma read_reg_u32 a r fp : arch_ok a -> is_u32 (read_reg a r fp).
Proof. intros []. unfold read_reg. repeat case_match; auto using is_u32_0. Qed.

Lemma load_word_u32 a addr : arch_ok a -> is_u32 (load_word a addr).
Proof. intros []. unfold load_word. case_match; auto using is_u32_0. Qed.

Lemma write_reg_ok a r fp v : arch_ok a -> is_u32 v -> arch_ok (write_reg a r fp v).
Proof.
  intros [] Hv. unfold write_reg. repeat case_match; constructor; simpl; auto using upd_u32.
Qed.

Lemma store_word_ok a addr v : arch_ok a -> is_u32 v -> arch_ok (store_word a addr v).
Proof. intros [] Hv. unfold store_word. case_match; constructor; simpl; auto using upd_u32. Qed.

Lemma signed_s32 x : is_u32 x -> signed x = s32 x.
Proof. intros Hx. unfold signed, s32. by rewrite Z.mod_small. Qed.

Lemma signed_range x : is_u32 x -> is_s32 (signed x).
Proof. intros. rewrite signed_s32 by done. apply s32_range. Qed.

Lemma div_pow2_u32 x n : is_u32 x -> is_u32 (x / 2 ^ (n mod 32)).
Proof.
  intros Hx. pose proof (Z.mod_pos_bound n 32 ltac:(lia)).
  rewrite <- Z.shiftr_div_pow2 by lia. apply is_u32_shiftr; [done|lia].
Qed.

Section Ranges.
Context `{FE : FPEnv}.

Lemma alu_u32 o x y im p : is_u32 x -> is_u32 y -> is_u32 (alu o x y im p).
Proof.
  intros Hx Hy. pose proof (fun z => u32_range z) as Hw. unfold u32 in Hw.
  destruct o; cbn [alu]; auto using is_u32_0, div_pow2_u32, fp_arith_range, i2f_range with tom;
    try (case_match; apply Hw); try apply Hw.
  specialize (Hw (x + im)). revert Hw. generalize ((x + im) mod 2 ^ 32). unfold is_u32.
  intros z Hz. Z.to_euclidean_division_equations; lia.
Qed.

Lemma result_u32 i a : arch_ok a -> is_u32 (result i a).
Proof.
  intros Ha. unfold result. repeat case_match;
    auto using load_word_u32, is_u32_0, alu_u32, read_reg_u32.
Qed.

Lemma dest_value_u32 i v : is_u32 v -> is_u32 (dest_value i v).
Proof. intros Hv. unfold dest_value. case_match; [apply u32_range|done]. Qed.

Lemma exec_with_ok i v a : arch_ok a -> is_u32 v -> arch_ok (exec_with i v a).
Proof.
  intros Ha Hv. unfold exec_with.
  assert (arch_ok (write_reg (if is_store (op i)
     then store_word a (eff_addr i a) (read_reg a (rs2 i) (rs2_fp i)) else a)
     (rd i) (rd_fp i) (dest_value i v))) as [].
  { apply write_reg_ok; [|by apply dest_value_u32].
    destruct (is_store (op i)); [apply store_word_ok; auto using read_reg_u32|done]. }
  constructor; simpl; auto.
  destruct (is_branch (op i) || is_jump (op i)); [done|apply u32_range].
Qed.

Lemma exec_ok i a : arch_ok a -> arch_ok (exec i a).
Proof. intros. apply exec_with_ok; [done|by apply result_u32]. Qed.

Lemma result_with_u32 o i a : arch_ok a -> is_u32 (result_with o i a).
Proof.
  intros. unfold result_with. destruct o; [|by apply result_u32].
  case_match; [apply u32_range|by apply result_u32].
Qed.

Lemma steps_with_ok loaded p n a : arch_ok a -> arch_ok (steps_with loaded p n a).
Proof.
  intros Ha. induction n as [|n IH]; [done|]. cbn [steps_with].
  case_match; [apply exec_with_ok; [done|by apply result_with_u32]|done].
Qed.

Lemma step_ok p a : arch_ok a -> arch_ok (step p a).
Proof. intros. unfold step. case_match; auto using exec_ok. Qed.

Lemma steps_ok p n a : arch_ok a -> arch_ok (steps p n a).
Proof. intros. induction n; simpl; auto using step_ok. Qed.

End Ranges.

#[export] Hint Resolve arch_init_ok steps_ok read_reg_u32 result_u32 dest_value_u32 : tom.
