(* ===== verification/Execute.v ===== *)
(** * The functional units compute what the instruction set says

    [execute_op] of reservation_station.cpp against the operation tables of
    [ISA.alu]. *)

From S2P Require Import Prelude Words Config Float32 Instruction.
From S2P Require Import ReservationStation ISA.

Lemma land_31 n : Z.land n 31 = n mod 32.
Proof. change 31 with (Z.ones 5). rewrite Z.land_ones by lia. done. Qed.

Lemma mod_32_range n : 0 <= n mod 32 < 32.
Proof. apply Z.mod_pos_bound. lia. Qed.

(** Clearing bit 0 by a mask. *)
Lemma clear_bit0 z : is_u32 z -> Z.land z (2 ^ 32 - 2) = 2 * (z / 2).
Proof.
  intros Hz. apply Z.bits_inj'. intros n Hn. rewrite Z.land_spec.
  change (2 ^ 32 - 2) with (2 * Z.ones 31). destruct (Z.eq_dec n 0) as [->|Hn0].
  - rewrite !Z.testbit_even_0. apply andb_false_r.
  - replace n with (Z.succ (n - 1)) at 2 3 by lia. rewrite !Z.testbit_even_succ by lia.
    rewrite <- Z.div2_div, Z.div2_spec, Z.shiftr_spec by lia.
    replace (n - 1 + 1) with n by lia.
    destruct (Z.lt_ge_cases n 32).
    + rewrite Z.ones_spec_low by lia. apply andb_true_r.
    + rewrite (proj1 (is_u32_testbit z ltac:(apply Hz)) Hz n) by lia. done.
Qed.

(** A left shift of the signed reading, wrapped, is a product modulo 2^32. *)
Lemma shl32_mul x n : 0 <= n -> u32 (shl32 (s32 x) n) = (x * 2 ^ n) mod 2 ^ 32.
Proof.
  intros Hn. unfold shl32. rewrite u32_s32, Z.shiftl_mul_pow2 by done.
  destruct (s32_cong x) as [k ->]. rewrite Z.mul_add_distr_r.
  replace (k * 2 ^ 32 * 2 ^ n) with (k * 2 ^ n * 2 ^ 32) by ring.
  apply u32_add_mul.
Qed.

Lemma addu32_imm p im : addu32 p (u32 im) = (p + im) mod 2 ^ 32.
Proof. unfold addu32. apply u32_add_u32_r. Qed.

Lemma add32_imm x im : u32 (add32 (s32 x) im) = (x + im) mod 2 ^ 32.
Proof. unfold add32. rewrite u32_s32. apply u32_add_s32_l. Qed.

Lemma shl_u32 z n : 0 <= n -> u32 (Z.shiftl (u32 z) n) = (z * 2 ^ n) mod 2 ^ 32.
Proof.
  intros Hn. rewrite Z.shiftl_mul_pow2 by done. destruct (u32_cong z) as [k ->].
  rewrite Z.mul_add_distr_r. replace (k * 2 ^ 32 * 2 ^ n) with (k * 2 ^ n * 2 ^ 32) by ring.
  apply u32_add_mul.
Qed.

Lemma s32_eqb x y : is_u32 x -> is_u32 y -> (s32 x =? s32 y) = (x =? y).
Proof.
  intros Hx Hy. destruct (Z.eqb_spec x y) as [->|Hne]; [apply Z.eqb_refl|].
  apply Z.eqb_neq. intros E. by apply s32_inj in E.
Qed.

Lemma branch_target_alu e taken :
  branch_target e taken =
  if taken then (se_pc e + se_imm e) mod 2 ^ 32 else (se_pc e + 4) mod 2 ^ 32.
Proof. unfold branch_target. destruct taken; [apply addu32_imm|done]. Qed.

#[export] Hint Rewrite land_31 addu32_imm add32_imm branch_target_alu : alu.

Lemma execute_op_is_alu `{FE : FPEnv} e :
  is_u32 (se_vj e) -> is_u32 (se_vk e) ->
  execute_op e = alu (se_op e) (se_vj e) (se_vk e) (se_imm e) (se_pc e).
Proof.
  intros Hj Hk. unfold execute_op.
  destruct (se_op e); cbn [alu]; autorewrite with alu; try done.
  - rewrite Z.add_comm, (Z.add_comm (se_vj e)). apply u32_add_s32_l.
  - unfold sub32. by rewrite u32_s32, u32_sub_s32.
  - apply shl32_mul, mod_32_range.
  - apply Z.shiftr_div_pow2, mod_32_range.
  - rewrite Z.shiftr_div_pow2 by apply mod_32_range. by rewrite signed_s32.
  - apply shl32_mul, mod_32_range.
  - apply Z.shiftr_div_pow2, mod_32_range.
  - by apply shl_u32.
  - by rewrite s32_eqb.
  - by rewrite s32_eqb.
  - by rewrite !signed_s32.
  - by rewrite !signed_s32.
  - apply clear_bit0, u32_range.
  - by rewrite signed_s32.
Qed.
