(* ===== verification/StationFacts.v ===== *)
(** * Reservation stations, slot by slot

    What each operation of a reservation station does to its slots, and the
    occupancy counter. *)

From S2P Require Import Prelude Words Config Float32 Instruction.
From S2P Require Import CommonDataBus ReservationStation.

(** ** Occupancy *)

Fixpoint busy_count (es : list RSEntry) : Z :=
  match es with
  | [] => 0
  | e :: es' => (if se_busy e then 1 else 0) + busy_count es'
  end.

(** The array has the declared size and [count_] counts the busy slots. *)
Record station_ok (s : ReservationStation) : Prop := {
  st_size : 0 <= size_ s;
  st_len : len (entries_ s) = size_ s;
  st_count : count_ s = busy_count (entries_ s)
}.

Lemma busy_count_bounds es : 0 <= busy_count es <= len es.
Proof. induction es as [|e es IH]; simpl; [lia|]. destruct (se_busy e); lia. Qed.

Lemma busy_count_insert es j e e' :
  es !! j = Some e ->
  busy_count (<[j := e']> es) =
  busy_count es + (if se_busy e' then 1 else 0) - (if se_busy e then 1 else 0).
Proof.
  revert j. induction es as [|x es IH]; intros [|j] Hj; try done; simpl in *.
  - injection Hj as ->. lia.
  - rewrite (IH j Hj). lia.
Qed.

Lemma busy_count_ext es es' :
  Forall2 (fun e e' => se_busy e' = se_busy e) es es' -> busy_count es' = busy_count es.
Proof. induction 1 as [|e e' es es' He _ IH]; simpl; [done|]. by rewrite He, IH. Qed.

Lemma busy_count_full es : busy_count es = len es <-> Forall (fun e => se_busy e = true) es.
Proof.
  induction es as [|e es IH]; simpl; [split; [constructor|done]|].
  pose proof (busy_count_bounds es). rewrite Forall_cons, <- IH.
  destruct (se_busy e); split; intros; split_and?; try done; try lia; naive_solver lia.
Qed.

Lemma busy_count_zero es : busy_count es = 0 <-> Forall (fun e => se_busy e = false) es.
Proof.
  induction es as [|e es IH]; simpl; [split; [constructor|done]|].
  pose proof (busy_count_bounds es). rewrite Forall_cons, <- IH.
  destruct (se_busy e); split; intros; split_and?; try done; try lia; naive_solver lia.
Qed.

Lemma create_station_ok n : 0 <= n -> station_ok (create n).
Proof.
  intros Hn. constructor; simpl; rewrite ?length_replicate; try lia.
  symmetry. apply busy_count_zero. by apply Forall_replicate.
Qed.

(** ** Issue *)

Lemma issue_loop_spec fill es :
  (forall e, e ∈ es -> exists e', fill e = Ok e') ->
  match issue_loop fill es with
  | Ok None => Forall (fun e => se_busy e = true) es
  | Ok (Some es') => exists j e e', es !! j = Some e /\ se_busy e = false /\
      Forall (fun e => se_busy e = true) (take j es) /\ fill e = Ok e' /\ es' = <[j := e']> es
  | Stop _ => False
  end.
Proof.
  induction es as [|e es IH]; intros Hfill; simpl; [done|].
  destruct (se_busy e) eqn:Hb.
  - assert (forall e, e ∈ es -> exists e', fill e = Ok e') as Hfill'.
    { intros x Hx. apply Hfill. apply elem_of_cons. by right. }
    specialize (IH Hfill'). destruct (issue_loop fill es) as [[es'|]|]; simpl; [|by constructor|done].
    destruct IH as (j & x & x' & Hj & Hx & Htake & Hf & ->).
    exists (S j), x, x'. simpl. split_and!; try done. by constructor.
  - destruct (Hfill e) as [e' He']; [apply elem_of_cons; by left|].
    rewrite He'. simpl. exists 0%nat, e, e'. simpl. split_and!; done.
Qed.

(** A fault while filling the slot, when there is one. *)
Lemma issue_loop_stop fill es f :
  (forall e, fill e = Stop f) -> ~ Forall (fun e => se_busy e = true) es ->
  issue_loop fill es = Stop f.
Proof.
  intros Hf. induction es as [|e es IH]; intros Hall; cbn [issue_loop]; [by destruct Hall|].
  destruct (se_busy e) eqn:Hb; [|by rewrite Hf].
  rewrite IH; [done|]. intros H. apply Hall. by constructor.
Qed.

(** ** Completion *)

Lemma pop_loop_spec es :
  match pop_loop es with
  | None => Forall (fun e => se_busy e && se_done e = false) es
  | Some (out, es') => exists j, es !! j = Some out /\ se_busy out = true /\ se_done out = true /\
      es' = <[j := default_entry]> es
  end.
Proof.
  induction es as [|e es IH]; simpl; [constructor|].
  destruct (se_busy e && se_done e) eqn:E.
  - apply andb_true_iff in E as [? ?]. by exists 0%nat.
  - destruct (pop_loop es) as [[out es']|]; [|by constructor].
    destruct IH as (j & Hj & Hb & Hd & ->). by exists (S j).
Qed.

Lemma has_result_pop s :
  has_result s = true ->
  exists j e, entries_ s !! j = Some e /\ se_busy e = true /\ se_done e = true /\
    pop_result s = Ok (e, mkReservationStation (size_ s) (count_ s - 1)
                            (<[j := default_entry]> (entries_ s))).
Proof.
  unfold has_result, pop_result. intros (e & Hin & He)%existsb_exists.
  pose proof (pop_loop_spec (entries_ s)) as Hp.
  destruct (pop_loop (entries_ s)) as [[out es']|].
  - destruct Hp as (j & Hj & Hb & Hd & ->). eauto 10.
  - rewrite Forall_forall in Hp. rewrite Hp in He; [done|]. by apply list_elem_of_In.
Qed.

(** Entries that still have a result to broadcast. *)
Fixpoint done_count (es : list RSEntry) : nat :=
  match es with
  | [] => 0
  | e :: es' => (if se_busy e && se_done e then 1 else 0) + done_count es'
  end%nat.

Lemma done_count_le es : (done_count es <= length es)%nat.
Proof. induction es as [|e es IH]; simpl; [lia|]. destruct (_ && _); lia. Qed.

Lemma done_count_pop es j e :
  es !! j = Some e -> se_busy e = true -> se_done e = true ->
  done_count es = S (done_count (<[j := default_entry]> es)).
Proof.
  revert j. induction es as [|x es IH]; intros [|j] Hj Hb Hd; try done; simpl in *.
  - injection Hj as ->. rewrite Hb, Hd. done.
  - rewrite (IH j Hj Hb Hd). lia.
Qed.

Lemma has_result_false s : has_result s = false -> Forall (fun e => se_busy e && se_done e = false) (entries_ s).
Proof.
  unfold has_result. induction (entries_ s) as [|e es IH]; simpl; [constructor|].
  intros [? ?]%orb_false_iff. constructor; auto.
Qed.

Lemma done_count_zero s : has_result s = false -> done_count (entries_ s) = 0%nat.
Proof.
  unfold has_result. induction (entries_ s) as [|e es IH]; cbn; [done|].
  intros [-> ?]%orb_false_iff. by apply IH.
Qed.

(** Draining clears finished slots and touches no other. *)
Definition drained (st st' : ReservationStation) : Prop :=
  Forall2 (fun e e' => e' = e \/ (se_busy e = true /\ se_done e = true /\ e' = default_entry))
    (entries_ st) (entries_ st').

Lemma drained_refl st : drained st st.
Proof. apply Forall_Forall2_diag, Forall_forall. by left. Qed.

Lemma drained_trans st1 st2 st3 : drained st1 st2 -> drained st2 st3 -> drained st1 st3.
Proof.
  unfold drained. intros H12 H23. apply Forall2_same_length_lookup in H12 as [L12 H12].
  apply Forall2_same_length_lookup in H23 as [L23 H23].
  apply Forall2_same_length_lookup. split; [congruence|]. intros j e1 e3 H1 H3.
  destruct (lookup_lt_is_Some_2 (entries_ st2) j) as [e2 H2].
  { rewrite <- L12. by eapply lookup_lt_Some. }
  destruct (H12 _ _ _ H1 H2) as [->|(? & ? & ->)], (H23 _ _ _ H2 H3) as [->|(? & ? & ->)]; auto.
Qed.

Lemma drained_pop st j e st' :
  entries_ st !! j = Some e -> se_busy e = true -> se_done e = true ->
  entries_ st' = <[j := default_entry]> (entries_ st) -> drained st st'.
Proof.
  intros Hj Hb Hd He. unfold drained. rewrite He. apply Forall2_same_length_lookup_2.
  { by rewrite length_insert. }
  intros j' x x' Hx Hx'. destruct (decide (j' = j)) as [->|Hne].
  - rewrite list_lookup_insert_eq in Hx' by (by eapply lookup_lt_Some).
    injection Hx' as <-. rewrite Hj in Hx. injection Hx as <-. by right.
  - rewrite list_lookup_insert_ne in Hx' by done. left. congruence.
Qed.

Lemma drained_no_result st st' : drained st st' -> has_result st = false -> has_result st' = false.
Proof.
  unfold drained, has_result. induction 1 as [|e e' es es' He _ IH]; [done|]. simpl.
  intros [Hne ?]%orb_false_iff. rewrite IH by done.
  destruct He as [->|(Hb & Hd & ->)]; [by rewrite Hne|done].
Qed.

(** ** Listening *)

Lemma snoop_entries rs (es : list RSEntry) :
  foldl (fun (es : list RSEntry) r => snoop_entry r <$> es) es rs =
  (fun e => foldl (fun e r => snoop_entry r e) e rs) <$> es.
Proof.
  revert es. induction rs as [|r rs IH]; intros es; simpl; [by rewrite list_fmap_id|].
  rewrite IH, <- list_fmap_compose. done.
Qed.

Lemma snoop_entry_fold rs e :
  foldl (fun e r => snoop_entry r e) e rs =
  if negb (se_busy e) || se_done e then e
  else set_operands e (capture (se_vj e, se_qj e) rs) (capture (se_vk e, se_qk e) rs).
Proof.
  revert e. induction rs as [|r rs IH]; intros e.
  - simpl. destruct (_ || _); [done|]. by destruct e.
  - cbn [foldl]. rewrite IH. clear IH.
    destruct (negb (se_busy e) || se_done e) eqn:E.
    + assert (snoop_entry r e = e) as -> by (unfold snoop_entry; by rewrite E).
      by rewrite E.
    + assert (snoop_entry r e = set_operands e (capture1 (se_vj e, se_qj e) r)
                                  (capture1 (se_vk e, se_qk e) r)) as ->
        by (unfold snoop_entry; by rewrite E).
      cbn [set_operands se_busy se_done se_vj se_vk se_qj se_qk]. rewrite E, !capture_cons.
      by rewrite <- !surjective_pairing.
Qed.

Lemma snoop_lookup s c j :
  entries_ (snoop s c) !! j =
  (fun e => if negb (se_busy e) || se_done e then e
            else set_operands e (capture (se_vj e, se_qj e) (results c))
                                (capture (se_vk e, se_qk e) (results c))) <$> entries_ s !! j.
Proof.
  unfold snoop. cbn [entries_]. rewrite snoop_entries, list_lookup_fmap.
  destruct (entries_ s !! j); [|done]. cbn. by rewrite snoop_entry_fold.
Qed.

(** ** One execution cycle *)

Section Tick.
Context `{FE : FPEnv}.

Lemma start_pass_length pre post :
  length (start_pass pre post) = (length pre + length post)%nat.
Proof.
  revert pre. induction post as [|e post IH]; intros pre; simpl; [lia|].
  rewrite IH, length_app. simpl. lia.
Qed.

(** Slot [j] after the second pass is [start_entry] of slot [j] before, with
    the slots before [j] already treated and those after it not yet. *)
Lemma start_pass_lookup pre post j :
  (j < length pre)%nat -> start_pass pre post !! j = pre !! j.
Proof.
  revert pre. induction post as [|e post IH]; intros pre Hj; simpl; [done|].
  rewrite IH by (rewrite length_app; lia). by apply lookup_app_l.
Qed.

Lemma start_pass_step pre post j e :
  post !! j = Some e ->
  start_pass pre post !! (length pre + j)%nat =
  Some (start_entry (take (length pre + j) (start_pass pre post) ++ drop (S j) post) e).
Proof.
  revert pre j. induction post as [|x post IH]; intros pre j Hj; [done|].
  simpl. destruct j as [|j].
  - injection Hj as ->. rewrite Nat.add_0_r. simpl.
    assert (forall k, (k < length pre)%nat ->
      start_pass (pre ++ [start_entry (pre ++ post) e]) post !! k = pre !! k) as Hk.
    { intros k Hk. rewrite start_pass_lookup by (rewrite length_app; simpl; lia).
      by apply lookup_app_l. }
    assert (take (length pre) (start_pass (pre ++ [start_entry (pre ++ post) e]) post) = pre) as ->.
    { apply list_eq. intros k. destruct (Nat.lt_ge_cases k (length pre)).
      - rewrite lookup_take_lt by done. by apply Hk.
      - rewrite lookup_take_ge by done. symmetry. by apply lookup_ge_None. }
    rewrite start_pass_lookup by (rewrite length_app; simpl; lia).
    rewrite lookup_app_r by lia. by rewrite Nat.sub_diag.
  - simpl in Hj. specialize (IH (pre ++ [start_entry (pre ++ post) x]) j Hj).
    rewrite length_app in IH. simpl in IH.
    replace (length pre + 1 + j)%nat with (length pre + S j)%nat in IH by lia. done.
Qed.

Lemma tick_length s : length (entries_ (tick s)) = length (entries_ s).
Proof. unfold tick. cbn [entries_]. rewrite start_pass_length, length_fmap. done. Qed.

(** Each slot counts down, then may start. *)
Lemma tick_lookup s j e' :
  entries_ (tick s) !! j = Some e' ->
  exists e, entries_ s !! j = Some e /\
    e' = start_entry (take j (entries_ (tick s)) ++ drop (S j) (countdown <$> entries_ s)) (countdown e).
Proof.
  intros Hj. assert (Hlt : (j < length (entries_ s))%nat).
  { rewrite <- tick_length. by eapply lookup_lt_Some. }
  destruct (lookup_lt_is_Some_2 _ _ Hlt) as [e He]. exists e. split; [done|].
  unfold tick in *. cbn [entries_] in *.
  pose proof (start_pass_step [] (countdown <$> entries_ s) j (countdown e)) as Hs.
  rewrite list_lookup_fmap, He in Hs. specialize (Hs eq_refl). simpl in Hs. congruence.
Qed.

Lemma tick_lookup_fwd s j e :
  entries_ s !! j = Some e ->
  entries_ (tick s) !! j =
    Some (start_entry (take j (entries_ (tick s)) ++ drop (S j) (countdown <$> entries_ s)) (countdown e)).
Proof.
  intros He. destruct (lookup_lt_is_Some_2 (entries_ (tick s)) j) as [e' He'].
  { rewrite tick_length. by eapply lookup_lt_Some. }
  destruct (tick_lookup s j e' He') as (e0 & He0 & ->). congruence.
Qed.

(** What neither pass changes. *)
Definition same_instr (e e' : RSEntry) : Prop :=
  se_busy e' = se_busy e /\ se_op e' = se_op e /\ se_rob_tag e' = se_rob_tag e /\
  se_vj e' = se_vj e /\ se_vk e' = se_vk e /\ se_qj e' = se_qj e /\ se_qk e' = se_qk e /\
  se_imm e' = se_imm e /\ se_rd_fp e' = se_rd_fp e /\ se_pc e' = se_pc e.

Lemma countdown_same e : same_instr e (countdown e).
Proof. unfold countdown, same_instr. repeat case_match; done. Qed.

Lemma start_entry_same os e : same_instr e (start_entry os e).
Proof. unfold start_entry, same_instr. repeat case_match; done. Qed.

Lemma same_instr_trans e1 e2 e3 : same_instr e1 e2 -> same_instr e2 e3 -> same_instr e1 e3.
Proof. unfold same_instr. intuition congruence. Qed.

Lemma execute_op_same e e' : same_instr e e' -> execute_op e' = execute_op e.
Proof.
  unfold same_instr, execute_op, branch_target.
  intros (_ & -> & _ & -> & -> & _ & _ & -> & _ & ->). done.
Qed.

Lemma tick_same s j e' :
  entries_ (tick s) !! j = Some e' ->
  exists e, entries_ s !! j = Some e /\ same_instr e e'.
Proof.
  intros (e & He & ->)%tick_lookup. exists e. split; [done|].
  eapply same_instr_trans; [apply countdown_same|apply start_entry_same].
Qed.

Lemma tick_station_ok s : station_ok s -> station_ok (tick s).
Proof.
  intros [Hs Hl Hc]. constructor; [done|by rewrite tick_length|].
  change (count_ (tick s)) with (count_ s). rewrite Hc. symmetry. apply busy_count_ext.
  apply Forall2_same_length_lookup_2; [by rewrite tick_length|].
  intros j e e' He He'. destruct (tick_same _ _ _ He') as (e0 & He0 & Hsame).
  rewrite He in He0. injection He0 as <-. apply Hsame.
Qed.

(** When an entry finishes it holds [execute_op] of its operands, all of which
    have arrived; a counter that runs is positive and below the latency. *)
Record timing_ok (e : RSEntry) : Prop := {
  tm_rem : 0 <= se_cycles_rem e < latency_of (se_op e);
  tm_started : 0 < se_cycles_rem e -> se_qj e = -1 /\ se_qk e = -1;
  tm_done : se_done e = true ->
    se_qj e = -1 /\ se_qk e = -1 /\ se_result e = execute_op e
}.

Lemma countdown_timing e : timing_ok e -> timing_ok (countdown e).
Proof.
  intros Ht. pose proof Ht as [Hr Hs Hd]. unfold countdown.
  destruct (negb (se_busy e)); [done|]. destruct (se_done e) eqn:Ed; [done|]. simpl.
  destruct (Z.eqb_spec (se_cycles_rem e) 0) as [|Hne]; [done|].
  destruct (Z.eqb_spec (se_cycles_rem e - 1) 0); constructor; simpl in *;
    rewrite ?Ed; intros; try done; try lia; try (apply Hs; lia).
  destruct Hs as [-> ->]; [lia|]. done.
Qed.

Lemma start_entry_timing os e : timing_ok e -> timing_ok (start_entry os e).
Proof.
  intros Ht. pose proof Ht as [Hr Hs Hd]. unfold start_entry.
  destruct (se_busy e); [|done]. destruct (se_done e) eqn:Ed; [done|].
  destruct (Z.eqb_spec (se_qj e) (-1)) as [Hj|]; [|done].
  destruct (Z.eqb_spec (se_qk e) (-1)) as [Hk|]; [|done].
  destruct (Z.eqb_spec (se_cycles_rem e) 0) as [H0|]; [|done]. simpl.
  destruct (_ && _); [done|].
  destruct (Z.leb_spec (latency_of (se_op e)) 1); constructor; simpl; rewrite ?Ed;
    intros; try done; try lia.
Qed.

Lemma tick_timing s :
  Forall timing_ok (entries_ s) -> Forall timing_ok (entries_ (tick s)).
Proof.
  intros H. apply Forall_lookup. intros j e' (e & He & ->)%tick_lookup.
  apply start_entry_timing, countdown_timing. by eapply Forall_lookup_1.
Qed.

Lemma default_timing : timing_ok default_entry.
Proof. constructor; simpl; intros; try done; lia. Qed.

End Tick.
