(* ===== verification/StationInvariant.v ===== *)
(** * Reservation stations: timing of their units, and their invariant *)

From S2P Require Import Prelude Words Float32 Config Instruction RegisterFile.
From S2P Require Import RegisterRemappingTable ReorderBuffer CommonDataBus DispatchUtils.
From S2P Require Import ReservationStation StationFacts.

(** * Latency and exclusivity of the operations *)

Section Timing.
Context `{FE : FPEnv}.

Fixpoint tick_n (n : nat) (s : ReservationStation) : ReservationStation :=
  match n with
  | O => s
  | S n' => tick_n n' (tick s)
  end.

(** ** Latency *)

(** An entry that executes counts down and finishes at zero. *)
Lemma running_tick s j e :
  entries_ s !! j = Some e -> se_busy e = true -> se_done e = false -> 0 < se_cycles_rem e ->
  entries_ (tick s) !! j = Some
    (if se_cycles_rem e =? 1 then set_done (set_cycles e 0) (execute_op e)
     else set_cycles e (se_cycles_rem e - 1)).
Proof.
  intros Hj Hb Hd Hr. rewrite (tick_lookup_fwd s j e Hj). f_equal.
  unfold countdown. rewrite Hb, Hd. cbn [negb orb]. cbn.
  destruct (Z.eqb_spec (se_cycles_rem e) 0); [lia|].
  destruct (Z.eqb_spec (se_cycles_rem e - 1) 0) as [E|].
  - rewrite (proj2 (Z.eqb_eq (se_cycles_rem e) 1)) by lia.
    unfold start_entry. cbn. rewrite orb_true_r. cbn. by rewrite E.
  - rewrite (proj2 (Z.eqb_neq (se_cycles_rem e) 1)) by lia.
    unfold start_entry. cbn. rewrite (proj2 (Z.eqb_neq (se_cycles_rem e - 1) 0)) by lia.
    by rewrite !orb_true_r.
Qed.

Lemma running_done n s j e :
  entries_ s !! j = Some e -> se_busy e = true -> se_done e = false ->
  se_cycles_rem e = Z.of_nat (S n) ->
  (forall k, (k <= n)%nat -> exists e', entries_ (tick_n k s) !! j = Some e' /\ se_done e' = false) /\
  exists e', entries_ (tick_n (S n) s) !! j = Some e' /\ se_done e' = true /\
    se_result e' = execute_op e /\ se_rob_tag e' = se_rob_tag e.
Proof.
  revert s e. induction n as [|n IH]; intros s e Hj Hb Hd Hr;
    pose proof (running_tick s j e Hj Hb Hd ltac:(lia)) as Ht.
  - split.
    + intros k Hk. replace k with 0%nat by lia. by exists e.
    + cbn [tick_n]. rewrite Ht, Hr. cbn. eexists. split; [done|]. done.
  - rewrite (proj2 (Z.eqb_neq (se_cycles_rem e) 1)) in Ht by lia.
    destruct (IH (tick s) _ Ht) as (Hbefore & e' & He' & Hd' & Hres & Htag);
      [done|done|cbn; lia|].
    split.
    + intros [|k] Hk; [by exists e|]. apply Hbefore. lia.
    + exists e'. split; [done|]. split; [done|]. rewrite Hres, Htag. split; [|done].
      apply execute_op_same. done.
Qed.

(** The operation of entry [j] is pipelined, or no other entry has it. *)
Definition unit_free (s : ReservationStation) (j : nat) (o : Opcode) : Prop :=
  is_pipelined o = true \/
  forall j' e', j' <> j -> entries_ s !! j' = Some e' -> se_busy e' = true -> se_op e' <> o.

Lemma unit_free_fu_busy s j o :
  unit_free s j o ->
  negb (is_pipelined o) &&
    fu_busy o (take j (entries_ (tick s)) ++ drop (S j) (countdown <$> entries_ s)) = false.
Proof.
  intros [->|Hother]; [done|].
  destruct (fu_busy o _) eqn:E; [|apply andb_false_r]. exfalso.
  apply existsb_exists in E as (x & Hin%list_elem_of_In & Hx).
  rewrite !andb_true_iff in Hx. destruct Hx as (((Hb & _) & Ho) & _).
  apply bool_decide_eq_true in Ho. apply elem_of_app in Hin as [Hin|Hin];
    apply list_elem_of_lookup_1 in Hin as [k Hk].
  - apply lookup_take_Some in Hk as [Hk Hlt].
    destruct (tick_lookup s k x Hk) as (y & Hy & ->).
    destruct (start_entry_same (take k (entries_ (tick s)) ++ drop (S k) (countdown <$> entries_ s))
      (countdown y)) as (Eb & Eo & _), (countdown_same y) as (Eb' & Eo' & _).
    rewrite Eb, Eb' in Hb. rewrite Eo, Eo' in Ho. apply (Hother k y); [lia|done..].
  - rewrite lookup_drop, list_lookup_fmap in Hk.
    destruct (entries_ s !! (S j + k)%nat) as [y|] eqn:Hy; [|done]. injection Hk as <-.
    destruct (countdown_same y) as (Eb' & Eo' & _). rewrite Eb' in Hb. rewrite Eo' in Ho.
    apply (Hother (S j + k)%nat y); [lia|done..].
Qed.

(** A ready entry whose unit is free starts with the next tick. *)
Lemma ready_tick s j e :
  entries_ s !! j = Some e -> se_busy e = true -> se_done e = false ->
  se_qj e = -1 -> se_qk e = -1 -> se_cycles_rem e = 0 -> unit_free s j (se_op e) ->
  entries_ (tick s) !! j = Some
    (if latency_of (se_op e) <=? 1 then set_done e (execute_op e)
     else set_cycles e (latency_of (se_op e) - 1)).
Proof.
  intros Hj Hb Hd Hqj Hqk Hr Hp. rewrite (tick_lookup_fwd s j e Hj). f_equal.
  assert (countdown e = e) as -> by (unfold countdown; by rewrite Hr, orb_true_r).
  unfold start_entry. by rewrite Hb, Hd, Hqj, Hqk, Hr, (unit_free_fu_busy s j (se_op e) Hp).
Qed.

Lemma latency_lemma s j e :
  entries_ s !! j = Some e -> se_busy e = true -> se_done e = false ->
  se_qj e = -1 -> se_qk e = -1 -> se_cycles_rem e = 0 -> unit_free s j (se_op e) ->
  let lat := Z.to_nat (latency_of (se_op e)) in
  (forall k, (k < lat)%nat ->
     exists e', entries_ (tick_n k s) !! j = Some e' /\ se_done e' = false) /\
  exists e', entries_ (tick_n lat s) !! j = Some e' /\ se_done e' = true /\
    se_result e' = execute_op e /\ se_rob_tag e' = se_rob_tag e.
Proof.
  intros Hj Hb Hd Hqj Hqk Hr Hp lat. pose proof (latency_of_bounds (se_op e)) as Hlat.
  pose proof (ready_tick s j e Hj Hb Hd Hqj Hqk Hr Hp) as Ht.
  destruct (Z.leb_spec (latency_of (se_op e)) 1) as [H1|H1].
  - assert (lat = 1%nat) as -> by (unfold lat; lia). split.
    + intros k Hk. replace k with 0%nat by lia. by exists e.
    + cbn [tick_n]. rewrite Ht. by eexists.
  - destruct (running_done (lat - 2) (tick s) j _ Ht) as (Hbefore & e' & He' & Hd' & Hres & Htag);
      [done|done|cbn; unfold lat; lia|].
    split.
    + intros [|k] Hk; [by exists e|]. apply Hbefore. lia.
    + exists e'. replace lat with (S (S (lat - 2))) by (unfold lat; lia).
      split; [exact He'|]. split; [done|]. rewrite Hres, Htag. split; [|done].
      by apply execute_op_same.
Qed.

(** ** Exclusivity *)

(** The entry counts down: it has been started and is not done. An operation
    of one cycle never does, it is done in the tick that starts it. *)
Definition executing (e : RSEntry) : bool :=
  se_busy e && negb (se_done e) && (0 <? se_cycles_rem e).

(** Of each operation that is not pipelined at most one entry counts down. Two
    operations that share a unit are not told apart here, as [tick] compares
    opcodes, and nothing is said of operations of one cycle. *)
Definition exclusive (es : list RSEntry) : Prop :=
  forall j j' e e', es !! j = Some e -> es !! j' = Some e' -> executing e = true ->
    executing e' = true -> se_op e = se_op e' -> is_pipelined (se_op e) = false -> j = j'.

(** Fewer executing entries keep the property. *)
Lemma exclusive_fewer (es es' : list RSEntry) :
  Forall2 (fun e e' => executing e' = true -> executing e = true /\ se_op e' = se_op e) es es' ->
  exclusive es -> exclusive es'.
Proof.
  intros Hf H j j' e e' Hj Hj' Hx Hx' Ho Hp.
  destruct (Forall2_lookup_r _ _ _ _ _ Hf Hj) as (x & Hxj & Hex).
  destruct (Forall2_lookup_r _ _ _ _ _ Hf Hj') as (x' & Hxj' & Hex').
  destruct (Hex Hx) as [? Ho1], (Hex' Hx') as [? Ho2].
  eapply (H j j' x x'); eauto; congruence.
Qed.

Lemma countdown_executing e :
  executing (countdown e) = true -> executing e = true /\ se_op (countdown e) = se_op e.
Proof.
  intros Hx. split; [|apply countdown_same]. revert Hx. unfold countdown, executing.
  destruct (se_busy e) eqn:Hb, (se_done e) eqn:Hd; cbn [negb orb andb];
    rewrite ?Hb, ?Hd; cbn [negb andb]; try done.
  destruct (Z.eqb_spec (se_cycles_rem e) 0); cbn; rewrite ?Hb, ?Hd; cbn; [done|].
  destruct (Z.eqb_spec (se_cycles_rem e - 1) 0); cbn; rewrite ?Hb, ?Hd; cbn; [done|].
  rewrite !Z.ltb_lt. lia.
Qed.

Lemma fu_busy_false o others e :
  fu_busy o others = false -> e ∈ others -> executing e = true -> se_op e <> o.
Proof.
  intros Hf Hin Hx Ho. apply andb_true_iff in Hx as [[Hb Hd]%andb_true_iff Hr].
  assert (fu_busy o others = true); [|congruence].
  unfold fu_busy. apply existsb_exists. exists e. split; [by apply list_elem_of_In|].
  rewrite Hb, Hd, Hr, Ho. unfold op_eqb. by rewrite bool_decide_eq_true_2.
Qed.

(** An entry the second pass starts was idle, and its unit was free. *)
Lemma start_entry_executing others e :
  executing (start_entry others e) = true ->
  se_op (start_entry others e) = se_op e /\
  (executing e = true \/ is_pipelined (se_op e) = true \/ fu_busy (se_op e) others = false).
Proof.
  intros Hx. split; [apply start_entry_same|]. revert Hx. unfold start_entry.
  destruct (negb (se_busy e) || _ || _ || _ || _); [by left|].
  destruct (is_pipelined (se_op e)) eqn:Hp; cbn; [by right; left|].
  destruct (fu_busy (se_op e) others) eqn:Hf; [by left|by right; right].
Qed.

Lemma exclusive_start pre e post :
  exclusive (pre ++ e :: post) -> exclusive (pre ++ start_entry (pre ++ post) e :: post).
Proof.
  intros H. set (e1 := start_entry (pre ++ post) e).
  assert (Hlook : forall (x : RSEntry) j y, (pre ++ x :: post) !! j = Some y ->
    (j = length pre /\ y = x) \/ (j <> length pre /\ y ∈ pre ++ post /\
       forall z, (pre ++ z :: post) !! j = Some y)).
  { intros x j y Hj. destruct (Nat.lt_trichotomy j (length pre)) as [Hlt|[->|Hgt]].
    - rewrite lookup_app_l in Hj by done. right. split; [lia|]. split.
      + apply elem_of_app. left. by eapply list_elem_of_lookup_2.
      + intros z. by rewrite lookup_app_l.
    - left. split; [done|]. rewrite lookup_app_r, Nat.sub_diag in Hj by done. by injection Hj.
    - rewrite lookup_app_r in Hj by lia.
      destruct (j - length pre)%nat as [|k] eqn:E; [lia|]. cbn in Hj.
      right. split; [lia|]. split.
      + apply elem_of_app. right. by eapply list_elem_of_lookup_2.
      + intros z. rewrite lookup_app_r by lia. by rewrite E. }
  intros j j' x x' Hj Hj' Hx Hx' Ho Hp.
  destruct (Hlook e1 j x Hj) as [[Ej ->]|(Hne & Hin & Hany)],
    (Hlook e1 j' x' Hj') as [[Ej' ->]|(Hne' & Hin' & Hany')].
  - congruence.
  - destruct (start_entry_executing _ _ Hx) as [Hop Hcase]. fold e1 in Hop. rewrite Hop in *.
    destruct Hcase as [Hxe|[?|Hf]]; [|congruence|].
    + eapply (H j j' e x'); eauto. rewrite Ej. rewrite lookup_app_r, Nat.sub_diag by done. done.
    + exfalso. eapply (fu_busy_false _ _ x' Hf); eauto.
  - destruct (start_entry_executing _ _ Hx') as [Hop Hcase]. fold e1 in Hop. rewrite Hop in *.
    destruct Hcase as [Hxe|[?|Hf]]; [|congruence|].
    + eapply (H j j' x e); eauto. rewrite Ej'. rewrite lookup_app_r, Nat.sub_diag by done. done.
    + exfalso. eapply (fu_busy_false _ _ x Hf); eauto.
  - eapply (H j j' x x'); eauto.
Qed.

Lemma exclusive_start_pass pre post : exclusive (pre ++ post) -> exclusive (start_pass pre post).
Proof.
  revert pre. induction post as [|e post IH]; intros pre H; cbn [start_pass].
  - by rewrite app_nil_r in H.
  - apply IH. rewrite <- (assoc_L (++)). cbn [app]. by apply exclusive_start.
Qed.

Lemma exclusive_tick s : exclusive (entries_ s) -> exclusive (entries_ (tick s)).
Proof.
  intros H. unfold tick. cbn [entries_]. apply exclusive_start_pass. cbn [app].
  eapply exclusive_fewer; [|exact H]. apply Forall2_fmap_r.
  apply Forall_Forall2_diag, Forall_forall. intros e _ Hx. by apply countdown_executing.
Qed.

(** A ready entry: it has its operands and has not been started. *)
Definition ready (e : RSEntry) : bool :=
  se_busy e && negb (se_done e) && (se_qj e =? -1) && (se_qk e =? -1) && (se_cycles_rem e =? 0).

Lemma ready_fields e :
  ready e = true ->
  se_busy e = true /\ se_done e = false /\ se_qj e = -1 /\ se_qk e = -1 /\ se_cycles_rem e = 0.
Proof. unfold ready. rewrite !andb_true_iff, negb_true_iff, !Z.eqb_eq. tauto. Qed.

Lemma fu_busy_idle o (others : list RSEntry) :
  Forall (fun e => se_op e = o -> se_cycles_rem e <= 0) others -> fu_busy o others = false.
Proof.
  intros H. destruct (fu_busy o others) eqn:E; [|done]. exfalso.
  apply existsb_exists in E as (e & Hin & He). rewrite !andb_true_iff in He.
  destruct He as ((_ & Ho%bool_decide_eq_true) & Hr%Z.ltb_lt).
  rewrite Forall_forall in H. specialize (H e ltac:(by apply list_elem_of_In) Ho). lia.
Qed.

(** An operation of one cycle waits for nothing but its operands: whatever the
    other entries do, it is done with the next tick. *)
Lemma one_cycle_tick s j e :
  Forall timing_ok (entries_ s) -> entries_ s !! j = Some e -> ready e = true ->
  latency_of (se_op e) = 1 -> entries_ (tick s) !! j = Some (set_done e (execute_op e)).
Proof.
  intros Ht Hj (Hb & Hd & Hqj & Hqk & Hr)%ready_fields Hl. rewrite (tick_lookup_fwd s j e Hj). f_equal.
  assert (countdown e = e) as -> by (unfold countdown; by rewrite Hr, orb_true_r).
  unfold start_entry. rewrite Hb, Hd, Hqj, Hqk, Hr, fu_busy_idle, andb_false_r, Hl; [done|].
  assert (Hone : forall es, Forall timing_ok es ->
    Forall (fun x => se_op x = se_op e -> se_cycles_rem x <= 0) es).
  { intros es Hes. eapply Forall_impl; [exact Hes|]. intros x [Hx _ _] Ho. rewrite Ho, Hl in Hx. lia. }
  apply Hone, Forall_app. split; [by apply Forall_take, tick_timing|].
  apply Forall_drop, Forall_fmap. eapply Forall_impl; [exact Ht|]. intros x Hx. by apply countdown_timing.
Qed.

(** An operation that is not pipelined waits while another entry with the same
    operation has cycles left. *)
Lemma unit_taken_waits s j j' e e' :
  entries_ s !! j = Some e -> entries_ s !! j' = Some e' -> ready e = true ->
  executing (countdown e') = true -> se_op e' = se_op e -> is_pipelined (se_op e) = false ->
  entries_ (tick s) !! j = Some e.
Proof.
  intros Hj Hj' Hready Hx Ho Hp. pose proof (ready_fields e Hready) as (Hb & Hd & Hqj & Hqk & Hr).
  rewrite (tick_lookup_fwd s j e Hj). f_equal.
  assert (countdown e = e) as -> by (unfold countdown; by rewrite Hr, orb_true_r).
  unfold start_entry. rewrite Hb, Hd, Hqj, Hqk, Hr, Hp. cbn [negb orb andb Z.eqb Pos.eqb].
  destruct (fu_busy (se_op e) _) eqn:Hf; [done|exfalso].
  apply (fu_busy_false _ _ (countdown e') Hf); [|exact Hx|by rewrite <- Ho; apply countdown_same].
  apply elem_of_app. destruct (Nat.lt_trichotomy j' j) as [Hlt|[->|Hgt]].
  - left. apply list_elem_of_lookup. exists j'. rewrite lookup_take_lt by done.
    rewrite (tick_lookup_fwd s j' e' Hj'). f_equal. unfold start_entry.
    unfold executing in Hx. apply andb_true_iff in Hx as [_ Hrem%Z.ltb_lt].
    by rewrite (proj2 (Z.eqb_neq (se_cycles_rem (countdown e')) 0)), !orb_true_r by lia.
  - exfalso. rewrite Hj in Hj'. injection Hj' as <-. unfold executing in Hx.
    unfold countdown in Hx. rewrite Hr, orb_true_r in Hx. by rewrite Hr, andb_false_r in Hx.
  - right. apply list_elem_of_lookup. exists (j' - S j)%nat.
    rewrite lookup_drop. replace (S j + (j' - S j))%nat with j' by lia. by rewrite list_lookup_fmap, Hj'.
Qed.

(** The other operations start nothing. *)
Lemma exclusive_snoop s c : exclusive (entries_ s) -> exclusive (entries_ (snoop s c)).
Proof.
  apply exclusive_fewer. apply Forall2_same_length_lookup_2.
  { cbn. rewrite snoop_entries. by rewrite length_fmap. }
  intros j e e' Hj Hj'. rewrite snoop_lookup, Hj in Hj'. injection Hj' as <-.
  destruct (negb (se_busy e) || se_done e); done.
Qed.

Lemma exclusive_pop s e s' :
  pop_result s = Ok (e, s') -> exclusive (entries_ s) -> exclusive (entries_ s').
Proof.
  unfold pop_result. pose proof (pop_loop_spec (entries_ s)) as Hp.
  destruct (pop_loop (entries_ s)) as [[out es]|]; [|done].
  intros E. injection E as -> <-. destruct Hp as (j & Hj & Hb & Hd & ->). cbn.
  apply exclusive_fewer. apply Forall2_same_length_lookup_2; [by rewrite length_insert|].
  intros j' x x' Hx Hx'. destruct (decide (j' = j)) as [->|Hne].
  - rewrite list_lookup_insert_eq in Hx' by (by eapply lookup_lt_Some). by injection Hx' as <-.
  - rewrite list_lookup_insert_ne in Hx' by done. rewrite Hx in Hx'. by injection Hx' as <-.
Qed.

Lemma exclusive_insert (es : list RSEntry) j e' :
  executing e' = false -> exclusive es -> exclusive (<[j := e']> es).
Proof.
  intros Hx. apply exclusive_fewer. apply Forall2_same_length_lookup_2; [by rewrite length_insert|].
  intros k x x' Hk Hk'. destruct (decide (k = j)) as [->|Hne].
  - rewrite list_lookup_insert_eq in Hk' by (by eapply lookup_lt_Some).
    injection Hk' as <-. congruence.
  - rewrite list_lookup_insert_ne in Hk' by done. rewrite Hk in Hk'. by injection Hk' as <-.
Qed.

End Timing.

(** * Reachable reservation stations

    Sequences of operations on one reservation station, and what they never
    break. *)

Section Reach.
Context `{FE : FPEnv}.

(** One operation of the interface, called when its precondition holds. *)
Inductive station_step : ReservationStation -> ReservationStation -> Prop :=
| step_issue s instr tag rat rf rob r s' :
    issue s instr tag rat rf rob = Ok (r, s') -> station_step s s'
| step_snoop s c : tags_ok (results c) -> station_step s (snoop s c)
| step_tick s : station_step s (tick s)
| step_pop s e s' : pop_result s = Ok (e, s') -> station_step s s'
| step_flush s : station_step s (flush s).

Inductive station_reach (n : Z) : ReservationStation -> Prop :=
| reach_create : station_reach n (create n)
| reach_step s s' : station_reach n s -> station_step s s' -> station_reach n s'.

(** The type invariant: sizes, the occupancy counter, the counters of the
    entries, and the exclusive countdown of operations that are not pipelined. *)
Record station_safe (n : Z) (s : ReservationStation) : Prop := {
  ss_ok : station_ok s;
  ss_size : size_ s = n;
  ss_timing : Forall timing_ok (entries_ s);
  ss_exclusive : exclusive (entries_ s)
}.

Lemma idle_safe n : 0 <= n -> station_safe n (create n).
Proof.
  intros Hn. constructor; [by apply create_station_ok|done| |].
  - cbn. apply Forall_replicate, default_timing.
  - intros j j' e e' Hj _ Hx. cbn in Hj. apply lookup_replicate in Hj as [-> _]. done.
Qed.

(** [issue] on any station: the outcome of the loop over the slots. *)
Lemma issue_outcome s instr tag rat rf rob r s' :
  issue s instr tag rat rf rob = Ok (r, s') ->
  (r = false /\ s' = s /\ Forall (fun e => se_busy e = true) (entries_ s)) \/
  (r = true /\ exists j e e', entries_ s !! j = Some e /\ se_busy e = false /\
     Forall (fun e => se_busy e = true) (take j (entries_ s)) /\
     issue_entry instr tag rat rf rob e = Ok e' /\
     s' = mkReservationStation (size_ s) (count_ s + 1) (<[j := e']> (entries_ s))).
Proof.
  unfold issue. destruct s as [sz cnt es]. cbn [entries_ size_ count_]. intros H.
  apply rbind_Ok in H as (o & Hl & H).
  assert (match o with
    | None => Forall (fun e => se_busy e = true) es
    | Some es' => exists j e e', es !! j = Some e /\ se_busy e = false /\
        Forall (fun e => se_busy e = true) (take j es) /\
        issue_entry instr tag rat rf rob e = Ok e' /\ es' = <[j := e']> es
    end) as Ho.
  { clear H. revert o Hl. induction es as [|e es IH]; intros o Hl; cbn [issue_loop] in Hl.
    - injection Hl as <-. constructor.
    - destruct (se_busy e) eqn:Hb.
      + apply rbind_Ok in Hl as (o' & Hl & E). injection E as <-. specialize (IH o' Hl).
        destruct o' as [es'|]; cbn; [|by constructor].
        destruct IH as (j & x & x' & Hj & Hx & Ht & Hf & ->). exists (S j), x, x'. cbn.
        split_and!; try done. by constructor.
      + apply rbind_Ok in Hl as (e' & He' & E). injection E as <-.
        exists 0%nat, e, e'. cbn. split_and!; done. }
  destruct o as [es'|]; injection H as <- <-; [right|left]; [|done].
  destruct Ho as (j & e & e' & Hj & Hb & Ht & Hf & ->). split; [done|]. by exists j, e, e'.
Qed.

Lemma issue_entry_fresh instr tag rat rf rob e e' :
  issue_entry instr tag rat rf rob e = Ok e' ->
  se_busy e' = true /\ se_done e' = false /\ se_cycles_rem e' = 0.
Proof. unfold issue_entry. intros H. by inv_res. Qed.

Lemma step_safe n s s' : station_safe n s -> station_step s s' -> station_safe n s'.
Proof.
  intros [Hok Hsz Ht Hx] Hstep. pose proof Hok as [Hpos Hlen Hcnt]. destruct Hstep.
  - apply issue_outcome in H as [(_ & -> & _)|(_ & j & e & e' & Hj & Hb & _ & He & ->)]; [done|].
    destruct (issue_entry_fresh _ _ _ _ _ _ _ He) as (Hb' & Hd' & Hr').
    constructor; cbn; [| done | |].
    + constructor; cbn; rewrite ?length_insert; try done.
      rewrite (busy_count_insert _ _ _ _ Hj), Hb, Hb', Hcnt. lia.
    + apply Forall_insert; [done|]. pose proof (latency_of_bounds (se_op e')).
      constructor; rewrite ?Hr', ?Hd'; try done; lia.
    + apply exclusive_insert; [|done]. unfold executing. by rewrite Hr', andb_false_r.
  - assert (Hbefore : forall j e', entries_ (snoop s c) !! j = Some e' ->
      exists e, entries_ s !! j = Some e /\
        e' = if negb (se_busy e) || se_done e then e
             else set_operands e (capture (se_vj e, se_qj e) (results c))
                                 (capture (se_vk e, se_qk e) (results c))).
    { intros j e'. rewrite snoop_lookup. destruct (entries_ s !! j); [|done].
      intros E. injection E as <-. eauto. }
    assert (Hl : length (entries_ (snoop s c)) = length (entries_ s)).
    { cbn. rewrite snoop_entries. by rewrite length_fmap. }
    constructor; [| done | |by apply exclusive_snoop].
    + constructor; [done|by rewrite Hl|]. change (count_ (snoop s c)) with (count_ s). rewrite Hcnt.
      symmetry. apply busy_count_ext. apply Forall2_same_length_lookup_2; [done|].
      intros j e e' Hj (e0 & Hj0 & ->)%Hbefore. rewrite Hj in Hj0. injection Hj0 as <-.
      by destruct (_ || _).
    + apply Forall_lookup. intros j e' (e & Hj & ->)%Hbefore.
      pose proof (Forall_lookup_1 _ _ _ _ Ht Hj) as Hte.
      destruct (negb (se_busy e) || se_done e) eqn:E; [done|].
      apply orb_false_iff in E as [_ Hd]. constructor; cbn; [apply Hte| |congruence].
      intros Hrem. destruct (tm_started _ Hte Hrem) as [-> ->].
      by rewrite !capture_ready.
  - constructor; [by apply tick_station_ok|done|by apply tick_timing|by apply exclusive_tick].
  - pose proof (exclusive_pop _ _ _ H Hx) as Hx'. unfold pop_result in H.
    pose proof (pop_loop_spec (entries_ s)) as Hp.
    destruct (pop_loop (entries_ s)) as [[out es]|]; [|done]. injection H as -> <-.
    destruct Hp as (j & Hj & Hb & Hd & ->). constructor; cbn in *; [|done| |done].
    + constructor; cbn; rewrite ?length_insert; try done.
      rewrite (busy_count_insert _ _ _ _ Hj), Hb, Hcnt. cbn. lia.
    + apply Forall_insert; [done|apply default_timing].
  - pose proof (idle_safe (size_ s) Hpos) as [Hok' _ Ht' Hx']. by constructor.
Qed.

Lemma reach_safe n s : 0 <= n -> station_reach n s -> station_safe n s.
Proof. intros Hn. induction 1; [by apply idle_safe|by eapply step_safe]. Qed.

End Reach.
