(* ===== verification/LSBFacts.v ===== *)
(** * The load/store buffer as a queue

    What each operation of the load/store buffer does to the queue of its
    entries, oldest first. *)

From S2P Require Import Prelude Words Ring Config Float32 Instruction.
From S2P Require Import RegisterFile RegisterRemappingTable ReorderBuffer.
From S2P Require Import CommonDataBus LoadStoreBuffer.

Definition queue (b : LoadStoreBuffer) : list LSBEntry :=
  ring_view (head_ b) (count_ b) (entries_ b).

Definition lsb_ring (b : LoadStoreBuffer) : Prop :=
  ring_ok (size_ b) (head_ b) (tail_ b) (count_ b) (entries_ b).

Lemma lsb_queue_length b : lsb_ring b -> len (queue b) = count_ b.
Proof. apply ring_view_length. Qed.

Lemma phys_mod b k : lsb_ring b -> 0 <= k -> phys b k = (head_ b + k) mod size_ b.
Proof. intros [] Hk. apply Z.rem_mod_nonneg; lia. Qed.

(** [entries_[phys(k)]] is the [k]-th oldest entry. *)
Lemma lsb_get b (es : list LSBEntry) k :
  ring_ok (size_ b) (head_ b) (tail_ b) (count_ b) es -> 0 <= k < count_ b ->
  exists e, vec_get es (phys b k) = Ok e /\
    ring_view (head_ b) (count_ b) es !! Z.to_nat k = Some e.
Proof.
  intros Hr Hk. pose proof Hr as [Hs Hl Hh Hc Ht].
  unfold phys. rewrite Z.rem_mod_nonneg by lia.
  pose proof (ring_index_range (size_ b) (head_ b) k Hs).
  destruct (vec_get_in_range es ((head_ b + k) mod size_ b)) as (e & Hg & He); [lia|].
  exists e. split; [done|]. by rewrite <- (ring_view_at _ _ _ _ _ _ Hr Hk).
Qed.

Lemma lsb_set b (es : list LSBEntry) k e :
  ring_ok (size_ b) (head_ b) (tail_ b) (count_ b) es -> 0 <= k < count_ b ->
  exists es', vec_set es (phys b k) e = Ok es' /\
    ring_ok (size_ b) (head_ b) (tail_ b) (count_ b) es' /\
    ring_view (head_ b) (count_ b) es' = <[Z.to_nat k := e]> (ring_view (head_ b) (count_ b) es).
Proof.
  intros Hr Hk. pose proof Hr as [Hs Hl Hh Hc Ht].
  unfold phys. rewrite Z.rem_mod_nonneg by lia.
  pose proof (ring_index_range (size_ b) (head_ b) k Hs).
  eexists. split; [apply vec_set_Ok; split; [lia|done]|]. by apply ring_update.
Qed.

(** The first [i] elements treated by [f], the others as they were. *)
Definition partly (f : nat -> LSBEntry -> LSBEntry) (q : list LSBEntry) (i : nat) : list LSBEntry :=
  imap f (take i q) ++ drop i q.

Lemma partly_lookup f q i k :
  partly f q i !! k = if decide (k < i)%nat then f k <$> q !! k else q !! k.
Proof.
  unfold partly. destruct (decide (k < i)%nat) as [Hk|Hk].
  - destruct (Nat.lt_ge_cases k (length q)).
    + rewrite lookup_app_l by (rewrite length_imap, length_take; lia).
      rewrite list_lookup_imap, lookup_take_lt by lia. done.
    + rewrite (lookup_ge_None_2 q) by done. apply lookup_ge_None.
      rewrite length_app, length_imap, length_take, length_drop. lia.
  - destruct (Nat.lt_ge_cases k (length q)).
    + rewrite lookup_app_r by (rewrite length_imap, length_take; lia).
      rewrite length_imap, length_take, lookup_drop. f_equal. lia.
    + rewrite (lookup_ge_None_2 q) by done. apply lookup_ge_None.
      rewrite length_app, length_imap, length_take, length_drop. lia.
Qed.

Lemma partly_step f q i e :
  q !! i = Some e -> <[i := f i e]> (partly f q i) = partly f q (S i).
Proof.
  intros He. apply list_eq. intros k. rewrite partly_lookup.
  assert (i < length (partly f q i))%nat.
  { apply lookup_lt_is_Some_1. rewrite partly_lookup, decide_False by lia. by exists e. }
  destruct (decide (k = i)) as [->|Hne].
  - rewrite list_lookup_insert_eq by done. rewrite decide_True by lia. by rewrite He.
  - rewrite list_lookup_insert_ne by done. rewrite partly_lookup.
    destruct (decide (k < i)%nat); [by rewrite decide_True by lia|by rewrite decide_False by lia].
Qed.

Lemma partly_all f q : partly f q (length q) = imap f q.
Proof. unfold partly. by rewrite firstn_all, drop_all, app_nil_r. Qed.

(** A loop over the entries in program order that puts [f i e] in place of the
    [i]-th entry [e]: the body may read the array as far as it has been
    treated. *)
Lemma for_entries_spec b body f :
  lsb_ring b ->
  (forall i e es, queue b !! i = Some e ->
     ring_ok (size_ b) (head_ b) (tail_ b) (count_ b) es ->
     ring_view (head_ b) (count_ b) es = partly f (queue b) i ->
     body es i e = Ok (f i e)) ->
  exists b', for_entries b body = Ok b' /\ lsb_ring b' /\ size_ b' = size_ b /\
    head_ b' = head_ b /\ tail_ b' = tail_ b /\ count_ b' = count_ b /\
    queue b' = imap f (queue b).
Proof.
  intros Hr Hbody. unfold for_entries. pose proof (lsb_queue_length b Hr) as Hlen.
  set (step := fun es i => _).
  destruct (foldM_invariant step
    (fun seen es => ring_ok (size_ b) (head_ b) (tail_ b) (count_ b) es /\
       ring_view (head_ b) (count_ b) es = partly f (queue b) (length seen))
    [] (entries_ b) (seq 0 (Z.to_nat (count_ b)))) as (es & Hes & Hr' & Hq).
  - split; [done|]. unfold partly. simpl. done.
  - intros seen es i todo Hsplit [Hre Hve]. simpl in Hve.
    assert (Hi : i = length seen).
    { assert (seq 0 (Z.to_nat (count_ b)) !! length seen = Some i) as Hl.
      { rewrite Hsplit. rewrite lookup_app_r by lia. by rewrite Nat.sub_diag. }
      apply lookup_seq in Hl. lia. }
    assert (Hlt : 0 <= Z.of_nat i < count_ b).
    { apply (f_equal length) in Hsplit. rewrite length_seq, length_app in Hsplit.
      simpl in Hsplit. lia. }
    subst i. simpl. unfold step. destruct (lsb_get b es _ Hre Hlt) as (e & -> & He). simpl.
    rewrite Nat2Z.id, Hve, partly_lookup, decide_False in He by lia.
    rewrite (Hbody _ _ _ He Hre Hve). simpl.
    destruct (lsb_set b es (Z.of_nat (length seen)) (f (length seen) e) Hre Hlt)
      as (es' & -> & Hre' & Hve').
    exists es'. split; [done|]. split; [done|].
    rewrite Hve', Nat2Z.id, Hve, length_app. simpl.
    rewrite Nat.add_1_r. by apply partly_step.
  - rewrite Hes. simpl. eexists. split; [done|]. simpl. split; [done|].
    split_and!; try done. unfold queue. simpl. rewrite Hq. simpl.
    rewrite length_seq. replace (Z.to_nat (count_ b)) with (length (queue b)) by lia.
    apply partly_all.
Qed.

Lemma for_entries_map b (f : LSBEntry -> LSBEntry) :
  lsb_ring b ->
  exists b', for_entries b (fun _ _ e => Ok (f e)) = Ok b' /\ lsb_ring b' /\ size_ b' = size_ b /\
    head_ b' = head_ b /\ tail_ b' = tail_ b /\ count_ b' = count_ b /\
    queue b' = f <$> queue b.
Proof.
  intros Hr. destruct (for_entries_spec b (fun _ _ e => Ok (f e)) (fun _ => f) Hr)
    as (b' & H & Hr' & ? & ? & ? & ? & Hq); [done|].
  exists b'. split_and!; try done. rewrite Hq. apply imap_const.
Qed.

(** ** Listening *)

Lemma lsb_snoop_entry_fold rs e :
  foldl (fun e r => snoop_entry r e) e rs =
  if bool_decide (le_state e = IDLE) || bool_decide (le_state e = DONE) then e
  else set_operands e (capture (le_vj e, le_qj e) rs) (capture (le_vk e, le_qk e) rs).
Proof.
  revert e. induction rs as [|r rs IH]; intros e.
  - simpl. destruct (_ || _); [done|]. by destruct e.
  - cbn [foldl]. rewrite IH. clear IH.
    destruct (bool_decide (le_state e = IDLE) || bool_decide (le_state e = DONE)) eqn:E.
    + assert (snoop_entry r e = e) as -> by (unfold snoop_entry; by rewrite E).
      by rewrite E.
    + assert (snoop_entry r e = set_operands e (capture1 (le_vj e, le_qj e) r)
                                  (capture1 (le_vk e, le_qk e) r)) as ->
        by (unfold snoop_entry; by rewrite E).
      cbn [set_operands le_state le_vj le_vk le_qj le_qk]. rewrite E, !capture_cons.
      by rewrite <- !surjective_pairing.
Qed.

Lemma lsb_snoop_spec b c :
  lsb_ring b ->
  exists b', snoop b c = Ok b' /\ lsb_ring b' /\ size_ b' = size_ b /\
    head_ b' = head_ b /\ tail_ b' = tail_ b /\ count_ b' = count_ b /\
    queue b' = (fun e => if bool_decide (le_state e = IDLE) || bool_decide (le_state e = DONE) then e
                 else set_operands e (capture (le_vj e, le_qj e) (results c))
                        (capture (le_vk e, le_qk e) (results c))) <$> queue b.
Proof.
  unfold snoop. intros Hr.
  assert (exists b', foldM (fun b r => for_entries b (fun _ _ e => Ok (snoop_entry r e))) b (results c)
     = Ok b' /\ lsb_ring b' /\ size_ b' = size_ b /\ head_ b' = head_ b /\ tail_ b' = tail_ b /\
     count_ b' = count_ b /\
     queue b' = (fun e => foldl (fun e r => snoop_entry r e) e (results c)) <$> queue b)
    as (b' & ? & ? & ? & ? & ? & ? & Hq).
  { revert b Hr. induction (results c) as [|r rs IH]; intros b Hr; simpl.
    - exists b. split_and!; try done. by rewrite list_fmap_id.
    - destruct (for_entries_map b (snoop_entry r) Hr) as (b1 & -> & Hr1 & ? & ? & ? & ? & Hq1).
      simpl. destruct (IH b1 Hr1) as (b' & ? & ? & ? & ? & ? & ? & Hq).
      exists b'. split_and!; try done; try congruence.
      rewrite Hq, Hq1, <- list_fmap_compose. done. }
  exists b'. split_and!; try done. rewrite Hq. apply list_fmap_ext.
  intros j e _. apply lsb_snoop_entry_fold.
Qed.

Lemma load_is_not_store o : is_load o = true -> is_store o = false.
Proof. by destruct o. Qed.

(** ** The scan over older stores *)

(** [scan_older] on the list of older entries, [k] the index of the first. *)
Fixpoint scan (addr : Z) (older : list LSBEntry) (k : Z) (fwd_slot : Z) : bool * Z :=
  match older with
  | [] => (false, fwd_slot)
  | e :: older' =>
      if negb (is_store (le_op e)) then scan addr older' (k + 1) fwd_slot
      else if bool_decide (le_state e = WAITING) then (true, -1)
      else if negb (le_eff_addr e =? addr) then scan addr older' (k + 1) fwd_slot
      else if bool_decide (le_state e = DONE) then scan addr older' (k + 1) k
      else (true, -1)
  end.

Lemma scan_older_spec b (es : list LSBEntry) addr j n fwd :
  ring_ok (size_ b) (head_ b) (tail_ b) (count_ b) es -> Z.of_nat (j + n) <= count_ b ->
  scan_older b es addr (seq j n) fwd =
  Ok (scan addr (take n (drop j (ring_view (head_ b) (count_ b) es))) (Z.of_nat j) fwd).
Proof.
  intros Hr. revert j fwd. induction n as [|n IH]; intros j fwd Hn; [done|].
  cbn [seq scan_older]. destruct (lsb_get b es (Z.of_nat j) Hr) as (e & -> & He); [lia|].
  rewrite Nat2Z.id in He. simpl. rewrite (drop_S _ e j He). cbn [take scan].
  replace (Z.of_nat j + 1) with (Z.of_nat (S j)) by lia.
  rewrite !IH by lia. by repeat case_match.
Qed.

(** What the scan says of the stores it went over. *)
Definition store_elsewhere (addr : Z) (e : LSBEntry) : Prop :=
  is_store (le_op e) = true -> le_state e <> WAITING /\ le_eff_addr e <> addr.

Lemma scan_sound addr older k fwd r :
  scan addr older k fwd = (false, r) ->
  (r = fwd /\ Forall (store_elsewhere addr) older) \/
  (exists m e, older !! m = Some e /\ r = k + Z.of_nat m /\ is_store (le_op e) = true /\
     le_state e = DONE /\ le_eff_addr e = addr /\ Forall (store_elsewhere addr) (drop (S m) older)).
Proof.
  revert k fwd. induction older as [|e older IH]; intros k fwd H; cbn [scan] in H.
  - left. injection H as <-. done.
  - assert (forall fwd', scan addr older (k + 1) fwd' = (false, r) ->
      (r = fwd' /\ Forall (store_elsewhere addr) older) \/
      (exists m e0, (e :: older) !! m = Some e0 /\ r = k + Z.of_nat m /\ is_store (le_op e0) = true /\
        le_state e0 = DONE /\ le_eff_addr e0 = addr /\
        Forall (store_elsewhere addr) (drop (S m) (e :: older)))) as Hnext.
    { intros fwd' H'. destruct (IH _ _ H') as [?|(m & e0 & Hm & -> & ?)]; [by left|].
      right. exists (S m), e0. split; [done|]. split; [lia|done]. }
    destruct (is_store (le_op e)) eqn:Hst; cbn [negb] in H.
    + case_bool_decide as Hw; [done|].
      destruct (Z.eqb_spec (le_eff_addr e) addr) as [Ha|Ha]; cbn [negb] in H.
      * case_bool_decide as Hd; [|done].
        destruct (Hnext _ H) as [[-> Hall]|?]; [|by right].
        right. exists 0%nat, e. split_and!; try done. lia.
      * destruct (Hnext _ H) as [[-> Hall]|?]; [|by right].
        left. split; [done|]. constructor; [|done]. by intros _.
    + destruct (Hnext _ H) as [[-> Hall]|?]; [|by right].
      left. split; [done|]. constructor; [|done]. intros ?. congruence.
Qed.

(** An older store that keeps a load from reading: its address is unknown, or
    it has the load's address and not yet its data. *)
Definition blocker (addr : Z) (e : LSBEntry) : bool :=
  is_store (le_op e) &&
  (bool_decide (le_state e = WAITING) ||
   ((le_eff_addr e =? addr) && negb (bool_decide (le_state e = DONE)))).

Lemma scan_blocked addr older k fwd : fst (scan addr older k fwd) = existsb (blocker addr) older.
Proof.
  revert k fwd. induction older as [|e older IH]; intros k fwd; [done|].
  cbn [scan existsb]. unfold blocker at 1. destruct (is_store (le_op e)); cbn [negb andb orb]; [|apply IH].
  destruct (bool_decide_reflect (le_state e = WAITING)); cbn [orb]; [done|].
  destruct (le_eff_addr e =? addr); cbn [negb andb orb]; [|apply IH].
  destruct (bool_decide_reflect (le_state e = DONE)); cbn [negb orb]; [apply IH|done].
Qed.

(** A store that is DONE at the load's address. *)
Definition forwards (addr : Z) (e : LSBEntry) : bool :=
  is_store (le_op e) && (le_eff_addr e =? addr) && bool_decide (le_state e = DONE).

(** An unblocked load forwards from the youngest of them. *)
Lemma scan_forwards addr older k fwd r :
  scan addr older k fwd = (false, r) ->
  (r = fwd /\ Forall (fun e => forwards addr e = false) older) \/
  (exists m e, older !! m = Some e /\ r = k + Z.of_nat m /\ forwards addr e = true /\
     Forall (fun e => forwards addr e = false) (drop (S m) older)).
Proof.
  intros H. apply scan_sound in H as [[-> Hall]|(m & e & Hm & -> & Hst & Hd & Ha & Hall)].
  - left. split; [done|]. eapply Forall_impl; [exact Hall|]. intros e He. unfold forwards.
    destruct (is_store (le_op e)) eqn:E; [|done]. destruct (He E) as [_ Hne].
    by rewrite (proj2 (Z.eqb_neq _ _)).
  - right. exists m, e. split; [done|]. split; [done|]. split.
    + unfold forwards. by rewrite Hst, (proj2 (Z.eqb_eq _ _)), bool_decide_eq_true_2.
    + eapply Forall_impl; [exact Hall|]. intros x Hx. unfold forwards.
      destruct (is_store (le_op x)) eqn:E; [|done]. destruct (Hx E) as [_ Hne].
      by rewrite (proj2 (Z.eqb_neq _ _)).
Qed.

(** The scan only looks at stores. *)
Lemma scan_ext addr older f k fwd :
  (forall j e, le_op (f j e) = le_op e) ->
  (forall j e, is_store (le_op e) = true -> f j e = e) ->
  scan addr (imap f older) k fwd = scan addr older k fwd.
Proof.
  intros Hop Hst. revert f Hop Hst k fwd. induction older as [|e older IH]; intros f Hop Hst k fwd; [done|].
  pose proof (IH (f ∘ S) (fun j => Hop (S j)) (fun j => Hst (S j))) as IH'.
  cbn [imap scan]. rewrite Hop. destruct (is_store (le_op e)) eqn:E; cbn [negb].
  - rewrite (Hst _ _ E). by rewrite !IH'.
  - by rewrite IH'.
Qed.

(** ** Memory reads *)

(** Bits 31:2 of an address select the word; outside the memory reads give 0. *)
Lemma mem_read_total m a :
  0 <= a ->
  mem_read m a = Ok (if Z.shiftr a 2 <? len m then default 0 (m !! Z.to_nat (Z.shiftr a 2)) else 0).
Proof.
  intros Ha. unfold mem_read. destruct (Z.ltb_spec (Z.shiftr a 2) (len m)); [|done].
  assert (0 <= Z.shiftr a 2) by (by apply Z.shiftr_nonneg).
  destruct (vec_get_in_range m (Z.shiftr a 2)) as (v & -> & Hv); [lia|]. by rewrite Hv.
Qed.

Definition read_word (m : list Z) (a : Z) : Z :=
  if Z.shiftr a 2 <? len m then default 0 (m !! Z.to_nat (Z.shiftr a 2)) else 0.

(** ** One cycle *)

(** Pass 3 on the queue. *)
Definition start_load (q : list LSBEntry) (m : list Z) (i : nat) (e : LSBEntry) : LSBEntry :=
  if negb (bool_decide (le_state e = ADDR_READY)) || negb (is_load (le_op e)) then e
  else
    let '(blocked, fwd) := scan (le_eff_addr e) (take i q) 0 (-1) in
    if blocked then e
    else if 0 <=? fwd then set_result e (le_vk (default default_entry (q !! Z.to_nat fwd)))
    else if latency_of (le_op e) <=? 1 then set_result e (read_word m (le_eff_addr e))
    else set_state (set_cycles e (latency_of (le_op e) - 1)) EXECUTING.

Definition finish_load (m : list Z) (e : LSBEntry) : LSBEntry :=
  if negb (bool_decide (le_state e = EXECUTING)) then e
  else
    let e' := set_cycles e (le_cycles_rem e - 1) in
    if le_cycles_rem e' =? 0 then set_result e' (read_word m (le_eff_addr e')) else e'.

(** [tick] on the queue. *)
Definition tick_queue (m : list Z) (q : list LSBEntry) : list LSBEntry :=
  let q2 := pass2 <$> (pass1 <$> q) in
  finish_load m <$> imap (start_load q2 m) q2.

Lemma start_load_op q m i e : le_op (start_load q m i e) = le_op e.
Proof. unfold start_load. by repeat case_match. Qed.

Lemma start_load_store q m i e : is_store (le_op e) = true -> start_load q m i e = e.
Proof.
  intros Hs. unfold start_load.
  assert (is_load (le_op e) = false) as -> by (destruct (le_op e); done).
  by rewrite orb_true_r.
Qed.

Lemma scan_range addr older k fwd r :
  scan addr older k fwd = (false, r) -> r = fwd \/ k <= r < k + len older.
Proof.
  intros [[-> _]|(m & e & Hm & -> & _)]%scan_sound; [by left|right].
  apply lookup_lt_Some in Hm. lia.
Qed.

Definition addr_range (e : LSBEntry) : Prop := le_state e <> WAITING -> 0 <= le_eff_addr e.

Lemma pass1_addr e : addr_range e -> addr_range (pass1 e).
Proof.
  unfold addr_range, pass1. intros He. case_match; [done|]. intros _. simpl.
  apply u32_range.
Qed.

Lemma pass2_addr e : addr_range e -> addr_range (pass2 e).
Proof.
  unfold addr_range, pass2. intros He.
  destruct (bool_decide_reflect (le_state e = ADDR_READY)) as [Hs|]; [|done].
  case_match; [done|]. intros _. simpl. apply He. by rewrite Hs.
Qed.

Lemma start_load_addr q m i e : addr_range e -> addr_range (start_load q m i e).
Proof.
  unfold addr_range, start_load. intros He.
  destruct (bool_decide_reflect (le_state e = ADDR_READY)) as [Hs|]; [|done].
  assert (0 <= le_eff_addr e) by (apply He; by rewrite Hs).
  repeat case_match; done.
Qed.

(** The body of pass 3 computes [start_load]. *)
Lemma pass3_spec b m i e (es : list LSBEntry) :
  lsb_ring b -> queue b !! i = Some e -> addr_range e ->
  ring_ok (size_ b) (head_ b) (tail_ b) (count_ b) es ->
  ring_view (head_ b) (count_ b) es = partly (start_load (queue b) m) (queue b) i ->
  pass3 b m es i e = Ok (start_load (queue b) m i e).
Proof.
  intros Hr He Ha Hre Hve. unfold pass3, start_load.
  destruct (bool_decide_reflect (le_state e = ADDR_READY)) as [Hs|]; [|done].
  destruct (is_load (le_op e)) eqn:Hl; [|done]. cbn [negb orb].
  pose proof (lsb_queue_length b Hr) as Hlen. apply lookup_lt_Some in He as Hlt.
  rewrite scan_older_spec by (done || lia). rewrite drop_0, Hve.
  assert (take i (partly (start_load (queue b) m) (queue b) i) =
          imap (start_load (queue b) m) (take i (queue b))) as ->.
  { unfold partly. rewrite take_app_length'; [done|]. rewrite length_imap, length_take. lia. }
  rewrite scan_ext by auto using start_load_op, start_load_store.
  destruct (scan _ _ _ _) as [blocked fwd] eqn:Hscan. simpl.
  destruct blocked; [done|].
  destruct (Z.leb_spec 0 fwd) as [Hf|Hf].
  - apply scan_sound in Hscan as [[-> _]|(k & st & Hk & -> & Hst & _)]; [lia|].
    apply lookup_lt_Some in Hk as Hki. rewrite length_take in Hki.
    rewrite Z.add_0_l. destruct (lsb_get b es (Z.of_nat k) Hre) as (st' & -> & Hst'); [lia|]. simpl.
    rewrite Hve, partly_lookup, decide_True in Hst' by lia.
    rewrite lookup_take_lt in Hk by lia. rewrite Nat2Z.id in Hst' |- *. rewrite Hk in Hst' |- *.
    simpl in *. rewrite start_load_store in Hst' by done. by injection Hst' as <-.
  - destruct (_ <=? 1); [|done]. rewrite mem_read_total; [done|]. apply Ha. by rewrite Hs.
Qed.

Lemma pass4_spec m e : addr_range e -> pass4 m e = Ok (finish_load m e).
Proof.
  intros Ha. unfold pass4, finish_load.
  destruct (bool_decide_reflect (le_state e = EXECUTING)) as [Hs|]; [|done].
  cbn [negb]. case_match; [|done]. rewrite mem_read_total; [done|].
  simpl. apply Ha. by rewrite Hs.
Qed.

Lemma lsb_tick_spec b m :
  lsb_ring b -> Forall addr_range (queue b) ->
  exists b', tick b m = Ok b' /\ lsb_ring b' /\ size_ b' = size_ b /\
    head_ b' = head_ b /\ tail_ b' = tail_ b /\ count_ b' = count_ b /\
    queue b' = tick_queue m (queue b).
Proof.
  intros Hr Ha. unfold tick.
  destruct (for_entries_map b pass1 Hr) as (b1 & -> & Hr1 & ? & ? & ? & ? & Hq1). simpl.
  destruct (for_entries_map b1 pass2 Hr1) as (b2 & -> & Hr2 & ? & ? & ? & ? & Hq2). simpl.
  assert (Ha2 : Forall addr_range (queue b2)).
  { rewrite Hq2, Hq1. rewrite !Forall_fmap. eapply Forall_impl; [exact Ha|].
    intros e He. apply pass2_addr, pass1_addr, He. }
  destruct (for_entries_spec b2 (pass3 b2 m) (start_load (queue b2) m) Hr2)
    as (b3 & -> & Hr3 & ? & ? & ? & ? & Hq3).
  { intros i e es He Hre Hve. apply pass3_spec; try done. by eapply Forall_lookup_1. }
  simpl. destruct (for_entries_spec b3 (fun _ _ e => pass4 m e) (fun _ => finish_load m) Hr3)
    as (b4 & -> & Hr4 & ? & ? & ? & ? & Hq4).
  { intros i e es He _ _. apply pass4_spec. rewrite Hq3, list_lookup_imap in He.
    destruct (queue b2 !! i) as [e2|] eqn:E2; [|done]. simpl in He. injection He as <-.
    apply start_load_addr. by eapply Forall_lookup_1. }
  exists b4. split_and!; try done; try congruence.
  rewrite Hq4, (imap_const (finish_load m)), Hq3, Hq2, Hq1. done.
Qed.

(** ** Ends of the queue *)

Lemma lsb_pop_spec b :
  lsb_ring b -> 0 < count_ b ->
  exists e b', vec_get (entries_ b) (head_ b) = Ok e /\ pop_head b = Ok b' /\ lsb_ring b' /\
    size_ b' = size_ b /\ count_ b' = count_ b - 1 /\ queue b = e :: queue b'.
Proof.
  intros Hr Hc. pose proof Hr as [Hs Hl Hh Hcb Ht].
  destruct (ring_pop _ _ _ _ _ default_entry Hr Hc) as (Hr' & e & He & Hq).
  unfold pop_head. assert (vec_set (entries_ b) (head_ b) default_entry =
    Ok (<[Z.to_nat (head_ b) := default_entry]> (entries_ b))) as Hset.
  { apply vec_set_Ok. split; [lia|done]. }
  rewrite Hset. simpl. rewrite Z.rem_mod_nonneg by lia.
  eexists e, _. split; [apply vec_get_Ok; split; [lia|done]|]. split; [done|]. done.
Qed.

(** The head, for the three operations that look at it. *)
Definition head_done (want : Opcode -> bool) (q : list LSBEntry) : bool :=
  match q with
  | [] => false
  | h :: _ => bool_decide (le_state h = DONE) && want (le_op h)
  end.

Lemma lsb_empty_queue b : lsb_ring b -> empty b = true <-> queue b = [].
Proof.
  intros Hr. pose proof (lsb_queue_length b Hr). unfold empty. rewrite Z.eqb_eq.
  destruct (queue b); simpl in *; split; intros; try done; lia.
Qed.

Lemma has_load_result_spec b :
  lsb_ring b -> has_load_result b = Ok (head_done is_load (queue b)).
Proof.
  intros Hr. unfold has_load_result. pose proof (lsb_queue_length b Hr).
  pose proof Hr as [_ _ _ Hc _]. unfold empty.
  destruct (Z.eqb_spec (count_ b) 0) as [Hz|Hz].
  - destruct (queue b); [done|simpl in *; lia].
  - destruct (lsb_pop_spec b Hr) as (e & b' & -> & _ & _ & _ & _ & ->); [lia|]. done.
Qed.

Lemma can_commit_store_spec b :
  lsb_ring b -> can_commit_store b = Ok (head_done is_store (queue b)).
Proof.
  intros Hr. unfold can_commit_store. pose proof (lsb_queue_length b Hr).
  pose proof Hr as [_ _ _ Hc _]. unfold empty.
  destruct (Z.eqb_spec (count_ b) 0) as [Hz|Hz].
  - destruct (queue b); [done|simpl in *; lia].
  - destruct (lsb_pop_spec b Hr) as (e & b' & -> & _ & _ & _ & _ & ->); [lia|]. done.
Qed.

Lemma pop_load_result_spec b :
  lsb_ring b -> head_done is_load (queue b) = true ->
  exists e b', pop_load_result b = Ok (e, b') /\ lsb_ring b' /\ size_ b' = size_ b /\
    queue b = e :: queue b' /\ le_state e = DONE /\ is_load (le_op e) = true.
Proof.
  intros Hr Hh. unfold pop_load_result. rewrite has_load_result_spec, Hh by done. simpl.
  pose proof (lsb_queue_length b Hr) as Hlen.
  destruct (lsb_pop_spec b Hr) as (e & b' & -> & -> & Hr' & Hs' & _ & Hq).
  { destruct (queue b); [done|simpl in *; lia]. }
  simpl. exists e, b'. rewrite Hq in Hh. apply andb_true_iff in Hh as [Hd%bool_decide_eq_true_1 Hl].
  split_and!; done.
Qed.

(** [commit_store] writes the word when it is inside the memory and removes
    the head. *)
Lemma commit_store_spec b m :
  lsb_ring b -> head_done is_store (queue b) = true ->
  Forall addr_range (queue b) ->
  exists e b', queue b = e :: queue b' /\ le_state e = DONE /\ is_store (le_op e) = true /\
    commit_store b m =
      Ok (b', if Z.shiftr (le_eff_addr e) 2 <? len m
              then <[Z.to_nat (Z.shiftr (le_eff_addr e) 2) := le_vk e]> m else m) /\
    lsb_ring b' /\ size_ b' = size_ b.
Proof.
  intros Hr Hh Ha. unfold commit_store. rewrite can_commit_store_spec, Hh by done. simpl.
  pose proof (lsb_queue_length b Hr) as Hlen.
  destruct (lsb_pop_spec b Hr) as (e & b' & -> & -> & Hr' & Hs' & _ & Hq).
  { destruct (queue b); [done|simpl in *; lia]. }
  simpl. exists e, b'. rewrite Hq in Hh. apply andb_true_iff in Hh as [Hd%bool_decide_eq_true_1 Hst].
  split_and!; try done.
  destruct (Z.ltb_spec (Z.shiftr (le_eff_addr e) 2) (len m)); [|done].
  assert (0 <= Z.shiftr (le_eff_addr e) 2).
  { apply Z.shiftr_nonneg. rewrite Hq in Ha. apply Forall_cons in Ha as [Ha _].
    apply Ha. by rewrite Hd. }
  by rewrite vec_set_in_range by lia.
Qed.
