(* ===== verification/Broadcast.v ===== *)
(** * Phase 3: sources of results

    A reservation station and the load/store buffer promise the broadcast loops
    of phase 3 the same thing: a test for a waiting result, and a removal that
    brings a measure down. The loops are verified against this interface. *)

From S2P Require Import Prelude Words Ring Config Float32 Instruction.
From S2P Require Import RegisterFile RegisterRemappingTable ReorderBuffer CommonDataBus.
From S2P Require Import ReservationStation LoadStoreBuffer InstructionQueue CommitUnit Simulator.
From S2P Require Import StationFacts LSBFacts.

Class ResultSource (T R : Type) := {
  src_ready : T -> res bool;
  src_pop : T -> res (R * T);
  src_tag : R -> Z;
  src_value : R -> Z;
  (* well-formed states, and how many removals are left *)
  src_ok : T -> Prop;
  src_left : T -> nat;
  src_ready_total : forall s, src_ok s -> exists b, src_ready s = Ok b;
  src_pop_spec : forall s, src_ok s -> src_ready s = Ok true ->
    exists r s', src_pop s = Ok (r, s') /\ src_ok s' /\ src_left s = S (src_left s')
}.

Section Drain.
Context {T R : Type} `{Src : !ResultSource T R}.

(** [while (ready) { r = pop(); rob.write_result(r); cdb.broadcast(r); }] *)
Fixpoint drain_source (fuel : nat) (s : T) (rob : ReorderBuffer) (cdb : CommonDataBus)
  : res (T * ReorderBuffer * CommonDataBus) :=
  let! ready := src_ready s in
  if negb ready then Ok (s, rob, cdb)
  else match fuel with
       | O => Stop OutOfFuel
       | S fuel' =>
           let! (r, s') := src_pop s in
           let! rob' := ReorderBuffer.write_result rob (src_tag r) (src_value r) in
           drain_source fuel' s' rob' (CommonDataBus.broadcast cdb (src_tag r) (src_value r))
       end.

(** Fuel for the removals that are left is enough; the loop ends with no
    result waiting, and puts one result on the bus for each removal. *)
Lemma drain_source_ends fuel s rob cdb :
  src_ok s -> (src_left s <= fuel)%nat ->
  drain_source fuel s rob cdb <> Stop OutOfFuel /\
  forall s' rob' cdb', drain_source fuel s rob cdb = Ok (s', rob', cdb') ->
    src_ok s' /\ src_ready s' = Ok false /\
    (length (results cdb') + src_left s' = length (results cdb) + src_left s)%nat.
Proof.
  revert s rob cdb. induction fuel as [|fuel IH]; intros s rob cdb Hok Hle; cbn [drain_source];
    destruct (src_ready_total s Hok) as ([] & Hready); rewrite Hready; cbn [rbind negb].
  2, 4: split; [done|]; intros s' rob' cdb' E; injection E as <- <- <-; done.
  all: destruct (src_pop_spec s Hok Hready) as (r & s1 & Hpop & Hok1 & Hleft); try lia.
  rewrite Hpop. cbn [rbind]. pose proof (write_result_fuel rob (src_tag r) (src_value r)) as Hwf.
  destruct (ReorderBuffer.write_result rob (src_tag r) (src_value r)) as [rob1|f]; cbn [rbind];
    [|split; [congruence|done]].
  edestruct (IH s1 rob1 (CommonDataBus.broadcast cdb (src_tag r) (src_value r)) Hok1) as [Hne Hend];
    [lia|].
  split; [done|]. intros s' rob' cdb' E. destruct (Hend _ _ _ E) as (? & ? & Hcount).
  rewrite broadcast_results, length_app in Hcount. cbn in Hcount. split_and!; [done|done|lia].
Qed.

End Drain.

(** ** The two kinds of source *)

#[global, refine] Instance station_source : ResultSource ReservationStation RSEntry := {|
  src_ready s := Ok (ReservationStation.has_result s);
  src_pop := ReservationStation.pop_result;
  src_tag := se_rob_tag;
  src_value := se_result;
  src_ok _ := True;
  src_left s := done_count (ReservationStation.entries_ s)
|}.
Proof.
  - intros s _. by eexists.
  - intros s _ H. injection H as H. destruct (has_result_pop s H) as (j & e & Hj & Hb & Hd & Hpop).
    eexists _, _. split; [exact Hpop|]. split; [done|]. by apply done_count_pop with (e := e).
Defined.

#[global, refine] Instance lsb_source : ResultSource LoadStoreBuffer LSBEntry := {|
  src_ready := LoadStoreBuffer.has_load_result;
  src_pop := LoadStoreBuffer.pop_load_result;
  src_tag := le_rob_tag;
  src_value := le_result;
  src_ok := lsb_ring;
  src_left b := length (LSBFacts.queue b)
|}.
Proof.
  - intros b Hr. rewrite has_load_result_spec by done. by eexists.
  - intros b Hr H. rewrite has_load_result_spec in H by done. injection H as H.
    destruct (pop_load_result_spec b Hr H) as (e & b' & Hpop & Hr' & _ & Hq & _).
    eexists e, b'. split; [done|]. split; [done|]. by rewrite Hq.
Defined.

Lemma drain_is_source fuel s rob cdb : drain fuel s rob cdb = drain_source fuel s rob cdb.
Proof.
  revert s rob cdb. induction fuel as [|fuel IH]; intros s rob cdb; cbn [drain drain_source].
  - done.
  - cbn [src_ready station_source rbind]. destruct (negb _); [done|].
    cbn [src_pop station_source]. destruct (ReservationStation.pop_result s) as [[r s']|f]; [|done].
    cbn [rbind]. destruct (ReorderBuffer.write_result _ _ _); [|done]. apply IH.
Qed.

Lemma drain_lsb_is_source fuel b rob cdb : drain_lsb fuel b rob cdb = drain_source fuel b rob cdb.
Proof.
  revert b rob cdb. induction fuel as [|fuel IH]; intros b rob cdb; cbn [drain_lsb drain_source].
  - done.
  - cbn [src_ready lsb_source]. destruct (has_load_result b) as [ready|f]; [|done]. cbn [rbind].
    destruct (negb ready); [done|]. cbn [src_pop lsb_source].
    destruct (pop_load_result b) as [[r b']|f]; [|done].
    cbn [rbind]. destruct (ReorderBuffer.write_result _ _ _); [|done]. apply IH.
Qed.
