(* ===== verification/Invariant.v ===== *)
(** * The relation between the pipeline and a sequential run

    Instructions are numbered in the order they are dispatched. [st_at s] is the
    state of the sequential machine before instruction [s], [ins_at s] the
    instruction and [res_at s] its result. The machine is [steps_with] of ISA:
    what loads return is given ([Loads]), because the engine can give a load a
    value that memory does not hold; [load_sees] says which. The reorder buffer
    holds instructions [b .. b + n - 1], where [b] counts the instructions
    committed so far; instruction [s] sits in slot [tag s]. The invariant [Inv]
    ties every unit to that window. *)

From S2P Require Import Prelude Words Ring Config Float32 Instruction.
From S2P Require Import RegisterFile RegisterRemappingTable ReorderBuffer.
From S2P Require Import CommonDataBus ReservationStation LoadStoreBuffer.
From S2P Require Import InstructionQueue CommitUnit Simulator ISA.
From S2P Require Import StationFacts LSBFacts.

Definition is_mem (o : Opcode) : bool := is_load o || is_store o.
Definition is_control (o : Opcode) : bool := is_branch o || is_jump o.

(** The reorder-buffer slot of instruction number [s]. *)
Definition tag (s : nat) : Z := Z.of_nat s mod ROB_SIZE.

Definition slot (rob : ReorderBuffer) (s : nat) : option ROBEntry :=
  ReorderBuffer.entries_ rob !! Z.to_nat (tag s).

Definition inflight (rob : ReorderBuffer) (s : nat) : Prop :=
  exists e, slot rob s = Some e /\ re_state e = ReorderBuffer.IN_FLIGHT.

Definition completed (rob : ReorderBuffer) (s : nat) : Prop :=
  exists e, slot rob s = Some e /\ re_state e = ReorderBuffer.DONE.

(** A waiting operand will still see the result of [s]: it is not computed yet
    or it is on the bus. *)
Definition pending (rob : ReorderBuffer) (c : list CDBResult) (s : nat) : Prop :=
  inflight rob s \/ Exists (fun r => cdb_tag r = tag s) c.

Definition in_win (b n s : nat) : Prop := (b <= s < b + n)%nat.

Lemma in_win_le b n s : in_win b n s -> (s <= b + n)%nat.
Proof. unfold in_win. lia. Qed.

(** ** The run *)

(** What each load returns; [None] for the word memory holds, also for the loads
    that have not been executed. *)
Class Loads : Type := loaded : nat -> option Z.

Section Relation.
Context `{FE : FPEnv}.
Context (p : list Instruction) {L : Loads}.

Definition st_at (s : nat) : Arch := steps_with loaded p s arch_init.

Definition ins_at (s : nat) : option Instruction := fetch p (apc (st_at s)).

Definition res_at (s : nat) : Z :=
  match ins_at s with Some i => result_with (loaded s) i (st_at s) | None => 0 end.

(** [s] is reached by sequential execution: no HALT before it. The pipeline
    also dispatches instructions behind a HALT; they never commit. *)
Definition live (s : nat) : Prop :=
  forall s' i, (s' < s)%nat -> ins_at s' = Some i -> op i <> HALT.

(** Instruction [s] writes register [(r, fp)]. *)
Definition writes (s : nat) (r : Z) (fp : bool) : Prop :=
  exists i, ins_at s = Some i /\ rd i = r /\ rd_fp i = fp /\ 0 <= r /\ (fp = true \/ r <> 0).

(** [s'] is the last instruction before [s] to write the register. *)
Definition last_writer (s' s : nat) (r : Z) (fp : bool) : Prop :=
  (s' < s)%nat /\ writes s' r fp /\ forall k, (s' < k < s)%nat -> ~ writes k r fp.

(** No instruction in flight will still change what [s] reads there. *)
Definition settled (rob : ReorderBuffer) (b s : nat) (r : Z) (fp : bool) : Prop :=
  forall s', (b <= s')%nat -> last_writer s' s r fp -> completed rob s'.

(** A finished instruction had its operands, and a load has its value. *)
Definition done_ok (rob : ReorderBuffer) (b s : nat) (i : Instruction) : Prop :=
  if is_load (op i) then is_Some (loaded s)
  else if is_store (op i) then True
  else settled rob b s (rs1 i) (rs1_fp i) /\ settled rob b s (rs2 i) (rs2_fp i).

Record slot_ok (s : nat) (e : ROBEntry) : Prop := {
  sl_instr : exists i, ins_at s = Some i /\ re_op e = op i /\ re_rd e = rd i /\
               re_rd_fp e = rd_fp i /\ re_pc e = pc i;
  sl_state : re_state e = ReorderBuffer.IN_FLIGHT \/
             (re_state e = ReorderBuffer.DONE /\ re_result e = res_at s)
}.

Record rob_inv (b n : nat) (rob : ReorderBuffer) : Prop := {
  ri_ok : rob_ok rob;
  ri_size : ReorderBuffer.size_ rob = ROB_SIZE;
  ri_head : ReorderBuffer.head_ rob = tag b;
  ri_count : ReorderBuffer.count_ rob = Z.of_nat n;
  ri_slots : forall s, in_win b n s -> exists e, slot rob s = Some e /\ slot_ok s e;
  ri_done : forall s i, in_win b n s -> completed rob s -> ins_at s = Some i -> done_ok rob b s i
}.

(** The operand of [s] from register [(r, fp)]: a value, which is the
    register's and will stay so, or the tag of the instruction that produces
    it. *)
Definition operand_ok (rob : ReorderBuffer) (c : list CDBResult) (b s : nat) (r : Z) (fp : bool)
    (v q : Z) : Prop :=
  (q = -1 /\ v = read_reg (st_at s) r fp /\ settled rob b s r fp) \/
  (exists s', (b <= s')%nat /\ q = tag s' /\ last_writer s' s r fp /\
     (forall i, ins_at s' = Some i -> is_jump (op i) = false) /\ pending rob c s').

Definition cdb_inv (b n : nat) (rob : ReorderBuffer) (c : list CDBResult) : Prop :=
  Forall (fun r => exists s, in_win b n s /\ cdb_tag r = tag s /\ completed rob s /\
            cdb_value r = res_at s) c.

Definition regs_inv (b : nat) (rf : RegisterFile) : Prop :=
  rf_ok rf /\
  forall r fp, reg_index r -> read_bits rf r fp = Ok (read_reg (st_at b) r fp).

Definition mem_inv (b : nat) (mem : list Z) : Prop :=
  len mem = MEM_SIZE /\
  forall w, 0 <= w < MEM_SIZE -> mem !! Z.to_nat w = Some (am (st_at b) w).

(** A register is mapped to its last writer in the window, if there is one. *)
Definition rat_inv (b n : nat) (rat : RegisterRemappingTable) : Prop :=
  rat_ok rat /\
  forall r fp, reg_index r ->
    match mapping rat r fp with
    | None => forall s, in_win b n s -> ~ writes s r fp
    | Some t => exists s, in_win b n s /\ t = tag s /\ writes s r fp /\
                  forall s', (s < s' < b + n)%nat -> ~ writes s' r fp
    end.

(** An occupied slot of station [k] holds the in-flight instruction [s]. *)
Record station_entry (rob : ReorderBuffer) (c : list CDBResult) (b : nat) (k : RSId) (s : nat)
    (i : Instruction) (e : RSEntry) : Prop := {
  se_instr : ins_at s = Some i;
  se_route : target_rs (op i) = Some k;
  se_op_eq : se_op e = op i;
  se_imm_eq : se_imm e = imm i;
  se_pc_eq : se_pc e = pc i;
  se_tag_eq : se_rob_tag e = tag s;
  se_inflight : inflight rob s;
  se_j : operand_ok rob c b s (rs1 i) (rs1_fp i) (se_vj e) (se_qj e);
  se_k : operand_ok rob c b s (rs2 i) (rs2_fp i) (se_vk e) (se_qk e)
}.

Definition rs_size (k : RSId) : Z :=
  match k with
  | rs_alu => RS_ALU_SIZE
  | rs_branch => RS_BRANCH_SIZE
  | rs_fp_addsub => RS_FP_ADDSUB_SIZE
  | rs_fp_mul => RS_FP_MUL_SIZE
  | rs_fp_div => RS_FP_DIV_SIZE
  | rs_fp_cvt => RS_FP_CVT_SIZE
  end.

Record station_inv (rob : ReorderBuffer) (c : list CDBResult) (b n : nat) (k : RSId)
    (st : ReservationStation) : Prop := {
  si_ok : station_ok st;
  si_size : ReservationStation.size_ st = rs_size k;
  si_timing : Forall timing_ok (ReservationStation.entries_ st);
  si_entries : forall j e, ReservationStation.entries_ st !! j = Some e -> se_busy e = true ->
    exists s i, in_win b n s /\ station_entry rob c b k s i e;
  si_unique : forall j j' e e', ReservationStation.entries_ st !! j = Some e ->
    ReservationStation.entries_ st !! j' = Some e' -> se_busy e = true -> se_busy e' = true ->
    se_rob_tag e = se_rob_tag e' -> j = j';
  si_placed : forall s i, in_win b n s -> ins_at s = Some i -> target_rs (op i) = Some k ->
    inflight rob s ->
    exists j e, ReservationStation.entries_ st !! j = Some e /\ se_busy e = true /\
      se_rob_tag e = tag s
}.

(** Address and word index of a memory instruction. *)
Definition addr_of (s : nat) : Z :=
  match ins_at s with Some i => eff_addr i (st_at s) | None => 0 end.

Definition known_addr (rob : ReorderBuffer) (b s : nat) : Prop :=
  forall i, ins_at s = Some i -> settled rob b s (rs1 i) false.

(** Stores [t .. s - 1] have known addresses other than that of load [s]. *)
Definition clear (rob : ReorderBuffer) (b t s : nat) : Prop :=
  forall k i, (t <= k < s)%nat -> ins_at k = Some i -> is_store (op i) = true ->
    addr_of k <> addr_of s /\ known_addr rob b k.

(** Load [s] returns [v]: the word memory holds after [t] instructions, or what
    store [t - 1] to its address writes; no store since then is to that
    address, and it is at most 15 instructions back. *)
Inductive load_source (rob : ReorderBuffer) (b t s : nat) (v : Z) : Prop :=
| from_memory :
    (t <= b)%nat -> Z.of_nat s < Z.of_nat t + ROB_SIZE -> v = load_word (st_at t) (addr_of s) -> load_source rob b t s v
| from_store k i :
    t = S k -> Z.of_nat s < Z.of_nat k + ROB_SIZE ->
    ins_at k = Some i -> is_store (op i) = true -> addr_of k = addr_of s ->
    known_addr rob b k -> settled rob b k (rs2 i) (rs2_fp i) ->
    v = read_reg (st_at k) (rs2 i) (rs2_fp i) -> load_source rob b t s v.

Definition load_sees (rob : ReorderBuffer) (b s : nat) (v : Z) : Prop :=
  known_addr rob b s /\
  exists t, (t <= s)%nat /\ clear rob b t s /\ load_source rob b t s v.

Definition loads_inv (rob : ReorderBuffer) (b n : nat) : Prop :=
  forall s v, loaded s = Some v ->
    (s < b + n)%nat /\ is_u32 v /\
    exists i, ins_at s = Some i /\ is_load (op i) = true /\ load_sees rob b s v.

(** An entry of the load/store buffer holds the memory instruction [s]. A load
    that starts is done within the same cycle, so none is seen executing. *)
Record lsb_entry (rob : ReorderBuffer) (c : list CDBResult) (b : nat) (s : nat)
    (i : Instruction) (e : LSBEntry) : Prop := {
  le_instr : ins_at s = Some i;
  le_mem : is_mem (op i) = true;
  le_op_eq : le_op e = op i;
  le_imm_eq : le_imm e = imm i;
  le_tag_eq : le_rob_tag e = tag s;
  le_j : operand_ok rob c b s (rs1 i) false (le_vj e) (le_qj e);
  le_k : operand_ok rob c b s (rs2 i) (rs2_fp i) (le_vk e) (le_qk e);
  le_not_idle : le_state e <> IDLE;
  le_not_executing : le_state e <> EXECUTING;
  le_addr : le_state e <> WAITING -> le_qj e = -1 /\ le_eff_addr e = addr_of s;
  le_inflight : (is_load (op i) = true \/ le_state e <> DONE) -> inflight rob s;
  le_done_load : le_state e = DONE -> is_load (op i) = true -> loaded s = Some (le_result e);
  le_done_store : le_state e = DONE -> is_store (op i) = true -> le_qk e = -1
}.

Record lsb_inv (rob : ReorderBuffer) (c : list CDBResult) (b n : nat) (l : LoadStoreBuffer) : Prop := {
  li_ring : lsb_ring l;
  li_size : LoadStoreBuffer.size_ l = LSB_SIZE;
  li_entries : exists ss,
    Forall2 (fun s e => in_win b n s /\ exists i, lsb_entry rob c b s i e) ss (LSBFacts.queue l) /\
    (forall j k s s', (j < k)%nat -> ss !! j = Some s -> ss !! k = Some s' -> (s < s')%nat) /\
    (forall s i, in_win b n s -> ins_at s = Some i -> is_mem (op i) = true ->
       (is_store (op i) = true \/ inflight rob s) -> s ∈ ss)
}.

(** Fetch: the buffer is a stretch of the program that starts at the next
    instruction to dispatch; behind a branch or jump fetch waits for it. *)
Record iq_inv (b n : nat) (q : InstructionQueue) (bif : bool) : Prop := {
  qi_prog : program_ q = p;
  qi_cap : capacity_ q = IQ_CAPACITY;
  qi_pc : 0 <= pc_ q;
  qi_wait : bif = true -> buffer_ q = [] /\
    exists m i, n = S m /\ ins_at (b + m) = Some i /\ is_control (op i) = true /\
      forall s i', in_win b m s -> ins_at s = Some i' -> is_control (op i') = false;
  qi_run : bif = false ->
    (forall s i, in_win b n s -> ins_at s = Some i -> is_control (op i) = false) /\
    exists k : nat, apc (st_at (b + n)) / 4 = Z.of_nat k /\
      buffer_ q = take (length (buffer_ q)) (drop k p) /\
      pc_ q = Z.of_nat k + len (buffer_ q) /\ len (buffer_ q) <= IQ_CAPACITY
}.

(** Whether the machine has stopped at a HALT, which is then the last
    committed instruction. *)
Definition halt_inv (b : nat) (h : bool) : Prop :=
  if h then exists b' i, b = S b' /\ live b' /\ ins_at b' = Some i /\ op i = HALT
  else live b.

(** The units that results flow through: the reorder buffer, the stations, the
    load/store buffer and the bus. *)
Record units_inv (c : list CDBResult) (b n : nat) (rob : ReorderBuffer) (ss : Stations)
    (l : LoadStoreBuffer) : Prop := {
  ui_rob : rob_inv b n rob;
  ui_rs : forall k, station_inv rob c b n k (station ss k);
  ui_lsb : lsb_inv rob c b n l;
  ui_cdb : cdb_inv b n rob c
}.

(** The first [m] instructions name registers that exist. *)
Definition named_to (m : nat) : Prop :=
  forall s i, (s < m)%nat -> ins_at s = Some i -> named i = true.

(** [c] is what the bus carries and the listeners have not seen yet. *)
Record Inv (c : list CDBResult) (b n : nat) (s : Sim) : Prop := {
  inv_units : units_inv c b n (rob s) (stations s) (lsb s);
  inv_loads : loads_inv (rob s) b n;
  inv_regs : regs_inv b (rf s);
  inv_mem : mem_inv b (mem s);
  inv_rat : rat_inv b n (rat s);
  inv_iq : iq_inv b n (iq s) (branch_in_flight s);
  inv_halt : halt_inv b (halted s);
  inv_named : named_to (b + n)
}.

(** ** What is assumed of a program *)

(** Loaded programs: instructions the assembler can produce, stamped with their
    addresses, few enough for a byte address to fit a word. *)
Record wf_program : Prop := {
  wp_wf : Forall (fun i => wf_instr i = true) p;
  wp_pc : forall k i, p !! k = Some i -> pc i = 4 * Z.of_nat k;
  wp_len : len p < 2 ^ 30
}.

(** In the run, a load and a store among the 15 instructions before it, as many
    as a full reorder buffer can hold beside the load, touch different words,
    or have the same byte address inside the data memory. Any other access is
    allowed. *)
Definition forwarding_ok : Prop :=
  forall s s' i i', live s -> (s' < s)%nat -> Z.of_nat s < Z.of_nat s' + ROB_SIZE ->
    ins_at s = Some i -> is_load (op i) = true ->
    ins_at s' = Some i' -> is_store (op i') = true ->
    addr_of s' / 4 = addr_of s / 4 -> addr_of s' = addr_of s /\ addr_of s / 4 < MEM_SIZE.

End Relation.

Arguments st_at {FE} p {L} s : simpl never.
Arguments res_at {FE} p {L} s : simpl never.
