(* ===== verification/SeqFacts.v ===== *)
(** * Facts about a run

    How registers, memory and the program counter evolve along the instruction
    numbers, in terms of the last writer and of the stores in between. *)

From S2P Require Import Prelude Words Config Float32 Instruction.
From S2P Require Import ISA Invariant.

(** ** Tags *)

Lemma tag_range s : 0 <= tag s < ROB_SIZE.
Proof. apply Z.mod_pos_bound. unfold ROB_SIZE. lia. Qed.

Lemma tag_inj b n s s' :
  Z.of_nat n <= ROB_SIZE -> in_win b n s -> in_win b n s' -> tag s = tag s' -> s = s'.
Proof. unfold tag, in_win, ROB_SIZE. intros Hn Hs Hs' E. Z.to_euclidean_division_equations; lia. Qed.

Lemma tag_S s : tag (S s) = (tag s + 1) mod ROB_SIZE.
Proof. unfold tag, ROB_SIZE. rewrite Nat2Z.inj_succ. Z.to_euclidean_division_equations; lia. Qed.

(** The slot [k] places after the head. *)
Lemma tag_add b k : tag (b + k) = (tag b + Z.of_nat k) mod ROB_SIZE.
Proof. unfold tag. rewrite Nat2Z.inj_add, Zplus_mod_idemp_l. done. Qed.

(** The next tag to allocate is not one of the window's. *)
Lemma tag_fresh b n s :
  Z.of_nat n < ROB_SIZE -> in_win b n s -> tag s <> tag (b + n).
Proof. unfold tag, in_win, ROB_SIZE. intros Hn Hs E. Z.to_euclidean_division_equations; lia. Qed.

Lemma tag_to_nat_inj s s' : Z.to_nat (tag s) = Z.to_nat (tag s') -> tag s = tag s'.
Proof. pose proof (tag_range s). pose proof (tag_range s'). lia. Qed.

Section Seq.
Context `{FE : FPEnv}.
Context (p : list Instruction) {L : Loads}.

Abbreviation st_at := (st_at p).
Abbreviation ins_at := (ins_at p).
Abbreviation res_at := (res_at p).
Abbreviation live := (live p).
Abbreviation writes := (writes p).
Abbreviation last_writer := (last_writer p).

Lemma st_at_ok s : arch_ok (st_at s).
Proof. apply steps_with_ok, arch_init_ok. Qed.

Lemma st_at_stuck s : ins_at s = None -> st_at (S s) = st_at s.
Proof. intros H. unfold st_at. cbn [steps_with]. fold (st_at s) (ins_at s). by rewrite H. Qed.

Lemma st_at_S s i : ins_at s = Some i -> st_at (S s) = exec_with i (res_at s) (st_at s).
Proof.
  intros H. unfold Invariant.res_at. rewrite H. unfold st_at at 1. cbn [steps_with].
  fold (st_at s) (ins_at s). by rewrite H.
Qed.

Lemma res_at_with s i : ins_at s = Some i -> res_at s = result_with (loaded s) i (st_at s).
Proof. intros H. unfold Invariant.res_at. by rewrite H. Qed.

(** Results that memory has no part in. *)
Lemma res_at_Some s i : ins_at s = Some i -> is_load (op i) = false -> res_at s = ISA.result i (st_at s).
Proof. intros H Hl. rewrite (res_at_with s i H). unfold result_with. rewrite Hl. by case_match. Qed.

Lemma res_at_loaded s i v :
  ins_at s = Some i -> is_load (op i) = true -> loaded s = Some v -> is_u32 v -> res_at s = v.
Proof.
  intros H Hl Hv Hu. rewrite (res_at_with s i H), Hv. unfold result_with. rewrite Hl.
  by apply Z.mod_small.
Qed.

Lemma res_at_u32 s : is_u32 (res_at s).
Proof.
  unfold Invariant.res_at. case_match; [apply result_with_u32, st_at_ok|apply is_u32_0].
Qed.

Lemma live_le s s' : live s -> (s' <= s)%nat -> live s'.
Proof. intros Hl Hle k i Hk. apply Hl. lia. Qed.

Lemma live_S s i : live s -> ins_at s = Some i -> op i <> HALT -> live (S s).
Proof.
  intros Hl Hi Hop k j Hk Hj. destruct (decide (k = s)) as [->|].
  - congruence.
  - apply (Hl k); [lia|done].
Qed.

#[export] Instance writes_dec s r fp : Decision (writes s r fp).
Proof.
  unfold Invariant.writes. destruct (ins_at s) as [i|]; [|right; by intros (i & ? & _)].
  destruct (decide (rd i = r /\ rd_fp i = fp /\ 0 <= r /\ (fp = true \/ r <> 0))) as [H|H].
  - left. by exists i.
  - right. intros (j & [= <-] & Hj). by apply H.
Defined.

(** The last writer, if there is one since instruction [b]. *)
Lemma last_writer_cases b s r fp :
  (forall k, (b <= k < s)%nat -> ~ writes k r fp) \/ exists s', (b <= s')%nat /\ last_writer s' s r fp.
Proof.
  induction s as [|s IH]; [left; intros; lia|].
  destruct (decide (b <= s)%nat) as [Hb|]; [|left; intros; lia].
  destruct (decide (writes s r fp)) as [Hw|Hn].
  - right. exists s. split; [done|]. split; [lia|]. split; [done|]. intros. lia.
  - destruct IH as [H|(s' & Hs' & Hlt & Hw & Hl)].
    + left. intros k Hk. destruct (decide (k = s)) as [->|]; [done|]. apply H. lia.
    + right. exists s'. split; [done|]. split; [lia|]. split; [done|]. intros k Hk.
      destruct (decide (k = s)) as [->|]; [done|]. apply Hl. lia.
Qed.

Lemma last_writer_unique s1 s2 s r fp : last_writer s1 s r fp -> last_writer s2 s r fp -> s1 = s2.
Proof.
  intros (H1 & W1 & L1) (H2 & W2 & L2). destruct (Nat.lt_trichotomy s1 s2) as [?|[?|?]]; [|done|].
  - exfalso. by apply (L1 s2); [lia|].
  - exfalso. by apply (L2 s1); [lia|].
Qed.

(** ** Registers *)

Lemma read_reg_store a addr v r fp : read_reg (store_word a addr v) r fp = read_reg a r fp.
Proof. unfold read_reg, store_word. by repeat case_match. Qed.

Lemma read_reg_set_apc a v r fp : read_reg (set_apc a v) r fp = read_reg a r fp.
Proof. done. Qed.

Lemma read_reg_write a r fp v r' fp' :
  read_reg (write_reg a r fp v) r' fp' =
  if bool_decide (r' = r /\ fp' = fp /\ 0 <= r /\ (fp = true \/ r <> 0)) then v
  else read_reg a r' fp'.
Proof.
  unfold read_reg, write_reg. destruct (Z.ltb_spec r 0).
  { rewrite bool_decide_eq_false_2; [done|lia]. }
  destruct (Z.ltb_spec r' 0).
  { rewrite bool_decide_eq_false_2; [done|lia]. }
  destruct fp, fp'; cbn [ax af]; unfold upd.
  - destruct (Z.eqb_spec r' r).
    + by rewrite bool_decide_eq_true_2 by (split_and!; auto).
    + rewrite bool_decide_eq_false_2; [done|lia].
  - rewrite bool_decide_eq_false_2; [done|naive_solver].
  - rewrite bool_decide_eq_false_2; [done|naive_solver].
  - destruct (Z.eqb_spec r' 0) as [->|Hr'].
    + rewrite bool_decide_eq_false_2; [done|naive_solver].
    + destruct (Z.eqb_spec r' r) as [->|].
      * by rewrite bool_decide_eq_true_2 by auto.
      * rewrite bool_decide_eq_false_2; [done|naive_solver].
Qed.

Lemma read_reg_exec i v a r fp :
  read_reg (exec_with i v a) r fp =
  if bool_decide (r = rd i /\ fp = rd_fp i /\ 0 <= rd i /\ (rd_fp i = true \/ rd i <> 0))
  then dest_value i v else read_reg a r fp.
Proof.
  unfold exec_with. rewrite read_reg_set_apc, read_reg_write.
  destruct (is_store (op i)); [|done]. by rewrite read_reg_store.
Qed.

Lemma am_exec i v a w :
  am (exec_with i v a) w =
  if is_store (op i) && (eff_addr i a / 4 <? MEM_SIZE) && (w =? eff_addr i a / 4)
  then read_reg a (rs2 i) (rs2_fp i) else am a w.
Proof.
  unfold exec_with. unfold set_apc. cbn [am].
  assert (forall a' r fp v, am (write_reg a' r fp v) = am a') as ->.
  { intros. unfold write_reg. by repeat case_match. }
  destruct (is_store (op i)); [|done]. unfold store_word. cbn [andb].
  destruct (_ <? MEM_SIZE); [|done]. cbn [am andb]. unfold upd. done.
Qed.

(** ** Values along the run *)

(** A register keeps its value where nothing writes it. *)
Lemma read_reg_unwritten b s r fp :
  (b <= s)%nat -> (forall s', (b <= s' < s)%nat -> ~ writes s' r fp) ->
  read_reg (st_at s) r fp = read_reg (st_at b) r fp.
Proof.
  intros Hle Hno. induction s as [|s IH].
  - by replace b with 0%nat by lia.
  - destruct (decide (b = S s)) as [->|]; [done|].
    rewrite <- IH; [|lia|intros; apply Hno; lia].
    destruct (ins_at s) as [i|] eqn:Hi; [|by rewrite st_at_stuck].
    rewrite (st_at_S s i Hi), read_reg_exec. rewrite bool_decide_eq_false_2; [done|].
    intros (-> & -> & ? & ?). apply (Hno s); [lia|]. by exists i.
Qed.

(** Otherwise it holds what its last writer computed. *)
Lemma read_reg_written s' s r fp i :
  last_writer s' s r fp -> ins_at s' = Some i -> is_jump (op i) = false ->
  read_reg (st_at s) r fp = res_at s'.
Proof.
  intros (Hlt & (j & Hj & <- & <- & Hr & Hx) & Hno) Hi Hjump.
  rewrite Hj in Hi. injection Hi as ->.
  rewrite (read_reg_unwritten (S s') s) by (done || lia || (intros; apply Hno; lia)).
  rewrite (st_at_S _ _ Hj), read_reg_exec, bool_decide_eq_true_2 by auto.
  unfold dest_value. by rewrite Hjump.
Qed.

Lemma am_unwritten b s w :
  (b <= s)%nat ->
  (forall s' i, (b <= s' < s)%nat -> ins_at s' = Some i -> is_store (op i) = true ->
     addr_of p s' / 4 <> w) ->
  am (st_at s) w = am (st_at b) w.
Proof.
  intros Hle Hno. induction s as [|s IH].
  - by replace b with 0%nat by lia.
  - destruct (decide (b = S s)) as [->|]; [done|].
    rewrite <- IH; [|lia|intros; eapply Hno; eauto; lia].
    destruct (ins_at s) as [i|] eqn:Hi; [|by rewrite st_at_stuck].
    rewrite (st_at_S s i Hi), am_exec. destruct (is_store (op i)) eqn:Hst; [|done]. cbn [andb].
    destruct (Z.eqb_spec w (eff_addr i (st_at s) / 4)) as [->|]; [|by rewrite andb_false_r].
    exfalso. apply (Hno s i); [lia|done|done|]. unfold addr_of. by rewrite Hi.
Qed.

Lemma am_written s' s i :
  (s' < s)%nat -> ins_at s' = Some i -> is_store (op i) = true ->
  addr_of p s' / 4 < MEM_SIZE ->
  (forall k j, (s' < k < s)%nat -> ins_at k = Some j -> is_store (op j) = true ->
     addr_of p k / 4 <> addr_of p s' / 4) ->
  am (st_at s) (addr_of p s' / 4) = read_reg (st_at s') (rs2 i) (rs2_fp i).
Proof.
  intros Hlt Hi Hst Hin Hno.
  rewrite (am_unwritten (S s') s) by (lia || (intros; eapply Hno; eauto; lia)).
  rewrite (st_at_S _ _ Hi), am_exec, Hst. unfold addr_of in *. rewrite Hi in *.
  rewrite (proj2 (Z.ltb_lt _ _)) by done. by rewrite Z.eqb_refl.
Qed.

(** ** The program counter *)

Lemma apc_S s i :
  ins_at s = Some i ->
  apc (st_at (S s)) =
  if is_control (op i) then res_at s else (pc i + 4) mod 2 ^ 32.
Proof. intros Hi. by rewrite (st_at_S s i Hi). Qed.

End Seq.

(** ** Consequences of well-formedness *)

Section Wf.
Context `{FE : FPEnv}.
Context (p : list Instruction) (Hwf : wf_program p) {L : Loads}.

Lemma ins_at_wf s i : ins_at p s = Some i -> wf_instr i = true.
Proof. intros Hi. apply (Forall_lookup_1 (fun i => wf_instr i = true) p _ i (wp_wf p Hwf) Hi). Qed.

Lemma ins_at_pc s i : ins_at p s = Some i -> pc i = 4 * (apc (st_at p s) / 4) /\ is_u32 (pc i + 4).
Proof.
  intros Hi. unfold ins_at, fetch in Hi. pose proof (wp_pc p Hwf _ _ Hi) as Hpc.
  apply lookup_lt_Some in Hi. pose proof (wp_len p Hwf).
  pose proof (ok_pc _ (st_at_ok p s)) as Hok. unfold is_u32 in *.
  assert (0 <= apc (st_at p s) / 4) by (apply Z.div_pos; lia). lia.
Qed.

Record wf_fields (i : Instruction) : Prop := {
  wf_imm : is_s32 (imm i);
  wf_no_rd : is_store (op i) = true \/ is_branch (op i) = true \/ op i = HALT -> rd i = -1;
  wf_load : is_load (op i) = true -> rs2 i = -1;
  wf_jump : is_jump (op i) = true -> rd_fp i = false
}.

Lemma wf_instr_fields i : wf_instr i = true -> wf_fields i.
Proof.
  unfold wf_instr, op_eqb.
  rewrite !andb_true_iff, !Z.leb_le, !Z.ltb_lt. intros ((((?&?)&Hd)&Hl)&Hj).
  constructor; try lia.
  - unfold is_s32. lia.
  - intros Hc. apply Z.eqb_eq. revert Hd.
    assert (is_store (op i) || is_branch (op i) || bool_decide (op i = HALT) = true) as ->; [|done].
    destruct Hc as [-> |[-> | ->]]; rewrite ?orb_true_r; done.
  - intros Hc. rewrite Hc in Hl. by apply Z.eqb_eq.
  - intros Hc. rewrite Hc in Hj. by destruct (rd_fp i).
Qed.

Lemma ins_at_fields s i : ins_at p s = Some i -> wf_fields i.
Proof. intros Hi. by eapply wf_instr_fields, ins_at_wf. Qed.

(** Only instructions with a destination write a register. *)
Lemma writes_not_store s i r fp :
  ins_at p s = Some i -> writes p s r fp -> is_store (op i) = false /\ is_branch (op i) = false /\ op i <> HALT.
Proof.
  intros Hi (j & Hj & <- & <- & Hr & _). rewrite Hi in Hj. injection Hj as <-.
  pose proof (wf_no_rd i (ins_at_fields s i Hi)) as Hno.
  split_and!.
  - destruct (is_store (op i)) eqn:E; [|done]. exfalso. specialize (Hno (or_introl eq_refl)). lia.
  - destruct (is_branch (op i)) eqn:E; [|done]. exfalso.
    specialize (Hno (or_intror (or_introl eq_refl))). lia.
  - intros E. specialize (Hno (or_intror (or_intror E))). lia.
Qed.

(** The next sequential address. *)
Lemma next_pc s i :
  ins_at p s = Some i -> is_control (op i) = false ->
  apc (st_at p (S s)) / 4 = apc (st_at p s) / 4 + 1.
Proof.
  intros Hi Hc. rewrite (apc_S p s i Hi), Hc. destruct (ins_at_pc s i Hi) as [Hpc Hu].
  rewrite Z.mod_small by exact Hu. rewrite Hpc.
  replace (4 * (apc (st_at p s) / 4) + 4) with ((apc (st_at p s) / 4 + 1) * 4) by lia.
  by rewrite Z.div_mul.
Qed.

End Wf.
