(* ===== verification/UnitFacts.v ===== *)
(** * Moving the invariant across changes of the reorder buffer

    Allocation, completion and commit change the slots of single instructions.
    The lemmas here say what is left of the invariants of the other units. *)

From S2P Require Import Prelude Words Ring Config Float32 Instruction.
From S2P Require Import RegisterFile RegisterRemappingTable ReorderBuffer.
From S2P Require Import CommonDataBus ReservationStation LoadStoreBuffer.
From S2P Require Import InstructionQueue CommitUnit Simulator ISA.
From S2P Require Import Execute StationFacts LSBFacts Invariant SeqFacts.

(** ** Stations by name *)

Lemma station_set ss k k' v :
  station (set_station ss k v) k' = if decide (k' = k) then v else station ss k'.
Proof. by destruct ss, k, k'. Qed.

Lemma set_station_set ss k v v' : set_station (set_station ss k v) k v' = set_station ss k v'.
Proof. by destruct ss, k. Qed.

Lemma set_station_id ss k : set_station ss k (station ss k) = ss.
Proof. by destruct ss, k. Qed.

(** Treating the six stations one after the other treats each once. *)
Lemma station_map (f : ReservationStation -> ReservationStation) ss k :
  station (foldl (fun ss k => set_station ss k (f (station ss k))) ss rs_ids) k = f (station ss k).
Proof. by destruct ss, k. Qed.

Lemma target_rs_mem o : target_rs o = None <-> is_mem o = true.
Proof. destruct o; split; done. Qed.

Lemma target_rs_not_mem o k : target_rs o = Some k -> is_load o = false /\ is_store o = false.
Proof. destruct o; done. Qed.

Lemma load_not_store o : is_load o = true -> is_store o = false.
Proof. destruct o; done. Qed.

Section Units.
Context `{FE : FPEnv}.
Context (p : list Instruction) (Hwf : wf_program p) {L : Loads}.

Abbreviation ins_at := (ins_at p).
Abbreviation res_at := (res_at p).
Abbreviation writes := (writes p).
Abbreviation last_writer := (last_writer p).
Abbreviation settled := (settled p).
Abbreviation rob_inv := (rob_inv p).
Abbreviation operand_ok := (operand_ok p).
Abbreviation station_inv := (station_inv p).
Abbreviation lsb_inv := (lsb_inv p).
Abbreviation units_inv := (units_inv p).

(** ** Slots of the reorder buffer *)

Lemma rob_window b n rob : rob_inv b n rob -> Z.of_nat n <= ROB_SIZE.
Proof. intros [[[_ _ _ Hc _] _ _] Hs _ Hn _ _]. lia. Qed.

Lemma slot_inj b n rob s s' :
  rob_inv b n rob -> in_win b n s -> in_win b n s' -> tag s = tag s' -> s = s'.
Proof. intros Hr. apply tag_inj. by eapply rob_window. Qed.

Lemma tag_at_tag b n rob k : rob_inv b n rob -> tag_at rob (Z.of_nat k) = tag (b + k).
Proof. intros [_ Hs Hh _ _ _]. unfold tag_at. rewrite Hs, Hh, tag_add. done. Qed.

Lemma queue_slot b n rob s :
  rob_inv b n rob -> in_win b n s -> ReorderBuffer.queue rob !! (s - b)%nat = slot rob s.
Proof.
  intros Hr [Hb Hn]. pose proof (tag_at_tag b n rob (s - b) Hr) as Ht.
  replace (b + (s - b))%nat with s in Ht by lia.
  destruct Hr as [Hok _ _ Hc _ _]. unfold slot. rewrite <- Ht.
  rewrite rob_queue_lookup by (done || lia). by rewrite Nat2Z.id.
Qed.

Lemma inflight_not_completed rob s : inflight rob s -> ~ completed rob s.
Proof. intros (e & He & Hs) (e' & He' & Hs'). congruence. Qed.

Lemma slot_cases b n rob s :
  rob_inv b n rob -> in_win b n s -> inflight rob s \/ completed rob s.
Proof.
  intros Hr Hs. destruct (ri_slots _ _ _ _ Hr s Hs) as (e & He & [_ Hst]).
  destruct Hst as [?|[? _]]; [left|right]; by exists e.
Qed.

(** ** What stays finished *)

(** The window moves forward, and what is left of it stays finished. *)
Definition keeps_done (b n : nat) (rob : ReorderBuffer) (b' : nat) (rob' : ReorderBuffer) : Prop :=
  (b <= b')%nat /\ forall s, in_win b n s -> (b' <= s)%nat -> completed rob s -> completed rob' s.

Section Keeps.
Context {b n : nat} {rob : ReorderBuffer} {b' : nat} {rob' : ReorderBuffer}.
Hypothesis Hk : keeps_done b n rob b' rob'.

Lemma settled_keeps s r fp :
  (s <= b + n)%nat -> settled rob b s r fp -> settled rob' b' s r fp.
Proof.
  intros Hs Hset s' Hs' Hl. destruct Hk as [Hb Hd]. pose proof Hl as (Hlt & _).
  apply Hd; [unfold in_win; lia|done|]. apply Hset; [lia|done].
Qed.

Lemma done_ok_keeps s i : (s <= b + n)%nat -> done_ok p rob b s i -> done_ok p rob' b' s i.
Proof.
  intros Hs. unfold done_ok. destruct (is_load (op i)); [done|]. destruct (is_store (op i)); [done|].
  intros []. split; by apply settled_keeps.
Qed.

Lemma known_addr_keeps s : (s <= b + n)%nat -> known_addr p rob b s -> known_addr p rob' b' s.
Proof. intros Hs Hk' i Hi. apply settled_keeps; auto. Qed.

Lemma load_sees_keeps s v : (s <= b + n)%nat -> load_sees p rob b s v -> load_sees p rob' b' s v.
Proof.
  intros Hs (Hka & t & Ht & Hcl & Hsrc). split; [by apply known_addr_keeps|].
  exists t. split; [done|]. split.
  - intros k i Hk' Hi Hst. destruct (Hcl k i Hk' Hi Hst). split; [done|]. apply known_addr_keeps; [lia|done].
  - destruct Hk as [Hb _]. destruct Hsrc as [? ? ?|k i -> ? ? ? ? ? ? ?].
    + apply from_memory; [lia|done|done].
    + eapply from_store; eauto; [apply known_addr_keeps|apply settled_keeps]; done || lia.
Qed.

Lemma loads_inv_keeps n' :
  (b + n <= b' + n')%nat -> loads_inv p rob b n -> loads_inv p rob' b' n'.
Proof.
  intros Hn H s v Hv. destruct (H s v Hv) as (Hs & Hu & i & Hi & Hl & Hsee).
  split; [lia|]. split; [done|]. exists i. split; [done|]. split; [done|]. apply load_sees_keeps; [lia|done].
Qed.

End Keeps.

Lemma keeps_done_refl b n rob : keeps_done b n rob b rob.
Proof. by split. Qed.

(** Completing one in-flight instruction with the right value. *)
Lemma rob_complete b n rob s i v :
  rob_inv b n rob -> in_win b n s -> inflight rob s -> v = res_at s ->
  ins_at s = Some i -> done_ok p rob b s i ->
  exists rob', ReorderBuffer.write_result rob (tag s) v = Ok rob' /\ rob_inv b n rob' /\
    completed rob' s /\ (forall s', in_win b n s' -> s' <> s -> slot rob' s' = slot rob s').
Proof.
  intros Hr Hs (e & He & Hst) Hres Hi Hdo. pose proof Hr as [Hok Hsz Hh Hc Hsl Hdn].
  assert (Hv : is_u32 v) by (rewrite Hres; apply res_at_u32).
  pose proof (tag_at_tag b n rob (s - b) Hr) as Ht.
  replace (b + (s - b))%nat with s in Ht by (unfold in_win in Hs; lia).
  destruct (rob_write_result_spec rob (Z.of_nat (s - b)) e v Hok) as
    (rob' & Hw & Hok' & Hsz' & Hh' & Hc' & Hes & Hq); [unfold in_win in Hs; lia| |done|].
  { rewrite Nat2Z.id. by rewrite (queue_slot b n rob s Hr Hs). }
  rewrite Ht in Hw, Hes. exists rob'. split; [done|].
  assert (Hsame : forall s', in_win b n s' -> s' <> s -> slot rob' s' = slot rob s').
  { intros s' Hs' Hne. unfold slot. rewrite Hes. apply list_lookup_insert_ne.
    intros E%tag_to_nat_inj. apply Hne. symmetry. by eapply slot_inj. }
  assert (Hself : slot rob' s = Some (finish e v)).
  { unfold slot. rewrite Hes. apply list_lookup_insert_eq. by eapply lookup_lt_Some. }
  assert (Hkd : keeps_done b n rob b rob').
  { split; [done|]. intros s' Hs' _ (e' & He' & Hd). destruct (decide (s' = s)) as [->|Hne].
    - by exists (finish e v).
    - exists e'. by rewrite Hsame. }
  split_and!; [|by exists (finish e v)|done].
  constructor; try congruence.
  - intros s' Hs'. destruct (decide (s' = s)) as [->|Hne].
    + exists (finish e v). split; [done|]. destruct (Hsl s Hs) as (e0 & He0 & Hok0).
      rewrite He in He0. injection He0 as <-. destruct Hok0 as [Hi0 _].
      constructor; simpl; [done|]. by right.
    + rewrite Hsame by done. auto.
  - intros s' j Hs' Hd Hj. apply (done_ok_keeps Hkd); [unfold in_win in Hs'; lia|].
    destruct (decide (s' = s)) as [->|Hne]; [congruence|]. apply Hdn; try done.
    destruct Hd as (e' & He' & Hd). exists e'. by rewrite <- Hsame.
Qed.

(** ** Operands *)

Lemma operand_ok_mono rob c b n rob' c' b' s r fp v q :
  operand_ok rob c b s r fp v q -> keeps_done b n rob b' rob' -> (s <= b + n)%nat ->
  (forall s', (b <= s' < s)%nat -> writes s' r fp -> pending rob c s' ->
     (b' <= s')%nat /\ pending rob' c' s') ->
  operand_ok rob' c' b' s r fp v q.
Proof.
  intros [(? & ? & Hset)|(s' & Hb & Hq & Hw & Hj & Hp)] Hk Hs Hm; [left|right].
  - split_and!; [done..|]. by apply (settled_keeps Hk).
  - pose proof Hw as (? & ? & _). destruct (Hm s') as [Hb' Hp']; [lia|done|done|].
    exists s'. by split_and!.
Qed.

(** An operand that does not wait is the register's value, for good. *)
Lemma operand_ready rob c b s r fp v :
  operand_ok rob c b s r fp v (-1) -> v = read_reg (st_at p s) r fp /\ settled rob b s r fp.
Proof.
  intros [(_ & ? & ?)|(s' & _ & Hq & _)]; [done|]. pose proof (tag_range s'). lia.
Qed.

Lemma operand_none rob c b s fp v q : operand_ok rob c b s (-1) fp v q -> q = -1.
Proof. intros [[? _]|(s' & _ & _ & (_ & (i & _ & ? & _ & ? & _) & _) & _)]; [done|lia]. Qed.

Lemma no_register_settled rob b s r fp : r < 0 -> settled rob b s r fp.
Proof. intros Hr s' _ (_ & (i & _ & ? & _ & ? & _) & _). lia. Qed.

(** ** The other units *)

Lemma station_inv_transfer rob c b n rob' c' b' n' k st :
  station_inv rob c b n k st -> keeps_done b n rob b' rob' ->
  (forall s i, in_win b n s -> ins_at s = Some i -> target_rs (op i) = Some k ->
     inflight rob s -> in_win b' n' s /\ inflight rob' s) ->
  (forall s s' r fp, in_win b n s -> (b <= s' < s)%nat -> writes s' r fp -> pending rob c s' ->
     (b' <= s')%nat /\ pending rob' c' s') ->
  (forall s i, in_win b' n' s -> ins_at s = Some i -> target_rs (op i) = Some k ->
     inflight rob' s -> in_win b n s /\ inflight rob s) ->
  station_inv rob' c' b' n' k st.
Proof.
  intros [Hok Hsz Ht He Hu Hpl] Hk Hin Hpend Hout. constructor; try done.
  - intros j e Hj Hb. destruct (He j e Hj Hb) as (s & i & Hs & [Hi Hrt ? ? ? ? Hfl Hoj Hokk]).
    destruct (Hin s i Hs Hi Hrt Hfl) as [Hs' Hfl']. exists s, i. split; [done|].
    constructor; try done; eapply operand_ok_mono; eauto using in_win_le.
  - intros s i Hs Hi Hrt Hfl. destruct (Hout s i Hs Hi Hrt Hfl). eauto.
Qed.

Lemma lsb_entry_transfer rob c b n rob' c' b' s i e :
  lsb_entry p rob c b s i e -> keeps_done b n rob b' rob' -> (s <= b + n)%nat ->
  ((is_load (op i) = true \/ le_state e <> DONE) -> inflight rob s -> inflight rob' s) ->
  (forall s' r fp, (b <= s' < s)%nat -> writes s' r fp -> pending rob c s' ->
     (b' <= s')%nat /\ pending rob' c' s') ->
  lsb_entry p rob' c' b' s i e.
Proof.
  intros He Hk Hs Hin Hpend.
  constructor; try apply He; try (eapply operand_ok_mono; [apply He|by eauto..]).
  intros H. apply Hin; [done|]. by apply He.
Qed.

Lemma lsb_inv_transfer rob c b n rob' c' b' n' l :
  lsb_inv rob c b n l -> keeps_done b n rob b' rob' ->
  (forall s i e, in_win b n s -> e ∈ LSBFacts.queue l -> lsb_entry p rob c b s i e ->
     in_win b' n' s /\
     ((is_load (op i) = true \/ le_state e <> DONE) -> inflight rob s -> inflight rob' s)) ->
  (forall s s' r fp, in_win b n s -> (b <= s' < s)%nat -> writes s' r fp -> pending rob c s' ->
     (b' <= s')%nat /\ pending rob' c' s') ->
  (forall s i, in_win b' n' s -> ins_at s = Some i -> is_mem (op i) = true ->
     in_win b n s /\ (inflight rob' s -> inflight rob s)) ->
  lsb_inv rob' c' b' n' l.
Proof.
  intros [Hr Hsz (ss & Hf & Hord & Hall)] Hb Hin Hpend Hout. constructor; try done.
  exists ss. split_and!; try done.
  - apply Forall2_same_length_lookup. split; [by eapply Forall2_length|].
    intros j s e Hj He. destruct (Forall2_lookup_lr _ _ _ _ _ _ Hf Hj He) as (Hs & i & Hen).
    destruct (Hin s i e Hs) as [Hs' Hfl]; [by eapply list_elem_of_lookup_2|done|].
    split; [done|]. exists i. eapply lsb_entry_transfer; eauto. by eapply in_win_le.
  - intros s i Hs Hi Hm Hcase. destruct (Hout s i Hs Hi Hm) as [Hs' Hfl].
    apply (Hall s i); try done. destruct Hcase; [by left|right; auto].
Qed.

(** The same when the oldest entry leaves the buffer. *)
Lemma lsb_inv_pop rob c b n l l' e :
  lsb_inv rob c b n l -> LSBFacts.queue l = e :: LSBFacts.queue l' ->
  lsb_ring l' -> LoadStoreBuffer.size_ l' = LoadStoreBuffer.size_ l ->
  exists s0 i0, in_win b n s0 /\ lsb_entry p rob c b s0 i0 e /\
    (forall s i, in_win b n s -> ins_at s = Some i -> is_mem (op i) = true ->
       (is_store (op i) = true \/ inflight rob s) -> (s0 <= s)%nat) /\
    forall rob' c' b' n', keeps_done b n rob b' rob' ->
      (forall s i e, in_win b n s -> (s0 < s)%nat -> lsb_entry p rob c b s i e ->
         in_win b' n' s /\
         ((is_load (op i) = true \/ le_state e <> DONE) -> inflight rob s -> inflight rob' s)) ->
      (forall s s' r fp, in_win b n s -> (b <= s' < s)%nat -> writes s' r fp -> pending rob c s' ->
         (b' <= s')%nat /\ pending rob' c' s') ->
      (forall s i, in_win b' n' s -> ins_at s = Some i -> is_mem (op i) = true ->
         (is_store (op i) = true \/ inflight rob' s) ->
         in_win b n s /\ s <> s0 /\ (inflight rob' s -> inflight rob s)) ->
      lsb_inv rob' c' b' n' l'.
Proof.
  intros [Hr Hsz (ss & Hf & Hord & Hall)] Hq Hr' Hsz'. rewrite Hq in Hf.
  destruct ss as [|s0 ss]; [by inversion Hf|].
  apply Forall2_cons in Hf as [(Hs0 & i0 & He0) Hf].
  exists s0, i0. split; [done|]. split; [done|]. split.
  { intros s i Hs Hi Hm Hc. pose proof (Hall s i Hs Hi Hm Hc) as Hin.
    apply list_elem_of_lookup_1 in Hin as [[|j] Hj]; [simpl in Hj; injection Hj; lia|].
    pose proof (Hord 0%nat (S j) s0 s ltac:(lia) eq_refl Hj). lia. }
  intros rob' c' b' n' Hb Hin Hpend Hout. constructor; [done|congruence|].
  exists ss. split_and!.
  - apply Forall2_same_length_lookup. split; [by eapply Forall2_length|].
    intros j s e' Hj He. destruct (Forall2_lookup_lr _ _ _ _ _ _ Hf Hj He) as (Hs & i & Hen).
    pose proof (Hord 0%nat (S j) s0 s ltac:(lia) eq_refl Hj).
    destruct (Hin s i e' Hs) as [Hs' Hfl]; [done|done|].
    split; [done|]. exists i. eapply lsb_entry_transfer; eauto. by eapply in_win_le.
  - intros j k s s' Hjk Hj Hk. apply (Hord (S j) (S k)); [lia|done|done].
  - intros s i Hs Hi Hm Hcase. destruct (Hout s i Hs Hi Hm Hcase) as (Hs' & Hne & Hfl).
    assert (s ∈ s0 :: ss) as Hin'.
    { apply (Hall s i); try done. destruct Hcase; [by left|right; auto]. }
    apply elem_of_cons in Hin' as [?|?]; done.
Qed.

End Units.
