(* ===== verification/Completion.v ===== *)
(** * Completing an instruction

    A result leaves a station or the load/store buffer, is written to the
    reorder buffer and put on the bus; finished stores are reported to the
    reorder buffer only. *)

From S2P Require Import Prelude Words Ring Config Float32 Instruction.
From S2P Require Import RegisterFile RegisterRemappingTable ReorderBuffer.
From S2P Require Import CommonDataBus ReservationStation LoadStoreBuffer.
From S2P Require Import InstructionQueue CommitUnit Simulator ISA.
From S2P Require Import Execute StationFacts LSBFacts Invariant SeqFacts UnitFacts.

(** Only instruction [s] changes, from in flight to done. *)
Record completes (b n : nat) (rob : ReorderBuffer) (s : nat) (rob' : ReorderBuffer) : Prop := {
  cp_win : in_win b n s;
  cp_before : inflight rob s;
  cp_after : completed rob' s;
  cp_same : forall s', in_win b n s' -> s' <> s -> slot rob' s' = slot rob s'
}.

Section Completes.
Context {b n : nat} {rob : ReorderBuffer} {s : nat} {rob' : ReorderBuffer}.
Hypothesis Hc : completes b n rob s rob'.

Lemma completes_inflight s' :
  in_win b n s' -> inflight rob' s' <-> inflight rob s' /\ s' <> s.
Proof.
  intros Hs'. destruct (decide (s' = s)) as [->|Hne].
  - split; [|by intros []]. intros H. exfalso.
    by apply (inflight_not_completed rob' s); [|apply Hc].
  - unfold inflight. rewrite (cp_same _ _ _ _ _ Hc) by done. naive_solver.
Qed.

Lemma completes_completed s' : in_win b n s' -> completed rob s' -> completed rob' s'.
Proof.
  intros Hs' Hd. destruct (decide (s' = s)) as [->|Hne]; [apply Hc|].
  unfold completed. by rewrite (cp_same _ _ _ _ _ Hc).
Qed.

Lemma completes_keeps : keeps_done b n rob b rob'.
Proof. split; [done|]. intros s' Hs' _. by apply completes_completed. Qed.

(** Whoever waits for [s] finds the result on the bus. *)
Lemma completes_pending c v s' :
  in_win b n s' -> pending rob c s' -> pending rob' (c ++ [mkCDBResult (tag s) v]) s'.
Proof.
  intros Hs' [Hf|He].
  - destruct (decide (s' = s)) as [->|Hne].
    + right. apply Exists_app. right. by apply Exists_cons_hd.
    + left. by apply completes_inflight.
  - right. apply Exists_app. by left.
Qed.

Lemma completes_pending_other c s' :
  in_win b n s' -> s' <> s -> pending rob c s' -> pending rob' c s'.
Proof. intros Hs' Hne [Hf|He]; [left|by right]. by apply completes_inflight. Qed.

End Completes.

Section Completion.
Context `{FE : FPEnv}.
Context (p : list Instruction) (Hwf : wf_program p) {L : Loads}.

Abbreviation ins_at := (ins_at p).
Abbreviation res_at := (res_at p).
Abbreviation writes := (writes p).
Abbreviation rob_inv := (rob_inv p).
Abbreviation operand_ok := (operand_ok p).
Abbreviation station_inv := (station_inv p).
Abbreviation lsb_inv := (lsb_inv p).
Abbreviation units_inv := (units_inv p).

Lemma rob_completes b n rob s i v :
  rob_inv b n rob -> in_win b n s -> inflight rob s -> v = res_at s ->
  ins_at s = Some i -> done_ok p rob b s i ->
  exists rob', ReorderBuffer.write_result rob (tag s) v = Ok rob' /\ rob_inv b n rob' /\
    completes b n rob s rob'.
Proof.
  intros Hr Hs Hf Hres Hi Hdo. destruct (rob_complete p b n rob s i v Hr Hs Hf Hres Hi Hdo)
    as (rob' & ? & ? & ? & ?). exists rob'. split_and!; done.
Qed.

Lemma cdb_inv_broadcast b n rob s rob' c v :
  completes b n rob s rob' -> v = res_at s ->
  cdb_inv p b n rob c -> cdb_inv p b n rob' (c ++ [mkCDBResult (tag s) v]).
Proof.
  intros Hc Hres H. apply Forall_app. split.
  - eapply Forall_impl; [exact H|]. intros r (s' & Hs' & Ht & Hd & ?). exists s'.
    split_and!; try done. by eapply completes_completed.
  - apply Forall_singleton. exists s. split_and!; try done; apply Hc.
Qed.

Lemma cdb_inv_same b n rob s rob' c :
  completes b n rob s rob' -> cdb_inv p b n rob c -> cdb_inv p b n rob' c.
Proof.
  intros Hc H. eapply Forall_impl; [exact H|]. intros r (s' & Hs' & Ht & Hd & ?). exists s'.
  split_and!; try done. by eapply completes_completed.
Qed.

(** Units that do not hold [s] keep their invariant; [Hp] says that what
    waits for a result still gets it. *)
Section Others.
Context (b n : nat) (rob rob' : ReorderBuffer) (c c' : list CDBResult) (s : nat) (i : Instruction).
Hypothesis Hc : completes b n rob s rob'.
Hypothesis Hi : ins_at s = Some i.
Hypothesis Hp : forall s' r fp, in_win b n s' -> writes s' r fp -> pending rob c s' -> pending rob' c' s'.

Lemma completes_waiting s' s'' r fp :
  in_win b n s'' -> (b <= s' < s'')%nat -> writes s' r fp -> pending rob c s' ->
  (b <= s')%nat /\ pending rob' c' s'.
Proof.
  intros Hs'' Hlt Hw Hpd. split; [lia|]. eapply Hp; eauto. unfold in_win in *. lia.
Qed.

Lemma station_inv_other k st :
  target_rs (op i) <> Some k -> station_inv rob c b n k st -> station_inv rob' c' b n k st.
Proof.
  intros Hne H. eapply station_inv_transfer; [exact H|by apply (completes_keeps Hc)| | |].
  - intros s' i' Hs' Hi' Hrt Hf. split; [done|]. apply (completes_inflight Hc); [done|].
    split; [done|]. intros ->. congruence.
  - intros. eapply completes_waiting; eauto.
  - intros s' i' Hs' _ _ Hf. split; [done|]. by apply (completes_inflight Hc) in Hf as [? _].
Qed.

Lemma lsb_inv_other l :
  (forall e i', e ∈ LSBFacts.queue l -> lsb_entry p rob c b s i' e ->
     is_store (op i') = true /\ le_state e = DONE) ->
  lsb_inv rob c b n l -> lsb_inv rob' c' b n l.
Proof.
  intros Hstore H. eapply lsb_inv_transfer; [exact H|by apply (completes_keeps Hc)| | |].
  - intros s' i' e Hs' Hin He. split; [done|]. intros Hcase Hf.
    apply (completes_inflight Hc); [done|]. split; [done|]. intros ->.
    destruct (Hstore e i' Hin He) as [Hst Hd]. destruct Hcase as [Hl|]; [|done].
    apply load_not_store in Hl. congruence.
  - intros. eapply completes_waiting; eauto.
  - intros s' i' Hs' _ _. split; [done|]. intros Hf.
    by apply (completes_inflight Hc) in Hf as [? _].
Qed.

(** The station that held [s] in slot [j], with the slot cleared. *)
Lemma station_inv_pop k st j e :
  station_inv rob c b n k st -> rob_inv b n rob ->
  ReservationStation.entries_ st !! j = Some e -> se_busy e = true -> se_rob_tag e = tag s ->
  station_inv rob' c' b n k (mkReservationStation (ReservationStation.size_ st)
    (ReservationStation.count_ st - 1)
    (<[j := ReservationStation.default_entry]> (ReservationStation.entries_ st))).
Proof.
  intros [Hok Hsz Ht He Hu Hpl] Hr Hj Hb Htag.
  assert (Hother : forall j' e', j' <> j ->
    <[j := ReservationStation.default_entry]> (ReservationStation.entries_ st) !! j' = Some e' ->
    ReservationStation.entries_ st !! j' = Some e').
  { intros j' e' Hne. by rewrite list_lookup_insert_ne. }
  assert (Hself : forall j' e', se_busy e' = true ->
    <[j := ReservationStation.default_entry]> (ReservationStation.entries_ st) !! j' = Some e' ->
    j' <> j).
  { intros j' e' Hbe Hl ->. rewrite list_lookup_insert_eq in Hl by (by eapply lookup_lt_Some).
    injection Hl as <-. done. }
  constructor; cbn [ReservationStation.entries_ ReservationStation.size_]; try done.
  - destruct Hok as [Hs Hl Hcn]. constructor; simpl; rewrite ?length_insert; try done.
    rewrite (busy_count_insert _ _ _ _ Hj), Hb, Hcn. simpl. lia.
  - apply Forall_insert; [done|apply default_timing].
  - intros j' e' Hj' Hb'. assert (Hne : j' <> j) by eauto. apply Hother in Hj'; [|done].
    destruct (He j' e' Hj' Hb') as (s' & i' & Hs' & [? ? ? ? ? Ht' Hf' ? ?]).
    exists s', i'. split; [done|]. constructor; try done.
    + apply (completes_inflight Hc); [done|]. split; [done|]. intros ->.
      apply Hne. eapply Hu; eauto. congruence.
    + eapply (operand_ok_mono p _ _ b n); eauto using completes_keeps, completes_waiting, in_win_le.
    + eapply (operand_ok_mono p _ _ b n); eauto using completes_keeps, completes_waiting, in_win_le.
  - intros j1 j2 e1 e2 H1 H2 Hb1 Hb2 E. eapply Hu; eauto.
  - intros s' i' Hs' Hi' Hrt Hf. apply (completes_inflight Hc) in Hf as [Hf Hne]; [|done].
    destruct (Hpl s' i' Hs' Hi' Hrt Hf) as (j' & e' & Hj' & Hb' & Ht').
    exists j', e'. split; [|done]. rewrite list_lookup_insert_ne; [done|].
    intros <-. rewrite Hj in Hj'. injection Hj' as <-. apply Hne.
    eapply slot_inj; eauto; [apply Hc|congruence].
Qed.

End Others.

End Completion.
