(* ===== verification/LoadPhase.v ===== *)
(** * One cycle of the load/store buffer

    The four passes preserve the relation between the buffer and the run, when
    the loads that finish return what the run says; [tick_sees] is what they
    return. *)

From S2P Require Import Prelude Words Ring Config Float32 Instruction.
From S2P Require Import RegisterFile RegisterRemappingTable ReorderBuffer.
From S2P Require Import CommonDataBus LoadStoreBuffer.
From S2P Require Import InstructionQueue CommitUnit Simulator ISA.
From S2P Require Import Execute StationFacts LSBFacts Invariant SeqFacts UnitFacts.

Section Load.
Context `{FE : FPEnv}.
Context (p : list Instruction) (Hwf : wf_program p) {L : Loads}.

Abbreviation st_at := (st_at p).
Abbreviation ins_at := (ins_at p).
Abbreviation addr_of := (addr_of p).
Abbreviation lsb_entry := (lsb_entry p).
Abbreviation load_sees := (load_sees p).

Lemma addr_of_u32 s : is_u32 (addr_of s).
Proof. unfold Invariant.addr_of. case_match; [apply u32_range|apply is_u32_0]. Qed.

Lemma load_sees_u32 rob b s v : load_sees rob b s v -> is_u32 v.
Proof.
  intros (_ & t & _ & _ & [_ _ ->|k i _ _ _ _ _ _ _ ->]);
    [apply load_word_u32, st_at_ok|apply read_reg_u32, st_at_ok].
Qed.

Lemma read_word_value b m a :
  mem_inv p b m -> is_u32 a -> read_word m a = load_word (st_at b) a.
Proof.
  intros [Hl Hw] Ha. unfold read_word, load_word.
  rewrite Z.shiftr_div_pow2 by lia. change (2 ^ 2) with 4. rewrite Hl.
  destruct (Z.ltb_spec (a / 4) MEM_SIZE); [|done].
  rewrite Hw; [done|]. split; [|done]. apply Z.div_pos; [apply Ha|lia].
Qed.

(** ** The passes, entry by entry *)

Context (rob : ReorderBuffer) (c : list CDBResult) (b n : nat).
Context (Hn : Z.of_nat n <= ROB_SIZE).

Lemma lsb_entry_addr_range s i e : lsb_entry rob c b s i e -> addr_range e.
Proof.
  intros He Hw. destruct (le_addr _ _ _ _ _ _ _ He Hw) as [_ E]. rewrite E. apply addr_of_u32.
Qed.

(** Behind the first pass the address is that of the run. *)
Lemma entry_known s i e : lsb_entry rob c b s i e -> le_state e <> WAITING -> known_addr p rob b s.
Proof.
  intros He Hw j Hj. rewrite (le_instr _ _ _ _ _ _ _ He) in Hj. injection Hj as <-.
  pose proof (le_j _ _ _ _ _ _ _ He) as Ho. destruct (le_addr _ _ _ _ _ _ _ He Hw) as [Hq _].
  rewrite Hq in Ho. by apply operand_ready in Ho as [_ ?].
Qed.

Lemma pass1_entry s i e : lsb_entry rob c b s i e -> lsb_entry rob c b s i (pass1 e).
Proof.
  intros He. unfold pass1. destruct (bool_decide_reflect (le_state e = WAITING)) as [Hw|]; [|done].
  destruct (Z.eqb_spec (le_qj e) (-1)) as [Hq|]; [|done]. cbn [negb orb].
  pose proof (le_j _ _ _ _ _ _ _ He) as Hj. rewrite Hq in Hj.
  apply operand_ready in Hj as [Hv _].
  rewrite add32_imm, (le_imm_eq _ _ _ _ _ _ _ He).
  constructor; cbn; try apply He; try done.
  - intros _. split; [done|]. rewrite Hv. unfold Invariant.addr_of. by rewrite (le_instr _ _ _ _ _ _ _ He).
  - intros _. apply He. right. by rewrite Hw.
Qed.

Lemma pass2_entry s i e : lsb_entry rob c b s i e -> lsb_entry rob c b s i (pass2 e).
Proof.
  intros He. unfold pass2. destruct (bool_decide_reflect (le_state e = ADDR_READY)) as [Hw|]; [|done].
  destruct (is_store (le_op e)) eqn:Hst; [|done].
  destruct (Z.eqb_spec (le_qk e) (-1)) as [Hq|]; [|done]. cbn [negb orb].
  rewrite (le_op_eq _ _ _ _ _ _ _ He) in Hst.
  assert (is_load (op i) = false) as Hnl.
  { destruct (is_load (op i)) eqn:E; [|done]. apply load_not_store in E. congruence. }
  constructor; cbn; try apply He; try done.
  - intros _. apply He. by rewrite Hw.
  - intros [H|H]; congruence.
  - intros _ H. congruence.
Qed.

(** A load that has the value the run gives it. *)
Lemma load_done_entry s i e r v :
  lsb_entry rob c b s i e -> is_load (op i) = true -> le_state e <> WAITING ->
  loaded s = Some v -> lsb_entry rob c b s i (set_result (set_cycles e r) v).
Proof.
  intros He Hl Hw Hv. constructor; cbn; try apply He; try done.
  - intros _. by apply He.
  - intros _. apply He. by left.
  - intros _ Hst. apply load_not_store in Hl. congruence.
Qed.

(** ** Pass 3 sees the older stores *)

(** The queue and the numbers of its instructions. *)
Definition lsb_list (ss : list nat) (q : list LSBEntry) : Prop :=
  Forall2 (fun s e => in_win b n s /\ exists i, lsb_entry rob c b s i e) ss q /\
  (forall j k s s', (j < k)%nat -> ss !! j = Some s -> ss !! k = Some s' -> (s < s')%nat) /\
  (forall s i, in_win b n s -> ins_at s = Some i -> is_mem (op i) = true ->
     (is_store (op i) = true \/ inflight rob s) -> s ∈ ss).

(** Pointwise changes of the queue. *)
Lemma lsb_list_map (f : nat -> LSBEntry -> LSBEntry) ss q :
  lsb_list ss q ->
  (forall j s i e, ss !! j = Some s -> q !! j = Some e -> in_win b n s ->
     lsb_entry rob c b s i e -> lsb_entry rob c b s i (f j e)) ->
  lsb_list ss (imap f q).
Proof.
  intros (Hf & Ho & Ha) H. split_and!; try done. apply Forall2_same_length_lookup.
  split; [rewrite length_imap; by eapply Forall2_length|].
  intros j s e' Hj He'. rewrite list_lookup_imap in He'.
  destruct (q !! j) as [e|] eqn:He; [|done]. cbn in He'. injection He' as <-.
  destruct (Forall2_lookup_lr _ _ _ _ _ _ Hf Hj He) as (Hw & i & Hen).
  split; [done|]. exists i. by eapply H.
Qed.

(** A store of the window older than the [j]-th entry is before it. *)
Lemma lsb_list_older ss q j s s' i' :
  lsb_list ss q -> ss !! j = Some s -> (b <= s' < s)%nat -> in_win b n s ->
  ins_at s' = Some i' -> is_store (op i') = true ->
  exists k e', (k < j)%nat /\ ss !! k = Some s' /\ q !! k = Some e' /\ lsb_entry rob c b s' i' e'.
Proof.
  intros (Hf & Ho & Ha) Hj Hlt Hw Hi' Hst.
  assert (s' ∈ ss) as [k Hk]%list_elem_of_lookup_1.
  { apply (Ha s' i'); try done; [unfold in_win in *; lia| |by left].
    unfold is_mem. rewrite Hst. apply orb_true_r. }
  destruct (Forall2_lookup_l _ _ _ _ _ Hf Hk) as (e' & He' & _ & i0 & Hen).
  pose proof (le_instr _ _ _ _ _ _ _ Hen) as Hi0. rewrite Hi' in Hi0. injection Hi0 as <-.
  exists k, e'. split; [|done]. destruct (Nat.lt_trichotomy k j) as [?|[->|Hgt]]; [done| |].
  - rewrite Hj in Hk. injection Hk. lia.
  - pose proof (Ho _ _ _ _ Hgt Hj Hk). lia.
Qed.

(** ** What a load finds *)

(** Older stores the scan found elsewhere are clear of the load. *)
Lemma elsewhere_clear ss q j s i e (t : nat) :
  lsb_list ss q -> ss !! j = Some s -> in_win b n s -> lsb_entry rob c b s i e ->
  le_state e <> WAITING ->
  (forall k e' s', (k < j)%nat -> ss !! k = Some s' -> (t <= s')%nat -> q !! k = Some e' ->
     store_elsewhere (le_eff_addr e) e') ->
  (b <= t)%nat -> clear p rob b t s.
Proof.
  intros Hq Hj Hw He Hnw Hel Hbt k ik Hk Hi Hst.
  destruct (lsb_list_older ss q j s k ik Hq Hj) as (jk & ek & Hlt & Hsk & Hqk & Hek); try done; [lia|].
  pose proof Hst as Hst'. rewrite <- (le_op_eq _ _ _ _ _ _ _ Hek) in Hst'.
  destruct (Hel jk ek k Hlt Hsk ltac:(lia) Hqk Hst') as [Hkw Hne].
  split; [|by eapply entry_known].
  destruct (le_addr _ _ _ _ _ _ _ Hek Hkw) as [_ <-].
  by destruct (le_addr _ _ _ _ _ _ _ He Hnw) as [_ <-].
Qed.

(** A load that is not blocked sees memory, or the youngest older store to its
    address. *)
Lemma scan_sees m ss q j s i e fwd :
  mem_inv p b m -> lsb_list ss q -> ss !! j = Some s -> q !! j = Some e -> in_win b n s ->
  lsb_entry rob c b s i e -> le_state e = ADDR_READY ->
  scan (le_eff_addr e) (take j q) 0 (-1) = (false, fwd) ->
  load_sees rob b s
    (if 0 <=? fwd then le_vk (default default_entry (q !! Z.to_nat fwd)) else read_word m (le_eff_addr e)).
Proof.
  intros Hm Hq Hj He Hw Hen Hr Hscan.
  assert (Hnw : le_state e <> WAITING) by congruence.
  destruct (le_addr _ _ _ _ _ _ _ Hen Hnw) as (_ & Haddr).
  split; [by eapply entry_known|].
  apply scan_sound in Hscan as [[-> Hall]|(k & e' & Hk & -> & Hst & Hd & Hae & Hall)].
  - exists b. split; [unfold in_win in Hw; lia|]. split.
    + eapply elsewhere_clear; eauto. intros k e' s' Hlt _ _ Hk.
      eapply Forall_lookup_1; [exact Hall|]. by rewrite lookup_take_lt.
    + apply from_memory; [done|unfold in_win in Hw; lia|]. cbn [Z.leb]. rewrite Haddr. apply read_word_value; [done|apply addr_of_u32].
  - assert (Hkj : (k < j)%nat).
    { apply lookup_lt_Some in Hk. rewrite length_take in Hk. lia. }
    rewrite lookup_take_lt in Hk by done.
    rewrite (proj2 (Z.leb_le _ _)) by lia. rewrite Z.add_0_l, Nat2Z.id, Hk. cbn [default].
    pose proof Hq as (Hf & Ho & _).
    destruct (Forall2_lookup_r _ _ _ _ _ Hf Hk) as (s' & Hs' & Hw' & i' & Hen').
    assert (Hlt : (s' < s)%nat) by (by eapply Ho).
    rewrite (le_op_eq _ _ _ _ _ _ _ Hen') in Hst.
    pose proof (le_k _ _ _ _ _ _ _ Hen') as Hok.
    rewrite (le_done_store _ _ _ _ _ _ _ Hen' Hd Hst) in Hok. apply operand_ready in Hok as [Hvk Hset].
    assert (Hnw' : le_state e' <> WAITING) by congruence.
    destruct (le_addr _ _ _ _ _ _ _ Hen' Hnw') as (_ & Haddr').
    exists (S s'). split; [lia|]. split.
    + eapply elsewhere_clear; eauto; [|unfold in_win in Hw'; lia]. intros kt et t Hlt' Hkt Hle Hqt.
      assert (Hlk : (k < kt)%nat).
      { destruct (Nat.lt_trichotomy k kt) as [?|[->|Hgt]]; [done| |].
        - rewrite Hs' in Hkt. injection Hkt. lia.
        - pose proof (Ho _ _ _ _ Hgt Hkt Hs'). lia. }
      eapply (Forall_lookup_1 _ _ (kt - S k)%nat); [exact Hall|].
      rewrite lookup_drop. replace (S k + (kt - S k))%nat with kt by lia. by rewrite lookup_take_lt.
    + eapply (from_store _ _ _ _ _ _ s' i'); [done|unfold in_win in *; lia|apply Hen'|done|congruence|by eapply entry_known|done|done].
Qed.

(** Passes 3 and 4 together: a load stays as it is or finishes. *)
Lemma load_passes m ss q j s i e :
  mem_inv p b m -> lsb_list ss q -> ss !! j = Some s -> q !! j = Some e -> in_win b n s ->
  lsb_entry rob c b s i e ->
  finish_load m (start_load q m j e) = e \/
  (is_load (op i) = true /\ le_state e = ADDR_READY /\
   exists r v, finish_load m (start_load q m j e) = set_result (set_cycles e r) v /\
     load_sees rob b s v).
Proof.
  intros Hm Hq Hj He Hw Hen.
  assert (Hstay : finish_load m e = e).
  { unfold finish_load. rewrite bool_decide_eq_false_2; [done|]. by eapply le_not_executing. }
  unfold start_load. destruct (bool_decide_reflect (le_state e = ADDR_READY)) as [Hr|]; [|by left].
  destruct (is_load (le_op e)) eqn:Hl; [|by left]. cbn [negb orb].
  destruct (scan _ _ _ _) as [[] fwd] eqn:Hscan; [by left|]. right.
  pose proof (scan_sees m ss q j s i e fwd Hm Hq Hj He Hw Hen Hr Hscan) as Hsee.
  rewrite (le_op_eq _ _ _ _ _ _ _ Hen) in *. split; [done|]. split; [done|].
  destruct (0 <=? fwd).
  - eexists (le_cycles_rem e), _. split; [|exact Hsee]. by destruct e.
  - assert (latency_of (op i) = 2) as -> by (destruct (op i); done).
    eexists 0, _. split; [|exact Hsee]. by destruct e.
Qed.

(** ** The whole cycle *)

Lemma lsb_list_operands ss q :
  lsb_list ss q -> lsb_list ss (pass2 <$> (pass1 <$> q)).
Proof.
  intros Hq. rewrite <- !(imap_const pass2), <- !(imap_const pass1).
  apply lsb_list_map; [apply lsb_list_map; [done|]|]; intros; eauto using pass1_entry, pass2_entry.
Qed.

(** The entry of [s] before and after. *)
Lemma tick_queue_entry m ss q j s e' :
  mem_inv p b m -> lsb_list ss q -> ss !! j = Some s -> tick_queue m q !! j = Some e' ->
  exists i e, q !! j = Some e /\ in_win b n s /\ lsb_entry rob c b s i (pass2 (pass1 e)) /\
    (e' = pass2 (pass1 e) \/
     (is_load (op i) = true /\ le_state (pass2 (pass1 e)) = ADDR_READY /\
      exists r v, e' = set_result (set_cycles (pass2 (pass1 e)) r) v /\ load_sees rob b s v)).
Proof.
  intros Hm Hq Hj He'. unfold tick_queue in He'.
  apply list_lookup_fmap_Some in He' as (e3 & -> & He3). rewrite list_lookup_imap in He3.
  destruct ((pass2 <$> (pass1 <$> q)) !! j) as [e2|] eqn:He2; [|done]. cbn in He3. injection He3 as <-.
  pose proof (lsb_list_operands ss q Hq) as Hq2.
  destruct (Forall2_lookup_lr _ _ _ _ _ _ (proj1 Hq2) Hj He2) as (Hw & i & Hen).
  pose proof (load_passes m ss _ j s i e2 Hm Hq2 Hj He2 Hw Hen) as Hcase.
  rewrite !list_lookup_fmap in He2. destruct (q !! j) as [e|]; [|done]. injection He2 as <-.
  by exists i, e.
Qed.

Lemma pass12_done e : le_state e = DONE -> pass2 (pass1 e) = e.
Proof.
  intros Hd. assert (pass1 e = e) as -> by (unfold pass1; by rewrite Hd). unfold pass2. by rewrite Hd.
Qed.

Lemma pass12_load e :
  is_load (le_op e) = true -> le_state (pass2 (pass1 e)) = DONE -> pass2 (pass1 e) = e.
Proof.
  intros Hl Hd. apply pass12_done. apply load_not_store in Hl.
  destruct e as [st o t vj vk qj qk im rfp ea cr rs pcc]. unfold pass1, pass2 in Hd. cbn in *.
  destruct st; try done; destruct o; try done; by destruct (qj =? -1).
Qed.

Lemma pass12_op e : le_op (pass2 (pass1 e)) = le_op e.
Proof. unfold pass1, pass2. by repeat case_match. Qed.

(** What a load that is done after the cycle returns: the old value if it was
    done before. *)
Lemma tick_sees m ss q j s e' :
  mem_inv p b m -> lsb_list ss q -> ss !! j = Some s -> tick_queue m q !! j = Some e' ->
  le_state e' = DONE -> is_load (le_op e') = true ->
  exists i e, q !! j = Some e /\ in_win b n s /\ lsb_entry rob c b s i e /\ is_load (op i) = true /\
    (e' = e \/ (le_state e <> DONE /\ load_sees rob b s (le_result e'))).
Proof.
  intros Hm Hq Hj He' Hd Hl.
  destruct (tick_queue_entry m ss q j s e' Hm Hq Hj He') as (i2 & e & He & Hw & Hen2 & Hcase).
  destruct (Forall2_lookup_lr _ _ _ _ _ _ (proj1 Hq) Hj He) as (_ & i & Hen).
  exists i, e. split; [done|]. split; [done|]. split; [done|]. rewrite <- (le_op_eq _ _ _ _ _ _ _ Hen).
  destruct Hcase as [->|(_ & Hr & r & v & -> & Hsee)].
  - rewrite pass12_op in Hl. rewrite (pass12_load e Hl Hd). auto.
  - cbn in Hl. rewrite pass12_op in Hl. split; [done|]. right. split; [|done].
    intros E. rewrite (pass12_done e E), E in Hr. done.
Qed.

(** The run gives loads what they return in this cycle. *)
Definition loads_follow (m : list Z) (ss : list nat) (q : list LSBEntry) : Prop :=
  forall j s e', ss !! j = Some s -> tick_queue m q !! j = Some e' -> le_state e' = DONE ->
    is_load (le_op e') = true -> loaded s = Some (le_result e').

Lemma lsb_list_tick m ss q :
  mem_inv p b m -> lsb_list ss q -> loads_follow m ss q ->
  lsb_list ss (tick_queue m q).
Proof.
  intros Hm Hq Hld. pose proof Hq as (Hf & Ho & Ha). split_and!; [|done..].
  apply Forall2_same_length_lookup. split.
  { unfold tick_queue. rewrite length_fmap, length_imap, !length_fmap. by eapply Forall2_length. }
  intros j s e' Hj He'.
  destruct (tick_queue_entry m ss q j s e' Hm Hq Hj He') as (i & e & He & Hw & Hen & Hcase).
  split; [done|]. exists i. destruct Hcase as [->|(Hl & Hr & r & v & -> & _)]; [done|].
  apply load_done_entry; [done|done|congruence|]. apply (Hld j s _ Hj He'); [done|]. cbn.
  by rewrite (le_op_eq _ _ _ _ _ _ _ Hen).
Qed.

Lemma lsb_inv_tick m l ss :
  mem_inv p b m -> lsb_inv p rob c b n l -> lsb_list ss (LSBFacts.queue l) ->
  loads_follow m ss (LSBFacts.queue l) ->
  exists l', LoadStoreBuffer.tick l m = Ok l' /\ lsb_inv p rob c b n l' /\
    LSBFacts.queue l' = tick_queue m (LSBFacts.queue l).
Proof.
  intros Hm [Hr Hsz _] Hq Hld.
  destruct (lsb_tick_spec l m Hr) as (l' & Ht & Hr' & Hsz' & _ & _ & _ & Hq').
  { apply Forall_lookup. intros j e He. destruct Hq as [Hf _].
    destruct (Forall2_lookup_r _ _ _ _ _ Hf He) as (s & _ & _ & i & Hen).
    by eapply lsb_entry_addr_range. }
  exists l'. split; [done|]. split; [|done]. constructor; [done|congruence|].
  exists ss. rewrite Hq'. by apply lsb_list_tick.
Qed.

End Load.
