(* ===== verification/LoadValues.v ===== *)
(** * The values of loads

    A load gets its value when the load/store buffer executes it. From then on
    the run that the invariant speaks of returns this value; the instructions
    that depend on it have not been executed, so nothing else the units hold
    changes. *)

From S2P Require Import Prelude Words Ring Config Float32 Instruction.
From S2P Require Import RegisterFile RegisterRemappingTable ReorderBuffer.
From S2P Require Import CommonDataBus ReservationStation LoadStoreBuffer.
From S2P Require Import InstructionQueue CommitUnit Simulator ISA.
From S2P Require Import StationFacts LSBFacts Invariant SeqFacts UnitFacts LoadPhase.

(** Runs that return the same for the first [b] instructions. *)
Definition agree_to (b : nat) (L1 L2 : Loads) : Prop :=
  forall s, (s < b)%nat -> loaded (Loads := L2) s = loaded (Loads := L1) s.

Section Agree.
Context `{FE : FPEnv}.
Context (p : list Instruction) (Hwf : wf_program p) (L1 L2 : Loads).

Abbreviation st1 := (st_at p (L := L1)).
Abbreviation st2 := (st_at p (L := L2)).
Abbreviation ins1 := (ins_at p (L := L1)).
Abbreviation ins2 := (ins_at p (L := L2)).
Abbreviation res1 := (res_at p (L := L1)).
Abbreviation res2 := (res_at p (L := L2)).

Lemma st_agree b : agree_to b L1 L2 -> forall s, (s <= b)%nat -> st2 s = st1 s.
Proof.
  intros Hag s. induction s as [|s IH]; intros Hs; [done|].
  specialize (IH ltac:(lia)). destruct (ins1 s) as [i|] eqn:Hi.
  - assert (Hi2 : ins2 s = Some i) by (unfold ins_at in *; by rewrite IH).
    rewrite (st_at_S p s i Hi), (st_at_S p s i Hi2), IH. f_equal.
    rewrite (res_at_with p s i Hi), (res_at_with p s i Hi2), IH. by rewrite Hag.
  - assert (Hi2 : ins2 s = None) by (unfold ins_at in *; by rewrite IH).
    by rewrite (st_at_stuck p s Hi), (st_at_stuck p s Hi2).
Qed.

(** Two runs that differ in loads in flight. *)
Context (rob : ReorderBuffer) (b n : nat).
Hypothesis Hr : rob_inv p (L := L1) b n rob.
Hypothesis Hnc : forall s i, (b <= s)%nat -> (S s < b + n)%nat -> ins1 s = Some i -> is_control (op i) = false.
Hypothesis Hchg : forall s, loaded (Loads := L2) s <> loaded (Loads := L1) s ->
  in_win b n s /\ inflight rob s.

Lemma agree_committed : agree_to b L1 L2.
Proof.
  intros s Hs. destruct (decide (loaded (Loads := L2) s = loaded (Loads := L1) s)) as [|Hne]; [done|].
  destruct (Hchg s Hne) as [Hw _]. unfold in_win in Hw. lia.
Qed.

Lemma loaded_completed s : completed rob s -> loaded (Loads := L2) s = loaded (Loads := L1) s.
Proof.
  intros Hd. destruct (decide (loaded (Loads := L2) s = loaded (Loads := L1) s)) as [|Hne]; [done|].
  destruct (Hchg s Hne) as [_ Hf]. by apply inflight_not_completed in Hf.
Qed.

(** ** Instructions *)

Lemma pc_agree s :
  (forall k i, (b <= k < s)%nat -> ins1 k = Some i -> is_control (op i) = false) ->
  apc (st2 s) = apc (st1 s).
Proof.
  induction s as [|s IH]; intros Hno; [done|].
  destruct (decide (S s <= b)%nat) as [Hb|Hb]; [by rewrite (st_agree b agree_committed)|].
  specialize (IH ltac:(intros k i Hk; apply Hno; lia)).
  destruct (ins1 s) as [i|] eqn:Hi.
  - assert (Hi2 : ins2 s = Some i) by (unfold ins_at in *; by rewrite IH).
    rewrite (apc_S p s i Hi), (apc_S p s i Hi2). by rewrite (Hno s i ltac:(lia) Hi).
  - assert (Hi2 : ins2 s = None) by (unfold ins_at in *; by rewrite IH).
    by rewrite (st_at_stuck p s Hi), (st_at_stuck p s Hi2).
Qed.

Lemma ins_agree s : (s < b + n)%nat -> ins2 s = ins1 s.
Proof.
  intros Hs. unfold ins_at. rewrite pc_agree; [done|]. intros k i Hk. apply Hnc; lia.
Qed.

Lemma writes_agree s r fp : (s < b + n)%nat -> writes p (L := L2) s r fp <-> writes p (L := L1) s r fp.
Proof. intros Hs. unfold writes. by rewrite ins_agree. Qed.

Lemma last_writer_agree s' s r fp :
  (s <= b + n)%nat -> last_writer p (L := L2) s' s r fp <-> last_writer p (L := L1) s' s r fp.
Proof.
  intros Hs. split; intros (Hlt & Hw & Hno); (split; [done|]; split;
    [apply writes_agree; [lia|done]|]; intros k Hk Hwk; apply (Hno k Hk), writes_agree; [lia|done]).
Qed.

Lemma settled_agree s r fp :
  (s <= b + n)%nat -> settled p (L := L1) rob b s r fp -> settled p (L := L2) rob b s r fp.
Proof. intros Hs H s' Hs' Hl. by apply (H s'), last_writer_agree. Qed.

(** ** Values *)

(** Finished instructions have the same result, and registers without a writer
    in flight the same value. *)
Lemma values_agree s :
  (s < b + n)%nat ->
  (forall r fp, settled p (L := L1) rob b s r fp -> read_reg (st2 s) r fp = read_reg (st1 s) r fp) /\
  (in_win b n s -> completed rob s -> res2 s = res1 s).
Proof.
  induction s as [s IH] using lt_wf_ind. intros Hs.
  assert (Hreads : forall r fp, settled p (L := L1) rob b s r fp ->
    read_reg (st2 s) r fp = read_reg (st1 s) r fp).
  { intros r fp Hset. destruct (decide (s <= b)%nat) as [Hb|Hb].
    { by rewrite (st_agree b agree_committed). }
    destruct (last_writer_cases p (L := L1) b s r fp) as [Hno|(s' & Hs' & Hl)].
    - rewrite (read_reg_unwritten p (L := L1) b s r fp) by (done || lia).
      rewrite (read_reg_unwritten p (L := L2) b s r fp); [|lia|].
      + by rewrite (st_agree b agree_committed).
      + intros k Hk Hw. apply (Hno k Hk). apply writes_agree; [lia|done].
    - pose proof Hl as (Hlt & (i & Hi & _) & _).
      pose proof (Hnc s' i Hs' ltac:(lia) Hi) as Hct. apply orb_false_iff in Hct as [_ Hj].
      rewrite (read_reg_written p s' s r fp i Hl Hi Hj).
      rewrite (read_reg_written p (L := L2) s' s r fp i); [|by apply last_writer_agree; [lia|]| |done].
      + apply (IH s'); [done|lia|unfold in_win; lia|by apply Hset].
      + rewrite ins_agree by lia. done. }
  split; [exact Hreads|]. intros Hw Hd.
  destruct (ins1 s) as [i|] eqn:Hi.
  2: { unfold res_at. by rewrite ins_agree, Hi by done. }
  assert (Hi2 : ins2 s = Some i) by (by rewrite ins_agree).
  pose proof (ri_done _ _ _ _ Hr s i Hw Hd Hi) as Hdo. unfold done_ok in Hdo.
  destruct (is_load (op i)) eqn:Hl.
  - destruct Hdo as [v Hv]. rewrite (res_at_with p s i Hi), (res_at_with p s i Hi2).
    rewrite (loaded_completed s Hd), Hv. unfold result_with. by rewrite Hl.
  - rewrite (res_at_Some p s i Hi Hl), (res_at_Some p s i Hi2 Hl). unfold ISA.result. rewrite Hl.
    destruct (is_store (op i)); [done|]. destruct Hdo as [H1 H2]. by rewrite !Hreads.
Qed.

Lemma read_agree s r fp :
  (s < b + n)%nat -> settled p (L := L1) rob b s r fp ->
  read_reg (st2 s) r fp = read_reg (st1 s) r fp.
Proof. intros Hs. by apply values_agree. Qed.

Lemma addr_agree s :
  (s < b + n)%nat -> known_addr p (L := L1) rob b s -> addr_of p (L := L2) s = addr_of p (L := L1) s.
Proof.
  intros Hs Hk. unfold addr_of. rewrite ins_agree by done.
  destruct (ins1 s) as [i|] eqn:Hi; [|done]. unfold eff_addr. by rewrite (read_agree s) by auto.
Qed.

Lemma known_addr_agree s :
  (s < b + n)%nat -> known_addr p (L := L1) rob b s -> known_addr p (L := L2) rob b s.
Proof. intros Hs Hk i Hi. rewrite ins_agree in Hi by done. apply settled_agree; [lia|auto]. Qed.

Lemma load_sees_agree s v :
  (s < b + n)%nat -> load_sees p (L := L1) rob b s v -> load_sees p (L := L2) rob b s v.
Proof.
  intros Hs (Hka & t & Ht & Hcl & Hsrc). split; [by apply known_addr_agree|].
  exists t. split; [done|]. split.
  - intros k i Hk Hi Hst. rewrite ins_agree in Hi by lia. destruct (Hcl k i Hk Hi Hst) as [Hne Hkk].
    rewrite !addr_agree by (done || lia). split; [done|]. apply known_addr_agree; [lia|done].
  - destruct Hsrc as [Hb ? ->|k i -> ? Hi Hst Ha Hkk Hset ->].
    + apply from_memory; [done|done|]. by rewrite addr_agree, (st_agree b agree_committed).
    + apply (from_store _ _ _ _ _ _ k i); rewrite ?ins_agree, ?addr_agree by (done || lia); try done.
      * apply known_addr_agree; [lia|done].
      * apply settled_agree; [lia|done].
      * by rewrite read_agree by (done || lia).
Qed.

(** ** The invariant *)

Lemma operand_agree c s r fp v q :
  (s < b + n)%nat -> operand_ok p (L := L1) rob c b s r fp v q -> operand_ok p (L := L2) rob c b s r fp v q.
Proof.
  intros Hs [(Hq & -> & Hset)|(s' & Hs' & Hq & Hl & Hj & Hp)]; [left|right].
  - split; [done|]. split; [by rewrite read_agree|]. apply settled_agree; [lia|done].
  - exists s'. split; [done|]. split; [done|]. split; [by apply last_writer_agree; [lia|]|].
    split; [|done]. intros i Hi. destruct Hl as (? & _). rewrite ins_agree in Hi by lia. by apply Hj.
Qed.

Lemma rob_agree : rob_inv p (L := L2) b n rob.
Proof.
  pose proof Hr as [? ? ? ? Hsl Hdn]. constructor; try done.
  - intros s Hs. destruct (Hsl s Hs) as (e & He & [Hi Hst]). exists e. split; [done|]. constructor.
    + rewrite ins_agree by (unfold in_win in Hs; lia). done.
    + destruct Hst as [?|[Hd Hres]]; [by left|right]. split; [done|]. rewrite Hres. symmetry.
      apply values_agree; [unfold in_win in Hs; lia|done|by exists e].
  - intros s i Hs Hd Hi. rewrite ins_agree in Hi by (unfold in_win in Hs; lia).
    pose proof (Hdn s i Hs Hd Hi) as Hdo. unfold done_ok in *.
    destruct (is_load (op i)); [by rewrite loaded_completed|].
    destruct (is_store (op i)); [done|].
    destruct Hdo. split; (apply settled_agree; [by apply in_win_le|done]).
Qed.

Lemma station_agree c k st :
  station_inv p (L := L1) rob c b n k st -> station_inv p (L := L2) rob c b n k st.
Proof.
  intros [? ? ? He ? Hpl]. constructor; try done.
  - intros j e Hj Hb. destruct (He j e Hj Hb) as (s & i & Hs & []). exists s, i. split; [done|].
    assert (s < b + n)%nat by (unfold in_win in Hs; lia).
    constructor; try done; [by rewrite ins_agree|by apply operand_agree..].
  - intros s i Hs Hi. rewrite ins_agree in Hi by (unfold in_win in Hs; lia). by apply Hpl.
Qed.

Lemma lsb_entry_agree c s i e :
  (s < b + n)%nat ->
  (le_state e = DONE -> is_load (op i) = true -> loaded (Loads := L2) s = loaded (Loads := L1) s) ->
  lsb_entry p (L := L1) rob c b s i e -> lsb_entry p (L := L2) rob c b s i e.
Proof.
  intros Hs Hld He. pose proof (le_instr _ _ _ _ _ _ _ He) as Hi.
  constructor; try apply He; try (apply operand_agree; [done|apply He]).
  - by rewrite ins_agree.
  - intros Hw. destruct (le_addr _ _ _ _ _ _ _ He Hw) as [Hq ->]. split; [done|]. symmetry.
    apply addr_agree; [done|]. intros j Hj. rewrite Hi in Hj. injection Hj as <-.
    pose proof (le_j _ _ _ _ _ _ _ He) as Ho. rewrite Hq in Ho. by apply operand_ready in Ho as [_ ?].
  - intros Hd Hl. rewrite Hld by done. by apply (le_done_load _ _ _ _ _ _ _ He).
Qed.

Lemma lsb_list_agree c ns q :
  (forall j s e, ns !! j = Some s -> q !! j = Some e -> le_state e = DONE -> is_load (le_op e) = true ->
     loaded (Loads := L2) s = loaded (Loads := L1) s) ->
  lsb_list p (L := L1) rob c b n ns q -> lsb_list p (L := L2) rob c b n ns q.
Proof.
  intros Hld (Hf & Ho & Ha). split_and!; [|done|].
  - apply Forall2_same_length_lookup. split; [by eapply Forall2_length|]. intros j s e Hj He.
    destruct (Forall2_lookup_lr _ _ _ _ _ _ Hf Hj He) as (Hs & i & Hen). split; [done|]. exists i.
    apply lsb_entry_agree; [unfold in_win in Hs; lia| |done]. intros Hd Hl.
    apply (Hld j s e Hj He Hd). by rewrite (le_op_eq _ _ _ _ _ _ _ Hen).
  - intros s i Hs Hi. rewrite ins_agree in Hi by (unfold in_win in Hs; lia). by apply Ha.
Qed.

Lemma rat_agree rat : rat_inv p (L := L1) b n rat -> rat_inv p (L := L2) b n rat.
Proof.
  intros [? Hm]. split; [done|]. intros r fp Hr'. specialize (Hm r fp Hr').
  destruct (mapping _ _ _) as [t|].
  - destruct Hm as (s & Hs & ? & Hw & Hno). exists s. split; [done|]. split; [done|].
    unfold in_win in Hs. split; [apply writes_agree; [lia|done]|].
    intros s' Hs' Hw'. apply (Hno s' Hs'). apply writes_agree; [lia|done].
  - intros s Hs Hw. apply (Hm s Hs). unfold in_win in Hs. apply writes_agree; [lia|done].
Qed.

Lemma iq_agree q bif : iq_inv p (L := L1) b n q bif -> iq_inv p (L := L2) b n q bif.
Proof.
  intros [? ? ? Hwait Hrun]. constructor; try done.
  - intros E. destruct (Hwait E) as (? & m & i & Hm & Hi & ? & Hno). split; [done|]. exists m, i.
    split; [done|]. split; [by rewrite ins_agree by lia|]. split; [done|].
    intros s i' Hs Hi'. rewrite ins_agree in Hi' by (unfold in_win in Hs; lia). by apply (Hno s).
  - intros E. destruct (Hrun E) as (Hno & k & Hk & Hrest). split.
    + intros s i Hs Hi. rewrite ins_agree in Hi by (unfold in_win in Hs; lia). by apply (Hno s).
    + exists k. split; [|done]. rewrite pc_agree; [done|]. intros s i Hs. apply Hno. unfold in_win. lia.
Qed.

Lemma live_agree s : (s <= b + n)%nat -> live p (L := L1) s -> live p (L := L2) s.
Proof. intros Hs Hl s' i Hs' Hi. rewrite ins_agree in Hi by lia. by eapply Hl. Qed.

Lemma halt_agree h : halt_inv p (L := L1) b h -> halt_inv p (L := L2) b h.
Proof.
  unfold halt_inv. destruct h; [|apply live_agree; lia].
  intros (b' & i & Hb & Hl & Hi & Hh). exists b', i. split; [done|].
  split; [apply live_agree; [lia|done]|]. split; [|done]. rewrite <- Hi. unfold ins_at.
  by rewrite (st_agree b agree_committed) by lia.
Qed.

End Agree.

(** ** The loads that finish in a cycle *)

(** The run with the values the load/store buffer holds after the cycle. *)
Definition next_loads (L : Loads) (ns : list nat) (q' : list LSBEntry) : Loads := fun s =>
  match list_find (fun k => k = s) ns with
  | Some (j, _) =>
      match q' !! j with
      | Some e => if bool_decide (le_state e = DONE) && is_load (le_op e)
                  then Some (le_result e) else loaded s
      | None => loaded s
      end
  | None => loaded s
  end.

Section Next.
Context `{FE : FPEnv}.
Context (p : list Instruction) (Hwf : wf_program p) {L : Loads}.
Context (b n : nat) (s : Sim) (HI : Inv p [] b n s).
Context (ns : list nat) (Hns : lsb_list p (rob s) [] b n ns (LSBFacts.queue (lsb s))).

Abbreviation q := (LSBFacts.queue (lsb s)).
Abbreviation q' := (tick_queue (mem s) q).

Let L' : Loads := next_loads L ns q'.

Lemma ns_unique j j' k : ns !! j = Some k -> ns !! j' = Some k -> j = j'.
Proof.
  intros Hj Hj'. destruct Hns as (_ & Ho & _).
  destruct (Nat.lt_trichotomy j j') as [Hlt|[?|Hlt]]; [|done|].
  - pose proof (Ho _ _ _ _ Hlt Hj Hj'). lia.
  - pose proof (Ho _ _ _ _ Hlt Hj' Hj). lia.
Qed.

Lemma next_loads_at j k e' :
  ns !! j = Some k -> q' !! j = Some e' -> le_state e' = DONE -> is_load (le_op e') = true ->
  loaded (Loads := L') k = Some (le_result e').
Proof.
  intros Hj He Hd Hl. unfold loaded, L', next_loads.
  assert (list_find (fun x => x = k) ns = Some (j, k)) as ->.
  { apply list_find_Some. split; [done|]. split; [done|]. intros j' x Hx Hlt ->.
    pose proof (ns_unique j j' k Hj Hx). lia. }
  by rewrite He, Hl, bool_decide_eq_true_2.
Qed.

(** What the new run returns, where it differs. *)
Lemma next_loads_new k v :
  loaded (Loads := L') k = Some v -> loaded (Loads := L) k <> Some v ->
  exists j e i, ns !! j = Some k /\ q !! j = Some e /\ le_state e <> DONE /\ in_win b n k /\
    ins_at p k = Some i /\ is_load (op i) = true /\ inflight (rob s) k /\ load_sees p (rob s) b k v.
Proof.
  unfold loaded at 1, L', next_loads. intros Hv Hne.
  destruct (list_find (fun x => x = k) ns) as [[j x]|] eqn:Hf; [|done].
  apply list_find_Some in Hf as (Hj & -> & _).
  destruct (q' !! j) as [e'|] eqn:He'; [|done].
  destruct (bool_decide_reflect (le_state e' = DONE)) as [Hd|]; [|done].
  destruct (is_load (le_op e')) eqn:Hl; [|done]. cbn in Hv. injection Hv as <-.
  destruct (tick_sees p (rob s) [] b n (rob_window _ _ _ _ (ui_rob _ _ _ _ _ _ _ (inv_units _ _ _ _ _ HI)))
    (mem s) ns q j k e' (inv_mem _ _ _ _ _ HI) Hns Hj He' Hd Hl)
    as (i & e & He & Hw & Hen & Hli & Hcase).
  destruct Hcase as [->|[Hnd Hsee]].
  { exfalso. apply Hne. by apply (le_done_load _ _ _ _ _ _ _ Hen). }
  exists j, e, i. split_and!; try done; [apply Hen|]. apply Hen. by left.
Qed.

Lemma next_loads_changed k :
  loaded (Loads := L') k <> loaded (Loads := L) k -> exists v, loaded (Loads := L') k = Some v.
Proof. unfold loaded, L', next_loads. intros H. repeat case_match; eauto; done. Qed.

(** Nothing but the youngest instruction can be a branch or jump. *)
Lemma older_not_control k i :
  (b <= k)%nat -> (S k < b + n)%nat -> ins_at p k = Some i -> is_control (op i) = false.
Proof.
  intros Hb Hk Hi. destruct (inv_iq _ _ _ _ _ HI) as [_ _ _ Hwait Hrun].
  destruct (branch_in_flight s).
  - destruct (Hwait eq_refl) as (_ & m & j & -> & _ & _ & Hno). apply (Hno k i); [unfold in_win; lia|done].
  - destruct (Hrun eq_refl) as [Hno _]. apply (Hno k i); [unfold in_win; lia|done].
Qed.

Lemma next_loads_inflight k :
  loaded (Loads := L') k <> loaded (Loads := L) k -> in_win b n k /\ inflight (rob s) k.
Proof.
  intros Hne. destruct (next_loads_changed k Hne) as [v Hv].
  destruct (next_loads_new k v Hv) as (_ & _ & _ & _ & _ & _ & Hw & _ & _ & Hf & _); [congruence|done].
Qed.

(** The state before the cycle belongs to the new run as well. *)
Lemma next_loads_inv :
  Inv p (L := L') [] b n s /\ lsb_list p (L := L') (rob s) [] b n ns q /\
  loads_follow (L := L') (mem s) ns q /\ agree_to b L L'.
Proof.
  pose proof HI as [[Hr Hs Hl Hc] Hlds [Hrf Hregs] [Hml Hm] Hrat Hiq Hhalt Hnm].
  pose proof older_not_control as Hnc. pose proof next_loads_inflight as Hchg.
  pose proof (agree_committed L L' (rob s) b n Hchg) as Hag.
  pose proof (st_agree p L L' b Hag) as Hst.
  assert (Hns' : lsb_list p (L := L') (rob s) [] b n ns q).
  { apply (lsb_list_agree p L L' (rob s) b n Hr Hnc Hchg); [|done]. intros j k e Hj He Hd Hle.
    destruct (decide (loaded (Loads := L') k = loaded (Loads := L) k)) as [|Hne]; [done|].
    destruct (next_loads_changed k Hne) as [v Hv].
    destruct (next_loads_new k v Hv) as (j' & e' & _ & Hj' & He' & Hnd & _); [congruence|].
    rewrite (ns_unique j' j k Hj' Hj), He in He'. injection He' as <-. done. }
  split; [|split; [done|split; [|done]]].
  2: { intros j k e'. apply next_loads_at. }
  constructor.
  - constructor; [by apply (rob_agree p L L')|intros k; by apply (station_agree p L L')| |by constructor].
    destruct Hl as [Hring Hsz _]. constructor; [done|done|by exists ns].
  - intros k v Hv. destruct (decide (loaded (Loads := L) k = Some v)) as [Hold|Hne].
    + destruct (Hlds k v Hold) as (Hk & Hu & i & Hi & Hld & Hsee). split; [done|]. split; [done|].
      exists i. split; [by rewrite (ins_agree p L L' (rob s) b n)|]. split; [done|].
      by apply (load_sees_agree p L L' (rob s) b n).
    + destruct (next_loads_new k v Hv Hne) as (_ & _ & i & _ & _ & _ & Hw & Hi & Hld & _ & Hsee).
      assert (k < b + n)%nat by (unfold in_win in Hw; lia). split; [done|].
      split; [by eapply load_sees_u32|]. exists i.
      split; [by rewrite (ins_agree p L L' (rob s) b n)|]. split; [done|].
      by apply (load_sees_agree p L L' (rob s) b n).
  - split; [done|]. intros r fp Hidx. rewrite Hst by done. by apply Hregs.
  - split; [done|]. intros w Hw. rewrite Hst by done. by apply Hm.
  - by apply (rat_agree p L L' (rob s) b n).
  - by apply (iq_agree p L L' (rob s) b n).
  - by apply (halt_agree p L L' (rob s) b n).
  - intros k i Hk. rewrite (ins_agree p L L' (rob s) b n) by done. by apply Hnm.
Qed.

End Next.
