(* ===== verification/ExecutePhase.v ===== *)
(** * Phases 1 to 3: execution and broadcast

    The stations and the load/store buffer advance one cycle; finished stores
    are reported; results go to the reorder buffer and onto the bus. *)

From S2P Require Import Prelude Words Ring Config Float32 Instruction.
From S2P Require Import RegisterFile RegisterRemappingTable ReorderBuffer.
From S2P Require Import CommonDataBus ReservationStation LoadStoreBuffer.
From S2P Require Import InstructionQueue CommitUnit Simulator ISA.
From S2P Require Import Execute StationFacts LSBFacts Invariant SeqFacts UnitFacts Completion LoadPhase.

Section Execute.
Context `{FE : FPEnv}.
Context (p : list Instruction) (Hwf : wf_program p) {L : Loads}.

Abbreviation ins_at := (ins_at p).
Abbreviation res_at := (res_at p).
Abbreviation writes := (writes p).
Abbreviation rob_inv := (rob_inv p).
Abbreviation operand_ok := (operand_ok p).
Abbreviation station_inv := (station_inv p).
Abbreviation lsb_inv := (lsb_inv p).
Abbreviation units_inv := (units_inv p).

(** ** The stations tick *)

Lemma station_entry_same rob c b k s i e e' :
  same_instr e e' -> station_entry p rob c b k s i e -> station_entry p rob c b k s i e'.
Proof.
  intros (_ & Ho & Ht & Hvj & Hvk & Hqj & Hqk & Him & _ & Hp) [].
  constructor; rewrite ?Ho, ?Ht, ?Hvj, ?Hvk, ?Hqj, ?Hqk, ?Him, ?Hp; done.
Qed.

Lemma station_inv_tick rob c b n k st :
  station_inv rob c b n k st -> station_inv rob c b n k (ReservationStation.tick st).
Proof.
  intros [Hok Hsz Ht He Hu Hpl]. constructor.
  - by apply tick_station_ok.
  - done.
  - by apply tick_timing.
  - intros j e' Hj Hb. destruct (tick_same _ _ _ Hj) as (e & Hje & Hs).
    assert (se_busy e = true) as Hbe by (destruct Hs as [? _]; congruence).
    destruct (He j e Hje Hbe) as (s & i & Hw & Hen). exists s, i. split; [done|].
    by eapply station_entry_same.
  - intros j j' e e' Hj Hj' Hb Hb' E.
    destruct (tick_same _ _ _ Hj) as (x & Hjx & Hs), (tick_same _ _ _ Hj') as (x' & Hjx' & Hs').
    destruct Hs as (? & _ & ? & _), Hs' as (? & _ & ? & _).
    eapply Hu; eauto; congruence.
  - intros s i Hs Hi Hrt Hf. destruct (Hpl s i Hs Hi Hrt Hf) as (j & e & Hj & Hb & Htag).
    destruct (lookup_lt_is_Some_2 (ReservationStation.entries_ (ReservationStation.tick st)) j)
      as [e' He'].
    { rewrite tick_length. by eapply lookup_lt_Some. }
    destruct (tick_same _ _ _ He') as (x & Hjx & Hsx). rewrite Hj in Hjx. injection Hjx as <-.
    destruct Hsx as (? & _ & ? & _). exists j, e'. split_and!; [done|congruence|congruence].
Qed.

Lemma tick_stations_at ss k : station (tick_stations ss) k = ReservationStation.tick (station ss k).
Proof. apply station_map. Qed.

(** ** A station's results *)

(** A finished entry holds the result of its instruction. *)
Lemma station_entry_result rob c b k s i e :
  station_entry p rob c b k s i e -> timing_ok e -> se_done e = true ->
  se_result e = res_at s /\ done_ok p rob b s i.
Proof.
  intros [Hi Hrt Hop Him Hpc _ _ Hj Hk] Ht Hd. destruct (tm_done _ Ht Hd) as (Eqj & Eqk & ->).
  rewrite Eqj in Hj. rewrite Eqk in Hk.
  destruct (operand_ready _ _ _ _ _ _ _ _ Hj) as [Hlj Hsj], (operand_ready _ _ _ _ _ _ _ _ Hk) as [Hlk Hsk].
  destruct (target_rs_not_mem _ _ Hrt) as [Hnl Hns].
  split; [|unfold done_ok; by rewrite Hnl, Hns].
  rewrite execute_op_is_alu by (rewrite ?Hlj, ?Hlk; apply read_reg_u32, st_at_ok).
  rewrite Hop, Him, Hpc, (res_at_Some p s i Hi Hnl), Hlj, Hlk.
  unfold ISA.result. by rewrite Hnl, Hns.
Qed.

(** Instructions that were done stay done. *)
Definition keeps_completed (b n : nat) (rob rob' : ReorderBuffer) : Prop :=
  forall s, in_win b n s -> completed rob s -> completed rob' s.

Lemma keeps_completed_trans b n r1 r2 r3 :
  keeps_completed b n r1 r2 -> keeps_completed b n r2 r3 -> keeps_completed b n r1 r3.
Proof. unfold keeps_completed. auto. Qed.

(** One iteration of the drain loop. *)
Lemma units_pop c b n rob ss l k :
  units_inv c b n rob ss l -> ReservationStation.has_result (station ss k) = true ->
  exists e st' rob', ReservationStation.pop_result (station ss k) = Ok (e, st') /\
    ReorderBuffer.write_result rob (se_rob_tag e) (se_result e) = Ok rob' /\
    done_count (ReservationStation.entries_ (station ss k)) =
      S (done_count (ReservationStation.entries_ st')) /\
    drained (station ss k) st' /\ keeps_completed b n rob rob' /\
    units_inv (c ++ [mkCDBResult (se_rob_tag e) (se_result e)]) b n rob' (set_station ss k st') l.
Proof.
  intros [Hr Hs Hl Hc] Hres. destruct (has_result_pop _ Hres) as (j & e & Hj & Hb & Hd & Hpop).
  pose proof (Hs k) as Hk. destruct (si_entries _ _ _ _ _ _ _ Hk j e Hj Hb) as (s & i & Hw & Hen).
  assert (timing_ok e) as Ht by (eapply Forall_lookup_1; [apply Hk|done]).
  destruct (station_entry_result _ _ _ _ _ _ _ Hen Ht Hd) as [Hv Hdo].
  pose proof Hen as [Hi Hrt _ _ _ Htag Hf _ _].
  destruct (rob_completes p b n rob s i (se_result e) Hr Hw Hf Hv Hi Hdo) as (rob' & Hwr & Hr' & Hcp).
  eexists e, _, rob'. split; [exact Hpop|]. rewrite Htag. split; [done|].
  split; [by apply done_count_pop with (e := e)|]. split; [by eapply drained_pop|].
  split; [intros s' Hs'; by apply (completes_completed Hcp)|].
  assert (Hp : forall s' r fp, in_win b n s' -> writes s' r fp -> pending rob c s' ->
    pending rob' (c ++ [mkCDBResult (tag s) (se_result e)]) s').
  { intros s' r fp Hs' _. by apply (completes_pending Hcp). }
  constructor; [done| | |by eapply cdb_inv_broadcast].
  - intros k'. rewrite station_set. destruct (decide (k' = k)) as [->|Hne].
    + eapply (station_inv_pop p b n rob rob' c _ s); eauto.
    + eapply (station_inv_other p b n rob rob'); eauto. congruence.
  - eapply (lsb_inv_other p b n rob rob'); eauto. intros e' i' _ He'. exfalso.
    pose proof (le_instr _ _ _ _ _ _ _ He') as Hi'. pose proof (le_mem _ _ _ _ _ _ _ He') as Hm.
    rewrite Hi in Hi'. injection Hi' as <-. apply target_rs_mem in Hm. congruence.
Qed.

(** The drain loop ends within the fuel, with no result left. *)
Lemma drain_spec fuel b n rob ss l k cdb :
  units_inv (results cdb) b n rob ss l ->
  (done_count (ReservationStation.entries_ (station ss k)) <= fuel)%nat ->
  exists st' rob' cdb', drain fuel (station ss k) rob cdb = Ok (st', rob', cdb') /\
    units_inv (results cdb') b n rob' (set_station ss k st') l /\
    ReservationStation.has_result st' = false /\ drained (station ss k) st' /\
    keeps_completed b n rob rob'.
Proof.
  revert rob ss cdb. induction fuel as [|fuel IH]; intros rob ss cdb Hu Hfuel.
  all: destruct (ReservationStation.has_result (station ss k)) eqn:Hres; cbn [drain]; rewrite Hres;
    cbn [negb]; [|eexists _, _, _; split; [done|]; rewrite set_station_id;
                  split_and!; auto using drained_refl; by intros ? ?].
  - destruct (units_pop _ _ _ _ _ _ _ Hu Hres) as (e & st' & rob' & _ & _ & Hd & _). lia.
  - destruct (units_pop _ _ _ _ _ _ _ Hu Hres)
      as (e & st' & rob' & -> & Hw & Hd & Hdr & Hkc & Hu').
    simpl. rewrite Hw. simpl. rewrite <- broadcast_results in Hu'.
    destruct (IH _ _ _ Hu') as (st2 & rob2 & cdb2 & Hdo & Hu2 & Hf & Hdr2 & Hkc2).
    { rewrite station_set, decide_True by done. lia. }
    rewrite station_set, decide_True in Hdo, Hdr2 by done. rewrite set_station_set in Hu2.
    eexists _, _, _. split; [exact Hdo|].
    split_and!; eauto using drained_trans, keeps_completed_trans.
Qed.

Lemma drain_station_spec b n rob ss l k cdb :
  units_inv (results cdb) b n rob ss l ->
  exists ss' rob' cdb', drain_station (ss, rob, cdb) k = Ok (ss', rob', cdb') /\
    units_inv (results cdb') b n rob' ss' l /\
    ReservationStation.has_result (station ss' k) = false /\
    (forall k', drained (station ss k') (station ss' k')) /\ keeps_completed b n rob rob'.
Proof.
  intros Hu. unfold drain_station.
  destruct (drain_spec (S (length (ReservationStation.entries_ (station ss k)))) b n rob ss l k cdb Hu)
    as (st' & rob' & cdb' & -> & Hu' & Hf & Hdr & Hkc).
  { pose proof (done_count_le (ReservationStation.entries_ (station ss k))). lia. }
  simpl. eexists _, _, _. split; [done|]. split_and!; try done.
  - by rewrite station_set, decide_True.
  - intros k'. rewrite station_set. destruct (decide (k' = k)) as [->|]; auto using drained_refl.
Qed.

Lemma drain_stations_spec ks b n rob ss l cdb :
  units_inv (results cdb) b n rob ss l ->
  exists ss' rob' cdb', foldM drain_station (ss, rob, cdb) ks = Ok (ss', rob', cdb') /\
    units_inv (results cdb') b n rob' ss' l /\
    (forall k, k ∈ ks -> ReservationStation.has_result (station ss' k) = false) /\
    (forall k, drained (station ss k) (station ss' k)) /\ keeps_completed b n rob rob'.
Proof.
  revert rob ss cdb. induction ks as [|k ks IH]; intros rob ss cdb Hu; cbn [foldM].
  { eexists _, _, _. split; [done|]. split_and!; auto using drained_refl; [|by intros ? ?].
    intros k Hk. by apply elem_of_nil in Hk. }
  destruct (drain_station_spec b n rob ss l k cdb Hu)
    as (ss1 & rob1 & cdb1 & -> & Hu1 & Hf1 & Hdr1 & Hkc1). simpl.
  destruct (IH _ _ _ Hu1) as (ss' & rob' & cdb' & -> & Hu' & Hf & Hdr & Hkc).
  eexists _, _, _. split; [done|].
  split_and!; eauto using drained_trans, keeps_completed_trans.
  intros k' [->|Hk']%elem_of_cons; [|by auto]. by eapply drained_no_result.
Qed.

(** ** Finished stores *)

Lemma peek_slot b n rob s :
  rob_inv b n rob -> in_win b n s ->
  exists e, ReorderBuffer.peek rob (tag s) = Ok e /\ slot rob s = Some e /\ slot_ok p s e.
Proof.
  intros Hr Hs. destruct (ri_slots _ _ _ _ Hr s Hs) as (e & He & Hok). exists e.
  split; [|done]. unfold ReorderBuffer.peek. pose proof (tag_range s) as Ht.
  rewrite (ri_size _ _ _ _ Hr), require_index by done. simpl. apply vec_get_Ok. split; [lia|done].
Qed.

(** The entry of an instruction is at one place of the buffer. *)
Lemma lsb_entry_unique rob c b n ss q j j' s i i' e e' :
  rob_inv b n rob -> lsb_list p rob c b n ss q -> q !! j = Some e -> q !! j' = Some e' ->
  in_win b n s -> lsb_entry p rob c b s i e -> lsb_entry p rob c b s i' e' -> e' = e.
Proof.
  intros Hr (Hf & Ho & _) Hj Hj' Hs He He'.
  destruct (Forall2_lookup_r _ _ _ _ _ Hf Hj) as (t & Ht & Hwt & it & Het).
  destruct (Forall2_lookup_r _ _ _ _ _ Hf Hj') as (t' & Ht' & Hwt' & it' & Het').
  assert (t = s) as ->.
  { eapply slot_inj; eauto. apply le_tag_eq in Het, He. congruence. }
  assert (t' = s) as ->.
  { eapply slot_inj; eauto. apply le_tag_eq in Het', He'. congruence. }
  assert (j' = j) as ->; [|congruence].
  destruct (Nat.lt_trichotomy j j') as [Hlt|[?|Hlt]]; [|done|].
  - pose proof (Ho _ _ _ _ Hlt Ht Ht'). lia.
  - pose proof (Ho _ _ _ _ Hlt Ht' Ht). lia.
Qed.

Lemma units_store_done c b n rob ss l j s i e :
  units_inv c b n rob ss l -> LSBFacts.queue l !! j = Some e -> in_win b n s ->
  lsb_entry p rob c b s i e -> is_store (op i) = true -> le_state e = DONE -> inflight rob s ->
  exists rob', ReorderBuffer.write_result rob (tag s) 0 = Ok rob' /\
    completes b n rob s rob' /\ units_inv c b n rob' ss l.
Proof.
  intros [Hr Hs Hl Hc] Hj Hw Hen Hst Hd Hf. pose proof (le_instr _ _ _ _ _ _ _ Hen) as Hi.
  assert (Hnl : is_load (op i) = false).
  { destruct (is_load (op i)) eqn:E; [|done]. apply load_not_store in E. congruence. }
  destruct (rob_completes p b n rob s i 0 Hr Hw Hf) as (rob' & Hwr & Hr' & Hcp); [|done| |].
  { rewrite (res_at_Some p s i Hi Hnl). unfold ISA.result. by rewrite Hnl, Hst. }
  { unfold done_ok. by rewrite Hnl, Hst. }
  exists rob'. split; [done|]. split; [done|].
  assert (Hp : forall s' r fp, in_win b n s' -> writes s' r fp -> pending rob c s' ->
    pending rob' c s').
  { intros s' r fp Hs' Hwr'. apply (completes_pending_other Hcp); [done|]. intros ->.
    destruct (writes_not_store p Hwf s i r fp Hi Hwr') as [? _]. congruence. }
  constructor; [done| | |by eapply cdb_inv_same].
  - intros k. eapply (station_inv_other p b n rob rob'); eauto.
    intros Hrt. apply target_rs_not_mem in Hrt as [_ ?]. congruence.
  - eapply (lsb_inv_other p b n rob rob'); eauto. intros e' i' [j' Hj']%list_elem_of_lookup_1 He'.
    destruct (li_entries _ _ _ _ _ _ Hl) as (ns & Hns).
    assert (e' = e) as -> by (eapply (lsb_entry_unique rob c b n ns _ j j'); eauto).
    pose proof (le_instr _ _ _ _ _ _ _ He') as Hi'. rewrite Hi in Hi'. by injection Hi' as <-.
Qed.

(** What phase 2 does for one entry of the load/store buffer. *)
Definition report_store (rob : ReorderBuffer) (e : LSBEntry) : res ReorderBuffer :=
  if is_store (le_op e) && bool_decide (le_state e = DONE) then
    let! re := ReorderBuffer.peek rob (le_rob_tag e) in
    if bool_decide (ReorderBuffer.re_state re = ReorderBuffer.IN_FLIGHT)
    then ReorderBuffer.write_result rob (le_rob_tag e) 0
    else Ok rob
  else Ok rob.

Lemma report_store_spec c b n rob ss l j e :
  units_inv c b n rob ss l -> LSBFacts.queue l !! j = Some e ->
  exists rob', report_store rob e = Ok rob' /\ units_inv c b n rob' ss l /\
    keeps_completed b n rob rob' /\
    (forall s, in_win b n s -> le_rob_tag e = tag s -> is_store (le_op e) = true ->
       le_state e = DONE -> completed rob' s).
Proof.
  intros Hu He. unfold report_store.
  destruct (li_entries _ _ _ _ _ _ (ui_lsb _ _ _ _ _ _ _ Hu)) as (ns & Hns).
  destruct (Forall2_lookup_r _ _ _ _ _ (proj1 Hns) He) as (s & _ & Hs & i & Hen).
  pose proof (le_tag_eq _ _ _ _ _ _ _ Hen) as Htag.
  destruct (is_store (le_op e)) eqn:Hst; cbn [andb].
  2: { exists rob. split_and!; try done. by intros ? ?. }
  destruct (bool_decide_reflect (le_state e = DONE)) as [Hd|Hnd].
  2: { exists rob. split_and!; try done. by intros ? ?. }
  pose proof (ui_rob _ _ _ _ _ _ _ Hu) as Hr. rewrite Htag.
  assert (Hown : forall s', in_win b n s' -> tag s = tag s' -> s' = s).
  { intros s' Hs' Ht'. eapply slot_inj; eauto. }
  destruct (peek_slot b n rob s Hr Hs) as (re & -> & Hslot & Hsok). cbn [rbind].
  destruct (bool_decide_reflect (ReorderBuffer.re_state re = ReorderBuffer.IN_FLIGHT)) as [Hf|Hf].
  - rewrite (le_op_eq _ _ _ _ _ _ _ Hen) in Hst.
    destruct (units_store_done c b n rob ss l _ s i e Hu He Hs Hen Hst Hd)
      as (rob2 & Hwr & Hcp & Hu2); [by exists re|].
    exists rob2. split_and!; [done|done|intros x Hx; by apply (completes_completed Hcp)|].
    intros s' Hs' Ht' _ _. rewrite (Hown s' Hs' Ht'). apply Hcp.
  - exists rob. split_and!; [done|done|by intros ? ?|].
    intros s' Hs' Ht' _ _. rewrite (Hown s' Hs' Ht'). exists re. split; [done|].
    destruct (sl_state _ _ _ Hsok) as [?|[? _]]; done.
Qed.

Lemma update_rob_spec c b n rob ss l :
  units_inv c b n rob ss l ->
  exists rob', LoadStoreBuffer.update_rob l rob = Ok rob' /\ units_inv c b n rob' ss l /\
    keeps_completed b n rob rob' /\
    (forall j e s, LSBFacts.queue l !! j = Some e -> in_win b n s -> le_rob_tag e = tag s ->
       is_store (le_op e) = true -> le_state e = DONE -> completed rob' s).
Proof.
  intros Hu. pose proof (li_ring _ _ _ _ _ _ (ui_lsb _ _ _ _ _ _ _ Hu)) as Hring.
  pose proof (lsb_queue_length l Hring) as Hlen.
  unfold LoadStoreBuffer.update_rob. set (step := fun rob i => _).
  destruct (foldM_invariant step (fun seen rob' => units_inv c b n rob' ss l /\
    keeps_completed b n rob rob' /\
    forall j e s, (j < length seen)%nat -> LSBFacts.queue l !! j = Some e -> in_win b n s ->
      le_rob_tag e = tag s -> is_store (le_op e) = true -> le_state e = DONE -> completed rob' s)
    [] rob (seq 0 (Z.to_nat (LoadStoreBuffer.count_ l)))) as (rob' & Hrun & Hu' & Hkc & Hdone).
  - split; [done|]. split; [by intros ? ?|]. intros j e s Hj. simpl in Hj. lia.
  - intros seen rob1 i todo Hsplit (Hu1 & Hkc1 & Hd1). simpl in Hd1.
    assert (Hi : i = length seen /\ Z.of_nat i < LoadStoreBuffer.count_ l).
    { assert (seq 0 (Z.to_nat (LoadStoreBuffer.count_ l)) !! length seen = Some i) as Hl.
      { rewrite Hsplit. rewrite lookup_app_r by lia. by rewrite Nat.sub_diag. }
      apply lookup_seq in Hl. lia. }
    destruct Hi as [-> Hlt]. unfold step.
    destruct (lsb_get l (LoadStoreBuffer.entries_ l) (Z.of_nat (length seen)) Hring)
      as (e & -> & He); [lia|].
    change (ring_view (head_ l) (count_ l) (entries_ l)) with (LSBFacts.queue l) in He.
    rewrite Nat2Z.id in He. cbn [rbind]. simpl app in Hd1 |- *.
    destruct (report_store_spec c b n rob1 ss l _ e Hu1 He) as (rob2 & Hrep & Hu2 & Hkc2 & Hself).
    exists rob2. split; [exact Hrep|]. split_and!; [done|by eapply keeps_completed_trans|].
    intros j e' s Hj He' Hs Ht Hst Hd. rewrite length_app in Hj. simpl in Hj.
    destruct (decide (j = length seen)) as [->|]; [|apply Hkc2, (Hd1 j e'); done || lia].
    rewrite He in He'. injection He' as <-. by apply Hself.
  - exists rob'. split; [done|]. split_and!; try done. intros j e s He. apply (Hdone j); [|done].
    rewrite app_nil_l, length_seq. apply lookup_lt_Some in He. lia.
Qed.

(** ** Finished loads *)

Lemma units_pop_load c b n rob ss l :
  (forall s v, loaded s = Some v -> is_u32 v) ->
  units_inv c b n rob ss l -> head_done is_load (LSBFacts.queue l) = true ->
  exists e l' rob', LoadStoreBuffer.pop_load_result l = Ok (e, l') /\
    ReorderBuffer.write_result rob (le_rob_tag e) (le_result e) = Ok rob' /\
    LSBFacts.queue l = e :: LSBFacts.queue l' /\ keeps_completed b n rob rob' /\
    units_inv (c ++ [mkCDBResult (le_rob_tag e) (le_result e)]) b n rob' ss l'.
Proof.
  intros Hlu [Hr Hs Hl Hc] Hh. pose proof (li_ring _ _ _ _ _ _ Hl) as Hring.
  destruct (pop_load_result_spec l Hring Hh) as (e & l' & Hpop & Hr' & Hsz' & Hq & Hd & Hld).
  destruct (lsb_inv_pop p rob c b n l l' e Hl Hq Hr' Hsz') as (s & i & Hw & Hen & _ & Hrest).
  pose proof (le_instr _ _ _ _ _ _ _ Hen) as Hi.
  rewrite (le_op_eq _ _ _ _ _ _ _ Hen) in Hld.
  pose proof (le_done_load _ _ _ _ _ _ _ Hen Hd Hld) as Hv.
  pose proof (le_inflight _ _ _ _ _ _ _ Hen (or_introl Hld)) as Hf.
  pose proof (res_at_loaded p s i _ Hi Hld Hv (Hlu s _ Hv)) as Hres.
  destruct (rob_completes p b n rob s i (le_result e) Hr Hw Hf (eq_sym Hres) Hi)
    as (rob' & Hwr & Hr1 & Hcp); [unfold done_ok; by rewrite Hld|].
  exists e, l', rob'. split; [done|]. rewrite (le_tag_eq _ _ _ _ _ _ _ Hen).
  split; [done|]. split; [done|].
  split; [intros x Hx; by apply (completes_completed Hcp)|].
  assert (Hp : forall s' r fp, in_win b n s' -> writes s' r fp -> pending rob c s' ->
    pending rob' (c ++ [mkCDBResult (tag s) (le_result e)]) s').
  { intros s' r fp Hs' _. by apply (completes_pending Hcp). }
  constructor; [done| | |by eapply cdb_inv_broadcast].
  - intros k. eapply (station_inv_other p b n rob rob'); eauto.
    intros Hrt. apply target_rs_not_mem in Hrt as [? _]. congruence.
  - apply Hrest; [by apply (completes_keeps Hcp)| | |].
    + intros s' i' e' Hs' Hlt He'. split; [done|]. intros _ Hf'.
      apply (completes_inflight Hcp); [done|]. split; [done|lia].
    + intros s1 s2 r fp Hs1 Hlt. by eapply completes_waiting.
    + intros s' i' Hs' Hi' Hm Hcase. split; [done|]. split.
      * intros ->. destruct Hcase as [Hst|Hf'].
        -- rewrite Hi in Hi'. injection Hi' as <-. apply load_not_store in Hld. congruence.
        -- apply (completes_inflight Hcp) in Hf' as [_ ?]; done.
      * intros Hf'. by apply (completes_inflight Hcp) in Hf' as [? _].
Qed.

Lemma drain_lsb_spec fuel b n rob ss l cdb :
  (forall s v, loaded s = Some v -> is_u32 v) ->
  units_inv (results cdb) b n rob ss l -> (length (LSBFacts.queue l) <= fuel)%nat ->
  exists l' rob' cdb', drain_lsb fuel l rob cdb = Ok (l', rob', cdb') /\
    units_inv (results cdb') b n rob' ss l' /\ keeps_completed b n rob rob' /\
    head_done is_load (LSBFacts.queue l') = false /\
    exists popped, LSBFacts.queue l = popped ++ LSBFacts.queue l'.
Proof.
  intros Hlu. revert l rob cdb. induction fuel as [|fuel IH]; intros l rob cdb Hu Hfuel.
  all: assert (Hring : lsb_ring l) by apply Hu.
  all: cbn [drain_lsb]; rewrite has_load_result_spec by done; cbn [rbind].
  all: destruct (head_done is_load (LSBFacts.queue l)) eqn:Hh; cbn [negb].
  - destruct (LSBFacts.queue l); [done|simpl in Hfuel; lia].
  - eexists _, _, _. split; [done|]. split_and!; [done|by intros ? ?|done|by exists []].
  - destruct (units_pop_load _ _ _ _ _ _ Hlu Hu Hh) as (e & l' & rob' & -> & Hwr & Hq & Hkc & Hu').
    cbn [rbind]. rewrite Hwr. cbn [rbind]. rewrite <- broadcast_results in Hu'.
    destruct (IH _ _ _ Hu') as (l2 & rob2 & cdb2 & -> & Hu2 & Hkc2 & Hh2 & popped & Hq2).
    { rewrite Hq in Hfuel. simpl in Hfuel. lia. }
    eexists _, _, _. split; [done|]. split; [done|]. split; [by eapply keeps_completed_trans|].
    split; [done|].
    exists (e :: popped). rewrite Hq, Hq2. done.
  - eexists _, _, _. split; [done|]. split_and!; [done|by intros ? ?|done|by exists []].
Qed.

(** ** The phases together *)

Lemma execute_phase_spec b n s ns :
  Inv p [] b n s -> cdb s = CommonDataBus.init ->
  lsb_list p (rob s) [] b n ns (LSBFacts.queue (lsb s)) ->
  loads_follow (mem s) ns (LSBFacts.queue (lsb s)) ->
  exists s', execute_phase s = Ok s' /\ Inv p (results (cdb s')) b n s' /\
    halted s' = halted s /\ branch_in_flight s' = branch_in_flight s /\ iq s' = iq s /\
    cycle s' = cycle s /\
    (forall k, ReservationStation.has_result (station (stations s') k) = false) /\
    (forall k, drained (ReservationStation.tick (station (stations s) k)) (station (stations s') k)) /\
    keeps_completed b n (rob s) (rob s') /\
    head_done is_load (LSBFacts.queue (lsb s')) = false /\
    (exists popped, tick_queue (mem s) (LSBFacts.queue (lsb s)) = popped ++ LSBFacts.queue (lsb s')) /\
    (forall j e i, tick_queue (mem s) (LSBFacts.queue (lsb s)) !! j = Some e -> in_win b n i ->
       le_rob_tag e = tag i -> is_store (le_op e) = true -> le_state e = DONE ->
       completed (rob s') i).
Proof.
  intros [[Hr Hs Hl Hc] Hlds Hregs Hm Hrat Hiq Hhalt] Hcdb Hns Hfol. unfold execute_phase.
  assert (Hlu : forall s' v, loaded s' = Some v -> is_u32 v) by (intros s' v Hv; by eapply Hlds).
  destruct (lsb_inv_tick p (rob s) [] b n (rob_window _ _ _ _ Hr) (mem s) (lsb s) ns Hm Hl Hns Hfol)
    as (l1 & -> & Hl1 & Hq1).
  cbn [rbind].
  assert (Hu1 : units_inv [] b n (rob s) (tick_stations (stations s)) l1).
  { constructor; try done. intros k. rewrite tick_stations_at. by apply station_inv_tick. }
  destruct (update_rob_spec _ _ _ _ _ _ Hu1) as (rob1 & -> & Hu2 & Hk1 & Hst). cbn [rbind].
  rewrite Hcdb. destruct (drain_stations_spec rs_ids b n rob1 (tick_stations (stations s)) l1
    CommonDataBus.init Hu2) as (ss2 & rob2 & cdb2 & -> & Hu3 & Hf & Hdr & Hk2). cbn [rbind].
  assert (Hlen : (length (LSBFacts.queue l1) <= S (length (LoadStoreBuffer.entries_ l1)))%nat).
  { pose proof (li_ring _ _ _ _ _ _ Hl1) as Hring. pose proof (lsb_queue_length l1 Hring).
    destruct Hring as [_ ? _ ? _]. lia. }
  destruct (drain_lsb_spec _ b n rob2 ss2 l1 cdb2 Hlu Hu3 Hlen)
    as (l3 & rob3 & cdb3 & -> & Hu4 & Hk3 & Hh & popped & Hpop). cbn [rbind].
  assert (Hkc : keeps_completed b n (rob s) rob3) by eauto using keeps_completed_trans.
  assert (Hkd : keeps_done b n (rob s) b rob3) by (split; [done|by intros x Hx _; apply Hkc]).
  eexists. split; [done|]. cbn. rewrite <- Hq1. split_and!; try done.
  - constructor; try done. eapply loads_inv_keeps; [exact Hkd|done|done].
  - intros k. apply Hf. unfold rs_ids. rewrite !elem_of_cons. destruct k; tauto.
  - intros k. rewrite <- tick_stations_at. apply Hdr.
  - by exists popped.
  - intros j e i Hj Hi Ht Hse Hd. apply Hk3, Hk2; [done|done|]. by eapply Hst.
Qed.

End Execute.
