(* ===== verification/SnoopPhase.v ===== *)
(** * Phase 4: the bus reaches every waiting operand

    After the snoops nothing on the bus is news to a listener: what still
    waits, waits for an instruction in flight. *)

From S2P Require Import Prelude Words Ring Config Float32 Instruction.
From S2P Require Import RegisterFile RegisterRemappingTable ReorderBuffer.
From S2P Require Import CommonDataBus ReservationStation LoadStoreBuffer.
From S2P Require Import InstructionQueue CommitUnit Simulator ISA.
From S2P Require Import Execute StationFacts LSBFacts Invariant SeqFacts UnitFacts.

Section Snoop.
Context `{FE : FPEnv}.
Context (p : list Instruction) {L : Loads}.
Context (rob : ReorderBuffer) (cdb : CommonDataBus) (b n : nat).
Hypothesis Hr : rob_inv p b n rob.
Hypothesis Hc : cdb_inv p b n rob (results cdb).

Abbreviation operand_ok := (operand_ok p rob).

Lemma cdb_tags_ok : tags_ok (results cdb).
Proof.
  eapply Forall_impl; [exact Hc|]. intros r (s & _ & -> & _). apply tag_range.
Qed.

Lemma operand_capture s r fp v q v' q' :
  in_win b n s -> operand_ok (results cdb) b s r fp v q ->
  capture (v, q) (results cdb) = (v', q') -> operand_ok [] b s r fp v' q'.
Proof.
  intros Hs [(-> & Hv & Hset)|(s' & Hb & -> & Hw & Hj & Hp)] E.
  - rewrite capture_ready in E by apply cdb_tags_ok. injection E as <- <-. by left.
  - pose proof Hw as (Hlt & (i & Hi & _) & _).
    destruct (decide (Exists (fun r => cdb_tag r = tag s') (results cdb))) as [Hex|Hno].
    + destruct (capture_present v (tag s') _ cdb_tags_ok Hex) as (r0 & Hin & Ht & Hcap).
      rewrite Hcap in E. injection E as <- <-. left.
      pose proof (proj1 (Forall_forall _ _) Hc r0 Hin) as (s2 & Hs2 & Ht2 & Hd & Hval).
      assert (s2 = s') as ->.
      { eapply slot_inj; eauto; [unfold in_win in *; lia|congruence]. }
      split_and!; [done| |].
      * rewrite Hval. symmetry. by eapply read_reg_written; eauto.
      * intros s3 _ Hw3. by rewrite (last_writer_unique p _ _ _ _ _ Hw3 Hw).
    + rewrite capture_absent in E.
      2: { apply Forall_Exists_neg in Hno. eapply Forall_impl; [exact Hno|]. done. }
      injection E as <- <-. right. exists s'.
      do 4 (split; [done|]).
      destruct Hp as [Hp|Hp]; [by left|done].
Qed.

(** An operand that is there stays as it is. *)
Lemma operand_ready_snoop s r fp v q :
  q = -1 -> operand_ok (results cdb) b s r fp v q -> operand_ok [] b s r fp v q.
Proof.
  intros -> [H|(s' & _ & Hq & _)]; [by left|]. pose proof (tag_range s'). lia.
Qed.

Lemma station_inv_snoop k st :
  station_inv p rob (results cdb) b n k st ->
  station_inv p rob [] b n k (ReservationStation.snoop st cdb).
Proof.
  intros [Hok Hsz Ht He Hu Hpl].
  set (f := fun e => if negb (se_busy e) || se_done e then e
     else ReservationStation.set_operands e (capture (se_vj e, se_qj e) (results cdb))
                                (capture (se_vk e, se_qk e) (results cdb))).
  assert (Hlook : forall j, ReservationStation.entries_ (ReservationStation.snoop st cdb) !! j =
    f <$> ReservationStation.entries_ st !! j) by (intros; apply snoop_lookup).
  assert (Hkeep : forall e, se_busy (f e) = se_busy e /\ se_rob_tag (f e) = se_rob_tag e).
  { intros e. unfold f. by destruct (_ || _). }
  assert (Hbefore : forall j e', ReservationStation.entries_ (ReservationStation.snoop st cdb) !! j
    = Some e' -> exists e, ReservationStation.entries_ st !! j = Some e /\ e' = f e).
  { intros j e'. rewrite Hlook. destruct (ReservationStation.entries_ st !! j); [|done].
    intros E. injection E as <-. eauto. }
  constructor; try done.
  - destruct Hok as [Hs Hl Hcn].
    assert (Hlen : length (ReservationStation.entries_ (ReservationStation.snoop st cdb)) =
      length (ReservationStation.entries_ st)).
    { cbn. rewrite snoop_entries. by rewrite length_fmap. }
    constructor; [done|by rewrite Hlen|].
    change (ReservationStation.count_ (ReservationStation.snoop st cdb))
      with (ReservationStation.count_ st).
    rewrite Hcn. symmetry. apply busy_count_ext. apply Forall2_same_length_lookup_2; [done|].
    intros j e e' Hj (e0 & Hj0 & ->)%Hbefore. rewrite Hj in Hj0. injection Hj0 as <-. apply Hkeep.
  - apply Forall_lookup. intros j e' (e & Hj & ->)%Hbefore.
    assert (timing_ok e) as Hte by (by eapply Forall_lookup_1).
    unfold f. destruct (negb (se_busy e) || se_done e) eqn:E; [done|].
    apply orb_false_iff in E as [_ Hd]. constructor; cbn.
    + apply Hte.
    + intros Hrem. destruct (tm_started _ Hte Hrem) as [-> ->].
      rewrite !capture_ready by apply cdb_tags_ok. done.
    + congruence.
  - intros j e' (e & Hj & ->)%Hbefore Hb. destruct (Hkeep e) as [Hbe _]. rewrite Hbe in Hb.
    destruct (He j e Hj Hb) as (s & i & Hs & [? ? Hop Him Hpc Htag Hf Hoj Hok']).
    exists s, i. split; [done|]. unfold f. rewrite Hb. cbn [negb orb].
    destruct (se_done e) eqn:Hd.
    + assert (timing_ok e) as Hte by (by eapply Forall_lookup_1).
      destruct (tm_done _ Hte Hd) as (? & ? & _).
      constructor; try done; by eapply operand_ready_snoop.
    + constructor; try done; cbn; (eapply operand_capture; [done|eassumption|]);
        by rewrite <- surjective_pairing.
  - intros j j' e1 e2 (x1 & H1 & ->)%Hbefore (x2 & H2 & ->)%Hbefore.
    destruct (Hkeep x1) as [-> ->], (Hkeep x2) as [-> ->]. eauto.
  - intros s i Hs Hi Hrt Hf. destruct (Hpl s i Hs Hi Hrt Hf) as (j & e & Hj & Hb & Htag).
    exists j, (f e). rewrite Hlook, Hj. destruct (Hkeep e) as [-> ->]. done.
Qed.

Lemma lsb_snoop_entry s i e :
  in_win b n s -> wf_fields i -> lsb_entry p rob (results cdb) b s i e ->
  lsb_entry p rob [] b s i
    (if bool_decide (le_state e = IDLE) || bool_decide (le_state e = DONE) then e
     else set_operands e (capture (le_vj e, le_qj e) (results cdb))
            (capture (le_vk e, le_qk e) (results cdb))).
Proof.
  intros Hs Hwf He. pose proof (le_not_idle _ _ _ _ _ _ _ He) as Hni.
  rewrite (bool_decide_eq_false_2 (le_state e = IDLE)) by done. cbn [orb].
  destruct (bool_decide_reflect (le_state e = DONE)) as [Hd|Hnd].
  - constructor; try apply He.
    + eapply operand_ready_snoop; [|apply He]. apply He. congruence.
    + eapply operand_ready_snoop; [|apply He]. pose proof (le_mem _ _ _ _ _ _ _ He) as Hm.
      apply orb_true_iff in Hm as [Hl|Hst]; [|by apply He].
      pose proof (le_k _ _ _ _ _ _ _ He) as Hk. rewrite (wf_load _ Hwf Hl) in Hk.
      by eapply operand_none.
  - constructor; cbn; try apply He; try done.
    + eapply operand_capture; [done|apply He|]. by rewrite <- surjective_pairing.
    + eapply operand_capture; [done|apply He|]. by rewrite <- surjective_pairing.
    + intros Hw. destruct (le_addr _ _ _ _ _ _ _ He Hw) as (-> & ?).
      by rewrite capture_ready by apply cdb_tags_ok.
Qed.

Lemma lsb_inv_snoop l :
  wf_program p -> lsb_inv p rob (results cdb) b n l ->
  exists l', LoadStoreBuffer.snoop l cdb = Ok l' /\ lsb_inv p rob [] b n l' /\
    length (LSBFacts.queue l') = length (LSBFacts.queue l).
Proof.
  intros Hwf [Hring Hsz (ss & Hf & Ho & Ha)].
  destruct (lsb_snoop_spec l cdb Hring) as (l' & Hrun & Hr' & Hsz' & _ & _ & _ & Hq).
  exists l'. split; [done|]. split; [|by rewrite Hq, length_fmap].
  constructor; [done|congruence|]. exists ss. split_and!; try done.
  rewrite Hq. apply Forall2_fmap_r. eapply Forall2_impl; [exact Hf|].
  intros s e (Hs & i & He). split; [done|]. exists i. apply lsb_snoop_entry; [done| |done].
  eapply ins_at_fields; [done|apply He].
Qed.

End Snoop.

Section SnoopPhase.
Context `{FE : FPEnv}.
Context (p : list Instruction) (Hwf : wf_program p) {L : Loads}.

Lemma snoop_phase_spec b n s :
  Inv p (results (cdb s)) b n s ->
  exists s', snoop_phase s = Ok s' /\ Inv p [] b n s' /\
    rob s' = rob s /\ mem s' = mem s /\ halted s' = halted s /\ iq s' = iq s /\
    branch_in_flight s' = branch_in_flight s /\ cycle s' = cycle s /\ cdb s' = cdb s /\
    (forall k, station (stations s') k = ReservationStation.snoop (station (stations s) k) (cdb s)).
Proof.
  intros [[Hr Hs Hl Hc] Hlds Hregs Hm Hrat Hiq Hhalt]. unfold snoop_phase.
  pose proof (station_map (fun st => ReservationStation.snoop st (cdb s)) (stations s)) as Hmap.
  cbv beta in Hmap. revert Hmap. generalize (foldl (fun ss k =>
    set_station ss k (ReservationStation.snoop (station ss k) (cdb s))) (stations s) rs_ids).
  intros ss' Hmap. destruct (lsb_inv_snoop p (rob s) (cdb s) b n Hr Hc (lsb s) Hwf Hl) as (l' & -> & Hl' & _).
  cbn [rbind]. eexists. split; [done|]. cbn. split_and!; try done.
  - constructor; cbn; try done. constructor; cbn; try done; [|by constructor].
    intros k. rewrite Hmap. by apply station_inv_snoop.
Qed.

End SnoopPhase.
