(* ===== verification/CommitPhase.v ===== *)
(** * Phase 5: in-order commit

    The commit unit retires the oldest instruction when it is done, and
    architectural state moves one step of the run. *)

From S2P Require Import Prelude Words Ring Config Float32 Instruction.
From S2P Require Import RegisterFile RegisterRemappingTable ReorderBuffer.
From S2P Require Import CommonDataBus ReservationStation LoadStoreBuffer.
From S2P Require Import InstructionQueue CommitUnit Simulator ISA.
From S2P Require Import Execute StationFacts LSBFacts Invariant SeqFacts UnitFacts LoadPhase.

Section Commit.
Context `{FE : FPEnv}.
Context (p : list Instruction) (Hwf : wf_program p) {L : Loads}.

Abbreviation st_at := (st_at p).
Abbreviation ins_at := (ins_at p).
Abbreviation res_at := (res_at p).
Abbreviation live := (live p).
Abbreviation writes := (writes p).

(** ** Architectural state *)

Lemma regs_commit b rf i :
  ins_at b = Some i -> named i = true -> regs_inv p b rf ->
  if 0 <=? rd i
  then exists rf', write_bits rf (rd i) (rd_fp i) (dest_value i (res_at b)) = Ok rf' /\ regs_inv p (S b) rf'
  else regs_inv p (S b) rf.
Proof.
  intros Hi [Hrange _]%named_regs [Hok Hrd].
  destruct (Z.leb_spec 0 (rd i)) as [Hge|Hlt].
  - destruct (write_bits_spec rf (rd i) (rd_fp i) (dest_value i (res_at b)) Hok)
      as (rf' & Hw & Hok' & Hrd'); [unfold reg_index; lia|apply dest_value_u32, res_at_u32|].
    exists rf'. split; [done|]. split; [done|]. intros r fp Hr.
    rewrite Hrd', (st_at_S p b i Hi), read_reg_exec, Hrd by done.
    rewrite (bool_decide_ext _ (r = rd i /\ fp = rd_fp i /\ 0 <= rd i /\
      (rd_fp i = true \/ rd i <> 0))) by naive_solver.
    by case_bool_decide.
  - split; [done|]. intros r fp Hr. rewrite (st_at_S p b i Hi), read_reg_exec, Hrd by done.
    by rewrite bool_decide_eq_false_2 by lia.
Qed.

Lemma rat_inv_tag b n rat r fp :
  Z.of_nat n <= ROB_SIZE -> rat_inv p b n rat -> reg_index r -> mapping rat r fp = Some (tag b) ->
  forall s, in_win (S b) (n - 1) s -> ~ writes s r fp.
Proof.
  intros Hn [_ Hm] Hr E s Hs Hw. specialize (Hm r fp Hr). rewrite E in Hm.
  destruct Hm as (s1 & Hs1 & Ht & _ & Hlast). unfold in_win in *.
  assert (b = s1) as <- by (eapply (tag_inj b n); unfold in_win; eauto; lia).
  apply (Hlast s); [lia|done].
Qed.

(** A register whose mapping is not dropped keeps its last writer. *)
Lemma rat_inv_shift b n rat r fp :
  rat_inv p b (S n) rat -> reg_index r -> (mapping rat r fp = Some (tag b) -> ~ writes b r fp) ->
  match mapping rat r fp with
  | None => forall s, in_win (S b) n s -> ~ writes s r fp
  | Some t => exists s, in_win (S b) n s /\ t = tag s /\ writes s r fp /\
                forall s', (s < s' < S b + n)%nat -> ~ writes s' r fp
  end.
Proof.
  intros [_ Hm] Hr Hb. specialize (Hm r fp Hr). unfold in_win in *.
  destruct (mapping rat r fp) as [t|].
  - destruct Hm as (s & Hs & -> & Hw & Hlast). exists s. split_and!; try done; try lia.
    + destruct (decide (s = b)) as [->|]; [by destruct Hb|lia].
    + intros s' Hs'. apply Hlast. lia.
  - intros s Hs. apply Hm. lia.
Qed.

Lemma rat_commit_inv b n rat i :
  Z.of_nat (S n) <= ROB_SIZE -> ins_at b = Some i -> named i = true -> rat_inv p b (S n) rat ->
  if 0 <=? rd i
  then exists rat', RegisterRemappingTable.commit rat (rd i) (rd_fp i) (tag b) = Ok rat' /\
         rat_inv p (S b) n rat'
  else rat_inv p (S b) n rat.
Proof.
  intros Hn Hi [Hrange _]%named_regs Hrat.
  assert (Hdest : forall r fp, writes b r fp -> r = rd i /\ fp = rd_fp i /\ 0 <= rd i).
  { intros r fp (j & Hj & <- & <- & ? & _). rewrite Hi in Hj. by injection Hj as <-. }
  pose proof Hrat as [Hok _]. destruct (Z.leb_spec 0 (rd i)) as [Hge|Hlt].
  - assert (Hidx : reg_index (rd i)) by (unfold reg_index; lia).
    destruct (rat_commit_spec rat (rd i) (rd_fp i) (tag b) Hok Hidx) as (rat' & Hc & Hok' & Hm').
    exists rat'. split; [done|]. split; [done|]. intros r fp Hr. rewrite Hm' by done.
    case_bool_decide as Hcase.
    + destruct Hcase as (-> & -> & Hmap). intros s Hs.
      eapply (rat_inv_tag b (S n)); eauto. replace (S n - 1)%nat with n by lia. done.
    + apply rat_inv_shift; [done..|]. intros Hmap (-> & -> & _)%Hdest. by apply Hcase.
  - split; [done|]. intros r fp Hr. apply rat_inv_shift; [done..|]. intros _ (_ & _ & ?)%Hdest. lia.
Qed.

Lemma mem_inv_same b m i :
  ins_at b = Some i -> is_store (op i) = false -> mem_inv p b m -> mem_inv p (S b) m.
Proof.
  intros Hi Hst [Hl Hw]. split; [done|]. intros w Hin.
  by rewrite (st_at_S p b i Hi), am_exec, Hst, Hw.
Qed.

(** The store of [v] to address [a]. *)
Definition stored (a v : Z) (m : list Z) : list Z :=
  if Z.shiftr a 2 <? len m then <[Z.to_nat (Z.shiftr a 2) := v]> m else m.

Lemma mem_inv_store b m i :
  ins_at b = Some i -> is_store (op i) = true -> mem_inv p b m ->
  mem_inv p (S b) (stored (addr_of p b) (read_reg (st_at b) (rs2 i) (rs2_fp i)) m).
Proof.
  intros Hi Hst [Hl Hw]. unfold stored.
  assert (Ha : addr_of p b = eff_addr i (st_at b)) by (unfold addr_of; by rewrite Hi).
  pose proof (addr_of_u32 p b) as Hu. rewrite Ha in *. set (a := eff_addr i (st_at b)) in *.
  rewrite Z.shiftr_div_pow2 by lia. change (2 ^ 2) with 4. rewrite Hl.
  assert (0 <= a / 4) by (apply Z.div_pos; [apply Hu|lia]).
  split; [case_match; [by rewrite length_insert|done]|].
  intros w Hin. rewrite (st_at_S p b i Hi), am_exec, Hst. fold a. cbn [andb].
  destruct (Z.ltb_spec (a / 4) MEM_SIZE); cbn [andb]; [|by apply Hw].
  destruct (Z.eqb_spec w (a / 4)) as [->|Hne].
  - apply list_lookup_insert_eq. lia.
  - rewrite list_lookup_insert_ne by lia. by apply Hw.
Qed.

(** ** Fetch *)

Lemma iq_inv_commit b n q bif i :
  ins_at b = Some i -> is_control (op i) = false -> iq_inv p b (S n) q bif ->
  iq_inv p (S b) n q bif.
Proof.
  intros Hi Hnc [Hp Hcap Hpc Hwait Hrun]. constructor; try done.
  - intros ->. destruct (Hwait eq_refl) as (Hbuf & m & j & Hm & Hj & Hc & Hno). split; [done|].
    destruct m as [|m].
    + rewrite Nat.add_0_r in Hj. rewrite Hi in Hj. injection Hj as <-. congruence.
    + exists m, j. split; [lia|]. replace (S b + m)%nat with (b + S m)%nat by lia.
      split_and!; try done. intros s i' Hs. apply Hno. unfold in_win in *. lia.
  - intros ->. destruct (Hrun eq_refl) as (Hno & k & Hk). split.
    + intros s i' Hs. apply Hno. unfold in_win in *. lia.
    + exists k. by replace (S b + n)%nat with (b + S n)%nat by lia.
Qed.

Lemma iq_inv_redirect b n q bif i :
  ins_at b = Some i -> is_control (op i) = true -> iq_inv p b (S n) q bif ->
  n = 0%nat /\ iq_inv p (S b) n (InstructionQueue.seek q (res_at b)) false.
Proof.
  intros Hi Hct [Hp Hcap Hpc Hwait Hrun]. destruct bif.
  - destruct (Hwait eq_refl) as (_ & m & j & Hm & _ & _ & Hno). destruct m as [|m].
    2: { assert (in_win b (S m) b) as Hb by (unfold in_win; lia). rewrite (Hno b i Hb Hi) in Hct. done. }
    injection Hm as ->. split; [done|].
    assert (is_u32 (res_at b)) as Hu by (eapply res_at_u32).
    assert (0 <= res_at b / 4) by (apply Z.div_pos; [apply Hu|lia]).
    constructor; cbn; try done.
    + apply Z.shiftr_nonneg, Hu.
    + intros _. split; [intros s i'; unfold in_win; lia|].
      exists (Z.to_nat (res_at b / 4)). rewrite Nat.add_0_r, (apc_S p b i Hi), Hct.
      rewrite Z2Nat.id by done. split_and!; [done|by rewrite take_0| |done].
      rewrite Z.shiftr_div_pow2 by lia. change (2 ^ 2) with 4. lia.
  - destruct (Hrun eq_refl) as (Hno & _).
    assert (in_win b (S n) b) as Hb by (unfold in_win; lia).
    rewrite (Hno b i Hb Hi) in Hct. done.
Qed.

(** ** The window moves *)

(** Instruction [b] leaves; the others keep their slots. *)
Record retires (b n : nat) (rob rob' : ReorderBuffer) : Prop := {
  rt_before : completed rob b;
  rt_rob : rob_inv p (S b) n rob';
  rt_same : forall s, in_win (S b) n s -> slot rob' s = slot rob s
}.

Lemma rob_retire b n rob :
  rob_inv p b (S n) rob -> completed rob b ->
  exists e rob' i, ReorderBuffer.head_ready rob = Ok true /\
    ReorderBuffer.head_tag rob = Ok (tag b) /\ ReorderBuffer.commit rob = Ok (e, rob') /\
    retires b n rob rob' /\ ins_at b = Some i /\
    re_op e = op i /\ re_rd e = rd i /\ re_rd_fp e = rd_fp i /\ re_pc e = pc i /\
    re_result e = res_at b.
Proof.
  intros Hr Hd. pose proof Hr as [Hok Hsz Hh Hc Hsl Hdn].
  assert (Hb : in_win b (S n) b) by (unfold in_win; lia).
  destruct (Hsl b Hb) as (e & He & [(i & Hi & Ho & Hrd & Hfp & Hpc) Hst]).
  destruct Hd as (e0 & He0 & Hd). rewrite He in He0. injection He0 as <-.
  destruct Hst as [Hst|(_ & Hres)]; [congruence|].
  pose proof (queue_slot p b (S n) rob b Hr Hb) as Hq. rewrite Nat.sub_diag, He in Hq.
  destruct (ReorderBuffer.queue rob) as [|e0 q] eqn:Eq; [done|]. injection Hq as ->.
  destruct (rob_commit_spec rob e q Hok Eq Hd) as (rob' & Hcm & Hok' & Hsz' & Hh' & Hc' & Hes & Hq').
  exists e, rob', i. split_and!; try done.
  - rewrite rob_head_ready_spec, Eq by done. by rewrite bool_decide_eq_true_2.
  - unfold ReorderBuffer.head_tag, ReorderBuffer.empty. rewrite Hc, Hh.
    destruct (Z.eqb_spec (Z.of_nat (S n)) 0); [lia|]. done.
  - assert (Hsame : forall s, in_win (S b) n s -> slot rob' s = slot rob s).
    { intros s Hs. unfold slot. rewrite Hes, Hh. apply list_lookup_insert_ne.
      intros E%tag_to_nat_inj. apply (slot_inj p b (S n) rob) in E; [|done|done|];
        unfold in_win in *; lia. }
    assert (Hkd : keeps_done b (S n) rob (S b) rob').
    { split; [lia|]. intros s Hs Hge (x & Hx & Hxd). exists x. rewrite Hsame; [done|].
      unfold in_win in *. lia. }
    constructor; [by exists e| |done]. constructor; [done|congruence| |lia| |].
    + rewrite Hh', Hsz, Hh, <- tag_S. done.
    + intros s Hs. rewrite Hsame by done. apply Hsl. unfold in_win in *. lia.
    + intros s j Hs (x & Hx & Hxd) Hj. rewrite Hsame in Hx by done.
      apply (done_ok_keeps p Hkd); [unfold in_win in *; lia|]. apply Hdn; [unfold in_win in *; lia| |done].
      by exists x.
Qed.

Section Retire.
Context (b n : nat) (rob rob' : ReorderBuffer).
Hypothesis Hrt : retires b n rob rob'.

Lemma retires_keeps : keeps_done b (S n) rob (S b) rob'.
Proof.
  split; [lia|]. intros s Hs Hge (e & He & Hd). exists e.
  rewrite (rt_same _ _ _ _ Hrt); [done|]. unfold in_win in *. lia.
Qed.

Lemma retires_inflight s : in_win (S b) n s -> inflight rob' s <-> inflight rob s.
Proof. intros Hs. unfold inflight. by rewrite (rt_same _ _ _ _ Hrt). Qed.

(** What is in flight is not the retiring instruction. *)
Lemma retires_win s : in_win b (S n) s -> inflight rob s -> in_win (S b) n s /\ inflight rob' s.
Proof.
  intros Hs Hf. assert (s <> b) as Hne.
  { intros ->. by apply (inflight_not_completed rob b); [|apply Hrt]. }
  assert (in_win (S b) n s) by (unfold in_win in *; lia). split; [done|]. by apply retires_inflight.
Qed.

Lemma retires_waiting s s' (r : Z) (fp : bool) :
  in_win b (S n) s -> (b <= s' < s)%nat -> writes s' r fp -> pending rob [] s' ->
  (S b <= s')%nat /\ pending rob' [] s'.
Proof.
  intros Hs Hlt _ [Hf|He]; [|by apply Exists_nil in He].
  destruct (retires_win s') as [Hw Hf']; [unfold in_win in *; lia|done|].
  split; [unfold in_win in *; lia|by left].
Qed.

Lemma station_inv_retire k st :
  station_inv p rob [] b (S n) k st -> station_inv p rob' [] (S b) n k st.
Proof.
  intros H. eapply station_inv_transfer; [exact H|apply retires_keeps| | |].
  - intros s i Hs _ _ Hf. by apply retires_win.
  - intros. by eapply retires_waiting.
  - intros s i Hs _ _ Hf. split; [unfold in_win in *; lia|]. by apply retires_inflight.
Qed.

Lemma lsb_inv_retire l i :
  ins_at b = Some i -> is_store (op i) = false ->
  lsb_inv p rob [] b (S n) l -> lsb_inv p rob' [] (S b) n l.
Proof.
  intros Hi Hst H. eapply lsb_inv_transfer; [exact H|apply retires_keeps| | |].
  - intros s j e Hs _ He. pose proof (le_instr _ _ _ _ _ _ _ He) as Hj.
    assert (s <> b) as Hne.
    { intros ->. rewrite Hi in Hj. injection Hj as <-.
      apply (inflight_not_completed rob b); [|apply Hrt]. apply He. left.
      pose proof (le_mem _ _ _ _ _ _ _ He) as Hm. unfold is_mem in Hm.
      rewrite Hst, orb_false_r in Hm. done. }
    assert (in_win (S b) n s) by (unfold in_win in *; lia). split; [done|].
    intros _. by apply retires_inflight.
  - intros. by eapply retires_waiting.
  - intros s j Hs _ _. split; [unfold in_win in *; lia|]. by apply retires_inflight.
Qed.

(** A store leaves from the head of the load/store buffer. *)
Lemma lsb_inv_retire_store l i m :
  rob_inv p b (S n) rob -> ins_at b = Some i -> is_store (op i) = true ->
  lsb_inv p rob [] b (S n) l ->
  exists l', LoadStoreBuffer.can_commit_store l = Ok true /\
    LoadStoreBuffer.commit_store l m =
      Ok (l', stored (addr_of p b) (read_reg (st_at b) (rs2 i) (rs2_fp i)) m) /\
    lsb_inv p rob' [] (S b) n l'.
Proof.
  intros Hr Hi Hst H. pose proof H as [Hring Hsz (ss & Hf & Ho & Ha)].
  assert (Hb : in_win b (S n) b) by (unfold in_win; lia).
  assert (Hm : is_mem (op i) = true) by (unfold is_mem; rewrite Hst; apply orb_true_r).
  assert (Hbs : b ∈ ss) by (apply (Ha b i); auto).
  destruct (LSBFacts.queue l) as [|e q] eqn:Hq.
  { inversion Hf; subst. by apply elem_of_nil in Hbs. }
  destruct (lsb_pop_spec l Hring) as (e' & l1 & _ & _ & Hr1 & Hs1 & _ & Hq1).
  { pose proof (lsb_queue_length l Hring) as Hlen. rewrite Hq in Hlen. simpl in Hlen. lia. }
  destruct (lsb_inv_pop p rob [] b (S n) l l1 e' H Hq1 Hr1 Hs1)
    as (s0 & i0 & Hs0 & He & Hleast & _).
  rewrite Hq in Hq1. injection Hq1 as <- _.
  assert (s0 = b) as -> by (specialize (Hleast b i Hb Hi Hm (or_introl Hst)); unfold in_win in *; lia).
  pose proof (le_instr _ _ _ _ _ _ _ He) as Hi0. rewrite Hi in Hi0. injection Hi0 as <-.
  assert (Hd : le_state e = DONE).
  { destruct (decide (le_state e = DONE)) as [?|Hnd]; [done|]. exfalso.
    apply (inflight_not_completed rob b); [|apply Hrt]. apply He. by right. }
  assert (Hh : head_done is_store (LSBFacts.queue l) = true).
  { rewrite Hq. cbn. rewrite bool_decide_eq_true_2 by done.
    by rewrite (le_op_eq _ _ _ _ _ _ _ He). }
  destruct (commit_store_spec l m Hring Hh) as (e2 & l2 & Hq2 & _ & _ & Hcs & Hr2 & Hs2).
  { apply Forall_lookup. intros j x Hx. rewrite Hq in Hx.
    destruct (Forall2_lookup_r _ _ _ _ _ Hf Hx) as (t & _ & _ & it & Ht). by eapply lsb_entry_addr_range. }
  rewrite Hq in Hq2. injection Hq2 as <- Hq2.
  assert (Hnw : le_state e <> WAITING) by congruence.
  destruct (le_addr _ _ _ _ _ _ _ He Hnw) as (_ & Haddr).
  pose proof (le_k _ _ _ _ _ _ _ He) as Hk. rewrite (le_done_store _ _ _ _ _ _ _ He Hd Hst) in Hk.
  apply operand_ready in Hk as [Hv _].
  exists l2. rewrite can_commit_store_spec, Hh by done.
  split; [done|]. split; [by rewrite <- Haddr, <- Hv|].
  assert (Hq3 : LSBFacts.queue l = e :: LSBFacts.queue l2) by congruence.
  destruct (lsb_inv_pop p rob [] b (S n) l l2 e H Hq3 Hr2 Hs2)
    as (s3 & i3 & Hs3 & He3 & _ & Hrest).
  assert (s3 = b) as ->.
  { eapply slot_inj; eauto. apply le_tag_eq in He3, He. congruence. }
  apply Hrest; [apply retires_keeps| | |].
  - intros s j x Hs Hlt Hx. assert (in_win (S b) n s) by (unfold in_win in *; lia).
    split; [done|]. intros _. by apply retires_inflight.
  - intros. by eapply retires_waiting.
  - intros s j Hs _ _ _. split; [unfold in_win in *; lia|]. split; [unfold in_win in *; lia|].
    by apply retires_inflight.
Qed.

End Retire.

(** ** The tick *)

Lemma head_ready_spec b n rob :
  rob_inv p b n rob ->
  exists r, ReorderBuffer.head_ready rob = Ok r /\
    (r = true <-> n <> 0%nat /\ completed rob b).
Proof.
  intros Hr. pose proof Hr as [Hok _ _ Hc _ _]. rewrite rob_head_ready_spec by done.
  eexists. split; [done|]. pose proof (rob_queue_length rob Hok) as Hlen.
  destruct n as [|n].
  - destruct (ReorderBuffer.queue rob); [|simpl in *; lia]. naive_solver.
  - assert (Hb : in_win b (S n) b) by (unfold in_win; lia).
    pose proof (queue_slot p b (S n) rob b Hr Hb) as Hq. rewrite Nat.sub_diag in Hq.
    destruct (ReorderBuffer.queue rob) as [|e q]; [simpl in *; lia|].
    cbn in Hq. rewrite bool_decide_eq_true. split.
    + intros Hd. split; [done|]. by exists e.
    + intros (_ & e' & He' & Hd). congruence.
Qed.

(** What the tick leaves when it commits instruction [i], number [b]. *)
Record committed_state (b n : nat) (i : Instruction) (rob : ReorderBuffer) (ss : Stations)
    (cs : CommitState) : Prop := {
  cm_units : units_inv p [] (S b) n (cs_rob cs) ss (cs_lsb cs);
  cm_keeps : keeps_done b (S n) rob (S b) (cs_rob cs);
  cm_regs : regs_inv p (S b) (cs_rf cs);
  cm_mem : mem_inv p (S b) (cs_mem cs);
  cm_rat : rat_inv p (S b) n (cs_rat cs);
  cm_pc : is_control (op i) = true -> cs_next_pc cs = res_at b;
  cm_halted : cs_halted cs = op_eqb (op i) HALT;
  cm_last : cs_last cs = mkCommitRecord true (op i) (rd i) (rd_fp i) (res_at b) (pc i)
}.

(** The state after an instruction with a register destination, or none, from
    what its write and its mapping's removal do. *)
Lemma commit_register b n rob rob' rf rat l m ss i np (v : Z) (fp : bool) :
  units_inv p [] (S b) n rob' ss l -> keeps_done b (S n) rob (S b) rob' -> mem_inv p (S b) m ->
  (if 0 <=? rd i
   then exists rf', write_bits rf (rd i) fp v = Ok rf' /\ regs_inv p (S b) rf'
   else regs_inv p (S b) rf) ->
  (if 0 <=? rd i
   then exists rat', RegisterRemappingTable.commit rat (rd i) fp (tag b) = Ok rat' /\
          rat_inv p (S b) n rat'
   else rat_inv p (S b) n rat) ->
  (is_control (op i) = true -> np = res_at b) -> op i <> HALT ->
  let rec := mkCommitRecord true (op i) (rd i) (rd_fp i) (res_at b) (pc i) in
  exists cs, committed_state b n i rob ss cs /\
    (if 0 <=? rd i
     then let! rf' := write_bits rf (rd i) fp v in
          let! rat' := RegisterRemappingTable.commit rat (rd i) fp (tag b) in
          Ok (true, mkCommitState rob' rf' rat' l m np false rec)
     else Ok (true, mkCommitState rob' rf rat l m np false rec)) = Ok (true, cs).
Proof.
  intros Hu Hk Hm Hrc Htc Hnp Hh rec.
  assert (op_eqb (op i) HALT = false) as Hh' by (by apply bool_decide_eq_false).
  destruct (0 <=? rd i).
  - destruct Hrc as (rf' & -> & Hregs'), Htc as (rat' & -> & Hrat'). cbn [rbind].
    eexists. split; [|done]. by constructor.
  - eexists. split; [|done]. by constructor.
Qed.

Lemma commit_tick_spec b n rob rf rat l m ss np la :
  units_inv p [] b (S n) rob ss l -> regs_inv p b rf -> mem_inv p b m -> rat_inv p b (S n) rat ->
  named_to p (b + S n) -> completed rob b ->
  exists i cs, CommitUnit.tick (mkCommitState rob rf rat l m np false la) = Ok (true, cs) /\
    ins_at b = Some i /\ committed_state b n i rob ss cs.
Proof.
  intros [Hr Hs Hl _] Hregs Hm Hrat Hnm Hd.
  destruct (rob_retire b n rob Hr Hd)
    as (e & rob' & i & Hready & Htag & Hcm & Hrt & Hi & Ho & Hrd & Hfp & Hpc & Hres).
  assert (Hrec : record_of e = mkCommitRecord true (op i) (rd i) (rd_fp i) (res_at b) (pc i)).
  { unfold record_of. by rewrite Ho, Hrd, Hfp, Hres, Hpc. }
  pose proof (rob_window p b (S n) rob Hr) as Hn.
  assert (Hni : named i = true) by (apply (Hnm b i); [lia|done]).
  pose proof (rat_commit_inv b n rat i Hn Hi Hni Hrat) as Htc.
  pose proof (regs_commit b rf i Hi Hni Hregs) as Hrc.
  pose proof (ins_at_fields p Hwf b i Hi) as Hwfi.
  pose proof (retires_keeps b n rob rob' Hrt) as Hk.
  assert (Hss : forall k, station_inv p rob' [] (S b) n k (station ss k)).
  { intros k. by eapply station_inv_retire. }
  assert (Hns : forall l', lsb_inv p rob' [] (S b) n l' -> units_inv p [] (S b) n rob' ss l').
  { intros l' Hl'. constructor; [apply Hrt|done|done|by constructor]. }
  assert (Hnd : rd i = -1 -> regs_inv p (S b) rf /\ rat_inv p (S b) n rat).
  { intros E. rewrite E in Hrc, Htc. done. }
  exists i. unfold CommitUnit.tick. rewrite Hready. cbn [rbind negb]. rewrite Htag. cbn [rbind].
  rewrite Hcm. cbn [rbind]. rewrite Hrec, Ho, Hrd, Hfp, Hpc, Hres.
  destruct (is_store (op i)) eqn:Hst.
  - (* store *)
    destruct (lsb_inv_retire_store b n rob rob' Hrt l i m Hr Hi Hst Hl) as (l' & Hcan & Hcs & Hl').
    destruct Hnd as [Hregs' Hrat']; [apply Hwfi; by left|].
    assert (op_eqb (op i) HALT = false) as Hh by (destruct (op i); done).
    assert (is_branch (op i) = false) as -> by (destruct (op i); done).
    assert (is_jump (op i) = false) as -> by (destruct (op i); done).
    rewrite Hh, Hcan. cbn [rbind require]. rewrite Hcs. cbn [rbind].
    eexists. split; [done|]. split; [done|].
    constructor; cbn; try done; [by apply Hns|by apply mem_inv_store|].
    intros Hc. destruct (op i); done.
  - assert (Hm' : mem_inv p (S b) m) by (by eapply mem_inv_same).
    assert (Hu' : units_inv p [] (S b) n rob' ss l) by (by eapply Hns, lsb_inv_retire).
    unfold op_eqb. destruct (bool_decide_reflect (op i = HALT)) as [Hh|Hh].
    { destruct Hnd as [Hregs' Hrat']; [apply Hwfi; auto|].
      eexists. split; [done|]. split; [done|]. constructor; cbn; try done.
      - rewrite Hh. done.
      - unfold op_eqb. by rewrite bool_decide_eq_true_2. }
    assert (op_eqb (op i) HALT = false) as Hh' by (by apply bool_decide_eq_false).
    destruct (is_branch (op i)) eqn:Hbr.
    { destruct Hnd as [Hregs' Hrat']; [apply Hwfi; auto|].
      eexists. split; [done|]. by split. }
    assert (Hnp : is_control (op i) = is_jump (op i)) by (unfold is_control; by rewrite Hbr).
    unfold dest_value in Hrc. destruct (is_jump (op i)) eqn:Hj.
    + rewrite (wf_jump _ Hwfi Hj) in Hrc, Htc.
      destruct (commit_register b n rob rob' rf rat l m ss i (res_at b) _ _ Hu' Hk Hm' Hrc Htc)
        as (cs & Hcs & Hrun); [done|exact Hh|]. exists cs. split; [exact Hrun|done].
    + destruct (commit_register b n rob rob' rf rat l m ss i np _ _ Hu' Hk Hm' Hrc Htc)
        as (cs & Hcs & Hrun); [congruence|exact Hh|]. exists cs. split; [exact Hrun|done].
Qed.

(** ** The phase *)

Lemma commit_phase_spec b n s :
  Inv p [] b n s -> halted s = false ->
  exists s', commit_phase s = Ok s' /\ cycle s' = cycle s /\ cdb s' = cdb s /\
    stations s' = stations s /\
    ((Inv p [] b n s' /\ halted s' = false /\ (n = 0%nat \/ ~ completed (rob s) b) /\
        cr_valid (last s') = false) \/
     (exists n' i, n = S n' /\ Inv p [] (S b) n' s' /\ ins_at b = Some i /\
        last s' = mkCommitRecord true (op i) (rd i) (rd_fp i) (res_at b) (pc i))).
Proof.
  intros [Hu Hlds Hregs Hm Hrat Hiq Hhalt Hnm] Hnh. rewrite Hnh in Hhalt. cbn in Hhalt.
  unfold commit_phase. rewrite Hnh.
  destruct (head_ready_spec b n (rob s)) as (r & Hready & Hiff); [apply Hu|].
  destruct r.
  - destruct (proj1 Hiff eq_refl) as [Hn Hd]. destruct n as [|n]; [done|].
    destruct (commit_tick_spec b n (rob s) (rf s) (rat s) (lsb s) (mem s) (stations s) 0 (last s)
      Hu Hregs Hm Hrat Hnm Hd) as (i & cs & -> & Hi & [Hu' Hk Hregs' Hm' Hrat' Hpc Hh Hla]).
    cbn [rbind andb]. rewrite Hla. cbn [cr_op]. eexists. split; [done|]. cbn.
    split_and!; try done. right. exists n, i. split; [done|].
    rewrite (and_assoc _ _ _). split; [|done]. split; [|done].
    assert (Hlds' : loads_inv p (cs_rob cs) (S b) n) by (eapply loads_inv_keeps; [exact Hk|lia|done]).
    assert (Hnm' : named_to p (S b + n)) by (by rewrite Nat.add_succ_comm).
    assert (Hhalt' : halt_inv p (S b) (cs_halted cs)).
    { rewrite Hh. unfold op_eqb. destruct (bool_decide_reflect (op i = HALT)).
      - exists b, i. done.
      - by eapply live_S. }
    destruct (is_control (op i)) eqn:Hct; unfold is_control in Hct; rewrite Hct.
    + destruct (iq_inv_redirect b n (iq s) (branch_in_flight s) i Hi Hct Hiq) as [-> Hiq'].
      constructor; cbn; try done. by rewrite Hpc.
    + constructor; cbn; try done. by eapply iq_inv_commit.
  - unfold CommitUnit.tick. rewrite Hready. cbn. eexists. split; [done|]. cbn.
    split_and!; try done. left. split_and!; [|done| |done].
    + by constructor.
    + destruct (decide (n = 0%nat)); [by left|right]. intros Hd.
      assert (false = true); [|done]. by apply Hiff.
Qed.

End Commit.
