(* ===== verification/DispatchPhase.v ===== *)
(** * Phase 6: fetch and dispatch

    The next instruction of the run gets a reorder-buffer slot, its
    operands from the renaming table, and a slot of its unit. *)

From S2P Require Import Prelude Words Ring Config Float32 Instruction.
From S2P Require Import RegisterFile RegisterRemappingTable ReorderBuffer.
From S2P Require Import CommonDataBus DispatchUtils ReservationStation LoadStoreBuffer.
From S2P Require Import InstructionQueue CommitUnit Simulator ISA.
From S2P Require Import Execute StationFacts LSBFacts Invariant SeqFacts UnitFacts LoadPhase.

Section Dispatch.
Context `{FE : FPEnv}.
Context (p : list Instruction) (Hwf : wf_program p) {L : Loads}.

Abbreviation st_at := (st_at p).
Abbreviation ins_at := (ins_at p).
Abbreviation res_at := (res_at p).
Abbreviation writes := (writes p).

(** ** Fetch *)

Lemma fetch_loop_spec m b n q :
  iq_inv p b n q false ->
  exists q', fetch_loop m q = Ok q' /\ iq_inv p b n q' false /\
    (buffer_ q' = [] -> buffer_ q = [] /\ (m = 0%nat \/ len p <= pc_ q')).
Proof.
  revert q. induction m as [|m IH]; intros q Hq; cbn [fetch_loop]; [by eauto 10|].
  pose proof Hq as [Hp Hcap Hpc Hwait Hrun]. rewrite Hp, Hcap.
  destruct (Z.leb_spec (len p) (pc_ q)) as [Hend|Hin].
  { exists q. split_and!; try done. intros E. split; [done|by right]. }
  destruct (Z.leb_spec IQ_CAPACITY (len (buffer_ q))) as [Hfull|Hroom].
  { exists q. split_and!; try done. intros E. rewrite E in Hfull. done. }
  destruct (Hrun eq_refl) as (Hno & k & Hk & Hbuf & Hpck & Hle).
  destruct (vec_get_in_range p (pc_ q)) as (i & -> & Hi); [lia|]. cbn [rbind].
  edestruct (IH (mkInstructionQueue IQ_CAPACITY p (pc_ q + 1) (buffer_ q ++ [i])))
    as (q' & Hq' & Hinv & Hemp).
  - constructor; cbn; try done; [lia|]. intros _. split; [done|]. exists k.
    rewrite length_app. cbn [length]. split_and!; [done| |lia|lia].
    rewrite Nat.add_1_r. erewrite take_S_r; [by rewrite <- Hbuf|].
    rewrite lookup_drop. rewrite <- Hi. f_equal. lia.
  - exists q'. split; [done|]. split; [done|]. intros E. apply Hemp in E as [E _]. cbn in E.
    by apply app_nil in E as [_ ?].
Qed.

(** ** A new slot *)

Record allocates (b n : nat) (i : Instruction) (rob rob' : ReorderBuffer) : Prop := {
  al_ins : ins_at (b + n) = Some i;
  al_room : Z.of_nat n < ROB_SIZE;
  al_rob : rob_inv p b (S n) rob';
  al_new : inflight rob' (b + n);
  al_same : forall s, in_win b n s -> slot rob' s = slot rob s
}.

Lemma rob_allocates b n i rob :
  rob_inv p b n rob -> ins_at (b + n) = Some i -> ReorderBuffer.full rob = false ->
  exists rob', ReorderBuffer.allocate rob i = Ok (tag (b + n), rob') /\ allocates b n i rob rob'.
Proof.
  intros Hr Hi Hf. pose proof Hr as [Hok Hsz Hh Hc Hsl Hdn].
  pose proof (rob_allocate_spec rob i Hok) as Hal. rewrite Hf in Hal.
  destruct Hal as (rob' & Hall & Hok' & Hsz' & Hh' & Hc' & Hes & Hq).
  rewrite Hc, (tag_at_tag p b n rob n Hr) in Hall, Hes.
  assert (Hn : Z.of_nat n < ROB_SIZE).
  { pose proof (rob_window p b n rob Hr) as Hle. unfold ReorderBuffer.full in Hf.
    apply Z.eqb_neq in Hf. lia. }
  assert (Hsame : forall s, in_win b n s -> slot rob' s = slot rob s).
  { intros s Hs. unfold slot. rewrite Hes. apply list_lookup_insert_ne.
    intros E%tag_to_nat_inj. by apply (tag_fresh b n s Hn Hs). }
  assert (Hnew : slot rob' (b + n) = Some (dispatched i)).
  { unfold slot. rewrite Hes. apply list_lookup_insert_eq.
    pose proof (rob_len rob Hok). pose proof (tag_range (b + n)). lia. }
  exists rob'. split; [done|]. constructor; try done; [|by exists (dispatched i)].
  constructor; try congruence; [lia| |]; intros s; destruct (decide (s = b + n)%nat) as [->|Hne]; intros.
  - exists (dispatched i). split; [done|]. constructor; [by exists i|by left].
  - rewrite Hsame by (unfold in_win in *; lia). apply Hsl. unfold in_win in *. lia.
  - exfalso. apply (inflight_not_completed rob' (b + n)); [by exists (dispatched i)|done].
  - assert (in_win b n s) by (unfold in_win in *; lia).
    apply (done_ok_keeps p (rob := rob) (n := n) (b := b)); [|by apply in_win_le|].
    + split; [done|]. intros x Hx _ (e & He & Hd). exists e. by rewrite Hsame.
    + apply Hdn; [done| |done]. destruct select (completed rob' s) as (e & He & Hd).
      exists e. by rewrite <- Hsame.
Qed.

Section Allocate.
Context (b n : nat) (i : Instruction) (rob rob' : ReorderBuffer).
Hypothesis Hal : allocates b n i rob rob'.

Lemma allocates_keeps : keeps_done b n rob b rob'.
Proof.
  split; [done|]. intros s Hs _ (e & He & Hd). exists e. by rewrite (al_same _ _ _ _ _ Hal).
Qed.

Lemma allocates_inflight s : in_win b n s -> inflight rob' s <-> inflight rob s.
Proof. intros Hs. unfold inflight. by rewrite (al_same _ _ _ _ _ Hal). Qed.

Lemma allocates_waiting s s' (r : Z) (fp : bool) :
  in_win b n s -> (b <= s' < s)%nat -> writes s' r fp -> pending rob [] s' ->
  (b <= s')%nat /\ pending rob' [] s'.
Proof.
  intros Hs Hlt _ [Hf|He]; [|by apply Exists_nil in He]. split; [lia|left].
  apply allocates_inflight; [unfold in_win in *; lia|done].
Qed.

Lemma station_inv_allocate k st :
  target_rs (op i) <> Some k -> station_inv p rob [] b n k st -> station_inv p rob' [] b (S n) k st.
Proof.
  intros Hne H. eapply station_inv_transfer; [exact H|apply allocates_keeps| | |].
  - intros s j Hs _ _ Hf. split; [unfold in_win in *; lia|]. by apply allocates_inflight.
  - intros. by eapply allocates_waiting.
  - intros s j Hs Hj Hrt Hf. assert (s <> b + n)%nat as Hns.
    { intros ->. rewrite (al_ins _ _ _ _ _ Hal) in Hj. injection Hj as <-. done. }
    assert (in_win b n s) by (unfold in_win in *; lia). split; [done|]. by apply allocates_inflight.
Qed.

Lemma lsb_inv_allocate l :
  is_mem (op i) = false -> lsb_inv p rob [] b n l -> lsb_inv p rob' [] b (S n) l.
Proof.
  intros Hnm H. eapply lsb_inv_transfer; [exact H|apply allocates_keeps| | |].
  - intros s j e Hs _ He. split; [unfold in_win in *; lia|]. intros _. by apply allocates_inflight.
  - intros. by eapply allocates_waiting.
  - intros s j Hs Hj Hm. assert (s <> b + n)%nat as Hns.
    { intros ->. rewrite (al_ins _ _ _ _ _ Hal) in Hj. injection Hj as <-. congruence. }
    assert (in_win b n s) by (unfold in_win in *; lia). split; [done|]. by apply allocates_inflight.
Qed.

(** ** Operands *)

Section Operands.
Context (rat : RegisterRemappingTable) (rf : RegisterFile).
Hypothesis Hrat : rat_inv p b n rat.
Hypothesis Hregs : regs_inv p b rf.
Hypothesis Hnoctl : forall s j, in_win b n s -> ins_at s = Some j -> is_control (op j) = false.

Lemma read_bits_operand r fp :
  reg_index r -> (forall s, in_win b n s -> ~ writes s r fp) ->
  read_bits rf r fp = Ok (read_reg (st_at (b + n)) r fp) /\ settled p rob' b (b + n) r fp.
Proof.
  intros Hr Hno. destruct Hregs as [Hok Hrd]. split.
  - rewrite (Hrd r fp Hr). f_equal. symmetry. apply read_reg_unwritten; [lia|].
    intros s' Hs'. apply Hno. unfold in_win. lia.
  - intros s' Hs' (Hlt & Hw & _). exfalso. apply (Hno s'); [unfold in_win; lia|done].
Qed.

Lemma resolve_operand_spec r fp old :
  r < 32 ->
  exists v q, resolve_operand r fp rat rf rob' old = Ok (v, q) /\
    operand_ok p rob' [] b (b + n) r fp v q.
Proof.
  intros Hrange. unfold resolve_operand. destruct (Z.ltb_spec r 0) as [Hneg|Hge].
  { exists 0, (-1). split; [done|]. left. split_and!; [done| |].
    - unfold read_reg. by rewrite (proj2 (Z.ltb_lt _ _)).
    - by apply no_register_settled. }
  assert (Hidx : reg_index r) by (unfold reg_index; lia).
  destruct Hrat as [Hok Hm]. specialize (Hm r fp Hidx).
  destruct (rat_lookup_spec rat r fp Hok Hidx) as (re & -> & Hre). rewrite Hre in Hm. cbn [rbind].
  destruct (valid re); cbn [negb].
  - destruct Hm as (s & Hs & -> & Hw & Hlast). pose proof Hw as (j & Hj & _).
    assert (Hs' : in_win b (S n) s) by (unfold in_win in *; lia).
    destruct (ri_slots _ _ _ _ (al_rob _ _ _ _ _ Hal) s Hs') as (e & He & [_ Hst]).
    assert (Hpk : ReorderBuffer.peek rob' (tag s) = Ok e).
    { unfold ReorderBuffer.peek. pose proof (tag_range s).
      rewrite (ri_size _ _ _ _ (al_rob _ _ _ _ _ Hal)), require_index by done.
      apply vec_get_Ok. split; [lia|done]. }
    rewrite Hpk. cbn [rbind].
    assert (Hlw : last_writer p s (b + n) r fp) by (split; [unfold in_win in Hs; lia|done]).
    assert (Hnj : forall i', ins_at s = Some i' -> is_jump (op i') = false).
    { intros i' Hi'. pose proof (Hnoctl s i' Hs Hi') as Hc. by apply orb_false_iff in Hc as [_ ?]. }
    destruct (bool_decide_reflect (ReorderBuffer.re_state e = ReorderBuffer.DONE)) as [Hd|Hnd].
    + destruct Hst as [?|(_ & Hres)]; [congruence|].
      exists (re_result e), (-1). split; [done|]. left. split_and!; [done| |].
      * rewrite Hres. symmetry. eapply read_reg_written; eauto.
      * intros s2 _ Hs2. rewrite (last_writer_unique p _ _ _ _ _ Hs2 Hlw). by exists e.
    + destruct Hst as [Hf|[? _]]; [|done].
      exists old, (tag s). split; [done|]. right. exists s. split; [unfold in_win in Hs; lia|].
      do 3 (split; [done|]). left. by exists e.
  - destruct (read_bits_operand r fp Hidx Hm) as [Hrd Hset].
    eexists _, (-1). split; [|left; split; [done|]; split; [reflexivity|done]].
    unfold read_bits in Hrd. destruct fp; apply rbind_Ok in Hrd as (x & -> & Hx); cbn; congruence.
Qed.

Lemma resolve_operand_past r fp old :
  32 <= r ->
  resolve_operand r fp rat rf rob' old = Stop (AssertionFailed "RegisterRemappingTable::lookup").
Proof.
  intros Hr. unfold resolve_operand. rewrite (proj2 (Z.ltb_ge _ _)) by lia. by rewrite lookup_past.
Qed.

(** Both operands of an instruction, in the order [issue] resolves them. *)
Lemma resolve_both {B} r1 fp1 old1 r2 fp2 old2 (k : Z * Z -> Z * Z -> res B) :
  32 <= r1 \/ 32 <= r2 ->
  (let! j1 := resolve_operand r1 fp1 rat rf rob' old1 in
   let! j2 := resolve_operand r2 fp2 rat rf rob' old2 in k j1 j2) =
  Stop (AssertionFailed "RegisterRemappingTable::lookup").
Proof.
  intros Hr. destruct (Z.le_gt_cases 32 r1) as [H1|H1]; [by rewrite resolve_operand_past|].
  destruct (resolve_operand_spec r1 fp1 old1 H1) as (v & q & -> & _). cbn [rbind].
  rewrite resolve_operand_past; [done|lia].
Qed.

End Operands.

End Allocate.

(** ** Issue *)

Section Issue.
Context (b n : nat) (i : Instruction) (rob rob' : ReorderBuffer).
Hypothesis Hal : allocates b n i rob rob'.
Hypothesis Hr : rob_inv p b n rob.
Context (rat : RegisterRemappingTable) (rf : RegisterFile).
Hypothesis Hrat : rat_inv p b n rat.
Hypothesis Hregs : regs_inv p b rf.
Hypothesis Hnoctl : forall s j, in_win b n s -> ins_at s = Some j -> is_control (op j) = false.

Definition sources_named : Prop := rs1 i < 32 /\ rs2 i < 32.

Lemma sources_cases : sources_named \/ 32 <= rs1 i \/ 32 <= rs2 i.
Proof. unfold sources_named. lia. Qed.

Lemma issue_entry_spec e k :
  sources_named -> target_rs (op i) = Some k ->
  exists e', ReservationStation.issue_entry i (tag (b + n)) rat rf rob' e = Ok e' /\
    se_busy e' = true /\ se_done e' = false /\ se_cycles_rem e' = 0 /\
    station_entry p rob' [] b k (b + n) i e'.
Proof.
  intros [H1 H2] Hrt. pose proof (al_ins _ _ _ _ _ Hal) as Hi.
  unfold ReservationStation.issue_entry.
  destruct (resolve_operand_spec b n i rob rob' Hal rat rf Hrat Hregs Hnoctl
    (rs1 i) (rs1_fp i) (se_vj e) H1) as (vj & qj & -> & Hj). cbn [rbind].
  destruct (resolve_operand_spec b n i rob rob' Hal rat rf Hrat Hregs Hnoctl
    (rs2 i) (rs2_fp i) (se_vk e) H2) as (vk & qk & -> & Hk). cbn [rbind].
  eexists. split; [done|]. cbn. split_and!; try done. constructor; cbn; try done. apply Hal.
Qed.

(** Only free slots change, and a new entry is not executing. *)
Definition only_fresh (st st' : ReservationStation) : Prop :=
  Forall2 (fun e e' => e' = e \/ (se_busy e = false /\ se_cycles_rem e' = 0))
    (ReservationStation.entries_ st) (ReservationStation.entries_ st').

Lemma only_fresh_refl st : only_fresh st st.
Proof. apply Forall_Forall2_diag, Forall_forall. by left. Qed.

Lemma only_fresh_insert (es : list RSEntry) j e e' :
  es !! j = Some e -> se_busy e = false -> se_cycles_rem e' = 0 ->
  Forall2 (fun e e' => e' = e \/ (se_busy e = false /\ se_cycles_rem e' = 0)) es (<[j := e']> es).
Proof.
  intros Hj Hb Hc. apply Forall2_same_length_lookup_2; [by rewrite length_insert|].
  intros j' x x' Hx Hx'. destruct (decide (j' = j)) as [->|Hne].
  - rewrite list_lookup_insert_eq in Hx' by (by eapply lookup_lt_Some).
    injection Hx' as <-. rewrite Hj in Hx. injection Hx as <-. by right.
  - rewrite list_lookup_insert_ne in Hx' by done. left. congruence.
Qed.

(** The station that gets the instruction. *)
Lemma station_inv_insert k st j e e' :
  target_rs (op i) = Some k -> station_inv p rob [] b n k st ->
  ReservationStation.entries_ st !! j = Some e -> se_busy e = false ->
  se_busy e' = true -> se_done e' = false -> se_cycles_rem e' = 0 ->
  station_entry p rob' [] b k (b + n) i e' ->
  station_inv p rob' [] b (S n) k (mkReservationStation (ReservationStation.size_ st)
    (ReservationStation.count_ st + 1) (<[j := e']> (ReservationStation.entries_ st))).
Proof.
  intros Hrt [Hok Hsz Ht He Hu Hpl] Hj Hb Hb' Hd' Hc' Hen.
  assert (Hlook : forall j', <[j := e']> (ReservationStation.entries_ st) !! j' =
    if decide (j' = j) then Some e' else ReservationStation.entries_ st !! j').
  { intros j'. destruct (decide (j' = j)) as [->|].
    - apply list_lookup_insert_eq. by eapply lookup_lt_Some.
    - by apply list_lookup_insert_ne. }
  assert (Hfresh : forall j' x, ReservationStation.entries_ st !! j' = Some x -> se_busy x = true ->
    se_rob_tag x <> tag (b + n)).
  { intros j' x Hx Hbx. destruct (He j' x Hx Hbx) as (s & ix & Hs & Hex).
    rewrite (se_tag_eq _ _ _ _ _ _ _ _ Hex). eapply tag_fresh; [apply Hal|done]. }
  pose proof (se_tag_eq _ _ _ _ _ _ _ _ Hen) as Htag.
  constructor; cbn [ReservationStation.entries_ ReservationStation.size_]; try done.
  - destruct Hok as [Hs Hl Hcn]. constructor; cbn; rewrite ?length_insert; try done.
    rewrite (busy_count_insert _ _ _ _ Hj), Hb, Hb', Hcn. lia.
  - apply Forall_insert; [done|]. constructor; rewrite ?Hc', ?Hd'; try done; try lia.
    pose proof (latency_of_bounds (se_op e')). lia.
  - intros j' x Hx Hbx. rewrite Hlook in Hx. destruct (decide (j' = j)).
    + injection Hx as <-. exists (b + n)%nat, i. split; [unfold in_win; lia|done].
    + destruct (He j' x Hx Hbx) as (s & ix & Hs & [? ? ? ? ? ? Hf Hoj Hok']).
      exists s, ix. split; [unfold in_win in *; lia|].
      constructor; try done; [by eapply allocates_inflight| |];
        (eapply operand_ok_mono; [eassumption|by eapply allocates_keeps|by apply in_win_le|];
         intros; by eapply allocates_waiting).
  - intros j1 j2 e1 e2 H1 H2 Hb1 Hb2 E. rewrite Hlook in H1, H2.
    destruct (decide (j1 = j)) as [->|], (decide (j2 = j)) as [->|]; [done| | |by eauto].
    + injection H1 as <-. exfalso. apply (Hfresh j2 e2 H2 Hb2). congruence.
    + injection H2 as <-. exfalso. apply (Hfresh j1 e1 H1 Hb1). congruence.
  - intros s ix Hs Hi Hrt' Hf. destruct (decide (s = b + n)%nat) as [->|Hne].
    + exists j, e'. rewrite Hlook, decide_True by done. done.
    + assert (Hs' : in_win b n s) by (unfold in_win in *; lia).
      apply (allocates_inflight _ _ _ _ _ Hal s Hs') in Hf.
      destruct (Hpl s ix Hs' Hi Hrt' Hf) as (j' & x & Hx & Hbx & Htx).
      exists j', x. rewrite Hlook, decide_False; [done|]. intros ->. congruence.
Qed.

Lemma station_not_busy k st :
  station_inv p rob [] b n k st -> ReservationStation.full st = false ->
  ~ Forall (fun e => se_busy e = true) (ReservationStation.entries_ st).
Proof.
  intros Hst Hf Hall. destruct (si_ok _ _ _ _ _ _ _ Hst) as [_ Hlen Hcnt].
  apply busy_count_full in Hall. unfold ReservationStation.full in Hf. apply Z.eqb_neq in Hf. lia.
Qed.

Lemma station_issue_past k st :
  32 <= rs1 i \/ 32 <= rs2 i -> station_inv p rob [] b n k st ->
  ReservationStation.full st = false ->
  ReservationStation.issue st i (tag (b + n)) rat rf rob' =
  Stop (AssertionFailed "RegisterRemappingTable::lookup").
Proof.
  intros Hreg Hst Hf. unfold ReservationStation.issue.
  erewrite issue_loop_stop; [done| |by eapply station_not_busy].
  intros e. by apply (resolve_both b n i rob rob' Hal rat rf Hrat Hregs Hnoctl).
Qed.

Lemma station_issue_spec k st :
  sources_named -> target_rs (op i) = Some k -> station_inv p rob [] b n k st ->
  ReservationStation.full st = false ->
  exists st', ReservationStation.issue st i (tag (b + n)) rat rf rob' = Ok (true, st') /\
    station_inv p rob' [] b (S n) k st' /\ only_fresh st st'.
Proof.
  intros Hsn Hrt Hst Hf. unfold ReservationStation.issue.
  pose proof (issue_loop_spec (ReservationStation.issue_entry i (tag (b + n)) rat rf rob')
    (ReservationStation.entries_ st)) as Hl.
  destruct (issue_loop _ _) as [[es|]|].
  - destruct Hl as (j & e & e' & Hj & Hb & _ & He' & ->).
    { intros e _. destruct (issue_entry_spec e k Hsn Hrt) as (e' & ? & _). by exists e'. }
    destruct (issue_entry_spec e k Hsn Hrt) as (e2 & He2 & Hb' & Hd & Hc & Hen).
    rewrite He' in He2. injection He2 as <-.
    eexists. split; [done|]. split; [by eapply station_inv_insert|]. by eapply only_fresh_insert.
  - exfalso. apply (station_not_busy k st Hst Hf), Hl.
    intros e _. destruct (issue_entry_spec e k Hsn Hrt) as (e' & ? & _). by exists e'.
  - exfalso. apply Hl. intros e _. destruct (issue_entry_spec e k Hsn Hrt) as (e' & ? & _). by exists e'.
Qed.

Lemma lsb_issue_entry_spec e :
  sources_named -> is_mem (op i) = true ->
  exists e', LoadStoreBuffer.issue_entry i (tag (b + n)) rat rf rob' e = Ok e' /\
    lsb_entry p rob' [] b (b + n) i e'.
Proof.
  intros [H1 H2] Hm. pose proof (al_ins _ _ _ _ _ Hal) as Hi.
  unfold LoadStoreBuffer.issue_entry.
  destruct (resolve_operand_spec b n i rob rob' Hal rat rf Hrat Hregs Hnoctl
    (rs1 i) false (le_vj e) H1) as (vj & qj & -> & Hj). cbn [rbind].
  destruct (resolve_operand_spec b n i rob rob' Hal rat rf Hrat Hregs Hnoctl
    (rs2 i) (rs2_fp i) (le_vk e) H2) as (vk & qk & -> & Hk). cbn [rbind].
  eexists. split; [done|]. constructor; cbn; try done. intros _. apply Hal.
Qed.

(** A buffer with room has a slot at its tail. *)
Lemma lsb_tail_range l :
  lsb_inv p rob [] b n l -> 0 <= LoadStoreBuffer.tail_ l < len (LoadStoreBuffer.entries_ l).
Proof. intros [[? Hlen ? ? ->] _ _]. rewrite Hlen. by apply ring_index_range. Qed.

Lemma lsb_issue_past l :
  32 <= rs1 i \/ 32 <= rs2 i -> lsb_inv p rob [] b n l -> LoadStoreBuffer.full l = false ->
  LoadStoreBuffer.issue l i (tag (b + n)) rat rf rob' =
  Stop (AssertionFailed "RegisterRemappingTable::lookup").
Proof.
  intros Hreg Hl Hfull. unfold LoadStoreBuffer.issue. rewrite Hfull.
  destruct (vec_get_in_range _ _ (lsb_tail_range l Hl)) as (e & -> & _). cbn [rbind].
  unfold LoadStoreBuffer.issue_entry.
  by rewrite (resolve_both b n i rob rob' Hal rat rf Hrat Hregs Hnoctl).
Qed.

Lemma lsb_issue_spec l :
  sources_named -> is_mem (op i) = true -> lsb_inv p rob [] b n l -> LoadStoreBuffer.full l = false ->
  exists l', LoadStoreBuffer.issue l i (tag (b + n)) rat rf rob' = Ok (true, l') /\
    lsb_inv p rob' [] b (S n) l'.
Proof.
  intros Hsn Hm Hl Hfull. pose proof (lsb_tail_range l Hl) as Htl.
  destruct Hl as [Hring Hsz (ss & Hf & Ho & Ha)]. unfold LoadStoreBuffer.issue. rewrite Hfull.
  pose proof Hring as [Hpos Hlen Hh Hc Ht]. unfold LoadStoreBuffer.full in Hfull.
  apply Z.eqb_neq in Hfull.
  destruct (vec_get_in_range _ _ Htl) as (e & -> & _). cbn [rbind].
  destruct (lsb_issue_entry_spec e Hsn Hm) as (e' & -> & Hen). cbn [rbind].
  rewrite vec_set_in_range by done. cbn [rbind]. rewrite Z.rem_mod_nonneg by lia.
  destruct (ring_push _ _ _ _ _ e' Hring ltac:(lia)) as [Hring' Hq'].
  eexists. split; [done|]. constructor; cbn; try done. exists (ss ++ [(b + n)%nat]). split_and!.
  - unfold LSBFacts.queue. cbn. rewrite Hq'. apply Forall2_app.
    + eapply Forall2_impl; [exact Hf|]. intros s x (Hw & j & Hx).
      split; [unfold in_win in *; lia|]. exists j.
      eapply lsb_entry_transfer; [exact Hx|by eapply allocates_keeps|by apply in_win_le| |].
      * intros _. by eapply allocates_inflight.
      * intros. by eapply allocates_waiting.
    + constructor; [|constructor]. split; [unfold in_win; lia|]. by exists i.
  - intros j k s s' Hjk Hj Hk. apply lookup_app_Some in Hj as [Hj|[Hge Hj]].
    + apply lookup_app_Some in Hk as [Hk|[_ Hk]]; [by eapply (Ho j k)|].
      apply list_lookup_singleton_Some in Hk as [_ <-].
      destruct (Forall2_lookup_l _ _ _ _ _ Hf Hj) as (x & _ & Hw & _). unfold in_win in Hw. lia.
    + apply list_lookup_singleton_Some in Hj as [Hj <-].
      apply lookup_lt_Some in Hk. rewrite length_app in Hk. simpl in Hk. lia.
  - intros s j Hs Hj Hmj Hcase. apply elem_of_app.
    destruct (decide (s = b + n)%nat) as [->|Hne]; [right; by apply list_elem_of_singleton|left].
    assert (Hs' : in_win b n s) by (unfold in_win in *; lia).
    apply (Ha s j); try done. destruct Hcase as [?|Hfl]; [by left|right].
    by apply (allocates_inflight _ _ _ _ _ Hal s Hs').
Qed.

(** ** Renaming *)

Lemma map_dest_past rat0 t :
  32 <= rd i -> map_dest rat0 i t = Stop (AssertionFailed "RegisterRemappingTable::map").
Proof.
  intros Hreg. unfold map_dest. rewrite (proj2 (Z.leb_le 0 (rd i))) by lia. by apply map_past.
Qed.

Lemma map_dest_spec :
  rd i < 32 ->
  exists rat', map_dest rat i (tag (b + n)) = Ok rat' /\ rat_inv p b (S n) rat'.
Proof.
  intros Hrd. pose proof (al_ins _ _ _ _ _ Hal) as Hi.
  assert (Hnew : forall r fp, writes (b + n) r fp <->
    r = rd i /\ fp = rd_fp i /\ 0 <= rd i /\ (fp = true \/ r <> 0)).
  { intros r fp. split.
    - intros (j & Hj & <- & <- & ? & ?). rewrite Hi in Hj. injection Hj as <-. done.
    - intros (-> & -> & ? & ?). exists i. done. }
  (* a register the new instruction does not write *)
  assert (Hold : forall r fp, reg_index r -> ~ writes (b + n) r fp ->
    match mapping rat r fp with
    | None => forall s, in_win b (S n) s -> ~ writes s r fp
    | Some t => exists s, in_win b (S n) s /\ t = tag s /\ writes s r fp /\
                  forall s', (s < s' < b + S n)%nat -> ~ writes s' r fp
    end).
  { intros r fp Hidx Hno. destruct Hrat as [_ Hm]. specialize (Hm r fp Hidx).
    destruct (mapping rat r fp) as [t|].
    - destruct Hm as (s & Hs & -> & Hw & Hlast). exists s. unfold in_win in *.
      split_and!; try done; try lia. intros s' Hs'.
      destruct (decide (s' = b + n)%nat) as [->|]; [done|]. apply Hlast. lia.
    - intros s Hs. unfold in_win in *. destruct (decide (s = b + n)%nat) as [->|]; [done|].
      apply Hm. lia. }
  unfold map_dest. destruct Hrat as [Hok _]. destruct (Z.leb_spec 0 (rd i)) as [Hge|Hlt].
  - assert (Hidx : reg_index (rd i)) by (unfold reg_index; lia).
    destruct (rat_map_spec rat (rd i) (rd_fp i) (tag (b + n)) Hok Hidx) as (rat' & Hmap & Hok' & Hm').
    exists rat'. split; [done|]. split; [done|]. intros r fp Hr0. rewrite Hm' by done.
    case_bool_decide as Hcase.
    + destruct Hcase as (-> & -> & Hx). exists (b + n)%nat. unfold in_win.
      split_and!; try lia; try done. by apply Hnew.
    + apply Hold; [done|]. intros (-> & -> & _ & Hx)%Hnew. apply Hcase. done.
  - exists rat. split; [done|]. split; [done|]. intros r fp Hr0. apply Hold; [done|].
    intros (_ & _ & ? & _)%Hnew. lia.
Qed.

End Issue.

(** ** The head of the fetch buffer *)

Lemma iq_head b n q :
  iq_inv p b n q false -> InstructionQueue.can_dispatch q = true ->
  exists i q', InstructionQueue.peek q = Ok i /\ InstructionQueue.dispatch q = Ok (i, q') /\
    ins_at (b + n) = Some i /\
    (is_control (op i) = false -> iq_inv p b (S n) q' false) /\
    (is_control (op i) = true ->
       forall a, 0 <= a -> iq_inv p b (S n) (InstructionQueue.seek q' a) true).
Proof.
  intros [Hp Hcap Hpc Hwait Hrun] Hcan.
  destruct (Hrun eq_refl) as (Hno & k & Hk & Hbuf & Hpck & Hle).
  unfold InstructionQueue.can_dispatch in Hcan.
  unfold InstructionQueue.peek, InstructionQueue.dispatch, InstructionQueue.can_dispatch.
  destruct (buffer_ q) as [|i buf] eqn:Eb; [done|]. cbn [require rbind].
  assert (Hi : p !! k = Some i).
  { rewrite <- (Nat.add_0_r k), <- lookup_drop. cbn [length take] in Hbuf.
    destruct (drop k p); [done|]. cbn [take] in Hbuf. by injection Hbuf as <-. }
  assert (Hdrop : drop k p = i :: drop (S k) p) by (by apply drop_S).
  assert (Hat : ins_at (b + n) = Some i).
  { unfold Invariant.ins_at, fetch. by rewrite Hk, Nat2Z.id. }
  eexists i, _. cbn. split; [done|]. split; [done|]. split; [done|]. split.
  - intros Hnc. constructor; cbn; try done. intros _. split.
    + intros s j Hs Hj. destruct (decide (s = b + n)%nat) as [->|]; [congruence|].
      apply (Hno s); [unfold in_win in *; lia|done].
    + exists (S k). rewrite drop_0. replace (b + S n)%nat with (S (b + n)) by lia.
      rewrite (next_pc p Hwf _ i Hat Hnc), Hk. cbn [length] in *. split_and!; try lia.
      rewrite Hdrop in Hbuf. cbn [take] in Hbuf. by injection Hbuf.
  - intros Hct a Ha. constructor; cbn; try done; [by apply Z.shiftr_nonneg|].
    intros _. split; [done|]. by exists n, i.
Qed.

(** ** An empty window leaves room *)

Lemma station_room b rob k st : station_inv p rob [] b 0 k st -> ReservationStation.full st = false.
Proof.
  intros [Hok Hsz _ He _ _]. destruct Hok as [_ _ Hc]. unfold ReservationStation.full.
  assert (busy_count (ReservationStation.entries_ st) = 0) as Hz.
  { apply busy_count_zero, Forall_lookup. intros j e Hj. destruct (se_busy e) eqn:Hb; [|done].
    destruct (He j e Hj Hb) as (s & i & Hs & _). unfold in_win in Hs. lia. }
  rewrite Hc, Hz, Hsz. by destruct k.
Qed.

Lemma lsb_room b rob l : lsb_inv p rob [] b 0 l -> LoadStoreBuffer.full l = false.
Proof.
  intros [Hring Hsz (ss & Hf & _)]. unfold LoadStoreBuffer.full.
  pose proof (lsb_queue_length l Hring) as Hlen. rewrite Hsz.
  destruct (LSBFacts.queue l) as [|e q]; [cbn in Hlen; by rewrite <- Hlen|].
  destruct ss as [|s ss]; [by inversion Hf|]. apply Forall2_cons in Hf as [[Hs _] _].
  unfold in_win in Hs. lia.
Qed.

Lemma rob_room b rob : rob_inv p b 0 rob -> ReorderBuffer.full rob = false.
Proof. intros [_ Hsz _ Hc _ _]. unfold ReorderBuffer.full. by rewrite Hsz, Hc. Qed.

(** ** [try_dispatch] *)

Lemma unnamed i : 32 <= rd i \/ 32 <= rs1 i \/ 32 <= rs2 i -> named i = false.
Proof. intros H. apply not_true_is_false. rewrite named_regs. lia. Qed.

(** What a dispatch leaves when it takes instruction [i], number [b + n]. *)
Record dispatched_state (b n : nat) (i : Instruction) (ss : Stations) (fr : Front) : Prop := {
  dp_ins : ins_at (b + n) = Some i;
  dp_named : named i = true;
  dp_units : units_inv p [] b (S n) (fr_rob fr) (fr_stations fr) (fr_lsb fr);
  dp_loads : loads_inv p (fr_rob fr) b (S n);
  dp_rat : rat_inv p b (S n) (fr_rat fr);
  dp_iq : if is_control (op i)
          then forall a, 0 <= a -> iq_inv p b (S n) (InstructionQueue.seek (fr_iq fr) a) true
          else iq_inv p b (S n) (fr_iq fr) false;
  dp_branch : fr_branch fr = is_control (op i);
  dp_fresh : forall k, only_fresh (station ss k) (station (fr_stations fr) k)
}.

Lemma try_dispatch_spec b n s :
  Inv p [] b n s -> branch_in_flight s = false ->
  let fr0 := mkFront (iq s) (rob s) (rat s) (stations s) (lsb s) false in
  (try_dispatch fr0 (rf s) = Ok (false, fr0) /\
     (InstructionQueue.can_dispatch (iq s) = false \/ n <> 0%nat)) \/
  (exists i fr, try_dispatch fr0 (rf s) = Ok (true, fr) /\
     InstructionQueue.can_dispatch (iq s) = true /\ InstructionQueue.peek (iq s) = Ok i /\
     dispatched_state b n i (stations s) fr) \/
  (exists i f, try_dispatch fr0 (rf s) = Stop f /\ register_fault f /\
     InstructionQueue.can_dispatch (iq s) = true /\ InstructionQueue.peek (iq s) = Ok i /\
     ins_at (b + n) = Some i /\ named i = false).
Proof.
  intros [[Hr Hs Hl Hc] Hlds Hregs Hm Hrat Hiq Hhalt Hnm] Hbif fr0. rewrite Hbif in Hiq.
  unfold try_dispatch, fr0.
  destruct (InstructionQueue.can_dispatch (iq s)) eqn:Hcan; cbn [negb]; [|left; auto].
  destruct (iq_head b n (iq s) Hiq Hcan) as (i & q' & Hpk & Hdq & Hi & Hiq1 & Hiq2).
  rewrite Hpk. cbn [rbind orb].
  destruct (qi_run _ _ _ _ _ Hiq eq_refl) as [Hno _].
  assert (Hiq' : if is_control (op i)
    then forall a, 0 <= a -> iq_inv p b (S n) (InstructionQueue.seek q' a) true
    else iq_inv p b (S n) q' false) by (destruct (is_control (op i)); auto).
  destruct (target_rs (op i)) as [k|] eqn:Hrt.
  - destruct (ReorderBuffer.full (rob s)) eqn:Hfull; cbn [negb andb].
    { left. split; [done|right]. intros ->. by rewrite (rob_room b) in Hfull. }
    destruct (ReservationStation.full (station (stations s) k)) eqn:Hfs; cbn [negb].
    { left. split; [done|right]. intros ->. by rewrite (station_room b (rob s) k) in Hfs. }
    destruct (rob_allocates b n i (rob s) Hr Hi Hfull) as (rob' & -> & Hal). cbn [rbind].
    destruct (sources_cases i) as [Hsn|Hpast].
    2: { right. right. exists i. eexists. rewrite (station_issue_past b n i (rob s) rob' Hal (rat s)
           (rf s) Hrat Hregs Hno k _ Hpast (Hs k) Hfs). split; [done|]. split; [by left|].
         split_and!; try done. apply unnamed; tauto. }
    destruct (station_issue_spec b n i (rob s) rob' Hal (rat s) (rf s) Hrat Hregs Hno k _ Hsn Hrt
      (Hs k) Hfs) as (st' & -> & Hst' & Hfresh). cbn [rbind].
    destruct (Z.le_gt_cases 32 (rd i)) as [Hpast|Hrd].
    { right. right. exists i. eexists. rewrite map_dest_past by done. split; [done|].
      split; [by right|]. split_and!; try done. apply unnamed; tauto. }
    destruct (map_dest_spec b n i (rob s) rob' Hal (rat s) Hrat Hrd) as (rat' & -> & Hrat'). cbn [rbind].
    rewrite Hdq. cbn [rbind]. right. left. exists i. eexists. split; [done|]. split; [done|].
    split; [done|]. constructor; cbn;
      [done|by apply named_regs| |eapply loads_inv_keeps; [by eapply allocates_keeps|lia|done]|done|exact Hiq'|done|].
    + constructor; [apply Hal| | |by constructor].
      * intros k'. rewrite station_set. destruct (decide (k' = k)) as [->|Hne]; [done|].
        eapply station_inv_allocate; [exact Hal|congruence|done].
      * eapply lsb_inv_allocate; [exact Hal| |done].
        destruct (is_mem (op i)) eqn:Hmem; [|done]. apply target_rs_mem in Hmem. congruence.
    + intros k'. rewrite station_set.
      destruct (decide (k' = k)) as [->|Hne]; [done|apply only_fresh_refl].
  - assert (Hmem : is_mem (op i) = true) by (by apply target_rs_mem).
    destruct (ReorderBuffer.full (rob s)) eqn:Hfull; cbn [negb andb].
    { left. split; [done|right]. intros ->. by rewrite (rob_room b) in Hfull. }
    destruct (LoadStoreBuffer.full (lsb s)) eqn:Hfs; cbn [negb].
    { left. split; [done|right]. intros ->. by rewrite (lsb_room b (rob s)) in Hfs. }
    destruct (rob_allocates b n i (rob s) Hr Hi Hfull) as (rob' & -> & Hal). cbn [rbind].
    destruct (sources_cases i) as [Hsn|Hpast].
    2: { right. right. exists i. eexists. rewrite (lsb_issue_past b n i (rob s) rob' Hal (rat s)
           (rf s) Hrat Hregs Hno (lsb s) Hpast Hl Hfs). split; [done|]. split; [by left|].
         split_and!; try done. apply unnamed; tauto. }
    destruct (lsb_issue_spec b n i (rob s) rob' Hal (rat s) (rf s) Hrat Hregs Hno (lsb s) Hsn Hmem
      Hl Hfs) as (l' & -> & Hl'). cbn [rbind].
    destruct (Z.le_gt_cases 32 (rd i)) as [Hpast|Hrd].
    { right. right. exists i. eexists. rewrite map_dest_past by done. split; [done|].
      split; [by right|]. split_and!; try done. apply unnamed; tauto. }
    destruct (map_dest_spec b n i (rob s) rob' Hal (rat s) Hrat Hrd) as (rat' & -> & Hrat'). cbn [rbind].
    rewrite Hdq. cbn [rbind]. right. left. exists i. eexists. split; [done|]. split; [done|].
    split; [done|]. constructor; cbn;
      [done|by apply named_regs| |eapply loads_inv_keeps; [by eapply allocates_keeps|lia|done]|done|exact Hiq'|done|].
    + constructor; [apply Hal| |done|by constructor].
      intros k'. eapply station_inv_allocate; [exact Hal|congruence|done].
    + intros k'. apply only_fresh_refl.
Qed.

(** ** The loop and the phase *)

Lemma only_fresh_trans st1 st2 st3 : only_fresh st1 st2 -> only_fresh st2 st3 -> only_fresh st1 st3.
Proof.
  unfold only_fresh. intros H12 H23. apply Forall2_same_length_lookup in H12 as [L12 H12].
  apply Forall2_same_length_lookup in H23 as [L23 H23].
  apply Forall2_same_length_lookup. split; [congruence|]. intros j e1 e3 H1 H3.
  destruct (lookup_lt_is_Some_2 (ReservationStation.entries_ st2) j) as [e2 H2].
  { rewrite <- L12. by eapply lookup_lt_Some. }
  destruct (H12 _ _ _ H1 H2) as [->|[? ?]], (H23 _ _ _ H2 H3) as [->|[? ?]]; auto.
Qed.

(** The instruction to dispatch next, number [m], names a register that does not
    exist, and the machine has dispatched the [m] instructions before it. *)
Definition at_unnamed (b m : nat) : Prop :=
  exists n s i, m = (b + n)%nat /\ Inv p [] b n s /\ ins_at m = Some i /\ named i = false.

(** Such an instruction stops the program. *)
Definition register_stop {A} (b : nat) (r : res A) : Prop :=
  exists f m, r = Stop f /\ register_fault f /\ at_unnamed b m.

Lemma dispatch_loop_spec m b n s :
  Inv p [] b n s -> branch_in_flight s = false ->
  register_stop b (dispatch_loop m s) \/
  exists n' s', dispatch_loop m s = Ok s' /\ Inv p [] b n' s' /\ (n <= n' <= n + m)%nat /\
    halted s' = halted s /\ cycle s' = cycle s /\ cdb s' = cdb s /\ last s' = last s /\
    (forall k, only_fresh (station (stations s) k) (station (stations s') k)) /\
    (m <> 0%nat -> n = 0%nat -> InstructionQueue.can_dispatch (iq s) = true -> n' <> 0%nat) /\
    (n' = n -> rob s' = rob s /\ iq s' = iq s /\ branch_in_flight s' = false).
Proof.
  revert n s. induction m as [|m IH]; intros n s HI Hbif; cbn [dispatch_loop].
  { right. exists n, s. split_and!; try done; try lia. intros k. apply only_fresh_refl. }
  pose proof (try_dispatch_spec b n s HI Hbif) as Htd. cbv zeta in Htd.
  destruct Htd as [[Htd Hwhy]|[(i & fr & Htd & Hcan & Hpk & Hd)|(i & f & Htd & Hf & Hcan & Hpk & Hi & Hun)]].
  - assert (exists v, (if InstructionQueue.can_dispatch (iq s)
      then let! i := InstructionQueue.peek (iq s) in Ok (pc i) else Ok 0) = Ok v) as [v ->].
    { destruct (InstructionQueue.can_dispatch (iq s)) eqn:Hcan; [|by exists 0].
      destruct HI as [_ _ _ _ _ Hiq _ _]. rewrite Hbif in Hiq.
      destruct (iq_head b n (iq s) Hiq Hcan) as (i & q' & -> & _). by exists (pc i). }
    cbn [rbind]. rewrite Htd. cbn [rbind negb fr_iq fr_rat fr_rob fr_stations fr_lsb].
    right. exists n, s. split_and!; try done; try lia; [by destruct s| |].
    + intros k. apply only_fresh_refl.
    + intros _ -> Hcan. destruct Hwhy; congruence.
  - rewrite Hcan, Hpk. cbn [rbind]. rewrite Htd. cbn [rbind negb].
    destruct Hd as [Hi Hni Hu Hlds Hrat Hiq Hbr Hfresh]. rewrite Hbr.
    destruct HI as [_ _ Hregs Hm _ _ Hhalt Hnm].
    assert (Hnm' : named_to p (b + S n)).
    { intros k j Hk Hj. destruct (decide (k = b + n)%nat) as [->|]; [congruence|].
      apply (Hnm k j); [lia|done]. }
    destruct (is_control (op i)).
    + right. exists (S n). eexists. split; [done|]. cbn. split_and!; try done; try lia.
      constructor; cbn; try done. apply Hiq. apply u32_range.
    + set (s1 := mkSim _ _ _ _ _ _ _ _ _ _ _ _).
      assert (HI1 : Inv p [] b (S n) s1) by (unfold s1; rewrite Hbif; by constructor).
      destruct (IH (S n) s1 HI1)
        as [Hstop|(n' & s' & Hrun & HI' & Hle & Hh & Hcy & Hcd & Hla & Hfr & _ & _)]; [done|by left|].
      right. exists n', s'. split; [done|]. split; [done|].
      split_and!; try done; try lia. intros k. eapply only_fresh_trans; [apply Hfresh|apply Hfr].
  - rewrite Hcan, Hpk. cbn [rbind]. rewrite Htd. left. exists f, (b + n)%nat.
    split; [done|]. split; [done|]. by exists n, s, i.
Qed.

Lemma fetch_dispatch_phase_spec b n s :
  Inv p [] b n s ->
  register_stop b (fetch_dispatch_phase s) \/
  exists n' s', fetch_dispatch_phase s = Ok s' /\ Inv p [] b n' s' /\ (n <= n')%nat /\
    halted s' = halted s /\ cycle s' = cycle s /\ cdb s' = cdb s /\ last s' = last s /\
    (forall k, only_fresh (station (stations s) k) (station (stations s') k)) /\
    (n' = 0%nat -> halted s = false -> finished s' = true).
Proof.
  intros HI. unfold fetch_dispatch_phase. destruct (halted s) eqn:Hh.
  { rewrite andb_false_r. right. exists n, s. split_and!; try done. intros k. apply only_fresh_refl. }
  destruct (branch_in_flight s) eqn:Hbif; cbn [negb andb].
  { right. exists n, s. split_and!; try done; [intros k; apply only_fresh_refl|].
    intros -> _. destruct HI as [_ _ _ _ _ [_ _ _ Hwait _] _ _].
    destruct (Hwait Hbif) as (_ & m & _ & ? & _). lia. }
  pose proof HI as [Hu Hlds Hregs Hm Hrat Hiq Hhalt Hnm]. rewrite Hbif in Hiq.
  destruct (fetch_loop_spec (Z.to_nat IQ_FETCH_WIDTH) b n (iq s) Hiq) as (q & Hq & Hiq' & Hemp).
  unfold InstructionQueue.tick. rewrite Hq. cbn [rbind].
  set (s1 := mkSim _ _ _ _ _ _ _ _ _ _ _ _).
  rewrite Hh in Hhalt. assert (HI1 : Inv p [] b n s1) by (by constructor).
  destruct (dispatch_loop_spec (Z.to_nat IQ_FETCH_WIDTH) b n s1 HI1)
    as [Hstop|(n' & s' & Hrun & HI' & Hle & Hh' & Hcy & Hcd & Hla & Hfr & Hgo & Hsame)];
    [done|by left|].
  right. exists n', s'. split; [done|]. split; [done|]. split_and!; try done; [lia|].
  intros -> _. assert (n = 0%nat) as -> by lia. destruct (Hsame eq_refl) as (Hrob & Hqs & _).
  assert (Hb : buffer_ q = []).
  { destruct (buffer_ q) eqn:E; [done|]. exfalso. apply Hgo; try done.
    unfold s1, InstructionQueue.can_dispatch. cbn. by rewrite E. }
  destruct (Hemp Hb) as (_ & [?|Hend]); [done|].
  unfold finished. rewrite Hh', Hqs, Hrob. unfold s1. cbn.
  unfold InstructionQueue.done, ReorderBuffer.empty. rewrite Hb, (qi_prog _ _ _ _ _ Hiq').
  rewrite (proj2 (Z.leb_le _ _)) by done. cbn.
  by rewrite (ri_count _ _ _ _ (ui_rob _ _ _ _ _ _ _ Hu)).
Qed.

End Dispatch.
