(* ===== verification/Progress.v ===== *)
(** * Progress of the oldest instruction

    The oldest instruction has all its operands. In its station it executes,
    or waits for the one divide that executes; [patience] bounds the cycles
    left. In the load/store buffer it finishes within the cycle. *)

From S2P Require Import Prelude Words Ring Config Float32 Instruction.
From S2P Require Import RegisterFile RegisterRemappingTable ReorderBuffer.
From S2P Require Import CommonDataBus ReservationStation LoadStoreBuffer.
From S2P Require Import InstructionQueue CommitUnit Simulator ISA.
From S2P Require Import Execute StationFacts LSBFacts Invariant SeqFacts UnitFacts LoadPhase.
From S2P Require Import DispatchPhase.

(** ** How long an entry can still take *)

(** Cycles the executing entries of a station have left, added up. *)
Definition running (e : RSEntry) : Z :=
  if se_busy e && negb (se_done e) then se_cycles_rem e else 0.

Fixpoint exec_sum (es : list RSEntry) : Z :=
  match es with
  | [] => 0
  | e :: es' => running e + exec_sum es'
  end.

(** An upper bound for an entry whose operands are there: a divide may wait
    for another one, any other operation starts at once. *)
Definition patience (es : list RSEntry) (e : RSEntry) : Z :=
  if 0 <? se_cycles_rem e then se_cycles_rem e
  else if op_eqb (se_op e) FDIV_S && (0 <? exec_sum es) then 8 + exec_sum es
  else 16.

Lemma exec_sum_ext es es' :
  Forall2 (fun e e' => running e = running e') es es' ->
  exec_sum es' = exec_sum es.
Proof. induction 1 as [|e e' es es' He _ IH]; [done|]. cbn. by rewrite He, IH. Qed.

Lemma drained_exec_sum st st' :
  drained st st' -> exec_sum (ReservationStation.entries_ st') = exec_sum (ReservationStation.entries_ st).
Proof.
  intros H. apply exec_sum_ext. eapply Forall2_impl; [exact H|].
  intros e e' [->|(Hb & Hd & ->)]; [done|]. unfold running. by rewrite Hb, Hd.
Qed.

Lemma only_fresh_exec_sum st st' :
  only_fresh st st' ->
  exec_sum (ReservationStation.entries_ st') = exec_sum (ReservationStation.entries_ st).
Proof.
  intros H. apply exec_sum_ext. eapply Forall2_impl; [exact H|].
  intros e e' [->|(Hb & Hc)]; [done|]. unfold running. rewrite Hb, Hc. cbn. by destruct (_ && _).
Qed.

Lemma snoop_exec_sum st c :
  exec_sum (ReservationStation.entries_ (ReservationStation.snoop st c)) =
  exec_sum (ReservationStation.entries_ st).
Proof.
  apply exec_sum_ext. apply Forall2_same_length_lookup_2.
  { cbn. rewrite snoop_entries. by rewrite length_fmap. }
  intros j e e' Hj Hj'. rewrite snoop_lookup, Hj in Hj'. injection Hj' as <-.
  destruct (negb (se_busy e) || se_done e); done.
Qed.

(** ** One tick *)

Section Tick.
Context `{FE : FPEnv}.

(** Entries other than divides find their unit free. *)
Lemma fu_busy_not_div o os :
  Forall timing_ok os -> o <> FDIV_S -> is_load o = false -> is_store o = false ->
  is_pipelined o = false -> fu_busy o os = false.
Proof.
  intros Ht Hne Hl Hs Hp. destruct (fu_busy o os) eqn:E; [|done]. exfalso.
  apply existsb_exists in E as (x & Hin & Hx).
  rewrite !andb_true_iff in Hx. destruct Hx as (((_ & _) & Ho) & Hr).
  apply bool_decide_eq_true in Ho. apply Z.ltb_lt in Hr.
  rewrite Forall_forall in Ht. apply list_elem_of_In in Hin. destruct (Ht x Hin) as [Hrem _ _].
  apply Hne, multi_cycle_unpipelined; try done. rewrite <- Ho. lia.
Qed.

(** A ready entry that does not wait for a divide finishes or has fewer
    cycles left. *)
Lemma start_entry_progress os e :
  timing_ok e -> Forall timing_ok os -> se_busy e = true -> se_done e = false ->
  se_qj e = -1 -> se_qk e = -1 -> se_cycles_rem e = 0 ->
  is_pipelined (se_op e) = true \/ fu_busy (se_op e) os = false ->
  let e' := start_entry os e in
  se_done e' = true \/ 0 < se_cycles_rem e' < 8.
Proof.
  intros Ht Hos Hb Hd Hj Hk Hr Hfree. unfold start_entry. rewrite Hb, Hd, Hj, Hk, Hr. cbn [negb orb].
  assert (negb (is_pipelined (se_op e)) && fu_busy (se_op e) os = false) as ->.
  { destruct Hfree as [-> | ->]; [done|apply andb_false_r]. }
  cbn. pose proof (latency_of_bounds (se_op e)).
  destruct (Z.leb_spec (latency_of (se_op e)) 1); cbn; [by left|right; lia].
Qed.

Lemma countdown_progress e :
  timing_ok e -> se_busy e = true -> se_done e = false -> 0 < se_cycles_rem e ->
  se_done (countdown e) = true \/
  (se_done (countdown e) = false /\ 0 < se_cycles_rem (countdown e) /\
   se_cycles_rem (countdown e) = se_cycles_rem e - 1).
Proof.
  intros Ht Hb Hd Hr. unfold countdown. rewrite Hb, Hd. cbn [negb orb].
  destruct (Z.eqb_spec (se_cycles_rem e) 0); [lia|]. cbn.
  destruct (Z.eqb_spec (se_cycles_rem e - 1) 0); cbn; [by left|right]. split_and!; [done|lia|done].
Qed.

Lemma countdown_idle e : se_cycles_rem e = 0 -> countdown e = e.
Proof. intros Hr. unfold countdown. rewrite Hr. by rewrite orb_true_r. Qed.

(** An entry that counts keeps counting through the second pass. *)
Lemma start_entry_running os e : se_cycles_rem e <> 0 -> start_entry os e = e.
Proof.
  intros Hr. unfold start_entry. apply Z.eqb_neq in Hr. rewrite Hr. by rewrite !orb_true_r.
Qed.

Lemma start_entry_done os e : se_done e = true -> start_entry os e = e.
Proof. intros Hd. unfold start_entry. rewrite Hd. by rewrite !orb_true_r. Qed.

(** The counter of a slot through the two passes. *)
Lemma running_range e : timing_ok e -> 0 <= running e < 8.
Proof.
  intros [Hr _ _]. pose proof (latency_of_bounds (se_op e)). unfold running. case_match; lia.
Qed.

Lemma running_countdown e :
  timing_ok e -> running (countdown e) = Z.max 0 (running e - 1) /\
  (0 < running e -> running (countdown e) = 0 -> se_done (countdown e) = true).
Proof.
  intros Ht. pose proof (running_range e Ht) as Hrange. unfold running in *.
  destruct (se_busy e) eqn:Hb, (se_done e) eqn:Hd; cbn [andb negb] in *;
    try (unfold countdown; rewrite ?Hb, ?Hd; cbn; rewrite ?Hb, ?Hd; cbn; split; [done|lia]).
  destruct (Z.eqb_spec (se_cycles_rem e) 0) as [H0|Hne].
  { rewrite countdown_idle, Hb, Hd by done. cbn. split; lia. }
  destruct (countdown_progress e Ht Hb Hd ltac:(lia)) as [Hdone|(Hdone & Hp & Hr)].
  - rewrite Hdone, andb_false_r. split; [|done].
    unfold countdown in Hdone. rewrite Hb, Hd in Hdone. cbn in Hdone.
    apply Z.eqb_neq in Hne. rewrite Hne in Hdone. apply Z.eqb_neq in Hne.
    destruct (Z.eqb_spec (se_cycles_rem e - 1) 0); [lia|]. cbn in Hdone. congruence.
  - rewrite Hdone, Hr. destruct (countdown_same e) as [-> _]. rewrite Hb. cbn. split; lia.
Qed.

Lemma running_start os e : 0 < running e -> start_entry os e = e.
Proof.
  unfold running. intros Hr. apply start_entry_running. destruct (_ && _); lia.
Qed.

Lemma fu_busy_one x :
  (se_busy x = true -> se_op x = FDIV_S) -> fu_busy FDIV_S [x] = (0 <? running x).
Proof.
  intros Hop. unfold fu_busy, running. cbn [existsb]. rewrite orb_false_r.
  destruct (se_busy x) eqn:Hb; [|done]. cbn [andb]. rewrite Hop by done.
  by destruct (se_done x).
Qed.

(** The divider's station has two slots: a ready divide starts, or the other
    one executes and has one cycle less to go. *)
Section Divider.
Context (e0 e1 : RSEntry).
Hypothesis Ht0 : timing_ok e0.
Hypothesis Ht1 : timing_ok e1.
Hypothesis Hop0 : se_busy e0 = true -> se_op e0 = FDIV_S.
Hypothesis Hop1 : se_busy e1 = true -> se_op e1 = FDIV_S.

Let out := start_pass [] [countdown e0; countdown e1].

(** What is asked of the slot that held a ready divide [e]. *)
Definition divide_progress (e e' : RSEntry) : Prop :=
  se_done e' = true \/ patience out e' < patience [e0; e1] e.

Lemma divide_waits e :
  se_op e = FDIV_S -> se_cycles_rem e = 0 -> exec_sum out < exec_sum [e0; e1] \/
  (exec_sum [e0; e1] = 0 /\ exec_sum out < 8) -> 0 < exec_sum out -> divide_progress e e.
Proof.
  intros Ho Hr Hs Hpos. right. unfold patience. rewrite Hr, Ho. cbn [Z.ltb Z.compare].
  change (op_eqb FDIV_S FDIV_S) with true. cbn [andb].
  rewrite (proj2 (Z.ltb_lt 0 (exec_sum out))) by done.
  destruct (Z.ltb_spec 0 (exec_sum [e0; e1])); lia.
Qed.

Lemma divide_starts os e :
  timing_ok e -> se_op e = FDIV_S -> se_busy e = true -> se_done e = false -> se_qj e = -1 ->
  se_qk e = -1 -> se_cycles_rem e = 0 -> 0 <= exec_sum [e0; e1] ->
  fu_busy FDIV_S os = false -> Forall timing_ok os -> divide_progress e (start_entry os e).
Proof.
  intros Ht Ho Hb Hd Hj Hk Hr Hpos Hf Hos.
  destruct (start_entry_progress os e Ht Hos Hb Hd Hj Hk Hr) as [?|Hlt]; [|by left|right].
  { right. by rewrite Ho. }
  unfold patience. rewrite (proj2 (Z.ltb_lt 0 (se_cycles_rem (start_entry os e)))) by lia.
  rewrite Hr. cbn [Z.ltb Z.compare]. destruct (_ && _); lia.
Qed.

Lemma divider_progress j e e' :
  [e0; e1] !! j = Some e -> out !! j = Some e' ->
  se_op e = FDIV_S -> se_busy e = true -> se_done e = false -> se_qj e = -1 -> se_qk e = -1 ->
  se_cycles_rem e = 0 -> divide_progress e e'.
Proof.
  intros Hj Hj' Ho Hb Hd Hqj Hqk Hr.
  assert (Hrun0 : running e = 0) by (unfold running; rewrite Hr; by destruct (_ && _)).
  pose proof (running_range e0 Ht0) as Hr0. pose proof (running_range e1 Ht1) as Hr1.
  destruct (running_countdown e0 Ht0) as [Hc0 Hcd0], (running_countdown e1 Ht1) as [Hc1 Hcd1].
  assert (Hsame : forall x, (se_busy x = true -> se_op x = FDIV_S) ->
    forall y, same_instr x y -> se_busy y = true -> se_op y = FDIV_S).
  { intros x Hx y (Hby & Hoy & _) Hb'. rewrite Hoy. apply Hx. congruence. }
  assert (Hsum : exec_sum [e0; e1] = running e0 + running e1) by (cbn; lia).
  assert (Hout : out = [start_entry [countdown e1] (countdown e0);
    start_entry [start_entry [countdown e1] (countdown e0)] (countdown e1)]) by done.
  destruct j as [|[|j]]; [| |done]; injection Hj as <-; rewrite Hout in Hj'; injection Hj' as <-.
  - rewrite (countdown_idle e0) by done.
    pose proof (fu_busy_one (countdown e1) (Hsame e1 Hop1 _ (countdown_same e1))) as Hfu.
    destruct (Z.ltb_spec 0 (running (countdown e1))) as [Hpos|Hz].
    + assert (start_entry [countdown e1] e0 = e0) as Hst.
      { unfold start_entry. rewrite Ho, Hfu. by destruct (_ || _). }
      rewrite Hst. assert (exec_sum out = running (countdown e1)) as Hs'.
      { rewrite Hout, (countdown_idle e0), Hst by done. cbn.
        rewrite running_start by done. lia. }
      apply divide_waits; rewrite ?Hs', ?Hsum; try done; lia.
    + apply divide_starts; try done; [lia|]. by apply Forall_singleton, countdown_timing.
  - rewrite (countdown_idle e1) by done. set (o0 := start_entry [e1] (countdown e0)).
    assert (Hto : timing_ok o0) by (by apply start_entry_timing, countdown_timing).
    assert (Hfu : fu_busy FDIV_S [o0] = (0 <? running o0)).
    { apply fu_busy_one, (Hsame (countdown e0)); [|apply start_entry_same].
      by apply (Hsame e0), countdown_same. }
    pose proof (running_range o0 Hto) as Hro.
    destruct (Z.ltb_spec 0 (running o0)) as [Hpos|Hz].
    + assert (start_entry [o0] e1 = e1) as Hst.
      { unfold start_entry. rewrite Ho, Hfu. by destruct (_ || _). }
      rewrite Hst. assert (exec_sum out = running o0) as Hs'.
      { rewrite Hout, (countdown_idle e1) by done. fold o0. rewrite Hst. cbn. lia. }
      apply divide_waits; rewrite ?Hs', ?Hsum; try done.
      destruct (Z.lt_ge_cases 0 (running e0)); [left|right; lia].
      destruct (Z.lt_ge_cases 0 (running (countdown e0))) as [Hp0|].
      * unfold o0. rewrite running_start by done. lia.
      * exfalso. unfold o0 in Hpos. rewrite start_entry_done in Hpos; [lia|]. apply Hcd0; lia.
    + apply divide_starts; try done; [lia|]. by apply Forall_singleton.
Qed.

End Divider.

End Tick.

(** ** The oldest instruction over one execute phase *)

Section Oldest.
Context `{FE : FPEnv}.
Context (p : list Instruction) {L : Loads}.

Abbreviation st_at := (st_at p).
Abbreviation ins_at := (ins_at p).

(** Nothing older is left to wait for. *)
Lemma oldest_ready rob b r fp v q : operand_ok p rob [] b b r fp v q -> q = -1.
Proof. intros [[? _]|(s' & Hs' & _ & (Hlt & _) & _)]; [done|lia]. Qed.

Lemma target_div o : target_rs o = Some rs_fp_div -> o = FDIV_S.
Proof. destruct o; done. Qed.

(** The other entries a starting entry looks at satisfy the timing invariant. *)
Lemma others_timing st j :
  Forall timing_ok (ReservationStation.entries_ st) ->
  Forall timing_ok (take j (ReservationStation.entries_ (ReservationStation.tick st)) ++
    drop (S j) (ReservationStation.countdown <$> ReservationStation.entries_ st)).
Proof.
  intros Hts. apply Forall_app. split.
  - apply Forall_take. by apply tick_timing.
  - apply Forall_drop, Forall_fmap. eapply Forall_impl; [exact Hts|]. apply countdown_timing.
Qed.

(** A ready division in the divide station. *)
Lemma division_progress rob b n st j e e' :
  station_inv p rob [] b n rs_fp_div st ->
  ReservationStation.entries_ st !! j = Some e ->
  ReservationStation.entries_ (ReservationStation.tick st) !! j = Some e' ->
  se_busy e = true -> se_done e = false -> se_qj e = -1 -> se_qk e = -1 -> se_cycles_rem e = 0 ->
  se_op e = FDIV_S ->
  se_done e' = true \/
  patience (ReservationStation.entries_ (ReservationStation.tick st)) e' <
  patience (ReservationStation.entries_ st) e.
Proof.
  intros Hst Hj Hj' Hb Hd Hqj Hqk H0 Hdiv.
  pose proof (si_timing _ _ _ _ _ _ _ Hst) as Hts.
  destruct st as [sz cnt es]. cbn [ReservationStation.entries_] in *.
  pose proof (si_size _ _ _ _ _ _ _ Hst) as Hsz. cbn in Hsz.
  pose proof (st_len _ (si_ok _ _ _ _ _ _ _ Hst)) as Hlen. cbn in Hlen. rewrite Hsz in Hlen.
  destruct es as [|e0 [|e1 [|e2 es]]]; cbn in Hlen; try (unfold RS_FP_DIV_SIZE in Hlen; lia).
  assert (Hops : forall x, x ∈ [e0; e1] -> se_busy x = true -> se_op x = FDIV_S).
  { intros x [jx Hx]%list_elem_of_lookup_1 Hbx.
    destruct (si_entries _ _ _ _ _ _ _ Hst jx x Hx Hbx) as (sx & ix & _ & Hex).
    rewrite (se_op_eq _ _ _ _ _ _ _ _ Hex). apply target_div. by eapply se_route. }
  apply Forall_cons in Hts as [Ht0 [Ht1 _]%Forall_cons].
  eapply (divider_progress e0 e1 Ht0 Ht1); eauto.
  - apply Hops. apply elem_of_cons. by left.
  - apply Hops. apply elem_of_cons. right. by apply list_elem_of_singleton.
Qed.

(** Any other ready entry starts. *)
Lemma start_progress rob b n k st j s i e :
  station_inv p rob [] b n k st -> station_entry p rob [] b k s i e ->
  se_busy e = true -> se_done e = false -> se_qj e = -1 -> se_qk e = -1 -> se_cycles_rem e = 0 ->
  op i <> FDIV_S -> timing_ok e ->
  let e' := ReservationStation.start_entry
    (take j (ReservationStation.entries_ (ReservationStation.tick st)) ++
     drop (S j) (ReservationStation.countdown <$> ReservationStation.entries_ st)) e in
  se_done e' = true \/ 0 < se_cycles_rem e' < 8.
Proof.
  intros Hst Hen Hb Hd Hqj Hqk H0 Hnd Ht.
  pose proof (others_timing st j (si_timing _ _ _ _ _ _ _ Hst)) as Hos.
  apply start_entry_progress; try done.
  destruct (target_rs_not_mem _ _ (se_route _ _ _ _ _ _ _ _ Hen)) as [Hl Hs'].
  rewrite <- (se_op_eq _ _ _ _ _ _ _ _ Hen) in Hl, Hs', Hnd.
  destruct (is_pipelined (se_op e)) eqn:Hp; [by left|right]. by apply fu_busy_not_div.
Qed.

Lemma tick_progress rob b n k st j e e' :
  station_inv p rob [] b n k st ->
  ReservationStation.entries_ st !! j = Some e ->
  ReservationStation.entries_ (ReservationStation.tick st) !! j = Some e' ->
  se_busy e = true -> se_rob_tag e = tag b -> in_win b n b -> rob_inv p b n rob ->
  se_done e' = true \/
  patience (ReservationStation.entries_ (ReservationStation.tick st)) e' <
  patience (ReservationStation.entries_ st) e.
Proof.
  intros Hst Hj Hj' Hb Htag Hwin Hr.
  destruct (si_entries _ _ _ _ _ _ _ Hst j e Hj Hb) as (s & i & Hs & Hen).
  assert (s = b) as ->.
  { eapply slot_inj; eauto. rewrite <- Htag. symmetry. apply Hen. }
  pose proof (oldest_ready _ _ _ _ _ _ (se_j _ _ _ _ _ _ _ _ Hen)) as Hqj.
  pose proof (oldest_ready _ _ _ _ _ _ (se_k _ _ _ _ _ _ _ _ Hen)) as Hqk.
  pose proof (si_timing _ _ _ _ _ _ _ Hst) as Hts.
  assert (Ht : timing_ok e) by (by eapply Forall_lookup_1).
  rewrite (tick_lookup_fwd st j e Hj) in Hj'. injection Hj' as Hj'.
  set (os := take j _ ++ drop _ _) in Hj'.
  destruct (se_done e) eqn:Hd.
  { left. subst e'. rewrite start_entry_done; unfold countdown; rewrite Hd, orb_true_r; done. }
  destruct (Z.eq_dec (se_cycles_rem e) 0) as [H0|Hne].
  - rewrite countdown_idle in Hj' by done.
    destruct (decide (op i = FDIV_S)) as [Hdiv|Hnd].
    + rewrite <- (se_op_eq _ _ _ _ _ _ _ _ Hen) in Hdiv.
      pose proof (se_route _ _ _ _ _ _ _ _ Hen) as Hrt.
      rewrite <- (se_op_eq _ _ _ _ _ _ _ _ Hen), Hdiv in Hrt. injection Hrt as <-.
      eapply division_progress; eauto. rewrite (tick_lookup_fwd st j e Hj), countdown_idle by done.
      by rewrite <- Hj'.
    + destruct (start_progress rob b n k st j b i e Hst Hen) as [?|Hlt]; try done.
      * left. by subst e'.
      * right. assert (0 < se_cycles_rem e' < 8) by (rewrite <- Hj'; exact Hlt). unfold patience.
        rewrite (proj2 (Z.ltb_lt 0 (se_cycles_rem e'))) by lia.
        rewrite H0. cbn [Z.ltb Z.compare]. rewrite (se_op_eq _ _ _ _ _ _ _ _ Hen).
        unfold op_eqb. rewrite bool_decide_eq_false_2 by done. cbn. lia.
  - assert (0 < se_cycles_rem e) as Hpos by (destruct Ht; lia).
    destruct (countdown_progress e Ht Hb Hd Hpos) as [Hdn|(Hdn & Hp & Hrem)].
    + left. subst e'. by rewrite start_entry_done.
    + right. rewrite start_entry_running in Hj' by lia. subst e'. unfold patience.
      rewrite (proj2 (Z.ltb_lt 0 (se_cycles_rem (countdown e)))) by done.
      rewrite (proj2 (Z.ltb_lt 0 (se_cycles_rem e))) by done. lia.
Qed.

(** ** The oldest memory instruction *)

Lemma oldest_mem_done rob b i e q m :
  lsb_entry p rob [] b b i e ->
  exists e' q', tick_queue m (e :: q) = e' :: q' /\ le_state e' = DONE /\
    le_op e' = op i /\ le_rob_tag e' = tag b.
Proof.
  intros He. pose proof (oldest_ready _ _ _ _ _ _ (le_j _ _ _ _ _ _ _ He)) as Hqj.
  pose proof (oldest_ready _ _ _ _ _ _ (le_k _ _ _ _ _ _ _ He)) as Hqk.
  pose proof (le_not_idle _ _ _ _ _ _ _ He) as Hni. pose proof (le_not_executing _ _ _ _ _ _ _ He) as Hx.
  pose proof (le_mem _ _ _ _ _ _ _ He) as Hm. pose proof (le_op_eq _ _ _ _ _ _ _ He) as Ho.
  pose proof (le_tag_eq _ _ _ _ _ _ _ He) as Ht.
  unfold tick_queue. cbn [fmap list_fmap imap]. eexists _, _. split; [done|].
  destruct e as [stt o t vj vk qj qk im rfp ea cr rs pcc]; cbn in *. subst.
  destruct stt; try done; destruct (op i); done.
Qed.

End Oldest.
