(* ===== verification/Cycle.v ===== *)
(** * One clock cycle

    The four phases composed: a cycle never stops, keeps the invariant, commits
    at most one instruction, and brings the oldest one closer to its commit. The
    loads that finish in the cycle extend the run. *)

From S2P Require Import Prelude Words Ring Config Float32 Instruction.
From S2P Require Import RegisterFile RegisterRemappingTable ReorderBuffer.
From S2P Require Import CommonDataBus ReservationStation LoadStoreBuffer.
From S2P Require Import InstructionQueue CommitUnit Simulator ISA.
From S2P Require Import Execute StationFacts LSBFacts Invariant SeqFacts UnitFacts LoadPhase.
From S2P Require Import LoadValues ExecutePhase SnoopPhase CommitPhase DispatchPhase Progress.

Section Cycle.
Context `{FE : FPEnv}.
Context (p : list Instruction) (Hwf : wf_program p) {L : Loads}.

Abbreviation ins_at := (ins_at p).
Abbreviation Inv := (Inv p).

(** ** The oldest instruction in the execute phase *)

Section Oldest.
Context (b n : nat) (s s' : Sim).
Hypothesis HI : Inv [] b n s.
Hypothesis HI' : Inv (results (cdb s')) b n s'.
Hypothesis Hb : in_win b n b.

(** It sits in a station, unfinished: the drain loop left it alone, and it has
    fewer cycles to go. *)
Lemma oldest_in_station k i :
  ins_at b = Some i -> target_rs (op i) = Some k -> inflight (rob s) b -> inflight (rob s') b ->
  ReservationStation.has_result (station (stations s') k) = false ->
  drained (ReservationStation.tick (station (stations s) k)) (station (stations s') k) ->
  exists j e e', ReservationStation.entries_ (station (stations s) k) !! j = Some e /\
    se_busy e = true /\ se_rob_tag e = tag b /\
    ReservationStation.entries_ (station (stations s') k) !! j = Some e' /\
    se_busy e' = true /\ se_rob_tag e' = tag b /\
    patience (ReservationStation.entries_ (station (stations s') k)) e' <
    patience (ReservationStation.entries_ (station (stations s) k)) e.
Proof.
  intros Hi Hrt Hf Hf' Hres Hdr.
  pose proof (inv_units _ _ _ _ _ HI) as [Hr Hs _ _].
  pose proof (inv_units _ _ _ _ _ HI') as [_ Hs' _ _].
  destruct (si_placed _ _ _ _ _ _ _ (Hs k) b i Hb Hi Hrt Hf) as (j & e & Hj & Hbe & Htag).
  pose proof (station_inv_tick p _ _ _ _ _ _ (Hs k)) as Htk.
  destruct (lookup_lt_is_Some_2
    (ReservationStation.entries_ (ReservationStation.tick (station (stations s) k))) j) as [e1 Hj1].
  { rewrite tick_length. by eapply lookup_lt_Some. }
  destruct (tick_same _ _ _ Hj1) as (x & Hx & Hsame). rewrite Hj in Hx. injection Hx as <-.
  destruct Hsame as (Hb1 & _ & Ht1 & _). rewrite Hbe in Hb1. rewrite Htag in Ht1.
  destruct (si_placed _ _ _ _ _ _ _ (Hs' k) b i Hb Hi Hrt Hf') as (j2 & e2 & Hj2 & Hb2 & Ht2).
  destruct (Forall2_lookup_r _ _ _ _ _ Hdr Hj2) as (y & Hy & Hye).
  destruct Hye as [<-|(_ & _ & ->)]; [|done].
  assert (j2 = j) as -> by (eapply (si_unique _ _ _ _ _ _ _ Htk); eauto; congruence).
  rewrite Hj1 in Hy. injection Hy as <-.
  assert (Hnd : se_done e1 = false).
  { pose proof (Forall_lookup_1 _ _ _ _ (has_result_false _ Hres) Hj2) as E. cbn in E.
    by rewrite Hb2 in E. }
  exists j, e, e1. split_and!; try done.
  destruct (tick_progress p (rob s) b n k _ j e e1 (Hs k) Hj Hj1 Hbe Htag Hb Hr); [congruence|].
  unfold patience at 1. rewrite (drained_exec_sum _ _ Hdr). done.
Qed.

(** A sorted list of instructions that contains the oldest begins with it. *)
Lemma oldest_first ss s0 :
  (forall j k x x', (j < k)%nat -> (s0 :: ss) !! j = Some x -> (s0 :: ss) !! k = Some x' -> (x < x')%nat) ->
  b ∈ s0 :: ss -> in_win b n s0 -> s0 = b.
Proof.
  intros Ho Hin Hw0. apply list_elem_of_lookup_1 in Hin as [[|jb] Hjb]; [by injection Hjb|].
  pose proof (Ho 0%nat (S jb) s0 b ltac:(lia) eq_refl Hjb). unfold in_win in Hw0. lia.
Qed.

(** A memory instruction is at the head of the load/store buffer and finishes
    within the phase. *)
Lemma oldest_not_in_lsb ns i :
  lsb_list p (rob s) [] b n ns (LSBFacts.queue (lsb s)) ->
  loads_follow (mem s) ns (LSBFacts.queue (lsb s)) ->
  ins_at b = Some i -> is_mem (op i) = true -> inflight (rob s) b -> inflight (rob s') b ->
  ~ completed (rob s') b ->
  head_done is_load (LSBFacts.queue (lsb s')) = false ->
  (exists popped, tick_queue (mem s) (LSBFacts.queue (lsb s)) = popped ++ LSBFacts.queue (lsb s')) ->
  (forall j e i, tick_queue (mem s) (LSBFacts.queue (lsb s)) !! j = Some e -> in_win b n i ->
     le_rob_tag e = tag i -> is_store (le_op e) = true -> le_state e = DONE ->
     completed (rob s') i) ->
  False.
Proof.
  intros Hlist Hfol Hi Hm Hf Hf' Hnc Hhd (popped & Hpop) Hstore.
  pose proof (inv_units _ _ _ _ _ HI) as [Hr _ Hl _].
  pose proof (inv_units _ _ _ _ _ HI') as [_ _ Hl' _].
  pose proof Hlist as (Hfa & Ho & Ha).
  assert (Hin : b ∈ ns) by (apply (Ha b i); auto).
  pose proof (li_entries _ _ _ _ _ _ Hl') as (ss' & Hfa' & Ho' & Ha').
  assert (Hin' : b ∈ ss') by (apply (Ha' b i); auto).
  pose proof (lsb_list_tick p (rob s) [] b n (rob_window _ _ _ _ Hr) (mem s) _ _
    (inv_mem _ _ _ _ _ HI) Hlist Hfol) as (Hft & Hot & _).
  destruct ns as [|s0 ns]; [by apply elem_of_nil in Hin|].
  destruct (LSBFacts.queue (lsb s)) as [|e q] eqn:Hq; [by inversion Hfa|].
  pose proof Hfa as [(Hw0 & i0 & He0) _]%Forall2_cons.
  rewrite (oldest_first _ _ Ho Hin Hw0) in *.
  pose proof (le_instr _ _ _ _ _ _ _ He0) as Hi0. rewrite Hi in Hi0. injection Hi0 as <-.
  destruct (oldest_mem_done p (rob s) b i e q (mem s) He0) as (e' & q' & Htq & Hd & Hop & Htag).
  destruct (is_store (op i)) eqn:Hst.
  { apply Hnc. apply (Hstore 0%nat e' b); try congruence; try done. by rewrite Htq. }
  assert (Hld : is_load (op i) = true).
  { unfold is_mem in Hm. by rewrite Hst, orb_false_r in Hm. }
  (* the finished load is still at the head, but the drain loop took it *)
  destruct ss' as [|s1 ss']; [by apply elem_of_nil in Hin'|].
  destruct (LSBFacts.queue (lsb s')) as [|e1 q1] eqn:Hq1; [by inversion Hfa'|].
  pose proof Hfa' as [(Hw1 & i1 & He1) _]%Forall2_cons.
  rewrite (oldest_first _ _ Ho' Hin' Hw1) in *.
  destruct popped as [|x popped].
  { rewrite Htq in Hpop. injection Hpop as <- _. cbn in Hhd.
    rewrite bool_decide_eq_true_2, Hop, Hld in Hhd by done. done. }
  assert (tick_queue (mem s) (e :: q) !! length (x :: popped) = Some e1) as Hl1.
  { rewrite Hpop, lookup_app_r by done. by rewrite Nat.sub_diag. }
  destruct (Forall2_lookup_r _ _ _ _ _ Hft Hl1) as (s2 & Hs2 & Hw2 & i2 & He2).
  assert (s2 = b) as ->.
  { eapply slot_inj; eauto. apply le_tag_eq in He1, He2. congruence. }
  assert (Hlt : (0 < length (x :: popped))%nat) by (cbn; lia).
  pose proof (Hot 0%nat (length (x :: popped)) b b Hlt eq_refl Hs2). lia.
Qed.

End Oldest.

(** The oldest instruction is still there after the execute phase only if it
    sits in a station, unfinished and with fewer cycles to go. *)
Lemma oldest_after_execute b n s s' ns :
  lsb_list p (rob s) [] b n ns (LSBFacts.queue (lsb s)) ->
  loads_follow (mem s) ns (LSBFacts.queue (lsb s)) ->
  Inv [] b n s -> Inv (results (cdb s')) b n s' -> n <> 0%nat -> ~ completed (rob s') b ->
  (forall k, ReservationStation.has_result (station (stations s') k) = false) ->
  (forall k, drained (ReservationStation.tick (station (stations s) k)) (station (stations s') k)) ->
  keeps_completed b n (rob s) (rob s') ->
  head_done is_load (LSBFacts.queue (lsb s')) = false ->
  (exists popped, tick_queue (mem s) (LSBFacts.queue (lsb s)) = popped ++ LSBFacts.queue (lsb s')) ->
  (forall j e i, tick_queue (mem s) (LSBFacts.queue (lsb s)) !! j = Some e -> in_win b n i ->
     le_rob_tag e = tag i -> is_store (le_op e) = true -> le_state e = DONE ->
     completed (rob s') i) ->
  exists k j e e', ReservationStation.entries_ (station (stations s) k) !! j = Some e /\
    se_busy e = true /\ se_rob_tag e = tag b /\
    ReservationStation.entries_ (station (stations s') k) !! j = Some e' /\
    se_busy e' = true /\ se_rob_tag e' = tag b /\
    patience (ReservationStation.entries_ (station (stations s') k)) e' <
    patience (ReservationStation.entries_ (station (stations s) k)) e.
Proof.
  intros Hns Hfol HI HI' Hn Hnc Hres Hdr Hkc Hhd Hpop Hstore.
  pose proof (inv_units _ _ _ _ _ HI) as [Hr _ _ _].
  pose proof (inv_units _ _ _ _ _ HI') as [Hr' _ _ _].
  assert (Hb : in_win b n b) by (unfold in_win; lia).
  destruct (slot_cases p b n (rob s') b Hr' Hb) as [Hf'|?]; [|done].
  assert (Hf : inflight (rob s) b).
  { destruct (slot_cases p b n (rob s) b Hr Hb) as [?|Hc]; [done|]. exfalso. by apply Hnc, Hkc. }
  destruct (ri_slots _ _ _ _ Hr b Hb) as (re & _ & [(i & Hi & _) _]).
  destruct (target_rs (op i)) as [k|] eqn:Hrt.
  - exists k. by eapply oldest_in_station.
  - exfalso. apply target_rs_mem in Hrt. by eapply (oldest_not_in_lsb b n s s').
Qed.

(** How long the oldest instruction can still take, at most 16 cycles. *)
Definition patient (b : nat) (s : Sim) (m : Z) : Prop :=
  forall k j e, ReservationStation.entries_ (station (stations s) k) !! j = Some e ->
    se_busy e = true -> se_rob_tag e = tag b ->
    patience (ReservationStation.entries_ (station (stations s) k)) e <= m.

(** A tag names one entry of one station. *)
Lemma oldest_unique c b n s k j e k' j' e' :
  Inv c b n s ->
  ReservationStation.entries_ (station (stations s) k) !! j = Some e ->
  ReservationStation.entries_ (station (stations s) k') !! j' = Some e' ->
  se_busy e = true -> se_busy e' = true -> se_rob_tag e = se_rob_tag e' -> k' = k /\ j' = j.
Proof.
  intros [[Hr Hs _ _] _ _ _ _ _ _] Hj Hj' Hb Hb' Ht.
  destruct (si_entries _ _ _ _ _ _ _ (Hs k) j e Hj Hb) as (x & i & Hx & Hen).
  destruct (si_entries _ _ _ _ _ _ _ (Hs k') j' e' Hj' Hb') as (x' & i' & Hx' & Hen').
  assert (x' = x) as ->.
  { eapply slot_inj; eauto. apply se_tag_eq in Hen, Hen'. congruence. }
  pose proof (se_instr _ _ _ _ _ _ _ _ Hen) as Hi. pose proof (se_instr _ _ _ _ _ _ _ _ Hen') as Hi'.
  rewrite Hi in Hi'. injection Hi' as <-.
  pose proof (se_route _ _ _ _ _ _ _ _ Hen) as Hrt. pose proof (se_route _ _ _ _ _ _ _ _ Hen') as Hrt'.
  rewrite Hrt in Hrt'. injection Hrt' as <-. split; [done|].
  eapply (si_unique _ _ _ _ _ _ _ (Hs k)); eauto.
Qed.

(** ** The cycle *)

(** What a cycle does to the window [(b, n)]. *)
Inductive cycle_result (b n : nat) (s s' : Sim) : nat -> nat -> Prop :=
| cycle_waits n' :
    halted s' = false -> cr_valid (last s') = false -> (n <= n')%nat ->
    (forall m, n <> 0%nat -> patient b s m -> patient b s' (m - 1) /\ 1 < m) ->
    (n' = 0%nat -> finished s' = true) ->
    cycle_result b n s s' b n'
| cycle_commits n' i :
    ins_at b = Some i ->
    last s' = mkCommitRecord true (op i) (rd i) (rd_fp i) (res_at p b) (pc i) ->
    n <> 0%nat -> (n - 1 <= n')%nat ->
    (n' = 0%nat -> halted s' = false -> finished s' = true) ->
    cycle_result b n s s' (S b) n'.

(** Between the execute phase and the end of the cycle, snooping and dispatch
    leave an unfinished entry's progress as it is. *)
Lemma patience_kept b j e' st1 st2 st4 c :
  ReservationStation.entries_ st1 !! j = Some e' -> se_busy e' = true -> se_rob_tag e' = tag b ->
  st2 = ReservationStation.snoop st1 c -> only_fresh st2 st4 ->
  exists e4, ReservationStation.entries_ st4 !! j = Some e4 /\
    se_busy e4 = true /\ se_rob_tag e4 = tag b /\
    patience (ReservationStation.entries_ st4) e4 = patience (ReservationStation.entries_ st1) e'.
Proof.
  intros Hj Hb Ht -> Hfr. pose proof (snoop_lookup st1 c j) as Hlk. rewrite Hj in Hlk. cbn in Hlk.
  destruct (Forall2_lookup_l _ _ _ _ _ Hfr Hlk) as (e4 & Hj4 & He4).
  assert (He4' : se_busy e4 = true /\ se_rob_tag e4 = tag b /\
    se_cycles_rem e4 = se_cycles_rem e' /\ se_op e4 = se_op e').
  { destruct (negb (se_busy e') || se_done e');
      (destruct He4 as [->|[Hbad _]]; [done|cbn in Hbad; congruence]). }
  destruct He4' as (Hb4 & Ht4 & Hr4 & Ho4). exists e4. split_and!; try done.
  unfold patience. by rewrite Hr4, Ho4, (only_fresh_exec_sum _ _ Hfr), snoop_exec_sum.
Qed.

Lemma patience_positive es e : 0 < patience es e.
Proof.
  unfold patience. destruct (Z.ltb_spec 0 (se_cycles_rem e)); [done|].
  destruct (Z.ltb_spec 0 (exec_sum es)); rewrite ?andb_false_r; [case_match; lia|done].
Qed.

(** At the start of a commit the oldest instruction has 16 cycles at most. *)
Lemma patient_16 b n s : Inv [] b n s -> n <> 0%nat -> patient b s 16.
Proof.
  intros HI Hn k j e Hj Hb Ht. pose proof (inv_units _ _ _ _ _ HI) as [Hr Hs _ _].
  pose proof (si_timing _ _ _ _ _ _ _ (Hs k)) as Hts.
  assert (Hte : timing_ok e) by (by eapply Forall_lookup_1).
  pose proof (latency_of_bounds (se_op e)) as Hlat. unfold patience.
  destruct (Z.ltb_spec 0 (se_cycles_rem e)); [destruct Hte; lia|].
  unfold op_eqb. destruct (bool_decide_reflect (se_op e = FDIV_S)) as [Hdiv|]; [|done]. cbn [andb].
  destruct (Z.ltb_spec 0 (exec_sum (ReservationStation.entries_ (station (stations s) k)))); [|done].
  destruct (si_entries _ _ _ _ _ _ _ (Hs k) j e Hj Hb) as (x & i & _ & Hen).
  pose proof (se_route _ _ _ _ _ _ _ _ Hen) as Hrt.
  rewrite <- (se_op_eq _ _ _ _ _ _ _ _ Hen), Hdiv in Hrt. injection Hrt as <-.
  pose proof (si_size _ _ _ _ _ _ _ (Hs rs_fp_div)) as Hsz.
  pose proof (st_len _ (si_ok _ _ _ _ _ _ _ (Hs rs_fp_div))) as Hlen. rewrite Hsz in Hlen.
  destruct (ReservationStation.entries_ (station (stations s) rs_fp_div)) as [|e0 [|e1 [|e2 es]]];
    cbn in Hlen; try (unfold RS_FP_DIV_SIZE in Hlen; lia).
  apply Forall_cons in Hts as [Ht0 [Ht1 _]%Forall_cons].
  pose proof (running_range e0 Ht0). pose proof (running_range e1 Ht1).
  assert (running e = 0) by (unfold running; case_match; [destruct Hte; lia|done]).
  destruct j as [|[|j]]; [| |done]; injection Hj as ->; cbn in *; lia.
Qed.

(** ** The phases together *)

(** The execute and snoop phases, and what they leave of the oldest
    instruction when it does not commit. *)
Lemma cycle_front b n s ns :
  Inv [] b n s -> cdb s = CommonDataBus.init -> halted s = false ->
  lsb_list p (rob s) [] b n ns (LSBFacts.queue (lsb s)) ->
  loads_follow (mem s) ns (LSBFacts.queue (lsb s)) ->
  exists s1 s2, execute_phase s = Ok s1 /\ snoop_phase s1 = Ok s2 /\ Inv [] b n s2 /\
    halted s2 = false /\ cycle s2 = cycle s /\
    (n <> 0%nat -> ~ completed (rob s2) b ->
     forall s4 m, (forall k, only_fresh (station (stations s2) k) (station (stations s4) k)) ->
       patient b s m -> 1 < m /\
       exists k j e4, ReservationStation.entries_ (station (stations s4) k) !! j = Some e4 /\
         se_busy e4 = true /\ se_rob_tag e4 = tag b /\
         patience (ReservationStation.entries_ (station (stations s4) k)) e4 <= m - 1).
Proof.
  intros HI Hcdb Hnh Hns Hfol.
  destruct (execute_phase_spec p Hwf b n s ns HI Hcdb Hns Hfol)
    as (s1 & Hs1 & HI1 & Hh1 & _ & _ & Hcy1 & Hres & Hdr & Hkc & Hhd & Hpop & Hst).
  destruct (snoop_phase_spec p Hwf b n s1 HI1)
    as (s2 & Hs2 & HI2 & Hrob2 & _ & Hh2 & _ & _ & Hcy2 & _ & Hss2).
  exists s1, s2. split_and!; [done..|congruence|congruence|].
  intros Hn Hnc s4 m Hfr Hpat. rewrite Hrob2 in Hnc.
  destruct (oldest_after_execute b n s s1 ns Hns Hfol HI HI1 Hn Hnc Hres Hdr Hkc Hhd Hpop Hst)
    as (k & j & e & e' & Hj & Hb & Ht & Hj' & Hb' & Ht' & Hlt).
  pose proof (Hpat k j e Hj Hb Ht) as Hle.
  destruct (patience_kept b j e' _ _ _ (cdb s1) Hj' Hb' Ht' (Hss2 k) (Hfr k))
    as (e4 & Hj4 & Hb4 & Ht4 & Hp4).
  pose proof (patience_positive (ReservationStation.entries_ (station (stations s1) k)) e').
  split; [lia|]. exists k, j, e4. split_and!; try done. lia.
Qed.

(** A cycle of a state whose run has the loads that finish in it. *)
Lemma step_cycle_follows b n s ns :
  Inv [] b n s -> cdb s = CommonDataBus.init -> halted s = false ->
  lsb_list p (rob s) [] b n ns (LSBFacts.queue (lsb s)) ->
  loads_follow (mem s) ns (LSBFacts.queue (lsb s)) ->
  (exists b', (b <= b')%nat /\ register_stop p b' (step_cycle s)) \/
  exists s' b' n', step_cycle s = Ok s' /\ Inv [] b' n' s' /\ cdb s' = CommonDataBus.init /\
    cycle s' = cycle s + 1 /\ cycle_result b n s s' b' n'.
Proof.
  intros HI Hcdb Hnh Hns Hfol. unfold step_cycle.
  destruct (cycle_front b n s ns HI Hcdb Hnh Hns Hfol)
    as (s1 & s2 & -> & Hs2 & HI2 & Hh2 & Hcy2 & Hold). cbn [rbind]. rewrite Hs2. cbn [rbind].
  destruct (commit_phase_spec p Hwf b n s2 HI2 Hh2) as (s3 & -> & Hcy3 & _ & Hss3 & Hcase). cbn [rbind].
  assert (exists b3 n3, Inv [] b3 n3 s3 /\ (b <= b3)%nat /\ ((b3 = b /\ n3 = n /\ halted s3 = false /\
     (n = 0%nat \/ ~ completed (rob s2) b) /\ cr_valid (last s3) = false) \/
     (b3 = S b /\ n = S n3 /\ exists i, ins_at b = Some i /\
        last s3 = mkCommitRecord true (op i) (rd i) (rd_fp i) (res_at p b) (pc i))))
    as (b3 & n3 & HI3 & Hb3 & Hcase').
  { destruct Hcase as [(HI3 & ? & ? & ?)|(n3 & i & -> & HI3 & ? & ?)];
      [exists b, n|exists (S b), n3]; eauto 12. }
  destruct (fetch_dispatch_phase_spec p Hwf b3 n3 s3 HI3)
    as [(f & m & -> & Hf & Hun)|(n4 & s4 & -> & HI4 & Hle & Hh4 & Hcy4 & _ & Hla4 & Hfr & Hfin)];
    cbn [rbind].
  { left. exists b3. split; [done|]. by exists f, m. }
  right. exists (end_cycle s4), b3, n4. split; [done|].
  assert (HI5 : Inv [] b3 n4 (end_cycle s4)) by (destruct HI4; by constructor).
  split; [done|]. split; [done|]. split; [cbn; congruence|].
  destruct Hcase' as [(-> & -> & Hh3 & Hwhy & Hinv)|(-> & -> & i & Hi & Hla)].
  - apply cycle_waits; [cbn; congruence|cbn; congruence|done| |].
    + intros m Hn Hpat. destruct Hwhy as [?|Hnc]; [done|].
      destruct (Hold Hn Hnc s4 m) as (Hm & k & j & e4 & Hj4 & Hb4 & Ht4 & Hp4);
        [intros k; rewrite <- Hss3; apply Hfr|done|]. split; [|done].
      intros k' j' x Hx Hbx Htx. cbn [end_cycle stations] in *.
      destruct (oldest_unique [] b n4 s4 k j e4 k' j' x HI4) as [-> ->]; try done; [congruence|].
      rewrite Hj4 in Hx. injection Hx as <-. lia.
    + intros E. exact (Hfin E Hh3).
  - apply (cycle_commits _ _ _ _ _ i); [done|cbn; congruence|done|lia|].
    intros E Hh. apply Hfin; [done|]. cbn in Hh. congruence.
Qed.

End Cycle.

(** Some run relates the state to the window [(b, n)]. *)
Definition related `{FE : FPEnv} (p : list Instruction) (b n : nat) (s : Sim) : Prop :=
  exists L : Loads, Inv p (L := L) [] b n s.

(** Instruction [m] of the run names a register that does not exist, [b] or more
    instructions having committed. *)
Definition unnamed_from `{FE : FPEnv} (p : list Instruction) (L : Loads) (b : nat) (f : Fault) : Prop :=
  register_fault f /\ exists b' m, (b <= b')%nat /\ at_unnamed p (L := L) b' m.

(** One cycle: the state after it belongs to a run that agrees with the one
    before it on what has been committed; or dispatch meets an instruction
    whose registers do not exist. *)
Lemma step_cycle_cases `{FE : FPEnv} (p : list Instruction) (Hwf : wf_program p) {L : Loads} b n s :
  Inv p [] b n s -> cdb s = CommonDataBus.init -> halted s = false ->
  exists L' : Loads, agree_to b L L' /\
    match step_cycle s with
    | Ok s' => exists b' n', Inv p (L := L') [] b' n' s' /\
        cdb s' = CommonDataBus.init /\ cycle s' = cycle s + 1 /\ cycle_result p (L := L') b n s s' b' n'
    | Stop f => unnamed_from p L' b f
    end.
Proof.
  intros HI Hcdb Hnh. destruct (li_entries _ _ _ _ _ _ (ui_lsb _ _ _ _ _ _ _ (inv_units _ _ _ _ _ HI)))
    as (ns & Hns).
  destruct (next_loads_inv p b n s HI ns Hns) as (HI' & Hns' & Hfol & Hag).
  exists (next_loads L ns (tick_queue (mem s) (LSBFacts.queue (lsb s)))). split; [done|].
  destruct (step_cycle_follows p Hwf b n s ns HI' Hcdb Hnh Hns' Hfol)
    as [(b' & Hle & f & m & -> & Hf & Hun)|(s' & b' & n' & -> & ? & ? & ? & ?)].
  - split; [done|]. by exists b', m.
  - by exists b', n'.
Qed.

Lemma unnamed_from_le `{FE : FPEnv} (p : list Instruction) (L : Loads) b b' f :
  unnamed_from p L b' f -> (b <= b')%nat -> unnamed_from p L b f.
Proof. intros (Hf & b1 & m & Hle & Hun) Hb. split; [done|]. exists b1, m. split; [lia|done]. Qed.

Lemma cycle_result_le `{FE : FPEnv} (p : list Instruction) {L : Loads} b n s s' b' n' :
  cycle_result p b n s s' b' n' -> (b <= b')%nat.
Proof. intros []; lia. Qed.

Lemma unnamed_from_named `{FE : FPEnv} (p : list Instruction) (L : Loads) b f :
  all_named p -> ~ unnamed_from p L b f.
Proof.
  intros Hn (_ & b' & m & _ & n & s & i & -> & _ & Hi & Hun).
  pose proof (Forall_lookup_1 _ _ _ _ Hn Hi) as H. cbn in H. congruence.
Qed.

Lemma step_cycle_spec `{FE : FPEnv} (p : list Instruction) (Hwf : wf_program p) (Hn : all_named p)
    {L : Loads} b n s :
  Inv p [] b n s -> cdb s = CommonDataBus.init -> halted s = false ->
  exists s' b' n' (L' : Loads), step_cycle s = Ok s' /\ Inv p (L := L') [] b' n' s' /\
    cdb s' = CommonDataBus.init /\ cycle s' = cycle s + 1 /\
    cycle_result p (L := L') b n s s' b' n' /\ agree_to b L L'.
Proof.
  intros HI Hcdb Hnh. destruct (step_cycle_cases p Hwf b n s HI Hcdb Hnh) as (L' & Hag & Hcase).
  destruct (step_cycle s) as [s'|f]; [|by apply unnamed_from_named in Hcase].
  destruct Hcase as (b' & n' & ? & ? & ? & ?). by exists s', b', n', L'.
Qed.

Lemma execute_phase_runs `{FE : FPEnv} (p : list Instruction) (Hwf : wf_program p) {L : Loads} b n s :
  Inv p [] b n s -> cdb s = CommonDataBus.init ->
  exists s', execute_phase s = Ok s' /\ cycle s' = cycle s.
Proof.
  intros HI Hcdb. destruct (li_entries _ _ _ _ _ _ (ui_lsb _ _ _ _ _ _ _ (inv_units _ _ _ _ _ HI)))
    as (ns & Hns).
  destruct (next_loads_inv p b n s HI ns Hns) as (HI' & Hns' & Hfol & _).
  destruct (execute_phase_spec p Hwf b n s ns HI' Hcdb Hns' Hfol) as (s' & ? & _ & _ & _ & _ & ? & _).
  by exists s'.
Qed.
