(* ===== verification/Coherence.v ===== *)
(** * Load values and the sequential machine

    What the loads of a run return, without the units: memory as it was at most
    15 instructions before, or the data of a store forwarded from there. When a
    program's loads keep clear of hazards this is the word in memory, and the
    run is that of the sequential machine. *)

From S2P Require Import Prelude Words Ring Config Float32 Instruction.
From S2P Require Import RegisterFile RegisterRemappingTable ReorderBuffer.
From S2P Require Import CommonDataBus ReservationStation LoadStoreBuffer.
From S2P Require Import InstructionQueue CommitUnit Simulator ISA.
From S2P Require Import StationFacts LSBFacts Invariant SeqFacts UnitFacts LoadPhase.

(** ** What a load can return *)

Section Values.
Context `{FE : FPEnv}.
Context (p : list Instruction) {L : Loads}.

Abbreviation st_at := (st_at p).
Abbreviation ins_at := (ins_at p).
Abbreviation addr_of := (addr_of p).

(** Load [s] returns [v], seen from after instruction [t]: no store since then
    writes the byte address of the load, and [v] is the word memory had then,
    at most 15 instructions back, or the data of the store just before, if that
    has the load's address and is at most 15 instructions back. *)
Definition sees (s : nat) (v : Z) : Prop :=
  exists t, (t <= s)%nat /\
    (forall k i, (t <= k < s)%nat -> ins_at k = Some i -> is_store (op i) = true -> addr_of k <> addr_of s) /\
    ((Z.of_nat s < Z.of_nat t + ROB_SIZE /\ v = load_word (st_at t) (addr_of s)) \/
     exists k i, t = S k /\ Z.of_nat s < Z.of_nat k + ROB_SIZE /\ ins_at k = Some i /\ is_store (op i) = true /\ addr_of k = addr_of s /\
       v = read_reg (st_at k) (rs2 i) (rs2_fp i)).

(** Among the first [m] instructions, values are given to loads only, and they
    are values these can return. *)
Definition valid_loads (m : nat) : Prop :=
  forall s v, loaded s = Some v -> (s < m)%nat ->
    exists i, ins_at s = Some i /\ is_load (op i) = true /\ sees s v.

Lemma loads_inv_valid rob b n : loads_inv p rob b n -> valid_loads (b + n).
Proof.
  intros H s v Hv _. destruct (H s v Hv) as (_ & _ & i & Hi & Hl & _ & t & Ht & Hcl & Hsrc).
  exists i. split; [done|]. split; [done|]. exists t. split; [done|]. split.
  - intros k j Hk Hj Hst. by apply (Hcl k j).
  - destruct Hsrc as [_ ? ?|k j ? ? ? ? ? _ _ ?]; [by left|right]. by exists k, j.
Qed.

Lemma valid_loads_le m m' : valid_loads m -> (m' <= m)%nat -> valid_loads m'.
Proof. intros H Hle s v Hv Hs. apply (H s v Hv). lia. Qed.

(** Clear of hazards a load returns what memory holds. *)
Lemma sees_memory s i v :
  forwarding_ok p -> live p s -> ins_at s = Some i -> is_load (op i) = true -> sees s v ->
  v = load_word (st_at s) (addr_of s).
Proof.
  intros Hok Hl Hi Hld (t & Ht & Hcl & Hv).
  assert (Hword : forall k j, (t <= k < s)%nat -> ins_at k = Some j -> is_store (op j) = true ->
    addr_of k / 4 <> addr_of s / 4).
  { intros k j Hk Hj Hst E. apply (Hcl k j Hk Hj Hst).
    destruct (Hok s k i j) as [? _]; try done; [lia|].
    destruct Hv as [[? _]|(k' & j' & -> & ? & _)]; lia. }
  destruct Hv as [[_ ->]|(k & j & -> & ? & Hj & Hst & Ha & ->)]; unfold load_word.
  - destruct (_ <? _); [|done]. symmetry. by apply am_unwritten.
  - destruct (Hok s k i j) as [_ Hin]; try done; [by rewrite Ha|].
    rewrite (proj2 (Z.ltb_lt _ _)) by done. rewrite <- Ha in *. symmetry.
    by apply am_written.
Qed.

End Values.

(** ** The sequential machine *)

(** Every load returns the word in memory. *)
Definition from_memory_all : Loads := fun _ => None.

Section Sequential.
Context `{FE : FPEnv}.
Context (p : list Instruction).

Abbreviation seq_at := (st_at p (L := from_memory_all)).
Abbreviation seq_ins := (ins_at p (L := from_memory_all)).

Lemma seq_at_S s i : seq_ins s = Some i -> seq_at (S s) = exec i (seq_at s).
Proof. intros Hi. rewrite (st_at_S p s i Hi), (res_at_with p s i Hi). done. Qed.

Lemma seq_at_steps s : seq_at s = steps p s arch_init.
Proof.
  induction s as [|s IH]; [done|]. cbn [steps]. rewrite <- IH. unfold step.
  destruct (seq_ins s) as [i|] eqn:Hi; unfold ins_at in Hi; rewrite Hi.
  - by apply seq_at_S.
  - by apply (st_at_stuck p s Hi).
Qed.

(** What is assumed of a program's memory accesses. *)
Definition forwarding_safe : Prop := forwarding_ok p (L := from_memory_all).

(** A run with valid loads that was the sequential one so far computes the same
    result. *)
Lemma coherent_result {L : Loads} m s :
  forwarding_safe -> valid_loads p m -> (s < m)%nat -> live p s ->
  (forall k, (k <= s)%nat -> st_at p k = seq_at k) -> res_at p s = res_at p s (L := from_memory_all).
Proof.
  intros Hsafe Hval Hs Hlive Hst.
  assert (Hins : forall k, (k <= s)%nat -> ins_at p k = seq_ins k).
  { intros k Hk. unfold ins_at. by rewrite Hst. }
  assert (Haddr : forall k, (k <= s)%nat -> addr_of p k = addr_of p (L := from_memory_all) k).
  { intros k Hk. unfold addr_of. by rewrite Hins, Hst. }
  destruct (ins_at p s) as [i|] eqn:Hi.
  2: { unfold res_at. by rewrite Hi, <- Hins, Hi. }
  assert (Hi2 : seq_ins s = Some i) by (by rewrite <- Hins).
  rewrite (res_at_with p s i Hi), (res_at_with p s i Hi2), (Hst s) by done. unfold result_with.
  destruct (loaded s) as [v|] eqn:Hv; [|done].
  destruct (Hval s v Hv Hs) as (j & Hj & Hl & Hsee). rewrite Hi in Hj. injection Hj as <-.
  rewrite Hl. assert (v = load_word (seq_at s) (addr_of p (L := from_memory_all) s)) as ->.
  { apply (sees_memory p s i v Hsafe); [|done|done|].
    - intros k j Hk Hj. rewrite <- Hins in Hj by lia. by apply (Hlive k j).
    - destruct Hsee as (t & Ht & Hcl & Hcase). exists t. split; [done|].
      rewrite <- (Haddr s) by done. split.
      + intros k j Hk Hj. rewrite <- (Haddr k) by lia. rewrite <- Hins in Hj by lia. by apply Hcl.
      + destruct Hcase as [[? ->]|(k & j & -> & ? & Hj & Hs' & Ha & ->)]; [left; by rewrite Hst by lia|right].
        exists k, j. by rewrite <- (Haddr k), <- (Hins k), <- (Hst k) by lia. }
  assert (Hu : is_u32 (load_word (seq_at s) (addr_of p (L := from_memory_all) s)))
    by apply load_word_u32, st_at_ok.
  rewrite Z.mod_small by exact Hu. cbn. unfold ISA.result. rewrite Hl. unfold addr_of. by rewrite Hi2.
Qed.

(** Up to the first HALT a run with valid loads is then the sequential one. *)
Lemma coherent {L : Loads} m s :
  forwarding_safe -> valid_loads p m -> (s <= m)%nat ->
  (forall k, (k < s)%nat -> live p k) -> st_at p s = seq_at s.
Proof.
  intros Hsafe Hval. induction s as [s IH] using lt_wf_ind. intros Hs Hlive.
  destruct s as [|s]; [done|].
  assert (Hst : forall k, (k <= s)%nat -> st_at p k = seq_at k).
  { intros k Hk. apply IH; [lia|lia|]. intros; apply Hlive; lia. }
  assert (Hins : ins_at p s = seq_ins s) by (unfold ins_at; by rewrite Hst).
  destruct (ins_at p s) as [i|] eqn:Hi.
  - rewrite (st_at_S p s i Hi), (st_at_S p s i (eq_sym Hins)), (Hst s) by done. f_equal.
    apply (coherent_result m); try done. apply Hlive. lia.
  - rewrite (st_at_stuck p s Hi), (Hst s) by done. symmetry. by apply st_at_stuck.
Qed.

End Sequential.
