(* ===== verification/Refinement.v ===== *)
(** * The simulator implements the sequential machine

    From the initial state to the end of [main]'s clock loop: the loop ends
    without a fault, where the run it follows ends, and for programs whose loads
    keep clear of hazards where the sequential machine stops. *)

From S2P Require Import Prelude Words Ring Config Float32 Instruction.
From S2P Require Import RegisterFile RegisterRemappingTable ReorderBuffer.
From S2P Require Import CommonDataBus ReservationStation LoadStoreBuffer.
From S2P Require Import InstructionQueue CommitUnit Simulator ISA.
From S2P Require Import StationFacts LSBFacts Invariant SeqFacts UnitFacts LoadValues Cycle Coherence.

(** ** Loading *)

(** What the assembler hands to [load_program]. *)
Definition wf_text (prog : list Instruction) : Prop :=
  Forall (fun i => wf_instr i = true) prog /\ len prog < 2 ^ 30.

(** And its register numbers exist, which the assembler does not check. *)
Definition wf_source (prog : list Instruction) : Prop := wf_text prog /\ all_named prog.

Lemma stamp_lookup prog k :
  stamp prog !! k = (fun i => set_pc i (u32 (Z.of_nat k * 4))) <$> prog !! k.
Proof. unfold stamp. by rewrite list_lookup_imap. Qed.

Lemma stamp_wf prog : wf_text prog -> wf_program (stamp prog).
Proof.
  intros [Hwf Hlen]. constructor.
  - apply Forall_lookup. intros k i Hi. rewrite stamp_lookup in Hi.
    destruct (prog !! k) as [j|] eqn:Hj; [|done]. injection Hi as <-.
    pose proof (Forall_lookup_1 _ _ _ _ Hwf Hj) as H. done.
  - intros k i Hi. rewrite stamp_lookup in Hi.
    destruct (prog !! k) as [j|] eqn:Hj; [|done]. injection Hi as <-.
    apply lookup_lt_Some in Hj. cbn. unfold u32. rewrite Z.mod_small by lia. lia.
  - unfold stamp. by rewrite length_imap.
Qed.

Lemma stamp_named prog : all_named prog -> all_named (stamp prog).
Proof.
  intros Hn. apply Forall_lookup. intros k i Hi. rewrite stamp_lookup in Hi.
  destruct (prog !! k) as [j|] eqn:Hj; [|done]. injection Hi as <-.
  exact (Forall_lookup_1 _ _ _ _ Hn Hj).
Qed.

Section Refinement.
Context `{FE : FPEnv}.

Lemma create_station_inv p {L : Loads} rob k n :
  n = rs_size k -> station_inv p rob [] 0 0 k (ReservationStation.create n).
Proof.
  intros ->. assert (Hidle : forall j e, ReservationStation.entries_
    (ReservationStation.create (rs_size k)) !! j = Some e -> se_busy e = true -> False).
  { intros j e Hj Hb. cbn in Hj. apply lookup_replicate in Hj as [-> _]. done. }
  constructor.
  - apply create_station_ok. by destruct k.
  - done.
  - cbn. apply Forall_replicate, default_timing.
  - intros j e Hj Hb. by destruct (Hidle j e).
  - intros j j' e e' Hj _ Hb. by destruct (Hidle j e).
  - intros s i Hs. unfold in_win in Hs. lia.
Qed.

Lemma init_sim_spec prog :
  exists s, init_sim prog = Ok s /\ Inv (stamp prog) (L := from_memory_all) [] 0 0 s /\
    cdb s = CommonDataBus.init /\ halted s = false /\ cycle s = 1.
Proof.
  unfold init_sim.
  destruct (rob_create_spec ROB_SIZE) as (rob & Hrob & Hok & Hsz & Hq); [done|].
  rewrite Hrob. cbn [rbind].
  assert (Hr : rob_inv (stamp prog) (L := from_memory_all) 0 0 rob).
  { unfold ReorderBuffer.create in Hrob. cbn in Hrob. injection Hrob as <-.
    constructor; [done..| |]; intros s; unfold in_win; lia. }
  cbn. eexists. split; [done|]. split; [|done].
  constructor; cbn.
  - constructor; [done| | |by constructor].
    + intros k. destruct k; cbn; by apply create_station_inv.
    + constructor; [by apply (proj1 (ring_empty LSB_SIZE LoadStoreBuffer.default_entry eq_refl))|done|].
      exists []. split_and!; [constructor|by intros j k s s' _ ?|].
      intros s i Hs. unfold in_win in Hs. lia.
  - by intros s v Hv.
  - split; [apply rf_init_ok|]. intros r fp Hr'. unfold reg_index in Hr'.
    assert (read_reg (st_at (stamp prog) 0 (L := from_memory_all)) r fp = 0) as -> by (unfold read_reg; by repeat case_match).
    unfold read_bits, read_fp, read_int. destruct fp; rewrite require_index by done; cbn [rbind].
    + assert (vec_get (fp_regs_ RegisterFile.init) r = Ok (F32 0)) as ->; [|done].
      apply vec_get_Ok. split; [lia|]. apply lookup_replicate_2. unfold NUM_FP_REGS. lia.
    + assert (vec_get (int_regs_ RegisterFile.init) r = Ok 0) as ->; [|done].
      apply vec_get_Ok. split; [lia|]. apply lookup_replicate_2. unfold NUM_INT_REGS. lia.
  - split; [done|]. intros w Hw. rewrite lookup_replicate_2; [done|]. unfold MEM_SIZE in *. lia.
  - split; [apply rat_flush_ok|]. intros r fp _. rewrite mapping_flush.
    intros s Hs. unfold in_win in Hs. lia.
  - constructor; cbn; try done. intros _. split; [intros s i Hs; unfold in_win in Hs; lia|].
    by exists 0%nat.
  - intros s' i Hs. lia.
  - intros s' i Hs. lia.
Qed.

(** ** The end of a run *)

Section Stop.
Context (p : list Instruction) {L : Loads}.

(** The run stops after [t] instructions. *)
Definition stops_at (t : nat) : Prop :=
  live p t /\ (ins_at p t = None \/ exists i, ins_at p t = Some i /\ op i = HALT).

(** Past its end the machine does not move. *)
Lemma stays k d : ins_at p k = None -> st_at p (k + d) = st_at p k.
Proof.
  intros Hi. induction d as [|d IH]; [by rewrite Nat.add_0_r|]. rewrite Nat.add_succ_r.
  rewrite st_at_stuck; [done|]. unfold ins_at in *. by rewrite IH.
Qed.

End Stop.

(** [run] goes to where the sequential machine stops. *)
Section Run.
Context (p : list Instruction).

#[local] Existing Instance from_memory_all.

Lemma run_from t fuel k :
  stops_at p t -> (k <= t)%nat -> (t - k <= fuel)%nat ->
  run p fuel (st_at p k) = Some (st_at p t).
Proof.
  intros [Hl Hend]. revert k. induction fuel as [|fuel IH]; intros k Hk Hf.
  - assert (k = t) as -> by lia. cbn [run]. fold (ins_at p t).
    destruct Hend as [->|(i & -> & Hh)]; [done|]. unfold op_eqb. by rewrite bool_decide_eq_true_2.
  - cbn [run]. fold (ins_at p k). destruct (decide (k = t)) as [->|Hne].
    + destruct Hend as [->|(i & -> & Hh)]; [done|]. unfold op_eqb. by rewrite bool_decide_eq_true_2.
    + destruct (ins_at p k) as [i|] eqn:Hi.
      * unfold op_eqb. rewrite bool_decide_eq_false_2 by (apply (Hl k); [lia|done]).
        rewrite <- (seq_at_S p k i Hi). apply IH; lia.
      * pose proof (stays p k (t - k) Hi) as Hstay. replace (k + (t - k))%nat with t in Hstay by lia.
        by rewrite Hstay.
Qed.

(** Conversely [run] finds the end within its fuel. *)
Lemma run_stops fuel k a :
  live p k -> run p fuel (st_at p k) = Some a ->
  exists t, (k <= t <= k + fuel)%nat /\ stops_at p t /\ a = st_at p t.
Proof.
  revert k. induction fuel as [|fuel IH]; intros k Hl; cbn [run]; fold (ins_at p k);
    destruct (ins_at p k) as [i|] eqn:Hi.
  - unfold op_eqb. destruct (bool_decide_reflect (op i = HALT)); [|done]. intros E. injection E as <-.
    exists k. split; [lia|]. split; [|done]. split; [done|]. right. eauto.
  - intros E. injection E as <-. exists k. split; [lia|]. split; [|done]. split; [done|by left].
  - unfold op_eqb. destruct (bool_decide_reflect (op i = HALT)) as [|Hne].
    + intros E. injection E as <-. exists k. split; [lia|]. split; [|done]. split; [done|]. right. eauto.
    + rewrite <- (seq_at_S p k i Hi). intros Hrun.
      destruct (IH (S k)) as (t & Ht & Hs & Ha); [by eapply live_S|done|].
      exists t. split; [lia|]. done.
  - intros E. injection E as <-. exists k. split; [lia|]. split; [|done]. split; [done|by left].
Qed.

End Run.

(** Registers and data memory of the simulator are those of a sequential
    state. *)
Definition agrees (s : Sim) (a : Arch) : Prop :=
  (forall r fp, reg_index r -> read_bits (rf s) r fp = Ok (read_reg a r fp)) /\
  len (mem s) = MEM_SIZE /\
  (forall w, 0 <= w < MEM_SIZE -> mem s !! Z.to_nat w = Some (am a w)).

Lemma Inv_agrees p {L : Loads} c b n s : Inv p c b n s -> agrees s (st_at p b).
Proof. intros [_ _ [_ Hr] [Hl Hm] _ _ _ _]. by split_and!. Qed.

(** Every instruction committed was reached. *)
Lemma Inv_live p {L : Loads} c b n s k : Inv p c b n s -> (k < b)%nat -> live p k.
Proof.
  intros HI Hk. pose proof (inv_halt _ _ _ _ _ HI) as Hh. unfold halt_inv in Hh. destruct (halted s).
  - destruct Hh as (b' & i & -> & Hl & _). apply (live_le p b'); [done|lia].
  - apply (live_le p b); [done|lia].
Qed.

Lemma Inv_valid p {L : Loads} c b n s : Inv p c b n s -> valid_loads p b.
Proof.
  intros HI. eapply valid_loads_le; [by eapply loads_inv_valid, inv_loads|lia].
Qed.

(** Clear of hazards, what was committed is the sequential run. *)
Lemma Inv_coherent p {L : Loads} c b n s :
  forwarding_safe p -> Inv p c b n s ->
  forall k, (k <= b)%nat -> st_at p k = st_at p k (L := from_memory_all).
Proof.
  intros Hsafe HI k Hk. apply (coherent p b k Hsafe); [by eapply Inv_valid|done|].
  intros j Hj. eapply Inv_live; [exact HI|lia].
Qed.

Section Loop.
Context (p : list Instruction) (Hwf : wf_program p).

(** ** The loop never stops short *)

Lemma clock_loop_total fuel b n s :
  related p b n s -> cdb s = CommonDataBus.init ->
  MAX_CYCLES + 1 - cycle s <= Z.of_nat fuel ->
  match clock_loop fuel s with
  | Ok s' => exists b' n', related p b' n' s' /\
      (halted s' = true \/ finished s' = true \/ MAX_CYCLES < cycle s')
  | Stop f => exists L, unnamed_from p L b f
  end.
Proof.
  revert b n s. induction fuel as [|fuel IH]; intros b n s HI Hcdb Hf; cbn [clock_loop].
  all: destruct (halted s) eqn:Hh; cbn [negb andb]; [by eauto 10|].
  all: destruct (Z.leb_spec (cycle s) MAX_CYCLES); [|by eauto 10].
  - lia.
  - destruct HI as [L HI].
    destruct (step_cycle_cases p Hwf b n s HI Hcdb Hh) as (L' & _ & Hcase).
    destruct (step_cycle s) as [s'|f]; cbn [rbind]; [|by exists L'].
    destruct Hcase as (b' & n' & HI' & Hcdb' & Hcy & Hres).
    destruct (finished s') eqn:Hfin; [exists b', n'; split; [by exists L'|auto]|].
    specialize (IH b' n' s' (ex_intro _ L' HI') Hcdb' ltac:(lia)).
    destruct (clock_loop fuel s') as [s2|f]; [done|]. destruct IH as [L2 Hun]. exists L2.
    eapply unnamed_from_le; [exact Hun|]. by eapply cycle_result_le.
Qed.

(** ** Where it stops *)

(** A machine that stopped did so where its run does. *)
Lemma stopped_agrees {L : Loads} b n s :
  Inv p [] b n s -> halted s = true \/ finished s = true ->
  exists t, (t <= b)%nat /\ stops_at p t /\ agrees s (st_at p t).
Proof.
  intros HI Hend. pose proof (Inv_agrees _ _ _ _ _ HI) as Hag.
  destruct HI as [Hu _ _ _ _ Hiq Hhalt _]. destruct (halted s) eqn:Hh.
  - destruct Hhalt as (t & i & -> & Hl & Hi & Hop). exists t. split; [lia|].
    split; [split; [done|right; eauto]|]. destruct Hag as (Hr & Hlen & Hm).
    pose proof (wf_no_rd _ (ins_at_fields p Hwf t i Hi)) as Hrd.
    rewrite (st_at_S p t i Hi) in Hr, Hm. split_and!; [|done|].
    + intros r fp Hidx. rewrite Hr, read_reg_exec by done.
      rewrite bool_decide_eq_false_2; [done|]. rewrite Hrd by auto. lia.
    + intros w Hw. rewrite Hm, am_exec by done. by rewrite Hop.
  - destruct Hend as [?|Hf]; [done|]. exists b. split; [done|]. split; [|done]. split; [done|]. left.
    unfold finished in Hf. rewrite Hh in Hf. cbn in Hf. apply andb_true_iff in Hf as [Hd He].
    unfold InstructionQueue.done in Hd. apply andb_true_iff in Hd as [Hpc Hbuf].
    apply Z.leb_le in Hpc. unfold ReorderBuffer.empty in He. apply Z.eqb_eq in He.
    rewrite (ri_count _ _ _ _ (ui_rob _ _ _ _ _ _ _ Hu)) in He. assert (n = 0%nat) as -> by lia.
    destruct Hiq as [Hp _ _ Hwait Hrun]. destruct (branch_in_flight s).
    + destruct (Hwait eq_refl) as (_ & m & _ & ? & _). lia.
    + destruct (Hrun eq_refl) as (_ & k & Hk & _ & Hpck & _).
      destruct (buffer_ (iq s)); [|done]. cbn in Hpck. rewrite Hp in Hpc.
      unfold ins_at, fetch. rewrite Nat.add_0_r in Hk. rewrite Hk, Nat2Z.id.
      apply lookup_ge_None. lia.
Qed.

(** ** A program that stops is run to its end *)

Context (Hnames : all_named p) (Hsafe : forwarding_safe p).

(** Clear of hazards this is where the sequential machine stops. *)
Lemma stopped_sequential {L : Loads} b n s :
  Inv p [] b n s -> halted s = true \/ finished s = true ->
  exists t, stops_at p (L := from_memory_all) t /\ agrees s (st_at p (L := from_memory_all) t).
Proof.
  intros HI Hend. destruct (stopped_agrees b n s HI Hend) as (t & Ht & [Hl Hstop] & Hag). exists t.
  pose proof (Inv_coherent p _ _ _ _ Hsafe HI) as Hco.
  assert (Hins : forall k, (k <= t)%nat -> ins_at p k = ins_at p k (L := from_memory_all)).
  { intros k Hk. unfold ins_at. by rewrite Hco by lia. }
  rewrite <- Hco by done. split; [|done]. split.
  - intros k i Hk Hi. rewrite <- Hins in Hi by lia. by apply (Hl k i).
  - by rewrite <- Hins.
Qed.

Context (t : nat) (Hstop : stops_at p (L := from_memory_all) t).

(** Cycles that are enough from a state with window [(b, n)]. *)
Definition budget (b n : nat) (m : Z) : Z :=
  18 * (Z.of_nat t + 1 - Z.of_nat b) + (if decide (n = 0%nat) then 0 else m - 17).

Lemma committed_before_stop {L : Loads} b n s i :
  Inv p [] b n s -> (b <= t)%nat -> ins_at p b = Some i -> op i <> HALT -> (S b <= t)%nat.
Proof.
  intros HI Hle Hi Hne. destruct (decide (b = t)) as [Hbt|]; [|lia].
  unfold ins_at in Hi. rewrite (Inv_coherent p _ _ _ _ Hsafe HI b ltac:(lia)), Hbt in Hi.
  fold (ins_at p t (L := from_memory_all)) in Hi.
  destruct Hstop as [_ [?|(j & Hj & ?)]]; congruence.
Qed.

Lemma clock_loop_halts fuel {L : Loads} b n s m :
  Inv p [] b n s -> cdb s = CommonDataBus.init -> halted s = false ->
  (b <= t)%nat -> (n <> 0%nat -> 0 < m <= 16 /\ patient b s m) ->
  budget b n m <= Z.of_nat fuel -> cycle s + budget b n m <= MAX_CYCLES + 1 ->
  exists s' b' n', clock_loop fuel s = Ok s' /\ related p b' n' s' /\
    (halted s' = true \/ finished s' = true) /\ cycle s' <= cycle s + budget b n m.
Proof.
  revert L b n s m. induction fuel as [|fuel IH]; intros L b n s m HI Hcdb Hh Hle Hm Hf Hcyc;
    cbn [clock_loop]; rewrite Hh; cbn [negb andb].
  all: assert (Hpos : 0 < budget b n m) by (unfold budget; case_decide; lia).
  { lia. }
  rewrite (proj2 (Z.leb_le _ _)) by lia.
  destruct (step_cycle_spec p Hwf Hnames b n s HI Hcdb Hh)
    as (s' & b' & n' & L' & -> & HI' & Hcdb' & Hcy & Hres & Hag). cbn [rbind].
  destruct (finished s') eqn:Hfin; [exists s', b', n'; split; [done|]; split; [by exists L'|]; split; [auto|lia]|].
  assert (Hgo : forall m', halted s' = false -> (b' <= t)%nat ->
    (n' <> 0%nat -> 0 < m' <= 16 /\ patient b' s' m') -> budget b' n' m' < budget b n m ->
    exists s'' b'' n'', clock_loop fuel s' = Ok s'' /\ related p b'' n'' s'' /\
      (halted s'' = true \/ finished s'' = true) /\ cycle s'' <= cycle s + budget b n m).
  { intros m' Hh' Hle' Hm' Hlt.
    destruct (IH L' b' n' s' m' HI' Hcdb' Hh' Hle' Hm') as (s2 & b2 & n2 & ? & ? & ? & ?); [lia|lia|].
    exists s2, b2, n2. split_and!; try done. lia. }
  assert (H16 : n' <> 0%nat -> 0 < 16 <= 16 /\ patient b' s' 16).
  { intros Hn'. split; [lia|]. by eapply patient_16. }
  destruct Hres as [n' Hh' _ Hn' Hpat Hz|n' i Hi _ Hn Hn' Hz].
  - destruct (decide (n = 0%nat)) as [->|Hn].
    + apply (Hgo 16); try done. unfold budget.
      rewrite (decide_False (P := n' = 0%nat)) by (intros E; specialize (Hz E); congruence).
      rewrite decide_True by done. lia.
    + destruct (Hm Hn) as [Hm1 Hm2]. destruct (Hpat m Hn Hm2) as [Hp1 Hlt1].
      apply (Hgo (m - 1)); try done; [intros _; split; [lia|done]|].
      unfold budget. rewrite !decide_False by lia. lia.
  - destruct (halted s') eqn:Hh'.
    + exists s', (S b), n'. split; [destruct fuel; cbn; by rewrite Hh'|].
      split; [by exists L'|]. split; [auto|lia].
    + assert (Hne : op i <> HALT).
      { pose proof (inv_halt _ _ _ _ _ HI') as Hl. rewrite Hh' in Hl. apply (Hl b); [lia|done]. }
      destruct (Hm Hn) as [Hm1 _].
      assert (Hi1 : ins_at p b (L := L) = Some i).
      { unfold ins_at in *. by rewrite <- (st_agree p L L' b Hag b). }
      apply (Hgo 16); try done; [by eapply (committed_before_stop (L := L))|].
      unfold budget. rewrite (decide_False (P := n = 0%nat)) by done. case_decide; lia.
Qed.

End Loop.

Lemma simulate_cases prog :
  wf_text prog ->
  match simulate prog with
  | Ok s => exists b n, related (stamp prog) b n s /\
      (halted s = true \/ finished s = true \/ MAX_CYCLES < cycle s)
  | Stop f => exists L, unnamed_from (stamp prog) L 0 f
  end.
Proof.
  intros Hwf. unfold simulate.
  destruct (init_sim_spec prog) as (s & -> & HI & Hcdb & Hh & Hcy). cbn [rbind].
  apply (clock_loop_total _ (stamp_wf prog Hwf) _ 0 0); [by exists from_memory_all|done|].
  rewrite Hcy. unfold MAX_CYCLES. lia.
Qed.

(** A run that stops at an assertion of the renaming table: instruction [m] of
    the sequential machine with load values [loads] names a register that does
    not exist, and it is the first one that does. *)
Definition stops_unnamed (prog : list Instruction) (f : Fault) : Prop :=
  register_fault f /\
  exists (loads : Loads) m i, valid_loads (stamp prog) (L := loads) m /\
    named_to (stamp prog) (L := loads) m /\ ins_at (stamp prog) (L := loads) m = Some i /\ named i = false.

Lemma unnamed_from_stops prog (L : Loads) b f :
  unnamed_from (stamp prog) L b f -> stops_unnamed prog f.
Proof.
  intros (Hf & b' & m & _ & n & s & i & -> & HI & Hi & Hun). split; [done|].
  exists L, (b' + n)%nat, i. split; [by eapply loads_inv_valid, inv_loads|].
  split; [apply (inv_named _ _ _ _ _ HI)|done].
Qed.

Lemma stops_unnamed_not_all prog f : stops_unnamed prog f -> ~ all_named prog.
Proof.
  intros (_ & L & m & i & _ & _ & Hi & Hun) Hn.
  pose proof (Forall_lookup_1 _ _ _ _ (stamp_named prog Hn) Hi) as H. cbn in H. congruence.
Qed.

Lemma simulate_total prog :
  wf_source prog ->
  exists s b n, simulate prog = Ok s /\ related (stamp prog) b n s /\
    (halted s = true \/ finished s = true \/ MAX_CYCLES < cycle s).
Proof.
  intros [Hwf Hn]. pose proof (simulate_cases prog Hwf) as H.
  destruct (simulate prog) as [s|f]; [by destruct H as (b & n & ?); exists s, b, n|].
  destruct H as [L H]. by apply unnamed_from_named in H; [|apply stamp_named].
Qed.

Lemma simulate_halts prog fuel a :
  wf_source prog -> forwarding_safe (stamp prog) ->
  run (stamp prog) fuel arch_init = Some a -> 18 * (Z.of_nat fuel + 1) <= MAX_CYCLES ->
  exists s, simulate prog = Ok s /\ (halted s = true \/ finished s = true) /\
    agrees s a /\ cycle s <= 1 + 18 * (Z.of_nat fuel + 1).
Proof.
  intros [Htext Hnm] Hsafe Hrun Hfuel. pose proof (stamp_wf prog Htext) as Hwf. unfold simulate.
  destruct (init_sim_spec prog) as (s & -> & HI & Hcdb & Hh & Hcy). cbn [rbind].
  destruct (run_stops (stamp prog) fuel 0 a) as (t & Ht & Hstop & ->); [intros s' i Hs; lia|done|].
  destruct (clock_loop_halts (stamp prog) Hwf (stamp_named prog Hnm) Hsafe t Hstop (Z.to_nat (MAX_CYCLES + 1))
    (L := from_memory_all) 0 0 s 0)
    as (s' & b & n & Hloop & [L HI'] & Hend & Hc); try done; try lia.
  - unfold budget. rewrite decide_True by done. rewrite Z2Nat.id; unfold MAX_CYCLES in *; lia.
  - unfold budget. rewrite decide_True by done. lia.
  - exists s'. split; [done|]. split; [done|].
    destruct (stopped_sequential (stamp prog) Hwf Hsafe b n s' HI' Hend) as (t' & Hstop' & Hag).
    pose proof (run_from (stamp prog) t (t + t') 0 Hstop ltac:(lia) ltac:(lia)) as E1.
    pose proof (run_from (stamp prog) t' (t + t') 0 Hstop' ltac:(lia) ltac:(lia)) as E2.
    rewrite E1 in E2. injection E2 as E2. rewrite E2. split; [done|].
    unfold budget in Hc. rewrite decide_True in Hc by done. lia.
Qed.

End Refinement.
