(* ===== verification/Trace.v ===== *)
(** * Executions

    The states the clock loop goes through, with the commit records seen so
    far (what cu.log shows), the runs they follow, and the next commit. *)

From S2P Require Import Prelude Words Ring Config Float32 Instruction.
From S2P Require Import RegisterFile RegisterRemappingTable ReorderBuffer.
From S2P Require Import CommonDataBus ReservationStation LoadStoreBuffer.
From S2P Require Import InstructionQueue CommitUnit Simulator ISA.
From S2P Require Import StationFacts LSBFacts Invariant SeqFacts UnitFacts LoadValues Cycle.
From S2P Require Import Coherence Refinement.

Section Trace.
Context `{FE : FPEnv}.
Context (prog : list Instruction).

(** [trace l s]: some cycles after the start the machine is in state [s] and
    the commit unit has issued the records [l]. *)
Inductive trace : list CommitRecord -> Sim -> Prop :=
| trace_init s : init_sim prog = Ok s -> trace [] s
| trace_cycle l s s' :
    trace l s -> halted s = false -> step_cycle s = Ok s' ->
    trace (if cr_valid (last s') then l ++ [last s'] else l) s'.

(** The trace of [k] cycles, computed. *)
Fixpoint exec_trace (k : nat) : res (list CommitRecord * Sim) :=
  match k with
  | O => let! s := init_sim prog in Ok ([], s)
  | S k' =>
      let! (l, s) := exec_trace k' in
      if halted s then Ok (l, s)
      else
        let! s' := step_cycle s in
        Ok (if cr_valid (last s') then l ++ [last s'] else l, s')
  end.

Lemma exec_trace_sound k l s : exec_trace k = Ok (l, s) -> trace l s.
Proof.
  revert l s. induction k as [|k IH]; intros l s; cbn [exec_trace]; intros H.
  - apply rbind_Ok in H as (s0 & H0 & H). injection H as <- <-. by apply trace_init.
  - apply rbind_Ok in H as ([l0 s0] & H0 & H). destruct (halted s0) eqn:Hh.
    + injection H as <- <-. by apply IH.
    + apply rbind_Ok in H as (s1 & H1 & H). injection H as <- <-.
      apply (trace_cycle l0 s0 s1); [by apply IH|done|done].
Qed.

(** At most [k] iterations of the clock loop. *)
Fixpoint cycles (k : nat) (s : Sim) : res Sim :=
  match k with
  | O => Ok s
  | S k' =>
      if halted s || finished s then Ok s
      else let! s' := step_cycle s in cycles k' s'
  end.

(** The record of the [k]-th instruction of the sequential run. *)
Definition record_at (k : nat) (r : CommitRecord) : Prop :=
  let a := steps (stamp prog) k arch_init in
  exists i, fetch (stamp prog) (apc a) = Some i /\
    r = mkCommitRecord true (op i) (rd i) (rd_fp i) (ISA.result i a) (pc i).

Context (Htext : wf_text prog).
Let Hwf : wf_program (stamp prog) := stamp_wf prog Htext.

Definition in_order (l : list CommitRecord) : Prop :=
  forall k r, l !! k = Some r -> record_at k r.

Lemma in_order_snoc l r : in_order l -> record_at (length l) r -> in_order (l ++ [r]).
Proof.
  intros Hl Hr k x Hk. apply lookup_app_Some in Hk as [Hk|[Hge Hk]]; [by apply Hl|].
  apply list_lookup_singleton_Some in Hk as [Hk <-]. by replace k with (length l) by lia.
Qed.

(** Record [k] of a run: the instruction found there and its result. *)
Definition recorded (L : Loads) (k : nat) (r : CommitRecord) : Prop :=
  exists i, ins_at (stamp prog) (L := L) k = Some i /\
    r = mkCommitRecord true (op i) (rd i) (rd_fp i) (res_at (stamp prog) (L := L) k) (pc i).

Lemma recorded_agree b L L' k r :
  agree_to b L L' -> (k < b)%nat -> recorded L k r -> recorded L' k r.
Proof.
  intros Hag Hk (i & Hi & ->). pose proof (st_agree (stamp prog) L L' b Hag k ltac:(lia)) as Hst.
  assert (Hi' : ins_at (stamp prog) (L := L') k = Some i) by (unfold ins_at in *; by rewrite Hst).
  exists i. split; [done|]. rewrite (res_at_with _ k i Hi), (res_at_with _ k i Hi'), Hst.
  by rewrite Hag.
Qed.

(** Every state reached belongs to a run along which the instructions
    committed. *)
Lemma trace_run l s :
  trace l s -> exists n (L : Loads), Inv (stamp prog) (L := L) [] (length l) n s /\
    cdb s = CommonDataBus.init /\ forall k r, l !! k = Some r -> recorded L k r.
Proof.
  induction 1 as [s Hinit|l s s' Ht IH Hh Hstep].
  - destruct (init_sim_spec prog) as (s0 & Hs0 & HI & Hcdb & _).
    rewrite Hinit in Hs0. injection Hs0 as <-. by exists 0%nat, from_memory_all.
  - destruct IH as (n & L & HI & Hcdb & Hl).
    destruct (step_cycle_cases (stamp prog) Hwf _ n s HI Hcdb Hh) as (L' & Hag & Hcase).
    rewrite Hstep in Hcase. destruct Hcase as (b' & n' & HI' & Hcdb' & _ & Hres). exists n', L'.
    assert (Hl' : forall k r, l !! k = Some r -> recorded L' k r).
    { intros k r Hk. apply (recorded_agree (length l) L); auto. by eapply lookup_lt_Some. }
    destruct Hres as [n' _ Hinv|n' i Hi Hla]; [by rewrite Hinv|].
    rewrite Hla. cbn [cr_valid]. rewrite length_app, Nat.add_1_r. split; [done|]. split; [done|].
    intros k r [Hk|[Hge Hk]]%lookup_app_Some; [by apply Hl'|].
    apply list_lookup_singleton_Some in Hk as [Hk <-]. replace k with (length l) by lia.
    by exists i.
Qed.

Lemma trace_related l s :
  trace l s -> exists n, related (stamp prog) (length l) n s /\ cdb s = CommonDataBus.init.
Proof.
  intros Ht. destruct (trace_run l s Ht) as (n & L & HI & Hcdb & _).
  exists n. split; [by exists L|done].
Qed.

Lemma trace_loads l s :
  trace l s -> exists loads : Loads, valid_loads (stamp prog) (L := loads) (length l) /\
    agrees s (st_at (stamp prog) (L := loads) (length l)) /\
    forall k r, l !! k = Some r -> recorded loads k r.
Proof.
  intros Ht. destruct (trace_run l s Ht) as (n & L & HI & _ & Hl). exists L.
  split; [by eapply Inv_valid|]. split; [by eapply Inv_agrees|done].
Qed.

(** Clear of hazards, they are the sequential run. *)
Lemma trace_sequential (Hsafe : forwarding_safe (stamp prog)) l s :
  trace l s -> agrees s (steps (stamp prog) (length l) arch_init) /\ in_order l.
Proof.
  intros Ht. destruct (trace_run l s Ht) as (n & L & HI & _ & Hl).
  pose proof (Inv_coherent _ _ _ _ _ Hsafe HI) as Hco. split.
  - rewrite <- seq_at_steps, <- Hco by done. by eapply Inv_agrees.
  - intros k r Hk. pose proof (lookup_lt_Some _ _ _ Hk) as Hlt. destruct (Hl k r Hk) as (i & Hi & ->).
    assert (Hseq : ins_at (stamp prog) (L := from_memory_all) k = Some i).
    { unfold ins_at in *. by rewrite <- Hco by lia. }
    unfold record_at. cbv zeta. rewrite <- seq_at_steps. exists i. split; [exact Hseq|].
    rewrite (coherent_result (stamp prog) (length l) k Hsafe); [|by eapply Inv_valid|done| |].
    + by rewrite (res_at_with _ k i Hseq).
    + by eapply Inv_live.
    + intros j Hj. apply Hco. lia.
Qed.

(** ** The next commit *)

Context (Hnames : all_named prog).
Let Hnm : all_named (stamp prog) := stamp_named prog Hnames.

Lemma cycles_total k b n s :
  related (stamp prog) b n s -> cdb s = CommonDataBus.init -> exists s', cycles k s = Ok s'.
Proof.
  revert b n s. induction k as [|k IH]; intros b n s HI Hcdb; cbn [cycles]; [by exists s|].
  destruct (halted s) eqn:Hh; cbn [orb]; [by exists s|].
  destruct (finished s); [by exists s|]. destruct HI as [L HI].
  destruct (step_cycle_spec (stamp prog) Hwf Hnm b n s HI Hcdb Hh)
    as (s' & b' & n' & L' & -> & HI' & Hcdb' & _). cbn [rbind].
  apply (IH b' n'); [by exists L'|done].
Qed.

(** From any state at most 18 cycles pass until an instruction commits. *)
Lemma next_commit k l n m s :
  trace l s -> related (stamp prog) (length l) n s -> cdb s = CommonDataBus.init ->
  (n <> 0%nat -> 0 < m <= 16 /\ patient (length l) s m) ->
  (if decide (n = 0%nat) then 17 else m) <= Z.of_nat k ->
  exists s', cycles k s = Ok s' /\ (halted s' = true \/ finished s' = true \/
    exists l' s1, trace l' s1 /\ length l' = S (length l) /\
      exists k', (k' < k)%nat /\ cycles k' s1 = Ok s').
Proof.
  revert n m s. induction k as [|k IH]; intros n m s Ht HI Hcdb Hm Hk.
  { exfalso. case_decide; lia. }
  cbn [cycles]. destruct (halted s) eqn:Hh; cbn [orb]; [exists s; auto|].
  destruct (finished s) eqn:Hf; [exists s; auto|].
  destruct HI as [L HI]. destruct (step_cycle_spec (stamp prog) Hwf Hnm _ n s HI Hcdb Hh)
    as (s1 & b' & n' & L' & Hs1 & HI' & Hcdb' & _ & Hres & _).
  assert (Hrel : related (stamp prog) b' n' s1) by by exists L'.
  rewrite Hs1. cbn [rbind]. pose proof (trace_cycle l s s1 Ht Hh Hs1) as Ht1.
  destruct Hres as [n' Hh' Hinv Hn' Hpat Hz|n' i Hi Hla Hn Hn' Hz].
  - rewrite Hinv in Ht1. destruct (decide (n' = 0%nat)) as [E|Hne].
    + specialize (Hz E). destruct k; cbn [cycles].
      * exists s1. auto.
      * rewrite Hz, orb_true_r. exists s1. auto.
    + edestruct (IH n' (if decide (n = 0%nat) then 16 else m - 1) s1 Ht1 Hrel Hcdb')
        as (s' & Hc & Hend).
      * intros _. case_decide as Hn0; [split; [lia|by eapply patient_16]|].
        destruct (Hm Hn0) as [? Hp]. destruct (Hpat m Hn0 Hp). split; [lia|done].
      * rewrite (decide_False (P := n' = 0%nat)) by done. case_decide; lia.
      * exists s'. split; [done|].
        destruct Hend as [?|[?|(l' & s2 & ? & ? & k' & ? & ?)]]; [auto|auto|right; right].
        exists l', s2. split; [done|]. split; [done|]. exists k'. split; [lia|done].
  - rewrite Hla in Ht1. cbn [cr_valid] in Ht1.
    assert (exists s', cycles k s1 = Ok s') as [s' Hs'].
    { by eapply cycles_total. }
    exists s'. split; [done|]. right; right. eexists _, s1. split; [exact Ht1|].
    rewrite length_app, Nat.add_1_r. split; [done|]. exists k. split; [lia|done].
Qed.

End Trace.
