(* ===== verification/PrintFacts.v ===== *)
(** * What the dumps print

    A dump that starts on a stream in its default format leaves it in that
    format, so the text it adds does not depend on what was printed before.
    [prints w t] says this of an output function [w] and its text [t]; the
    dumps of all units satisfy it when the unit's vectors have their declared
    lengths. *)

From stdpp Require Import strings.
From S2P Require Import Prelude Words Ring Config Float32 Text Numerals OStream Instruction.
From S2P Require Import RegisterFile RegisterRemappingTable ReorderBuffer.
From S2P Require Import CommonDataBus BufferStation ReservationStation LoadStoreBuffer.
From S2P Require Import InstructionQueue CommitUnit.
From S2P Require Import LSBFacts.

Local Open Scope Z_scope.

Definition prints (w : ostream -> res ostream) (t : string) : Prop :=
  forall s, w (fresh_os s) = Ok (fresh_os (s +:+ t)).

(** The text of an output function: what it leaves on an empty stream. *)
Definition text (w : ostream -> res ostream) : string :=
  match w (fresh_os EmptyString) with Ok os => os_text os | Stop _ => EmptyString end.

Lemma prints_text w t : prints w t -> text w = t.
Proof. intros H. unfold text. by rewrite H. Qed.

Definition printable (w : ostream -> res ostream) : Prop := prints w (text w).

Lemma prints_printable w t : prints w t -> printable w.
Proof. intros H. unfold printable. by rewrite (prints_text w t H). Qed.

(** ** Composition *)

(** Text in front of what a stream holds. *)
Definition prepend (s : string) (os : ostream) : ostream :=
  mkOstream (os_hex os) (os_width os) (os_fill os) (s +:+ os_text os).

Lemma put_prepend s os x : put (prepend s os) x = prepend s (put os x).
Proof. destruct x; unfold prepend, put, os_insert; cbn; by rewrite ?(assoc_L String.append). Qed.

(** The format a stream starts with. *)
Definition default_format (os : ostream) : Prop :=
  os_hex os = false /\ os_width os = 0 /\ os_fill os = " "%char.

(** A chain of [<<] that ends in that format. *)
Lemma printable_chain f :
  (forall s os, f (prepend s os) = prepend s (f os)) ->
  default_format (f (fresh_os EmptyString)) ->
  printable (fun os => Ok (f os)).
Proof.
  intros Hf (Hh & Hw & Hc) s. unfold text. rewrite <- (app_empty s) at 1.
  change (fresh_os (s +:+ EmptyString)) with (prepend s (fresh_os EmptyString)).
  rewrite Hf. unfold prepend. by rewrite Hh, Hw, Hc.
Qed.

Lemma prints_none : prints Ok EmptyString.
Proof. intros s. by rewrite app_empty. Qed.

Lemma prints_bind w1 w2 t1 t2 :
  prints w1 t1 -> prints w2 t2 -> prints (fun os => let! os' := w1 os in w2 os') (t1 +:+ t2).
Proof. intros H1 H2 s. rewrite H1. cbn [rbind]. by rewrite H2, (assoc_L String.append). Qed.

Lemma printable_bind w1 w2 :
  printable w1 -> printable w2 -> printable (fun os => let! os' := w1 os in w2 os').
Proof. intros H1 H2. eapply prints_printable, prints_bind; [exact H1|exact H2]. Qed.

Lemma prints_foldM {X} (f : ostream -> X -> res ostream) l :
  Forall (fun x => printable (fun os => f os x)) l ->
  prints (fun os => foldM f os l) (foldr (fun x t => text (fun os => f os x) +:+ t) EmptyString l).
Proof.
  induction 1 as [|x l Hx _ IH]; [apply prints_none|]. cbn [foldM foldr].
  exact (prints_bind _ _ _ _ Hx IH).
Qed.

Lemma printable_foldM {X} (f : ostream -> X -> res ostream) l :
  Forall (fun x => printable (fun os => f os x)) l -> printable (fun os => foldM f os l).
Proof. intros H. eapply prints_printable, prints_foldM, H. Qed.

Lemma printable_foldl {X} (f : ostream -> X -> ostream) l :
  (forall x, printable (fun os => Ok (f os x))) -> printable (fun os => Ok (foldl f os l)).
Proof.
  intros Hf. induction l as [|x l IH]; [exact (prints_printable _ _ prints_none)|].
  cbn [foldl]. exact (printable_bind (fun os => Ok (f os x)) (fun os => Ok (foldl f os l)) (Hf x) IH).
Qed.

(** The element a loop body reads is there. *)
Lemma printable_get {A} (l : list A) i (g : ostream -> A -> res ostream) :
  0 <= i < len l -> (forall a, printable (fun os => g os a)) ->
  printable (fun os => let! a := vec_get l i in g os a).
Proof.
  intros Hi Hg. destruct (vec_get_in_range l i Hi) as (a & -> & _). cbn [rbind]. apply Hg.
Qed.

(** Indices of a counting loop. *)
Lemma seq_indices n : Forall (fun i : nat => 0 <= Z.of_nat i < n) (seq 0 (Z.to_nat n)).
Proof. apply Forall_forall. intros i Hi%elem_of_seq. lia. Qed.

Lemma printable_for n (f : ostream -> nat -> res ostream) :
  (forall i : nat, 0 <= Z.of_nat i < n -> printable (fun os => f os i)) ->
  printable (fun os => foldM f os (seq 0 (Z.to_nat n))).
Proof.
  intros Hf. apply printable_foldM. eapply Forall_impl; [apply seq_indices|]. exact Hf.
Qed.

(** Chains, by their [<<]s. *)
Ltac print_chain :=
  match goal with |- printable (fun os => Ok (@?f os)) =>
    apply (printable_chain f);
    [let s := fresh "s" in let os := fresh "os" in
     intros s os; cbn beta; rewrite !put_prepend; reflexivity
    |split; [|split]; reflexivity]
  end.

(** What comes behind a chain that is printed first. *)
Lemma printable_then (f : ostream -> ostream) w :
  printable (fun os => Ok (f os)) -> printable w -> printable (fun os => w (f os)).
Proof. intros Hf Hw. exact (printable_bind (fun os => Ok (f os)) w Hf Hw). Qed.

(** An entry: its element is read, and its chain has cases. *)
Ltac print_entry :=
  apply printable_get; [try lia|]; intros e; cbn beta zeta; repeat case_match; simplify_eq;
  first [exact (prints_printable _ _ prints_none) | print_chain].

(** ** Single insertions, on a stream in its default format *)

Lemma pad_zero c s : pad 0 c s = s.
Proof. unfold pad. by replace (Z.to_nat (0 - _)) with 0%nat by lia. Qed.

Lemma put_str s t : put (fresh_os s) (Str t) = fresh_os (s +:+ t).
Proof. unfold put, os_insert. cbn. by rewrite pad_zero. Qed.

Lemma put_int s z : put (fresh_os s) (Int z) = fresh_os (s +:+ print_int z).
Proof. unfold put, os_insert. cbn. by rewrite pad_zero. Qed.

Lemma put_float s f : put (fresh_os s) (Float f) = fresh_os (s +:+ show_float f).
Proof. unfold put, os_insert. cbn. by rewrite pad_zero. Qed.

Lemma put_wide s w z :
  put (put (fresh_os s) (setw w)) (Int z) = fresh_os (s +:+ pad w " " (print_int z)).
Proof. done. Qed.

(** A hexadecimal number. *)
Lemma put_hex s v :
  (fresh_os s << hex << Unsigned v << dec)%os = fresh_os (s +:+ show_nat 16 v).
Proof. unfold put, os_insert. cbn. by rewrite pad_zero. Qed.

Lemma put_hex_wide s w v :
  (fresh_os s << hex << setw w << setfill "0" << Unsigned v << dec << setfill " ")%os =
  fresh_os (s +:+ pad w "0" (show_nat 16 v)).
Proof. done. Qed.

(** A number with leading zeros; the fill character stays behind. *)
Lemma put_zeros s w z t v n :
  (fresh_os s << setw w << setfill "0" << Int z << Str t << hex << setw n << setfill "0"
     << Unsigned v << dec << setfill " ")%os =
  fresh_os (s +:+ pad w "0" (print_int z) +:+ t +:+ pad n "0" (show_nat 16 v)).
Proof. unfold put, os_insert. cbn. by rewrite pad_zero, <- !(assoc_L String.append). Qed.

(** Evaluate a chain from the left. *)
Ltac put_text :=
  unfold endl;
  repeat first [rewrite put_zeros | rewrite put_hex_wide | rewrite put_hex | rewrite put_wide
               | rewrite put_str | rewrite put_int | rewrite put_float];
  rewrite <- ?(assoc_L String.append).

(** ** The units *)

Section Units.
Context (c : Z).

Lemma cdb_prints b : printable (fun os => Ok (CommonDataBus.dump b os c)).
Proof.
  unfold CommonDataBus.dump. destruct (pending_ b) as [|r rs]; [print_chain|].
  apply (printable_then (fun os => os << "[CDB  cycle=" << setw 4 << c << "]")%os
    (fun os => Ok (foldl dump_result os (r :: rs) << endl)%os)); [print_chain|].
  apply (printable_bind (fun os => Ok (foldl dump_result os (r :: rs)))
    (fun os => Ok (os << endl)%os)); [|print_chain].
  apply printable_foldl. intros x. unfold dump_result. print_chain.
Qed.

Lemma rf_prints f : rf_ok f -> printable (fun os => RegisterFile.dump f os c).
Proof.
  intros [Hi Hf _ _ _]. unfold RegisterFile.dump.
  apply (printable_then (fun os => os << "[RF   cycle=" << setw 4 << c << "]" << endl << "  INT:")%os
    (fun os => let! os := foldM (dump_int f) os (seq 0 (Z.to_nat NUM_INT_REGS)) in
       let! os := foldM (dump_fp f) (os << endl << "  FP: ")%os (seq 0 (Z.to_nat NUM_FP_REGS)) in
       Ok (os << endl)%os)); [print_chain|].
  apply printable_bind; [apply printable_for; intros i Hr; print_entry|].
  apply (printable_then (fun os => os << endl << "  FP: ")%os
    (fun os => let! os := foldM (dump_fp f) os (seq 0 (Z.to_nat NUM_FP_REGS)) in Ok (os << endl)%os));
    [print_chain|].
  apply printable_bind; [apply printable_for; intros i Hr; print_entry|print_chain].
Qed.

Lemma rat_prints r : rat_ok r -> printable (fun os => RegisterRemappingTable.dump r os c).
Proof.
  intros [Hi Hf _]. unfold RegisterRemappingTable.dump.
  apply (printable_then (fun os => os << "[RAT  cycle=" << setw 4 << c << "]" << endl << "  INT:")%os
    (fun os => let! os := foldM (dump_mapping " x" (int_rat_ r)) os (seq 0 (Z.to_nat NUM_INT_REGS)) in
       let! os := foldM (dump_mapping " f" (fp_rat_ r)) (os << endl << "  FP: ")%os
         (seq 0 (Z.to_nat NUM_FP_REGS)) in
       Ok (os << endl)%os)); [print_chain|].
  apply printable_bind; [apply printable_for; intros i Hr; print_entry|].
  apply (printable_then (fun os => os << endl << "  FP: ")%os
    (fun os => let! os := foldM (dump_mapping " f" (fp_rat_ r)) os (seq 0 (Z.to_nat NUM_FP_REGS)) in
       Ok (os << endl)%os)); [print_chain|].
  apply printable_bind; [apply printable_for; intros i Hr; print_entry|print_chain].
Qed.

Lemma rob_prints r : rob_ok r -> printable (fun os => ReorderBuffer.dump r os c).
Proof.
  intros Hok. pose proof (rob_len r Hok) as Hl. unfold ReorderBuffer.dump.
  apply (printable_then (fun os => os << "[ROB  cycle=" << setw 4 << c << "]" << " head="
      << ReorderBuffer.head_ r << " tail=" << ReorderBuffer.tail_ r << " count="
      << ReorderBuffer.count_ r << "/" << ReorderBuffer.size_ r << endl)%os
    (fun os => foldM (ReorderBuffer.dump_entry r) os (seq 0 (Z.to_nat (ReorderBuffer.size_ r)))));
    [print_chain|].
  apply printable_for. intros i Hr. print_entry.
Qed.

Lemma rs_prints s :
  len (ReservationStation.entries_ s) = ReservationStation.size_ s ->
  printable (fun os => ReservationStation.dump s os c).
Proof.
  intros Hl. unfold ReservationStation.dump.
  apply (printable_then (fun os => os << "[RS   cycle=" << setw 4 << c << "]" << endl)%os
    (fun os => foldM (ReservationStation.dump_entry s) os
       (seq 0 (Z.to_nat (ReservationStation.size_ s))))); [print_chain|].
  apply printable_for. intros i Hr. print_entry.
Qed.

Lemma lsb_prints b : lsb_ring b -> printable (fun os => LoadStoreBuffer.dump b os c).
Proof.
  intros Hok. unfold LoadStoreBuffer.dump.
  apply (printable_then (fun os => os << "[LSB  cycle=" << setw 4 << c << "]" << " head="
      << LoadStoreBuffer.head_ b << " tail=" << LoadStoreBuffer.tail_ b << " count="
      << LoadStoreBuffer.count_ b << "/" << LoadStoreBuffer.size_ b << endl)%os
    (fun os => foldM (LoadStoreBuffer.dump_entry b) os (seq 0 (Z.to_nat (LoadStoreBuffer.count_ b)))));
    [print_chain|].
  apply printable_for. intros i Hr.
  assert (0 <= phys b (Z.of_nat i) < len (LoadStoreBuffer.entries_ b)).
  { destruct Hok as [Hs Hl Hh _ _]. rewrite Hl. unfold phys. apply Z.rem_bound_pos; lia. }
  print_entry.
Qed.

Lemma iq_prints q : printable (fun os => Ok (InstructionQueue.dump q os c)).
Proof.
  unfold InstructionQueue.dump.
  apply (printable_then (fun os => os << "[IQ  cycle=" << setw 4 << c << "] " << "fetched=" << pc_ q
      << " buf=" << Unsigned (len (buffer_ q)) << "/" << capacity_ q)%os
    (fun os => Ok (foldl dump_instr os (buffer_ q) << endl)%os)); [print_chain|].
  apply (printable_bind (fun os => Ok (foldl dump_instr os (buffer_ q)))
    (fun os => Ok (os << endl)%os)); [|print_chain].
  apply printable_foldl. intros x. unfold dump_instr. print_chain.
Qed.

Lemma cu_prints r : printable (fun os => Ok (CommitUnit.dump r os c)).
Proof. unfold CommitUnit.dump. repeat case_match; print_chain. Qed.

Lemma bs_prints b : bs_ok b -> printable (fun os => BufferStation.dump b os c).
Proof.
  intros [Hd Hl]. unfold BufferStation.dump.
  apply (printable_then (fun os => os << "[BS   cycle=" << setw 4 << c << "] depth=" << depth_ b << "/"
      << (if pipelined_ b then "pipe" else "nopipe"))%os
    (fun os => let! os := foldM (dump_slot b) os (seq 0 (Z.to_nat (depth_ b + 1))) in
       Ok (os << endl)%os)); [destruct (pipelined_ b); print_chain|].
  apply printable_bind; [apply printable_for; intros i Hr; print_entry|print_chain].
Qed.

End Units.
