(* ===== verification/OutputFacts.v ===== *)
(** * The output of a run

    Every file of a run is a list of texts, one per cycle: [history] collects
    the states the clock loop shows to the dumps, and [report] is what [main]
    leaves, written from them. The last part is cu.log and the sequential run:
    the commit records a run shows, one per cycle, and what they have to do with
    the executions of Trace. *)

From stdpp Require Import strings.
From S2P Require Import Prelude Words Ring Config Float32 Text Numerals OStream Instruction.
From S2P Require Import Assembler RegisterFile RegisterRemappingTable ReorderBuffer.
From S2P Require Import CommonDataBus ReservationStation LoadStoreBuffer.
From S2P Require Import InstructionQueue CommitUnit Simulator Output ISA.
From S2P Require Import StationFacts LSBFacts Invariant SeqFacts UnitFacts ExecutePhase LoadValues Cycle Coherence Refinement.
From S2P Require Import Trace PrintFacts.

Local Open Scope Z_scope.

(** ** What is shown of a cycle *)

(** The units that print, and what each prints of a cycle that starts in the
    first state and has the second after phase 3. *)
Inductive LogUnit : Type :=
| u_iq | u_rob | u_rs (k : RSId) | u_lsb | u_cdb | u_rat | u_rf | u_cu.

Definition unit_dump (x : Sim * Sim) (u : LogUnit) (os : ostream) : res ostream :=
  let '(s, s1) := x in
  let c := cycle s in
  match u with
  | u_iq => Ok (InstructionQueue.dump (iq s) os c)
  | u_rob => ReorderBuffer.dump (rob s) os c
  | u_rs k => ReservationStation.dump (station (stations s) k) os c
  | u_lsb => LoadStoreBuffer.dump (lsb s) os c
  | u_cdb => Ok (CommonDataBus.dump (cdb s1) os c)
  | u_rat => RegisterRemappingTable.dump (rat s) os c
  | u_rf => RegisterFile.dump (rf s) os c
  | u_cu => Ok (CommitUnit.dump (last s) os c)
  end.

Definition unit_text (x : Sim * Sim) (u : LogUnit) : string := text (unit_dump x u).

(** Every unit with a log, in the order the files are opened. *)
Definition log_units_list : list LogUnit :=
  [u_iq; u_rob; u_rs rs_alu; u_rs rs_branch; u_rs rs_fp_addsub; u_rs rs_fp_mul; u_rs rs_fp_div;
   u_rs rs_fp_cvt; u_lsb; u_cdb; u_rat; u_rf; u_cu].

Definition rs_name (k : RSId) : string :=
  match k with
  | rs_alu => "rs_alu.log"
  | rs_branch => "rs_branch.log"
  | rs_fp_addsub => "rs_fp_addsub.log"
  | rs_fp_mul => "rs_fp_mul.log"
  | rs_fp_div => "rs_fp_div.log"
  | rs_fp_cvt => "rs_fp_cvt.log"
  end.

Definition unit_name (u : LogUnit) : string :=
  match u with
  | u_iq => "iq.log"
  | u_rob => "rob.log"
  | u_rs k => rs_name k
  | u_lsb => "lsb.log"
  | u_cdb => "cdb.log"
  | u_rat => "rat.log"
  | u_rf => "rf.log"
  | u_cu => "cu.log"
  end.

(** The units the trace shows, in its order: all but the register file. *)
Definition start_units : list LogUnit :=
  [u_iq; u_rob; u_rs rs_alu; u_rs rs_branch; u_rs rs_fp_addsub; u_rs rs_fp_mul; u_rs rs_fp_div;
   u_rs rs_fp_cvt; u_lsb; u_rat; u_cu].
Definition trace_units : list LogUnit := start_units ++ [u_cdb].

Definition text_concat (ts : list string) : string := foldr String.append EmptyString ts.

Definition cycle_header (c : Z) (os : ostream) : ostream :=
  (os << endl << "=== CYCLE " << c << " ===" << endl)%os.

(** What a cycle adds to the trace. *)
Definition cycle_text (x : Sim * Sim) : string :=
  text (fun os => Ok (cycle_header (cycle (fst x)) os)) +:+
  text_concat (unit_text x <$> trace_units).

(** ** File streams *)

Definition neutral (f : ofstream) : Prop :=
  match f with Some os => os = fresh_os (os_text os) | None => True end.

Definition fappend (f : ofstream) (t : string) : ofstream :=
  match f with Some os => Some (fresh_os (os_text os +:+ t)) | None => None end.

Lemma fappend_neutral f t : neutral (fappend f t).
Proof. by destruct f. Qed.

Lemma fappend_app f a b : fappend (fappend f a) b = fappend f (a +:+ b).
Proof. destruct f as [os|]; [|done]. cbn. by rewrite (assoc_L String.append). Qed.

Lemma fappend_empty f : neutral f -> fappend f EmptyString = f.
Proof. destruct f as [os|]; [|done]. cbn. intros ->. cbn. by rewrite app_empty. Qed.

Lemma write_to_prints f w : neutral f -> printable w -> write_to f w = Ok (fappend f (text w)).
Proof.
  intros Hf Hw. destruct f as [os|]; cbn.
  - rewrite Hf, Hw. done.
  - by rewrite Hw.
Qed.

Lemma log_to_prints f w : neutral f -> printable w -> log_to f w = Ok (fappend f (text w)).
Proof.
  intros Hf Hw. unfold log_to. destruct f as [os|]; cbn [is_open]; [|done].
  by rewrite write_to_prints.
Qed.

(** ** All streams of a run *)

Definition unit_stream (io : Streams) (u : LogUnit) : ofstream :=
  match u with
  | u_iq => io_iq io
  | u_rob => io_rob io
  | u_rs rs_alu => io_rs_alu io
  | u_rs rs_branch => io_rs_branch io
  | u_rs rs_fp_addsub => io_rs_fp_addsub io
  | u_rs rs_fp_mul => io_rs_fp_mul io
  | u_rs rs_fp_div => io_rs_fp_div io
  | u_rs rs_fp_cvt => io_rs_fp_cvt io
  | u_lsb => io_lsb io
  | u_cdb => io_cdb io
  | u_rat => io_rat io
  | u_rf => io_rf io
  | u_cu => io_cu io
  end.

(** The streams with [tr] behind the trace and [f u] behind the log of [u]. *)
Definition io_append (io : Streams) (tr : string) (f : LogUnit -> string) : Streams :=
  mkStreams (fappend (io_trace io) tr) (fappend (io_iq io) (f u_iq)) (fappend (io_rob io) (f u_rob))
    (fappend (io_rs_alu io) (f (u_rs rs_alu))) (fappend (io_rs_branch io) (f (u_rs rs_branch)))
    (fappend (io_rs_fp_addsub io) (f (u_rs rs_fp_addsub)))
    (fappend (io_rs_fp_mul io) (f (u_rs rs_fp_mul)))
    (fappend (io_rs_fp_div io) (f (u_rs rs_fp_div)))
    (fappend (io_rs_fp_cvt io) (f (u_rs rs_fp_cvt)))
    (fappend (io_lsb io) (f u_lsb)) (fappend (io_cdb io) (f u_cdb)) (fappend (io_rat io) (f u_rat))
    (fappend (io_rf io) (f u_rf)) (fappend (io_cu io) (f u_cu)).

Definition io_neutral (io : Streams) : Prop :=
  neutral (io_trace io) /\ forall u, neutral (unit_stream io u).

Lemma streams_eq io io' :
  io_trace io = io_trace io' -> (forall u, unit_stream io u = unit_stream io' u) -> io = io'.
Proof.
  intros Ht Hu. destruct io, io'. cbn in Ht. subst. f_equal;
    [exact (Hu u_iq)|exact (Hu u_rob)|exact (Hu (u_rs rs_alu))|exact (Hu (u_rs rs_branch))
    |exact (Hu (u_rs rs_fp_addsub))|exact (Hu (u_rs rs_fp_mul))|exact (Hu (u_rs rs_fp_div))
    |exact (Hu (u_rs rs_fp_cvt))|exact (Hu u_lsb)|exact (Hu u_cdb)|exact (Hu u_rat)
    |exact (Hu u_rf)|exact (Hu u_cu)].
Qed.

Lemma io_append_stream io tr f u :
  unit_stream (io_append io tr f) u = fappend (unit_stream io u) (f u).
Proof. destruct u as [| |k| | | | |]; try destruct k; done. Qed.

Lemma io_append_neutral io tr f : io_neutral (io_append io tr f).
Proof. split; [apply fappend_neutral|]. intros u. rewrite io_append_stream. apply fappend_neutral. Qed.

Lemma io_append_app io a b f g :
  io_append (io_append io a f) b g = io_append io (a +:+ b) (fun u => f u +:+ g u).
Proof. apply streams_eq; [apply fappend_app|]. intros u. by rewrite !io_append_stream, fappend_app. Qed.

Lemma io_append_ext io tr f g : (forall u, f u = g u) -> io_append io tr f = io_append io tr g.
Proof. intros H. apply streams_eq; [done|]. intros u. by rewrite !io_append_stream, H. Qed.

Lemma io_append_empty io : io_neutral io -> io_append io EmptyString (fun _ => EmptyString) = io.
Proof.
  intros [Ht Hu]. apply streams_eq; [by apply fappend_empty|].
  intros u. rewrite io_append_stream. by apply fappend_empty.
Qed.

Lemma open_logs_neutral fs log_path : io_neutral (open_logs fs log_path).
Proof.
  assert (H : forall path, neutral (file_open fs path))
    by (intros path; unfold file_open; by destruct (writable fs path)).
  split; [apply H|]. intros u. destruct u as [| |k| | | | |]; try destruct k; apply H.
Qed.

(** ** One cycle *)

Lemma text_concat_app a b : text_concat (a ++ b) = text_concat a +:+ text_concat b.
Proof.
  unfold text_concat. induction a as [|t a IH]; [done|].
  cbn [app foldr]. by rewrite IH, (assoc_L String.append).
Qed.

(** The dumps at the start of a cycle are those of [start_units] in order. *)
Lemma dump_cycle_units s s1 os :
  dump_cycle s os = foldM (fun os u => unit_dump (s, s1) u os) (cycle_header (cycle s) os) start_units.
Proof.
  unfold dump_cycle, cycle_header. cbn [foldM start_units unit_dump station].
  repeat (match goal with |- rbind ?a _ = rbind ?a _ => destruct a; cbn [rbind]; [|done] end).
  done.
Qed.

Section Cycle.
Context `{FE : FPEnv}.
Context (p : list Instruction) {L : Loads}.

(** In the states the invariant describes every unit can be printed. *)
Lemma unit_printable b n s s1 u : Inv p [] b n s -> printable (unit_dump (s, s1) u).
Proof.
  intros [Hu _ [Hrf _] _ [Hrat _] _ _ _]. destruct u as [| |k| | | | |]; cbn [unit_dump].
  - apply iq_prints.
  - apply rob_prints. by destruct Hu as [[] _ _ _].
  - apply rs_prints. destruct Hu as [_ Hs _ _]. by destruct (Hs k) as [[] _ _ _ _ _].
  - apply lsb_prints. by destruct Hu as [_ _ [] _].
  - apply cdb_prints.
  - by apply rat_prints.
  - by apply rf_prints.
  - apply cu_prints.
Qed.

Lemma header_prints c : printable (fun os => Ok (cycle_header c os)).
Proof. unfold cycle_header. print_chain. Qed.

Lemma units_text x us :
  (forall u, printable (unit_dump x u)) ->
  prints (fun os => foldM (fun os u => unit_dump x u os) os us) (text_concat (unit_text x <$> us)).
Proof.
  intros Hu. induction us as [|u us IH]; [apply prints_none|].
  exact (prints_bind _ _ _ _ (Hu u) IH).
Qed.

(** The trace of a cycle: header and units, then the bus. *)
Lemma dump_cycle_text s s1 :
  (forall u, printable (unit_dump (s, s1) u)) ->
  printable (dump_cycle s) /\
  cycle_text (s, s1) = text (dump_cycle s) +:+ unit_text (s, s1) u_cdb.
Proof.
  intros Hu.
  assert (Hp : prints (dump_cycle s) (text (fun os => Ok (cycle_header (cycle s) os)) +:+
                        text_concat (unit_text (s, s1) <$> start_units))).
  { intros t. rewrite (dump_cycle_units s s1).
    exact (prints_bind _ _ _ _ (header_prints (cycle s)) (units_text (s, s1) start_units Hu) t). }
  split; [exact (prints_printable _ _ Hp)|]. rewrite (prints_text _ _ Hp).
  unfold cycle_text, trace_units. rewrite fmap_app, text_concat_app.
  cbn [fst fmap list_fmap text_concat foldr]. by rewrite app_empty, (assoc_L String.append).
Qed.

(** A cycle that starts in [s] and has [s1] after phase 3. *)
Lemma dump_start_text s s1 io :
  (forall u, printable (unit_dump (s, s1) u)) -> io_neutral io ->
  dump_start s io = Ok (io_append io (text (dump_cycle s))
    (fun u => match u with u_cdb => EmptyString | _ => unit_text (s, s1) u end)).
Proof.
  intros Hu [Ht Hn]. destruct (dump_cycle_text s s1 Hu) as [Hd _].
  unfold dump_start. rewrite (write_to_prints _ _ Ht Hd). cbn [rbind].
  assert (Hl : forall u, log_to (unit_stream io u) (unit_dump (s, s1) u) =
                 Ok (fappend (unit_stream io u) (unit_text (s, s1) u)))
    by (intros u; by apply log_to_prints).
  unfold log_units.
  eapply rbind_step; [exact (Hl u_iq)|]. eapply rbind_step; [exact (Hl u_rob)|].
  eapply rbind_step; [exact (Hl (u_rs rs_alu))|]. eapply rbind_step; [exact (Hl (u_rs rs_branch))|].
  eapply rbind_step; [exact (Hl (u_rs rs_fp_addsub))|].
  eapply rbind_step; [exact (Hl (u_rs rs_fp_mul))|].
  eapply rbind_step; [exact (Hl (u_rs rs_fp_div))|].
  eapply rbind_step; [exact (Hl (u_rs rs_fp_cvt))|].
  eapply rbind_step; [exact (Hl u_lsb)|]. eapply rbind_step; [exact (Hl u_rat)|].
  eapply rbind_step; [exact (Hl u_rf)|]. eapply rbind_step; [exact (Hl u_cu)|].
  f_equal. apply streams_eq; [done|]. intros u. rewrite io_append_stream.
  destruct u as [| |k| | | | |]; try destruct k; try done.
  symmetry. exact (fappend_empty _ (Hn u_cdb)).
Qed.

Lemma dump_bus_text s s1 io :
  cycle s1 = cycle s -> io_neutral io ->
  dump_bus s1 io = Ok (io_append io (unit_text (s, s1) u_cdb)
    (fun u => match u with u_cdb => unit_text (s, s1) u_cdb | _ => EmptyString end)).
Proof.
  intros Hc [Ht Hn]. pose proof (cdb_prints (cycle s) (cdb s1)) as Hp.
  unfold dump_bus. rewrite Hc.
  eapply rbind_step; [exact (write_to_prints _ _ Ht Hp)|].
  eapply rbind_step; [exact (log_to_prints _ _ (Hn u_cdb) Hp)|].
  f_equal. apply streams_eq; [done|]. intros u. rewrite io_append_stream.
  pose proof (fappend_empty _ (Hn u)) as He.
  destruct u as [| |k| | | | |]; try destruct k; first [exact (eq_sym He)|reflexivity].
Qed.

Lemma step_cycle_split s s1 :
  execute_phase s = Ok s1 ->
  forall io io1 io2, dump_start s io = Ok io1 -> dump_bus s1 io1 = Ok io2 ->
  step_cycle_io (s, io) = let! s' := step_cycle s in Ok (s', io2).
Proof.
  intros Hs1 io io1 io2 H1 H2. unfold step_cycle_io, step_cycle. rewrite H1, Hs1. cbn [rbind].
  rewrite H2. cbn [rbind]. destruct (snoop_phase s1) as [s2|]; [|done]. cbn [rbind].
  destruct (commit_phase s2) as [s3|]; [|done]. cbn [rbind]. by destruct (fetch_dispatch_phase s3).
Qed.

(** One cycle adds [cycle_text] to the trace and a text to every log. *)
Lemma step_cycle_io_text (Hwf : wf_program p) b n s s1 io :
  Inv p [] b n s -> cdb s = CommonDataBus.init ->
  execute_phase s = Ok s1 -> io_neutral io ->
  step_cycle_io (s, io) =
  let! s' := step_cycle s in Ok (s', io_append io (cycle_text (s, s1)) (unit_text (s, s1))).
Proof.
  intros HI Hcdb Hs1 Hio.
  assert (Hu : forall u, printable (unit_dump (s, s1) u)) by (intros u; by eapply unit_printable).
  assert (Hc : cycle s1 = cycle s).
  { destruct (execute_phase_runs p Hwf b n s HI Hcdb) as (s2 & H & Hc). rewrite Hs1 in H. by injection H as <-. }
  eapply step_cycle_split; [exact Hs1|by apply dump_start_text|].
  rewrite (dump_bus_text s s1 _ Hc) by apply io_append_neutral.
  rewrite io_append_app. destruct (dump_cycle_text s s1 Hu) as [_ <-]. f_equal.
  apply io_append_ext. intros u. destruct u; by rewrite ?empty_app, ?app_empty.
Qed.

End Cycle.

(** ** The clock loop *)

Section Run.
Context `{FE : FPEnv}.

(** The states the loop shows: at the start of each cycle and after its
    phase 3. *)
Fixpoint history (fuel : nat) (s : Sim) : res (list (Sim * Sim)) :=
  if negb (halted s) && (cycle s <=? MAX_CYCLES) then
    match fuel with
    | O => Stop OutOfFuel
    | S fuel' =>
        let! s1 := execute_phase s in
        let! s' := step_cycle s in
        if finished s' then Ok [(s, s1)]
        else let! h := history fuel' s' in Ok ((s, s1) :: h)
    end
  else Ok [].

Definition history_of (program : list Instruction) : res (list (Sim * Sim)) :=
  let! s := init_sim program in history (Z.to_nat (MAX_CYCLES + 1)) s.

(** The log of a unit, and the trace, of a whole run. *)
Definition log_text (h : list (Sim * Sim)) (u : LogUnit) : string :=
  text_concat ((fun x => unit_text x u) <$> h).
Definition trace_text (h : list (Sim * Sim)) : string := text_concat (cycle_text <$> h).

Section Program.
Context (p : list Instruction) (Hwf : wf_program p).

Lemma clock_loop_io_text fuel b n s io :
  related p b n s -> cdb s = CommonDataBus.init -> io_neutral io ->
  match clock_loop fuel s with
  | Ok s' => exists h, history fuel s = Ok h /\
      clock_loop_io fuel (s, io) = Ok (s', io_append io (trace_text h) (log_text h))
  | Stop f => clock_loop_io fuel (s, io) = Stop f
  end.
Proof.
  revert b n s io. induction fuel as [|fuel IH]; intros b n s io HI Hcdb Hio;
    cbn [clock_loop history clock_loop_io fst];
    (destruct (negb (halted s) && (cycle s <=? MAX_CYCLES)) eqn:Hgo;
     [|exists []; split; [done|]; cbn; by rewrite io_append_empty]); [done|].
  apply andb_true_iff in Hgo as [Hh%negb_true_iff _].
  destruct HI as [L HI]. destruct (step_cycle_cases p Hwf b n s HI Hcdb Hh) as (L' & _ & Hcase).
  destruct (execute_phase_runs p Hwf b n s HI Hcdb) as (s1 & Hs1 & _).
  rewrite Hs1, (step_cycle_io_text p Hwf b n s s1 io HI Hcdb Hs1 Hio).
  destruct (step_cycle s) as [s2|f]; [|done]. destruct Hcase as (b' & n' & HI' & Hcdb' & _).
  cbn [rbind fst]. destruct (finished s2).
  - eexists. split; [done|]. f_equal. f_equal. unfold trace_text, log_text.
    cbn [fmap list_fmap text_concat foldr]. rewrite app_empty.
    apply io_append_ext. intros u. cbn. by rewrite app_empty.
  - specialize (IH b' n' s2 (io_append io (cycle_text (s, s1)) (unit_text (s, s1))) (ex_intro _ L' HI')
      Hcdb' (io_append_neutral _ _ _)).
    destruct (clock_loop fuel s2) as [s'|f]; [|done]. destruct IH as (h & -> & ->).
    eexists. split; [done|]. f_equal. f_equal. by rewrite io_append_app.
Qed.

End Program.

(** ** The end of a run *)

Lemma final_prints asm_path s :
  rf_ok (rf s) -> len (mem s) = MEM_SIZE -> printable (final_state asm_path s).
Proof.
  intros [Hi Hf _ _ _] Hm. unfold final_state.
  apply (printable_then (fun os => os << "# Tomasulo simulation: " << asm_path << endl
      << "# Total cycles: " << (cycle s - 1) << endl << endl << "[INT_REGS]" << endl)%os
    (fun os => let! os := foldM (final_int s) os (seq 0 (Z.to_nat NUM_INT_REGS)) in
       let! os := foldM (final_fp s) (os << endl << "[FP_REGS]" << endl)%os
         (seq 0 (Z.to_nat NUM_FP_REGS)) in
       foldM (final_mem s) (os << endl << "[MEM_NONZERO]" << endl)%os (seq 0 (Z.to_nat MEM_SIZE))));
    [print_chain|].
  apply printable_bind.
  { apply printable_for. intros i Hr. unfold final_int, RegisterFile.read_int.
    rewrite require_index by done. cbn [rbind]. print_entry. }
  apply (printable_then (fun os => os << endl << "[FP_REGS]" << endl)%os
    (fun os => let! os := foldM (final_fp s) os (seq 0 (Z.to_nat NUM_FP_REGS)) in
       foldM (final_mem s) (os << endl << "[MEM_NONZERO]" << endl)%os (seq 0 (Z.to_nat MEM_SIZE))));
    [print_chain|].
  apply printable_bind.
  { apply printable_for. intros i Hr. unfold final_fp, RegisterFile.read_fp.
    rewrite require_index by done. cbn [rbind]. print_entry. }
  apply (printable_then (fun os => os << endl << "[MEM_NONZERO]" << endl)%os
    (fun os => foldM (final_mem s) os (seq 0 (Z.to_nat MEM_SIZE)))); [print_chain|].
  apply printable_for. intros i Hr. print_entry.
Qed.

Lemma dump_final_prints s : rf_ok (rf s) -> printable (dump_final s).
Proof.
  intros Hrf. unfold dump_final.
  apply (printable_then
    (fun os => os << endl << "=== FINAL STATE (cycle " << (cycle s - 1) << ") ===" << endl)%os
    (fun os => RegisterFile.dump (rf s) os (cycle s - 1))); [print_chain|]. by apply rf_prints.
Qed.

(** What [main] leaves, from the states shown and the last state. *)
Definition file_entry (fs : FileSystem) (path t : string) : list (string * string) :=
  if writable fs path then [(path, t)] else [].

Definition report (fs : FileSystem) (asm_path out_dir cerr : string) (h : list (Sim * Sim)) (s : Sim)
  : Exit :=
  let log_path name := (out_dir +:+ "/logs") +:+ "/" +:+ name in
  mkExit 0 (os_text (done_message out_dir s (fresh_os EmptyString))) cerr
    [out_dir +:+ "/logs"; out_dir +:+ "/final"]
    (flat_map (fun u => file_entry fs (log_path (unit_name u)) (log_text h u)) log_units_list ++
     file_entry fs (log_path "trace.txt") (trace_text h +:+ text (dump_final s)) ++
     file_entry fs ((out_dir +:+ "/final") +:+ "/" +:+ "final_regs.txt") (text (final_state asm_path s))).

Lemma closed_entry fs path t :
  closed path (fappend (file_open fs path) t) = file_entry fs path t.
Proof. unfold file_open, file_entry. by destruct (writable fs path). Qed.

Lemma run_program_report prog fs asm_path out_dir cerr :
  wf_text prog ->
  match simulate prog with
  | Ok s => exists h, history_of prog = Ok h /\
      run_program fs asm_path out_dir cerr prog = Ok (report fs asm_path out_dir cerr h s)
  | Stop f => run_program fs asm_path out_dir cerr prog = Stop f
  end.
Proof.
  intros Htext. pose proof (stamp_wf prog Htext) as Hwf. pose proof (simulate_cases prog Htext) as Hend.
  destruct (init_sim_spec prog) as (s0 & Hs0 & HI0 & Hcdb0 & _).
  set (log_path := fun name => (out_dir +:+ "/logs") +:+ "/" +:+ name).
  pose proof (clock_loop_io_text (stamp prog) Hwf (Z.to_nat (MAX_CYCLES + 1)) 0 0 s0
    (open_logs fs log_path) (ex_intro _ _ HI0) Hcdb0 (open_logs_neutral _ _)) as Hio.
  assert (Hsim : simulate prog = clock_loop (Z.to_nat (MAX_CYCLES + 1)) s0)
    by (unfold simulate; by rewrite Hs0).
  rewrite <- Hsim in Hio. unfold run_program, history_of. rewrite Hs0. cbn [rbind].
  destruct (simulate prog) as [s|f]; [|by erewrite rbind_stop].
  destruct Hend as (b & n & [L HI] & _). destruct Hio as (h & Hh & Hio). exists h. split; [done|].
  destruct HI as [_ _ [Hrf _] [Hm _] _ _ _ _].
  eapply rbind_step; [exact Hio|]. cbn beta match.
  assert (Hf : neutral (file_open fs ((out_dir +:+ "/final") +:+ "/" +:+ "final_regs.txt")))
    by (unfold file_open; by destruct (writable _ _)).
  eapply rbind_step; [exact (write_to_prints _ _ Hf (final_prints asm_path s Hrf Hm))|].
  eapply rbind_step;
    [exact (write_to_prints _ _ (fappend_neutral _ _) (dump_final_prints s Hrf))|].
  unfold report. f_equal. f_equal. unfold log_files. cbn [flat_map log_units_list unit_name rs_name].
  rewrite closed_entry, app_nil_r, <- !(assoc_L (++)).
  repeat (f_equal; [apply closed_entry|]).
  rewrite fappend_app. f_equal. apply closed_entry.
Qed.

End Run.

(** ** cu.log and the sequential run *)

Local Open Scope Z_scope.

(** The line of cu.log for a cycle and the record of the cycle before it. *)
Definition commit_line (c : Z) (r : CommitRecord) : string :=
  "[CU   cycle=" +:+ pad 4 " " (print_int c) +:+ "]" +:+
  (if cr_valid r then
     " COMMIT " +:+ opcode_name (cr_op r) +:+ " PC=0x" +:+ pad 4 "0" (show_nat 16 (cr_pc r)) +:+
     (if 0 <=? cr_rd r
      then " " +:+ (if cr_rd_fp r then "f" else "x") +:+ print_int (cr_rd r) +:+ "=0x" +:+
           show_nat 16 (cr_result r)
      else EmptyString)
   else " idle") +:+ String newline EmptyString.

Lemma commit_line_text c r : prints (fun os => Ok (CommitUnit.dump r os c)) (commit_line c r).
Proof.
  intros s. unfold CommitUnit.dump, commit_line.
  destruct (cr_valid r); cbn [negb]; [destruct (0 <=? cr_rd r); [destruct (cr_rd_fp r)|]|];
    put_text; by rewrite ?empty_app, <- ?(assoc_L String.append).
Qed.

(** The records the cycles show. *)
Definition shown (h : list (Sim * Sim)) : list CommitRecord := (fun x => last (fst x)) <$> h.
Definition valid_records (rs : list CommitRecord) : list CommitRecord := List.filter cr_valid rs.

Section Log.
Context `{FE : FPEnv}.
Context (prog : list Instruction) (Htext : wf_text prog).
Let Hwf : wf_program (stamp prog) := stamp_wf prog Htext.

(** Cycles are counted from one, and every cycle shows what the one before it
    committed. *)
Lemma history_trace fuel l n s s' h :
  trace prog l s -> related (stamp prog) (length l) n s -> cdb s = CommonDataBus.init ->
  history fuel s = Ok h -> clock_loop fuel s = Ok s' ->
  cycle s' = cycle s + len h /\
  (forall i x, h !! i = Some x -> cycle (fst x) = cycle s + Z.of_nat i) /\
  exists new, trace prog (l ++ new) s' /\
    valid_records [last s] ++ new = valid_records (shown h) ++ valid_records [last s'].
Proof.
  revert l n s h. induction fuel as [|fuel IH]; intros l n s h Ht HI Hcdb;
    cbn [history clock_loop];
    (destruct (negb (halted s) && (cycle s <=? MAX_CYCLES)) eqn:Hgo;
     [|intros Hh Hl; injection Hh as <-; injection Hl as <-; split; [cbn; lia|]; split; [done|];
       exists []; by rewrite !app_nil_r]); [done|].
  apply andb_true_iff in Hgo as [Hh%negb_true_iff _].
  destruct HI as [L HI]. destruct (step_cycle_cases (stamp prog) Hwf _ n s HI Hcdb Hh) as (L' & _ & Hcase).
  destruct (execute_phase_runs (stamp prog) Hwf _ n s HI Hcdb) as (s1 & Hs1 & _).
  rewrite Hs1. destruct (step_cycle s) as [s2|] eqn:Hs2; [|done].
  destruct Hcase as (b' & n' & _ & _ & Hcy & _). cbn [rbind]. pose proof (trace_cycle prog l s s2 Ht Hh Hs2) as Ht2.
  assert (Hl2 : (if cr_valid (last s2) then l ++ [last s2] else l) = l ++ valid_records [last s2])
    by (cbn; destruct (cr_valid (last s2)); by rewrite ?app_nil_r).
  rewrite Hl2 in Ht2. destruct (finished s2).
  - intros Hhist Hl. injection Hhist as <-. injection Hl as <-. split; [cbn; lia|].
    split; [intros [|i] x Hx; [injection Hx as <-; cbn; lia|done]|].
    exists (valid_records [last s2]). done.
  - intros Hhist Hl. apply rbind_Ok in Hhist as (h' & Hh' & E). injection E as <-.
    destruct (trace_related prog Htext _ _ Ht2) as (n2 & HI2 & Hcdb2).
    destruct (IH _ n2 s2 h' Ht2 HI2 Hcdb2 Hh' Hl) as (Hc & Hci & new & Htr & Hnew).
    split; [cbn [length]; lia|]. split.
    + intros [|i] x Hx; [injection Hx as <-; cbn; lia|].
      rewrite (Hci i x Hx), Hcy. lia.
    + exists (valid_records [last s2] ++ new). rewrite (assoc_L (++)). split; [done|].
      rewrite Hnew. unfold shown. cbn [fmap list_fmap fst]. unfold valid_records. cbn [List.filter].
      by destruct (cr_valid (last s)).
Qed.

(** cu.log has a line for every cycle. *)
Lemma cu_log_lines h :
  (forall i x, h !! i = Some x -> cycle (fst x) = 1 + Z.of_nat i) ->
  log_text h u_cu = text_concat (imap (fun i r => commit_line (1 + Z.of_nat i) r) (shown h)).
Proof.
  intros Hc. unfold log_text. f_equal. unfold shown. apply list_eq. intros i.
  rewrite list_lookup_imap, !list_lookup_fmap. destruct (h !! i) as [[s s1]|] eqn:E; [|done].
  cbn. f_equal. specialize (Hc i _ E). cbn in Hc. rewrite <- Hc.
  exact (prints_text _ _ (commit_line_text (cycle s) (last s))).
Qed.

Lemma run_history s :
  simulate prog = Ok s ->
  exists h, history_of prog = Ok h /\ len h = cycle s - 1 /\
    log_text h u_cu = text_concat (imap (fun i r => commit_line (1 + Z.of_nat i) r) (shown h)) /\
    trace prog (valid_records (shown h) ++ valid_records [last s]) s.
Proof.
  destruct (init_sim_spec prog) as (s0 & Hs0 & HI & Hcdb & _ & Hc0).
  intros Hs.
  pose proof (run_program_report prog (mkFileSystem (fun _ => None) (fun _ => true) (fun _ => true))
    EmptyString EmptyString EmptyString Htext) as H. rewrite Hs in H. destruct H as (h & Hh & _).
  exists h. split; [done|]. unfold simulate in Hs. unfold history_of in Hh.
  rewrite Hs0 in Hs, Hh. cbn [rbind] in Hs, Hh.
  destruct (history_trace _ [] 0%nat s0 s h (trace_init prog s0 Hs0) (ex_intro _ _ HI) Hcdb Hh Hs)
    as (Hc & Hci & new & Ht & Hnew).
  split; [lia|]. split.
  - apply cu_log_lines. intros i x Hx. rewrite (Hci i x Hx). lia.
  - assert (E : last s0 = default_record).
    { unfold init_sim in Hs0. do 3 apply rbind_Ok in Hs0 as (? & _ & Hs0).
      apply (f_equal (fun r => match r with Ok s => last s | Stop _ => default_record end)) in Hs0.
      symmetry. exact Hs0. }
    rewrite E in Hnew. cbn in Hnew. rewrite Hnew in Ht. exact Ht.
Qed.

End Log.
