(* ===== verification/Programs.v ===== *)
(** * Programs

    A checker for the loads and stores of a program that stops, and the test
    programs of sim/test_sim with the results recorded beside them. *)

From S2P Require Import Prelude Words Config Float32 Instruction Text Assembler.
From S2P Require Import RegisterFile Simulator InstructionQueue ISA.
From S2P Require Import Invariant SeqFacts Coherence Refinement.

Section Safe.
Context `{FE : FPEnv}.

#[local] Existing Instance from_memory_all.

(** A load from [addr] against the stores before it, [None] for other
    instructions. *)
Definition store_addr (i : Instruction) (a : Arch) : option Z :=
  if is_store (op i) then Some (eff_addr i a) else None.

Definition hazard_free (addr : Z) (recent : list (option Z)) : bool :=
  forallb (fun o =>
    match o with
    | Some x => negb (x / 4 =? addr / 4) || ((x =? addr) && (addr / 4 <? MEM_SIZE))
    | None => true
    end) recent.

(** Run the sequential machine and look at every load, with the stores among
    the 15 instructions before it, the last one first. *)
Fixpoint safe_run (p : list Instruction) (fuel : nat) (a : Arch) (recent : list (option Z)) : bool :=
  match fetch p (apc a) with
  | None => true
  | Some i =>
      if op_eqb (op i) HALT then true
      else (if is_load (op i) then hazard_free (eff_addr i a) recent else true) &&
           match fuel with
           | O => false
           | S fuel' => safe_run p fuel' (exec i a) (take 15 (store_addr i a :: recent))
           end
  end.

Definition recent_at (p : list Instruction) (k : nat) (recent : list (option Z)) : Prop :=
  forall s i, (s < k)%nat -> (k < s + 16)%nat -> ins_at p s = Some i -> is_store (op i) = true ->
    recent !! (k - 1 - s)%nat = Some (Some (addr_of p s)).

Lemma recent_at_S p k i recent :
  ins_at p k = Some i -> recent_at p k recent ->
  recent_at p (S k) (take 15 (store_addr i (st_at p k) :: recent)).
Proof.
  intros Hi Hr s j Hs Hn Hj Hst. rewrite lookup_take_lt by lia.
  destruct (decide (s = k)) as [->|Hne].
  - replace (S k - 1 - k)%nat with 0%nat by lia. cbn. rewrite Hi in Hj. injection Hj as <-.
    unfold store_addr, addr_of. by rewrite Hst, Hi.
  - replace (S k - 1 - s)%nat with (S (k - 1 - s)) by lia. cbn. apply (Hr s j); try done; lia.
Qed.

Lemma hazard_free_at p k recent s i addr :
  hazard_free addr recent = true -> recent_at p k recent ->
  (s < k)%nat -> (k < s + 16)%nat -> ins_at p s = Some i -> is_store (op i) = true ->
  addr_of p s / 4 = addr / 4 -> addr_of p s = addr /\ addr / 4 < MEM_SIZE.
Proof.
  intros Hh Hr Hs Hn Hi Hst E. specialize (Hr s i Hs Hn Hi Hst).
  unfold hazard_free in Hh. rewrite forallb_forall in Hh.
  specialize (Hh _ (proj1 (list_elem_of_In _ _) (list_elem_of_lookup_2 _ _ _ Hr))). cbn in Hh.
  rewrite E, Z.eqb_refl in Hh. cbn in Hh. by apply andb_true_iff in Hh as [?%Z.eqb_eq ?%Z.ltb_lt].
Qed.

(** Nothing executes after the machine has stopped. *)
Lemma stopped_after p k s i :
  (k <= s)%nat -> ins_at p s = Some i -> live p s ->
  match ins_at p k with None => False | Some j => op j = HALT -> s = k end.
Proof.
  intros Hle Hi Hl. destruct (ins_at p k) as [j|] eqn:Hj.
  - intros Hh. destruct (decide (s = k)) as [|Hne]; [done|]. destruct (Hl k j); [lia|done|done].
  - assert (forall d, ins_at p (k + d) = None) as Hnone.
    { induction d as [|d IHd]; [by rewrite Nat.add_0_r|].
      rewrite Nat.add_succ_r. unfold ins_at in *. rewrite st_at_stuck; done. }
    specialize (Hnone (s - k)%nat). replace (k + (s - k))%nat with s in Hnone by lia. congruence.
Qed.

Lemma safe_run_from p fuel k recent :
  safe_run p fuel (st_at p k) recent = true -> recent_at p k recent ->
  forall s s' i i', live p s -> (k <= s)%nat -> (s' < s)%nat -> Z.of_nat s < Z.of_nat s' + ROB_SIZE ->
    ins_at p s = Some i -> is_load (op i) = true ->
    ins_at p s' = Some i' -> is_store (op i') = true ->
    addr_of p s' / 4 = addr_of p s / 4 -> addr_of p s' = addr_of p s /\ addr_of p s / 4 < MEM_SIZE.
Proof.
  unfold ROB_SIZE. revert k recent.
  induction fuel as [|fuel IH]; intros k recent; cbn [safe_run]; fold (ins_at p k);
    intros Hrun Hrec s s' i i' Hl Hle Hlt Hnear Hi Hld Hi' Hst E;
    pose proof (stopped_after p k s i Hle Hi Hl) as Hstop;
    destruct (ins_at p k) as [j|] eqn:Hj; try done;
    unfold op_eqb in Hrun; destruct (bool_decide_reflect (op j = HALT)) as [Hh|Hh].
  1,3: rewrite (Hstop Hh), Hj in Hi; injection Hi as <-; by rewrite Hh in Hld.
  - by rewrite andb_false_r in Hrun.
  - apply andb_true_iff in Hrun as [Hok Hrun]. destruct (decide (s = k)) as [->|].
    + rewrite Hj in Hi. injection Hi as <-. rewrite Hld in Hok.
      assert (addr_of p k = eff_addr j (st_at p k)) as Ha by (unfold addr_of; by rewrite Hj).
      rewrite Ha in *. eapply (hazard_free_at p k); eauto. lia.
    + rewrite <- (seq_at_S p k j Hj) in Hrun.
      apply (IH (S k) _ Hrun (recent_at_S p k j recent Hj Hrec) s s' i i'); try done. lia.
Qed.

Lemma safe_run_sound p fuel : safe_run p fuel arch_init [] = true -> forwarding_safe p.
Proof.
  intros H s s' i i' Hl Hlt Hnear. apply (safe_run_from p fuel 0 [] H); [|done|lia|done|done].
  intros t j Ht. lia.
Qed.

End Safe.

(** Decidable forms of [wf_text] and [wf_source]. *)
Definition wf_text_b (prog : list Instruction) : bool :=
  forallb wf_instr prog && (len prog <? 2 ^ 30).
Definition wf_source_b (prog : list Instruction) : bool := wf_text_b prog && forallb named prog.

Lemma forallb_Forall_true (f : Instruction -> bool) l :
  forallb f l = true -> Forall (fun i => f i = true) l.
Proof.
  intros Hf. apply Forall_forall. intros i Hi. rewrite forallb_forall in Hf.
  apply Hf. by apply list_elem_of_In.
Qed.

Lemma wf_text_b_sound prog : wf_text_b prog = true -> wf_text prog.
Proof.
  unfold wf_text_b. rewrite andb_true_iff, Z.ltb_lt. intros [Hf Hl].
  split; [by apply forallb_Forall_true|done].
Qed.

Lemma wf_source_b_sound prog : wf_source_b prog = true -> wf_source prog.
Proof.
  unfold wf_source_b. rewrite andb_true_iff. intros [Ht Hn].
  split; [by apply wf_text_b_sound|by apply forallb_Forall_true].
Qed.

(** ** sim/test_sim *)

(** What final_regs.txt records: the cycles, the registers as bits, and the
    non-zero words of memory. *)
Record Final : Type := mkFinal {
  fin_cycles : Z;
  fin_int : list Z;
  fin_fp : list Z;
  fin_mem : list (nat * Z)
}.

#[global] Instance Final_eq_dec : EqDecision Final.
Proof. solve_decision. Defined.

(** The last part of [main]. *)
Definition final_of (s : Sim) : Final :=
  mkFinal (cycle s - 1) (u32 <$> int_regs_ (rf s)) (repr <$> fp_regs_ (rf s))
    (List.filter (fun x : nat * Z => negb (snd x =? 0)) (imap (fun i v => (i, v)) (mem s))).

(** [main]: no result when there is no instruction. *)
Definition main `{FE : FPEnv} (raw : list string) : res (option Final) :=
  let! program := parse_program raw in
  match program with
  | [] => Ok None
  | _ => let! s := simulate program in Ok (Some (final_of s))
  end.

(** Registers by index, zero elsewhere. *)
Definition regs (vals : list (nat * Z)) : list Z :=
  foldr (fun (x : nat * Z) l => <[fst x := snd x]> l) (replicate 32 0) vals.

Definition int_alu_asm : list string := ["ADDI x1, x0, 10  # x1 = 10";
  "ADDI x2, x0, 3  # x2 = 3";
  "ADD  x3, x1, x2  # x3 = 13  (RAW: x3 waits for x1,x2)";
  "SUB  x4, x1, x2  # x4 = 7   (RAW: x4 waits for x1,x2)";
  "AND  x5, x1, x2  # x5 = 2   (bitwise AND)";
  "OR   x6, x1, x2  # x6 = 11  (bitwise OR)";
  "XOR  x7, x1, x2  # x7 = 9   (bitwise XOR)";
  "SLLI x8, x1, 2  # x8 = 40  (shift left 2)";
  "SRLI x9, x1, 1  # x9 = 5   (shift right 1)";
  "ADD  x10, x3, x4  # x10 = 20 (RAW on x3 and x4 - tests forwarding)";
  "HALT"].

Definition int_alu_final : Final :=
  mkFinal 12 (regs [(1%nat, 10); (2%nat, 3); (3%nat, 13); (4%nat, 7); (5%nat, 2); (6%nat, 11); (7%nat, 9); (8%nat, 40); (9%nat, 5); (10%nat, 20)])
    (regs [])
    [].

Definition load_store_asm : list string := ["ADDI x1, x0, 42  # x1 = 42";
  "ADDI x2, x0, 100  # x2 = 100  (base address word 25 = byte 100)";
  "SW   x1, 0(x2)  # mem[25] = 42";
  "LW   x3, 0(x2)  # x3 = 42  (load after store - tests ordering)";
  "ADDI x4, x0, 7";
  "SW   x4, 4(x2)  # mem[26] = 7";
  "LW   x5, 4(x2)  # x5 = 7";
  "ADD  x6, x3, x5  # x6 = 49";
  "HALT"].

Definition load_store_final : Final :=
  mkFinal 10 (regs [(1%nat, 42); (2%nat, 100); (3%nat, 42); (4%nat, 7); (5%nat, 7); (6%nat, 49)])
    (regs [])
    [(25%nat, 42); (26%nat, 7)].

Definition branch_asm : list string := ["ADDI x1, x0, 0  # x1 = 0";
  "ADDI x2, x0, 5  # x2 = 5  (loop counter)";
  "ADDI x3, x0, 1  # x3 = 1";
  "loop:";
  "ADD  x1, x1, x2  # x1 += x2";
  "SUB  x2, x2, x3  # x2 -= 1";
  "BNE  x2, x0, loop  # if x2 != 0 goto loop";
  "HALT"].

Definition branch_final : Final :=
  mkFinal 20 (regs [(1%nat, 15); (3%nat, 1)])
    (regs [])
    [].

Definition fp_alu_asm : list string := ["ADDI  x1, x0, 0  # x1 = base address 0";
  "ADDI  x2, x0, 100  # x2 = integer 100";
  "FCVT.S.W f1, x2  # f1 = 100.0";
  "ADDI  x3, x0, 25";
  "FCVT.S.W f2, x3  # f2 = 25.0";
  "FADD.S f3, f1, f2  # f3 = 125.0";
  "FMUL.S f4, f1, f2  # f4 = 2500.0  (pipelined, lat=4)";
  "FSUB.S f5, f1, f2  # f5 = 75.0    (runs concurrently with FMUL)";
  "FCVT.W.S x4, f3  # x4 = 125";
  "HALT"].

Definition fp_alu_final : Final :=
  mkFinal 14 (regs [(2%nat, 100); (3%nat, 25); (4%nat, 125)])
    (regs [(1%nat, 1120403456); (2%nat, 1103626240); (3%nat, 1123680256); (4%nat, 1159479296); (5%nat, 1117126656)])
    [].

Definition jal_jalr_asm : list string := ["    ADDI x5, x0, 99  # x5 = 99  (argument to pass)";
  "    JAL  x1, func_a  # call func_a; x1 = PC+4 = 4";
  "    JAL  x3, func_b  # call func_b; x3 = PC+4 = 12";
  "    HALT";
  "func_a:";
  "    ADD  x2, x5, x0  # x2 = x5 = 99";
  "    JALR x0, x1, 0  # return to caller (x1 holds return addr)";
  "func_b:";
  "    ADDI x10, x0, 42  # x10 = 42";
  "    JALR x0, x3, 0  # return to caller (x3 holds return addr)"].

Definition jal_jalr_final : Final :=
  mkFinal 9 (regs [(1%nat, 8); (2%nat, 99); (3%nat, 12); (5%nat, 99); (10%nat, 42)])
    (regs [])
    [].

Definition combined_asm : list string := ["ADDI  x1, x0, 1";
  "ADDI  x2, x0, 2";
  "ADDI  x3, x0, 3";
  "ADDI  x4, x0, 4";
  "ADDI  x5, x0, 5";
  "ADDI  x6, x0, 6";
  "ADDI  x10, x0, 0  # base = 0";
  "SW    x1, 0(x10)";
  "SW    x2, 4(x10)";
  "SW    x3, 8(x10)";
  "SW    x4, 12(x10)";
  "SW    x5, 16(x10)";
  "SW    x6, 20(x10)";
  "LW    x11, 0(x10)";
  "LW    x14, 12(x10)";
  "MUL:";
  "ADD   x17, x0, x0";
  "ADD   x17, x17, x11  # x17 = a[0]=1";
  "ADDI  x18, x0, 0";
  "loop0:";
  "ADD   x18, x18, x17  # multiply x17 by x14 via repeated add";
  "ADDI  x14, x14, -1";
  "BNE   x14, x0, loop0";
  "LW    x12, 4(x10)";
  "LW    x15, 16(x10)";
  "ADD   x19, x0, x12  # a[1]=2";
  "ADDI  x20, x0, 0";
  "ADDI  x15, x15, 0  # b[1]=5";
  "loop1:";
  "ADD   x20, x20, x19";
  "ADDI  x15, x15, -1";
  "BNE   x15, x0, loop1";
  "ADD   x21, x18, x20  # 4+10=14";
  "LW    x13, 8(x10)";
  "LW    x16, 20(x10)";
  "ADD   x22, x0, x13  # a[2]=3";
  "ADDI  x23, x0, 0";
  "ADDI  x16, x16, 0";
  "loop2:";
  "ADD   x23, x23, x22";
  "ADDI  x16, x16, -1";
  "BNE   x16, x0, loop2";
  "ADD   x24, x21, x23  # 14+18=32  (dot product)";
  "HALT"].

Definition combined_final : Final :=
  mkFinal 77 (regs [(1%nat, 1); (2%nat, 2); (3%nat, 3); (4%nat, 4); (5%nat, 5); (6%nat, 6); (11%nat, 1); (12%nat, 2); (13%nat, 3); (17%nat, 1); (18%nat, 4); (19%nat, 2); (20%nat, 10); (21%nat, 14); (22%nat, 3); (23%nat, 18); (24%nat, 32)])
    (regs [])
    [(0%nat, 1); (1%nat, 2); (2%nat, 3); (3%nat, 4); (4%nat, 5); (5%nat, 6)].

Definition comprehensive_asm : list string := ["ADDI x1, x0, 10  # x1 = 10";
  "ADDI x2, x0, 3  # x2 = 3";
  "ADD  x3, x1, x2  # x3 = 13   RAW on x1, x2";
  "SUB  x4, x1, x2  # x4 = 7    RAW on x1, x2";
  "AND  x5, x3, x4  # x5 = 5    (13 & 7 = 0101)   RAW chain";
  "OR   x6, x3, x4  # x6 = 15   (13 | 7 = 1111)";
  "XOR  x7, x3, x4  # x7 = 10   (13 ^ 7 = 1010)";
  "SLLI x8, x3, 1  # x8 = 26   RAW on x3";
  "SRLI x9, x8, 2  # x9 = 6    RAW chain on x8";
  "ADDI x20, x0, 200  # x20 = 200 (byte base = word 50)";
  "SW   x3, 0(x20)  # mem[50] = 13";
  "SW   x4, 4(x20)  # mem[51] = 7";
  "LW   x10, 0(x20)  # x10 = 13  (forwarded from SW x3)";
  "LW   x11, 4(x20)  # x11 = 7   (forwarded from SW x4)";
  "BNE  x1, x2, after_skip";
  "ADDI x12, x0, 99  # SKIPPED (branch taken)";
  "after_skip:";
  "ADDI x12, x0, 1  # x12 = 1";
  "ADD  x13, x10, x11  # x13 = 20  RAW on x10, x11";
  "ADDI x21, x0, 160  # x21 = 160 (byte base = word 40)";
  "SW   x1, 0(x21)  # mem[40] = 10 (raw bits for f0)";
  "SW   x2, 4(x21)  # mem[41] = 3  (raw bits for f1)";
  "FLW  f0, 0(x21)  # f0 = bits_to_float(10)  tiny denormal";
  "FLW  f1, 4(x21)  # f1 = bits_to_float(3)   tiny denormal";
  "FADD.S f2, f0, f1  # f2 = f0+f1 = bits_to_float(13)   RAW on f0, f1";
  "FSUB.S f3, f2, f1  # f3 = f2-f1 = f0         RAW chain";
  "FMUL.S f4, f0, f1  # f4 = f0*f1 = 0.0        underflows";
  "FSW  f2, 8(x21)  # mem[42] = bits(f2)";
  "FLW  f5, 8(x21)  # f5 = f2  (FP store-to-load forward)";
  "LUI  x16, 1  # x16 = 1 << 12 = 4096 = 0x1000";
  "LUI  x17, 0xABCDE  # x17 = 0xABCDE000";
  "JAL  x14, fp_done  # x14 = PC+4 = 116; jump to fp_done (PC=120)";
  "HALT  # PC=116 - jumped over by JAL, landed here on return";
  "fp_done:";
  "ADD  x15, x12, x13  # x15 = 1 + 20 = 21   RAW on x12, x13";
  "JALR x0, x14, 0  # return to x14 = 116 (HALT)"].

Definition comprehensive_final : Final :=
  mkFinal 37 (regs [(1%nat, 10); (2%nat, 3); (3%nat, 13); (4%nat, 7); (5%nat, 5); (6%nat, 15); (7%nat, 10); (8%nat, 26); (9%nat, 6); (10%nat, 13); (11%nat, 7); (12%nat, 1); (13%nat, 20); (14%nat, 124); (15%nat, 21); (16%nat, 4096); (17%nat, 2882396160); (20%nat, 200); (21%nat, 160)])
    (regs [(0%nat, 10); (1%nat, 3); (2%nat, 13); (3%nat, 10); (5%nat, 13)])
    [(40%nat, 10); (41%nat, 3); (42%nat, 13); (50%nat, 13); (51%nat, 7)].

