(* ===== verification/AssemblerFacts.v ===== *)
(** * Printing instructions as assembly text

    The text of a decoded instruction, and what the string functions and the
    tokenizer of the assembler make of it. *)

From stdpp Require Import gmap strings.
From Stdlib Require Import Ascii.
From S2P Require Import Prelude Words Config Instruction Text Numerals Assembler.

Local Open Scope Z_scope.

(** ** Numbers *)

Lemma digit_cases d (P : Z -> Prop) :
  P 0 -> P 1 -> P 2 -> P 3 -> P 4 -> P 5 -> P 6 -> P 7 -> P 8 -> P 9 -> 0 <= d < 10 -> P d.
Proof.
  intros ?????????? Hd.
  assert (d = 0 \/ d = 1 \/ d = 2 \/ d = 3 \/ d = 4 \/ d = 5 \/ d = 6 \/ d = 7 \/ d = 8 \/ d = 9)
    as Hc by lia. repeat (destruct Hc as [->|Hc]; [done|]). by subst.
Qed.

(** [sign] and [skip_space] pass a digit. *)
Lemma digit_start d s :
  0 <= d < 10 -> skip_space (String (digit_char d) s) = String (digit_char d) s /\
    sign (String (digit_char d) s) = (false, String (digit_char d) s).
Proof.
  apply (digit_cases d (fun d => skip_space (String (digit_char d) s) = String (digit_char d) s /\
    sign (String (digit_char d) s) = (false, String (digit_char d) s))); done.
Qed.

Lemma digit_base d s : 0 <= d < 10 -> d <> 0 ->
  detect_base (String (digit_char d) s) = (10, String (digit_char d) s).
Proof.
  intros Hd. apply (digit_cases d (fun d => d <> 0 ->
    detect_base (String (digit_char d) s) = (10, String (digit_char d) s))); done.
Qed.

(** What [strtol] and [strtoul] see of a printed integer. *)
Lemma print_int_scan z : sign (skip_space (print_int z)) = (z <? 0, print_nat (Z.abs z)).
Proof.
  unfold print_int. destruct (Z.ltb_spec z 0).
  - cbn. by rewrite Z.abs_neq by lia.
  - rewrite Z.abs_eq by lia. destruct (print_nat_first z) as (d & s & -> & Hd & _); [lia|].
    destruct (digit_start d s Hd) as [-> ->]. done.
Qed.

Lemma stoi_print z : is_s32 z -> stoi (print_int z) = Ok z.
Proof.
  unfold is_s32. intros Hz. unfold stoi. rewrite print_int_scan, read_print_nat by lia.
  assert ((if z <? 0 then - Z.abs z else Z.abs z) = z) as ->
    by (destruct (Z.ltb_spec z 0); lia).
  by rewrite (proj2 (Z.leb_le _ _)), (proj2 (Z.ltb_lt _ _)) by lia.
Qed.

Lemma stoul0_print z : is_s32 z -> stoul0 (print_int z) = Ok (z mod 2 ^ 64).
Proof.
  unfold is_s32. intros Hz. unfold stoul0. rewrite print_int_scan.
  assert (exists base s, detect_base (print_nat (Z.abs z)) = (base, s) /\
    read_digits base None s = Some (Z.abs z)) as (base & s & -> & ->).
  { destruct (decide (z = 0)) as [->|Hne]; [by eexists 8, "0"%string|].
    exists 10, (print_nat (Z.abs z)). split; [|apply read_print_nat; lia].
    destruct (print_nat_first (Z.abs z)) as (d & s & -> & Hd & H0); [lia|].
    apply digit_base; [done|]. intros E. specialize (H0 E). lia. }
  rewrite (proj2 (Z.ltb_lt _ _)) by lia. f_equal.
  destruct (Z.ltb_spec z 0); f_equal; lia.
Qed.

(** ** Tokens *)

(** Characters that neither separate tokens nor start a comment. *)
Definition plain (c : ascii) : bool :=
  negb (is_space c) && negb (bool_decide (c = "#"%char)) && negb (bool_decide (c = ","%char)).

Definition token (w : string) : Prop := w <> EmptyString /\ all_chars plain w = true.

(** The characters of a printed number. *)
Definition number_char (c : ascii) : bool :=
  bool_decide (is_Some (digit 10 c)) || bool_decide (c = "-"%char).

(** Digits and the minus sign are plain, and no parentheses. *)
Lemma digit_plain d : 0 <= d < 10 -> plain (digit_char d) = true.
Proof. apply (digit_cases d (fun d => plain (digit_char d) = true)); reflexivity. Qed.

Definition not_char (x c : ascii) : bool := negb (bool_decide (c = x)).

Lemma digit_not_paren d : 0 <= d < 10 -> not_char "("%char (digit_char d) = true /\
  not_char ")"%char (digit_char d) = true.
Proof.
  apply (digit_cases d (fun d => not_char "("%char (digit_char d) = true /\
    not_char ")"%char (digit_char d) = true)); done.
Qed.

Lemma strip_plain w s : all_chars plain w = true -> strip (w +:+ s) = w +:+ strip s.
Proof.
  induction w as [|c w IH]; [done|]. cbn [all_chars]. intros [Hc Hw]%andb_true_iff.
  apply andb_true_iff in Hc as [[_ H1]%andb_true_iff H2]. apply negb_true_iff in H1, H2.
  rewrite app_cons. cbn. by rewrite H1, H2, IH.
Qed.

Lemma words_plain w s :
  all_chars plain w = true ->
  words (w +:+ s) = (w +:+ fst (words s), snd (words s)).
Proof.
  induction w as [|c w IH]; [rewrite !empty_app; by destruct (words s)|]. cbn [all_chars].
  intros [Hc Hw]%andb_true_iff. apply andb_true_iff in Hc as [[H1 _]%andb_true_iff _].
  apply negb_true_iff in H1. rewrite app_cons. cbn. by rewrite IH, H1.
Qed.

(** [tokenize] on what [strip] left. *)
Definition split (s : string) : list string := push (fst (words s)) (snd (words s)).

Lemma tokenize_split l : tokenize l = split (strip l).
Proof. unfold tokenize, split. by destruct (words (strip l)). Qed.

Lemma words_space s : words (String " " s) = (EmptyString, split s).
Proof. cbn. unfold split. by destruct (words s). Qed.

Lemma push_token w ws : token w -> push w ws = w :: ws.
Proof. intros [Hw _]. by destruct w. Qed.

Lemma split_token w s : token w -> split (w +:+ String " " s) = w :: split s.
Proof.
  intros Hw. unfold split at 1. rewrite words_plain by apply Hw. rewrite words_space.
  cbn [fst snd]. rewrite app_empty. by apply push_token.
Qed.

Lemma split_space s : split (String " " s) = split s.
Proof. unfold split at 1. by rewrite words_space. Qed.

Lemma split_last w : token w -> split w = [w].
Proof.
  intros Hw. unfold split. rewrite <- (app_empty w), words_plain by apply Hw. cbn.
  rewrite !app_empty. by apply push_token.
Qed.

(** Operands separated by a comma and a space, behind the mnemonic. *)
Fixpoint join (ws : list string) : string :=
  match ws with
  | [] => EmptyString
  | [w] => w
  | w :: ws' => w +:+ String "," (String " " (join ws'))
  end.

Definition line (mn : string) (ws : list string) : string := mn +:+ String " " (join ws).

Lemma split_join ws : Forall token ws -> split (strip (join ws)) = ws.
Proof.
  induction 1 as [|w ws Hw Hws IH]; [done|]. destruct ws as [|w2 ws].
  - cbn [join]. rewrite <- (app_empty w) at 1. rewrite strip_plain, app_empty by apply Hw.
    by apply split_last.
  - change (join (w :: w2 :: ws)) with (w +:+ String "," (String " " (join (w2 :: ws)))).
    rewrite strip_plain by apply Hw.
    change (strip (String "," (String " " (join (w2 :: ws)))))
      with (String " " (String " " (strip (join (w2 :: ws))))).
    rewrite split_token by done. by rewrite split_space, IH.
Qed.

Lemma tokenize_line mn ws : token mn -> Forall token ws -> tokenize (line mn ws) = mn :: ws.
Proof.
  intros Hm Hws. unfold line. rewrite tokenize_split, strip_plain by apply Hm.
  change (strip (String " " (join ws))) with (String " " (strip (join ws))).
  by rewrite split_token, split_join.
Qed.
