(* ===== verification/Disassembler.v ===== *)
(** * Disassembly

    The assembly text of a decoded instruction by the format of its operation,
    and that the assembler decodes this text. *)

From stdpp Require Import gmap strings.
From Stdlib Require Import Ascii.
From S2P Require Import Prelude Words Config Instruction Text Numerals Assembler AssemblerFacts.

Local Open Scope Z_scope.

(** The operand formats of the second pass of [parse_program]. *)
Inductive Format : Type :=
| FReg3 (fp : bool)                  (* rd, rs1, rs2 *)
| FRegImm                            (* rd, rs1, imm *)
| FLui                               (* rd, imm *)
| FLoad (fp : bool)                  (* rd, imm(rs1) *)
| FStore (fp : bool)                 (* rs2, imm(rs1) *)
| FBranch                            (* rs1, rs2, offset *)
| FJal                               (* rd, offset *)
| FJalr                              (* rd, imm(rs1) *)
| FConvert (dfp fp1 : bool)          (* rd, rs1 *)
| FNone.

Definition format (o : Opcode) : Format :=
  match o with
  | ADD | SUB | AND | OR | XOR | SLL | SRL | SRA => FReg3 false
  | ADDI | ANDI | ORI | XORI | SLLI | SRLI => FRegImm
  | LUI => FLui
  | LW => FLoad false
  | FLW => FLoad true
  | SW => FStore false
  | FSW => FStore true
  | BEQ | BNE | BLT | BGE => FBranch
  | JAL => FJal
  | JALR => FJalr
  | FADD_S | FSUB_S | FMUL_S | FDIV_S => FReg3 true
  | FCVT_W_S => FConvert false true
  | FCVT_S_W => FConvert true false
  | NOP | HALT => FNone
  end.

(** The fields a format leaves unused have the defaults of [Instruction{}]. *)
Definition normal (i : Instruction) : Instruction :=
  match format (op i) with
  | FReg3 fp => instr (op i) (rd i) (rs1 i) (rs2 i) 0 fp fp fp (pc i)
  | FRegImm | FJalr => instr (op i) (rd i) (rs1 i) (-1) (imm i) false false false (pc i)
  | FLui | FJal => instr (op i) (rd i) (-1) (-1) (imm i) false false false (pc i)
  | FLoad fp => instr (op i) (rd i) (rs1 i) (-1) (imm i) fp false false (pc i)
  | FStore fp => instr (op i) (-1) (rs1 i) (rs2 i) (imm i) false false fp (pc i)
  | FBranch => instr (op i) (-1) (rs1 i) (rs2 i) (imm i) false false false (pc i)
  | FConvert dfp fp1 => instr (op i) (rd i) (rs1 i) (-1) 0 dfp fp1 false (pc i)
  | FNone => instr (op i) (-1) (-1) (-1) 0 false false false (pc i)
  end.

Definition printable (i : Instruction) : Prop :=
  i = normal i /\ is_s32 (rd i) /\ is_s32 (rs1 i) /\ is_s32 (rs2 i) /\ is_s32 (imm i).

(** [x5], [f5]: the assembler looks past the first character only. *)
Definition reg (fp : bool) (r : Z) : string :=
  String (if fp then "f"%char else "x"%char) (print_int r).

Definition mem_operand (im base : Z) : string :=
  print_int im +:+ String "(" (reg false base +:+ ")").

Definition operands (i : Instruction) : list string :=
  match format (op i) with
  | FReg3 fp => [reg fp (rd i); reg fp (rs1 i); reg fp (rs2 i)]
  | FRegImm => [reg false (rd i); reg false (rs1 i); print_int (imm i)]
  | FLui | FJal => [reg false (rd i); print_int (imm i)]
  | FLoad fp => [reg fp (rd i); mem_operand (imm i) (rs1 i)]
  | FStore fp => [reg fp (rs2 i); mem_operand (imm i) (rs1 i)]
  | FBranch => [reg false (rs1 i); reg false (rs2 i); print_int (imm i)]
  | FJalr => [reg false (rd i); mem_operand (imm i) (rs1 i)]
  | FConvert dfp fp1 => [reg dfp (rd i); reg fp1 (rs1 i)]
  | FNone => []
  end.

Definition disassemble (i : Instruction) : string := line (opcode_name (op i)) (operands i).

(** ** Operands are tokens and are read back *)

Lemma print_int_token z : is_s32 z -> token (print_int z).
Proof.
  intros Hz. split; [apply print_int_nonempty|].
  apply print_int_chars; [apply digit_plain|done].
Qed.

Lemma reg_token fp r : token (reg fp r).
Proof.
  split; [done|]. unfold reg. cbn [all_chars].
  rewrite print_int_chars by (done || apply digit_plain). by destruct fp.
Qed.

Lemma mem_operand_token im base : is_s32 im -> token (mem_operand im base).
Proof.
  intros Him. destruct (print_int_token im Him) as [Hne Hc]. split.
  - unfold mem_operand. by destruct (print_int im).
  - unfold mem_operand. rewrite all_chars_app, Hc. cbn [andb all_chars].
    rewrite all_chars_app. by destruct (reg_token false base) as [_ ->].
Qed.

Lemma preg_reg fp r : is_s32 r -> preg (reg fp r) = Ok r.
Proof. intros Hr. unfold preg, reg. cbn. by rewrite stoi_print. Qed.

Lemma find_char_absent c w : all_chars (not_char c) w = true -> find_char c w = None.
Proof.
  induction w as [|c' w IH]; [done|]. cbn. intros [H Hw]%andb_true_iff.
  apply negb_true_iff in H. by rewrite H, IH.
Qed.

Lemma find_char_app c w s :
  all_chars (not_char c) w = true -> find_char c (w +:+ String c s) = Some (String.length w).
Proof.
  induction w as [|c' w IH]; cbn [all_chars].
  - rewrite empty_app. cbn. by rewrite bool_decide_eq_true_2.
  - intros [H Hw]%andb_true_iff. apply negb_true_iff in H. rewrite app_cons. cbn.
    by rewrite H, IH.
Qed.

Lemma take_chars_app w s : take_chars (String.length w) (w +:+ s) = w.
Proof. induction w as [|c w IH]; [by destruct s|]. rewrite app_cons. cbn. by rewrite IH. Qed.

Lemma drop_chars_past w c s : drop_chars (S (String.length w)) (w +:+ String c s) = s.
Proof. induction w as [|c' w IH]; [done|]. rewrite app_cons. cbn in *. by rewrite IH. Qed.

Lemma parse_mem_operand im base :
  is_s32 im -> is_s32 base -> parse_mem (mem_operand im base) = Ok (im, base).
Proof.
  intros Him Hb. unfold parse_mem, mem_operand.
  assert (Hp : all_chars (not_char "("%char) (print_int im) = true)
    by (apply print_int_chars; [intros d Hd; by destruct (digit_not_paren d Hd)|done]).
  rewrite find_char_app, take_chars_app, drop_chars_past by done. rewrite stoi_print by done.
  cbn [rbind]. assert (Hr : all_chars (not_char ")"%char) (reg false base) = true).
  { unfold reg. cbn [all_chars]. rewrite print_int_chars; [done| |done].
    intros d Hd. by destruct (digit_not_paren d Hd). }
  rewrite (find_char_app ")"%char (reg false base) EmptyString) by done.
  rewrite take_chars_app, preg_reg by done. done.
Qed.

Lemma branch_offset_print labels z p : is_s32 z -> branch_offset (print_int z) labels p = z.
Proof. intros Hz. unfold branch_offset. by rewrite stoi_print. Qed.

(** ** The decoder on disassembled text *)

Definition decode_format (f : Format) (o : Opcode) (labels : Labels) (toks : list string) (p : Z)
  : res Instruction :=
  match f with
  | FReg3 fp => reg3 o fp toks p
  | FRegImm => reg2_imm o toks p
  | FLui => lui_fmt toks p
  | FLoad fp => load_fmt o fp toks p
  | FStore fp => store_fmt o fp toks p
  | FBranch => branch_fmt o labels toks p
  | FJal => jal_fmt labels toks p
  | FJalr => jalr_fmt toks p
  | FConvert dfp fp1 => convert_fmt o dfp fp1 toks p
  | FNone => Ok (instr o (-1) (-1) (-1) 0 false false false p)
  end.

(** The chain of comparisons finds the operation by its name. *)
Lemma decode_opcode_name o labels toks p :
  decode labels (opcode_name o) toks p = decode_format (format o) o labels toks p.
Proof. by destruct o. Qed.

(** Every mnemonic it accepts is such a name; any other gives a NOP. *)
Lemma decode_mnemonic labels mn toks p :
  (exists o, mn = opcode_name o) \/ decode labels mn toks p = Ok (set_pc default_instruction p).
Proof.
  unfold decode.
  repeat (case_bool_decide as E; [left; subst;
    first [by exists ADD|by exists SUB|by exists AND|by exists OR|by exists XOR|by exists SLL
          |by exists SRL|by exists SRA|by exists ADDI|by exists LUI|by exists ANDI|by exists ORI
          |by exists XORI|by exists SLLI|by exists SRLI|by exists LW|by exists FLW|by exists SW
          |by exists FSW|by exists BEQ|by exists BNE|by exists BLT|by exists BGE|by exists JAL
          |by exists JALR|by exists FADD_S|by exists FSUB_S|by exists FMUL_S|by exists FDIV_S
          |by exists FCVT_W_S|by exists FCVT_S_W|by exists NOP|by exists HALT]|clear E]).
  by right.
Qed.

Lemma jal_of_format o : format o = FJal -> o = JAL.
Proof. by destruct o. Qed.
Lemma jalr_of_format o : format o = FJalr -> o = JALR.
Proof. by destruct o. Qed.
Lemma lui_of_format o : format o = FLui -> o = LUI.
Proof. by destruct o. Qed.

Lemma find_paren_operand im base : is_s32 im -> exists n, find_char "("%char (mem_operand im base) = Some n.
Proof.
  intros Him. eexists. unfold mem_operand. apply find_char_app.
  apply print_int_chars; [intros d Hd; by destruct (digit_not_paren d Hd)|done].
Qed.

Lemma s32_mod64 z : s32 (z mod 2 ^ 64) = s32 z.
Proof.
  rewrite <- (s32_add_mul (z mod 2 ^ 64) (z / 2 ^ 64 * 2 ^ 32)). f_equal.
  pose proof (Z.div_mod z (2 ^ 64) ltac:(lia)). lia.
Qed.

#[local] Arguments preg : simpl never.
#[local] Arguments reg : simpl never.
#[local] Arguments stoi : simpl never.
#[local] Arguments stoul0 : simpl never.
#[local] Arguments parse_mem : simpl never.
#[local] Arguments mem_operand : simpl never.
#[local] Arguments find_char : simpl never.
#[local] Arguments s32 : simpl never.

Lemma decode_disassembled labels i p :
  printable i ->
  decode labels (opcode_name (op i)) (opcode_name (op i) :: operands i) p = Ok (set_pc i p).
Proof.
  intros (Hn & Hrd & Hr1 & Hr2 & Him). rewrite decode_opcode_name.
  assert (Hpc : set_pc i p = set_pc (normal i) p) by congruence. rewrite Hpc.
  unfold normal, operands. destruct (format (op i)) eqn:Hf; cbn [decode_format].
  - unfold reg3. cbn. by rewrite !preg_reg.
  - unfold reg2_imm. cbn. by rewrite !preg_reg, stoi_print.
  - unfold lui_fmt. cbn. rewrite !preg_reg, stoul0_print by done. cbn.
    by rewrite s32_mod64, s32_id, (lui_of_format _ Hf).
  - unfold load_fmt. cbn. by rewrite !preg_reg, parse_mem_operand.
  - unfold store_fmt. cbn. by rewrite !preg_reg, parse_mem_operand.
  - unfold branch_fmt. cbn. by rewrite !preg_reg, branch_offset_print.
  - unfold jal_fmt. cbn. rewrite preg_reg by done. cbn.
    by rewrite branch_offset_print, (jal_of_format _ Hf).
  - unfold jalr_fmt. cbn. rewrite preg_reg by done. cbn.
    destruct (find_paren_operand (imm i) (rs1 i) Him) as [n ->].
    by rewrite parse_mem_operand, (jalr_of_format _ Hf).
  - unfold convert_fmt. cbn. by rewrite !preg_reg.
  - done.
Qed.

Lemma opcode_name_token o : token (opcode_name o).
Proof. split; by destruct o. Qed.

Lemma operands_tokens i : printable i -> Forall token (operands i).
Proof.
  intros (_ & _ & _ & _ & Him). unfold operands.
  destruct (format (op i)); repeat apply Forall_cons_2; try apply Forall_nil_2;
    auto using reg_token, mem_operand_token, print_int_token.
Qed.

Lemma opcode_name_not_label o ws : is_label (opcode_name o :: ws) = false.
Proof. by destruct o. Qed.

Lemma decode_lines_disassembled labels prog k :
  Forall printable prog ->
  decode_lines labels (disassemble <$> prog) k =
    Ok (imap (fun j i => set_pc i (u32 ((k + Z.of_nat j) * 4))) prog).
Proof.
  intros Hp. revert k. induction Hp as [|i prog Hi Hp IH]; intros k; [done|].
  rewrite fmap_cons. cbn [decode_lines]. unfold disassemble at 1.
  rewrite tokenize_line by auto using opcode_name_token, operands_tokens.
  rewrite opcode_name_not_label, decode_disassembled by done. cbn [rbind].
  rewrite IH. cbn [rbind imap]. f_equal. f_equal.
  - f_equal. f_equal. lia.
  - apply imap_ext. intros j x _. cbn. f_equal. f_equal. lia.
Qed.
