(* ===== verification/AssemblerLines.v ===== *)
(** * The two passes of the assembler, line by line

    Which lines of a source become instructions, at which address each is
    decoded, and what the label table holds. *)

From stdpp Require Import gmap strings.
From Stdlib Require Import Ascii.
From S2P Require Import Prelude Words Config Float32 Instruction Text Numerals Assembler.
From S2P Require Import AssemblerFacts Disassembler InstructionQueue ISA.

Local Open Scope Z_scope.

(** The token lists of the lines that are neither empty nor labels. *)
Definition is_code (toks : list string) : bool :=
  match toks with [] => false | _ => negb (is_label toks) end.

Definition instr_lines (raw : list string) : list (list string) :=
  List.filter is_code (tokenize <$> raw).

(** The line defines the label [name]. *)
Definition defines (name : string) (l : string) : Prop :=
  exists ts, tokenize l = (name +:+ ":") :: ts.

Lemma instr_lines_cons l raw :
  instr_lines (l :: raw) =
    if is_code (tokenize l) then tokenize l :: instr_lines raw else instr_lines raw.
Proof. unfold instr_lines. rewrite fmap_cons. cbn. by destruct (is_code (tokenize l)). Qed.

Lemma instr_lines_app r1 r2 : instr_lines (r1 ++ r2) = instr_lines r1 ++ instr_lines r2.
Proof. unfold instr_lines. by rewrite fmap_app, List.filter_app. Qed.

Lemma instr_lines_length raw : (length (instr_lines raw) <= length raw)%nat.
Proof.
  induction raw as [|l raw IH]; [done|]. rewrite instr_lines_cons. cbn [length].
  destruct (is_code (tokenize l)); cbn [length]; lia.
Qed.

(** ** Second pass *)

Definition head_token (toks : list string) : string := List.hd EmptyString toks.

(** Each instruction line is decoded at its own address, in order. *)
Lemma decode_lines_spec labels raw k prog :
  decode_lines labels raw k = Ok prog ->
  length prog = length (instr_lines raw) /\
  forall j toks, instr_lines raw !! j = Some toks ->
    exists i, prog !! j = Some i /\
      decode labels (head_token toks) toks (u32 ((k + Z.of_nat j) * 4)) = Ok i.
Proof.
  revert k prog. induction raw as [|l raw IH]; intros k prog.
  - intros E. injection E as <-. split; [done|]. by intros j toks E.
  - rewrite instr_lines_cons. cbn [decode_lines]. destruct (tokenize l) as [|t ts] eqn:Et;
      cbn [is_code]; [apply IH|].
    destruct (is_label (t :: ts)) eqn:El; cbn [negb]; [apply IH|]. intros H.
    apply rbind_Ok in H as (i & Hi & H). apply rbind_Ok in H as (rest & His & H). injection H as <-.
    destruct (IH _ _ His) as [Hlen Hall]. split; [cbn; lia|].
    intros [|j] toks Hj; cbn in Hj.
    + injection Hj as <-. exists i. split; [reflexivity|]. rewrite Z.add_0_r. exact Hi.
    + destruct (Hall j toks Hj) as (i' & Hi' & Hd). exists i'. split; [exact Hi'|].
      replace (k + 1 + Z.of_nat j) with (k + Z.of_nat (S j)) in Hd by lia. exact Hd.
Qed.

(** ** First pass *)

Lemma last_char_split t c :
  last_char t = Some c -> t = take_chars (String.length t - 1) t +:+ String c EmptyString.
Proof.
  induction t as [|c1 t IH]; [done|]. destruct t as [|c2 t]; [by intros [= ->]|].
  intros H. specialize (IH H). cbn [String.length] in *.
  replace (S (S (String.length t)) - 1)%nat with (S (S (String.length t) - 1)) by lia.
  cbn [take_chars]. by rewrite app_cons, <- IH.
Qed.

Lemma last_char_app s c : last_char (s +:+ String c EmptyString) = Some c.
Proof.
  induction s as [|c1 s IH]; [done|]. rewrite app_cons. cbn. rewrite IH.
  by destruct s.
Qed.

Lemma collect_labels_app r1 r2 labels k :
  collect_labels (r1 ++ r2) labels k =
    collect_labels r2 (collect_labels r1 labels k) (k + len (instr_lines r1)).
Proof.
  revert labels k. induction r1 as [|l r1 IH]; intros labels k; cbn [app collect_labels].
  - cbn. by rewrite Z.add_0_r.
  - rewrite instr_lines_cons. destruct (tokenize l) as [|t ts]; cbn [is_code]; [apply IH|].
    destruct (is_label (t :: ts)); cbn [negb]; rewrite IH; [done|]. f_equal. cbn [length]. lia.
Qed.

Lemma collect_labels_other name raw labels k :
  Forall (fun l => ~ defines name l) raw -> collect_labels raw labels k !! name = labels !! name.
Proof.
  intros Hn. revert labels k. induction Hn as [|l raw Hl _ IH]; intros labels k; [done|].
  cbn [collect_labels]. destruct (tokenize l) as [|t ts] eqn:Et; [apply IH|].
  destruct (is_label (t :: ts)) eqn:El; [|apply IH]. rewrite IH. apply lookup_insert_ne.
  intros E. apply Hl. exists ts. rewrite Et. f_equal.
  apply bool_decide_eq_true in El. rewrite (last_char_split _ _ El) at 1. by rewrite E.
Qed.

(** A label stands for the address of the next instruction line; the last
    definition counts. *)
Lemma collect_labels_last name before l after :
  defines name l -> Forall (fun l => ~ defines name l) after ->
  collect_labels (before ++ l :: after) ∅ 0 !! name = Some (len (instr_lines before) * 4).
Proof.
  intros [ts Ht] Ha. rewrite collect_labels_app. cbn [collect_labels]. rewrite Ht.
  assert (is_label ((name +:+ ":") :: ts) = true) as ->
    by (apply bool_decide_eq_true; apply last_char_app).
  rewrite collect_labels_other by done.
  assert (take_chars (String.length (name +:+ ":") - 1) (name +:+ ":") = name) as ->.
  { pose proof (last_char_split (name +:+ ":") ":"%char (last_char_app name ":"%char)) as E.
    revert E. generalize (take_chars (String.length (name +:+ ":") - 1) (name +:+ ":")).
    clear. induction name as [|c name IH]; intros w E; destruct w as [|c' w]; try done.
    - injection E as <- E. by destruct w.
    - rewrite app_cons, empty_app in E. injection E as <- E. by destruct name.
    - rewrite !app_cons in E. injection E as <- E. f_equal. by apply IH. }
  apply lookup_insert_eq.
Qed.

(** ** Branch targets *)

Definition target_token (o : Opcode) (toks : list string) : option string :=
  match format o with
  | FBranch => toks !! 3%nat
  | FJal => toks !! 2%nat
  | _ => None
  end.

Lemma decode_target labels o toks p i name :
  decode labels (opcode_name o) toks p = Ok i -> target_token o toks = Some name ->
  op i = o /\ pc i = p /\ imm i = branch_offset name labels p.
Proof.
  rewrite decode_opcode_name. unfold target_token.
  destruct (format o) eqn:Hf; try done; cbn [decode_format]; intros H Ht.
  - unfold branch_fmt, tok in H. rewrite Ht in H. inv_res.
    by repeat (case_match; try discriminate); simplify_eq/=.
  - unfold jal_fmt, tok in H. rewrite Ht in H. inv_res.
    rewrite (jal_of_format _ Hf). by repeat (case_match; try discriminate); simplify_eq/=.
Qed.

Lemma label_offset_target a p :
  (p + sub32 a (s32 p)) mod 2 ^ 32 = a mod 2 ^ 32.
Proof.
  change (u32 (p + s32 (a - s32 p)) = u32 a). destruct (s32_cong (a - s32 p)) as [j ->].
  destruct (s32_cong p) as [k Hk]. rewrite Hk at 1.
  replace (p + (a - (p + k * 2 ^ 32) + j * 2 ^ 32)) with (a + (j - k) * 2 ^ 32) by lia.
  apply u32_add_mul.
Qed.

(** ** Diagnostics *)

#[global] Instance defines_dec name l : Decision (defines name l).
Proof.
  unfold defines. destruct (tokenize l) as [|t ts]; [right; by intros [ts H]|].
  destruct (decide (t = name +:+ ":")) as [->|Hne]; [left; by exists ts|].
  right. intros [ts' H]. by injection H as H _.
Defined.

(** A table entry comes from a line that defines the label. *)
Lemma collect_labels_defined name raw :
  is_Some (collect_labels raw ∅ 0 !! name) <-> Exists (defines name) raw.
Proof.
  split.
  - intros Hs. destruct (decide (Forall (fun l => ~ defines name l) raw)) as [Hn|Hn].
    + rewrite (collect_labels_other name raw ∅ 0 Hn) in Hs. by destruct Hs.
    + by apply not_Forall_Exists in Hn; [|apply _];
        apply (Exists_impl _ _ _ Hn); intros l; apply dec_stable.
  - intros Hex. induction raw as [|l raw IH] using rev_ind; [by apply Exists_nil in Hex|].
    destruct (decide (defines name l)) as [Hd|Hd].
    + rewrite (collect_labels_last name raw l [] Hd) by constructor. done.
    + apply Exists_app in Hex as [Hex|Hex%Exists_cons]; [|by destruct Hex as [|?%Exists_nil]].
      rewrite collect_labels_app. rewrite collect_labels_other by (by constructor).
      by apply IH.
Qed.

Lemma line_messages_opcode labels o toks k :
  head_token toks = opcode_name o ->
  line_messages labels toks k =
    match target_token o toks with Some t => label_message t labels | None => EmptyString end.
Proof.
  intros Hh. destruct toks as [|mn toks]; [by destruct o|]. cbn in Hh. subst mn.
  by destruct o.
Qed.

Lemma mnemonics_complete mn : mn ∈ mnemonics -> exists o, mn = opcode_name o.
Proof.
  change mnemonics with (opcode_name <$>
    [ADD; SUB; AND; OR; XOR; SLL; SRL; SRA; ADDI; LUI; ANDI; ORI; XORI; SLLI; SRLI; LW; FLW; SW; FSW;
     BEQ; BNE; BLT; BGE; JAL; JALR; FADD_S; FSUB_S; FMUL_S; FDIV_S; FCVT_W_S; FCVT_S_W; NOP; HALT]).
  intros (o & -> & _)%list_elem_of_fmap. by exists o.
Qed.

(** A line whose mnemonic names an operation, and whose target, if it has one,
    is a number or a label the file defines. *)
Definition clean_line (raw : list string) (toks : list string) : Prop :=
  (exists o, head_token toks = opcode_name o) /\
  (forall o name, head_token toks = opcode_name o -> target_token o toks = Some name ->
     (exists z, stoi name = Ok z) \/ Exists (defines name) raw).

Lemma label_message_silent raw name :
  label_message name (collect_labels raw ∅ 0) = EmptyString <->
  (exists z, stoi name = Ok z) \/ Exists (defines name) raw.
Proof.
  rewrite <- collect_labels_defined. unfold label_message.
  destruct (stoi name) as [z|f]; [naive_solver|].
  destruct (collect_labels raw ∅ 0 !! name); split; try done; [by right; eexists|].
  by intros [[z Hz]|[a Ha]].
Qed.

Lemma line_messages_silent raw toks k :
  is_code toks = true ->
  line_messages (collect_labels raw ∅ 0) toks k = EmptyString <-> clean_line raw toks.
Proof.
  intros Hc. split.
  - intros Hm. assert (Ho : exists o, head_token toks = opcode_name o).
    { destruct toks as [|mn toks]; [done|]. unfold line_messages in Hm. apply mnemonics_complete.
      cbn [head_token List.hd]. destruct (decide (mn ∈ ["BEQ"; "BNE"; "BLT"; "BGE"])) as [H|H].
      { revert H. clear. revert mn. apply Forall_forall.
        repeat constructor; apply bool_decide_unpack; by vm_compute. }
      rewrite bool_decide_eq_false_2 in Hm by done.
      destruct (decide (mn = "JAL")) as [->|HJ];
        [by apply (bool_decide_unpack ("JAL" ∈ mnemonics)); vm_compute|].
      rewrite bool_decide_eq_false_2 in Hm by done.
      case_bool_decide; [done|discriminate Hm]. }
    split; [done|]. intros o name Hh Ht. rewrite (line_messages_opcode _ _ _ _ Hh), Ht in Hm.
    by apply label_message_silent.
  - intros [[o Hh] Hall]. rewrite (line_messages_opcode _ _ _ _ Hh).
    destruct (target_token o toks) as [name|] eqn:Ht; [|done].
    apply label_message_silent. by eapply Hall.
Qed.

Lemma app_silent s t : s +:+ t = EmptyString <-> s = EmptyString /\ t = EmptyString.
Proof. destruct s; split; try done; by intros []. Qed.

Lemma messages_silent all raw k :
  messages (collect_labels all ∅ 0) raw k = EmptyString <-> Forall (clean_line all) (instr_lines raw).
Proof.
  revert k. induction raw as [|l raw IH]; intros k; [by split; [constructor|]|].
  rewrite instr_lines_cons. cbn [messages]. destruct (tokenize l) as [|t ts]; [apply IH|].
  cbn [is_code]. destruct (is_label (t :: ts)) eqn:El; cbn [negb]; [apply IH|].
  rewrite app_silent, Forall_cons, IH, line_messages_silent; [done|].
  unfold is_code. by rewrite El.
Qed.

(** ** Decoded instructions are well formed *)

Lemma stoi_range s z : stoi s = Ok z -> is_s32 z.
Proof.
  unfold stoi, is_s32. destruct (sign _) as [neg s']. destruct (read_digits _ _ _) as [v|]; [|done].
  destruct (_ && _) eqn:E; [|done]. intros [= <-].
  apply andb_true_iff in E as [?%Z.leb_le ?%Z.ltb_lt]. done.
Qed.

Lemma parse_mem_range s im base : parse_mem s = Ok (im, base) -> is_s32 im.
Proof.
  unfold parse_mem. intros H.
  destruct (find_char _ s); inv_res; by eapply stoi_range.
Qed.

Lemma branch_offset_range s labels p : is_s32 (branch_offset s labels p).
Proof.
  unfold branch_offset. destruct (stoi s) eqn:E; [by eapply stoi_range|].
  destruct (labels !! s); [apply s32_range|]. unfold is_s32. lia.
Qed.

(** The fields each format fills in. *)
Lemma decode_fields labels mn toks p i :
  decode labels mn toks p = Ok i ->
  exists o d a b im, (forall dfp fp1 fp2, normal (instr o d a b im dfp fp1 fp2 p) = i) /\ is_s32 im.
Proof.
  intros H. destruct (decode_mnemonic labels mn toks p) as [[o ->]|Hnop].
  - rewrite decode_opcode_name in H. exists o. unfold normal. cbn [op instr].
    destruct (format o) eqn:Hf; cbn [decode_format] in H.
    + unfold reg3 in H. inv_res. eexists _, _, _, 0. split; [intros; cbn; reflexivity|done].
    + unfold reg2_imm in H. inv_res. eexists _, _, 0, _. split; [intros; cbn; reflexivity|].
      by eapply stoi_range.
    + unfold lui_fmt in H. inv_res. rewrite (lui_of_format _ Hf). eexists _, 0, 0, _.
      split; [intros; cbn; reflexivity|apply s32_range].
    + unfold load_fmt in H. inv_res. case_match. inv_res. eexists _, _, 0, _.
      split; [intros; cbn; reflexivity|by eapply parse_mem_range].
    + unfold store_fmt in H. inv_res. case_match. inv_res. eexists 0, _, _, _.
      split; [intros; cbn; reflexivity|by eapply parse_mem_range].
    + unfold branch_fmt in H. inv_res. eexists 0, _, _, _.
      split; [intros; cbn; reflexivity|apply branch_offset_range].
    + unfold jal_fmt in H. inv_res. rewrite (jal_of_format _ Hf). eexists _, 0, 0, _.
      split; [intros; cbn; reflexivity|apply branch_offset_range].
    + unfold jalr_fmt in H. rewrite (jalr_of_format _ Hf). inv_res.
      destruct (find_char _ _); inv_res; [case_match; inv_res|]; eexists _, _, 0, _;
        (split; [intros; cbn; reflexivity|by eauto using parse_mem_range, stoi_range]).
    + unfold convert_fmt in H. inv_res. eexists _, _, 0, 0. split; [intros; cbn; reflexivity|done].
    + inv_res. exists 0, 0, 0, 0. split; [intros; cbn; reflexivity|done].
  - rewrite Hnop in H. injection H as <-. exists NOP, 0, 0, 0, 0. split; [done|].
    unfold is_s32. lia.
Qed.

Lemma decode_wf labels mn toks p i :
  decode labels mn toks p = Ok i -> pc i = p /\ wf_instr i = true.
Proof.
  intros H. destruct (decode_fields _ _ _ _ _ H) as (o & d & a & b & im & Hi & Him).
  specialize (Hi false false false). subst i. unfold is_s32 in Him.
  assert (Hlo : (- 2 ^ 31 <=? im) = true) by (apply Z.leb_le; lia).
  assert (Hhi : (im <? 2 ^ 31) = true) by (apply Z.ltb_lt; lia).
  split; [by destruct o|]. unfold wf_instr.
  destruct o; cbn in *; by rewrite ?Hlo, ?Hhi.
Qed.
