(* ===== verification/AssemblerErrors.v ===== *)
(** * What the assembler returns and where it stops

    An accepted source is well formed but for its register numbers. A source
    stops the program at the first operand of a line that is missing, is no
    number, or does not fit its type. What a readable operand is, is said
    without the readers: the value of a string of digits, behind spaces and a
    sign, and the texts of registers and memory operands. *)

From stdpp Require Import gmap strings.
From Stdlib Require Import Ascii.
From S2P Require Import Prelude Words Config Float32 Instruction Text Numerals Assembler.
From S2P Require Import InstructionQueue ISA Refinement.
From S2P Require Import AssemblerFacts Disassembler AssemblerLines.

Local Open Scope Z_scope.

(** ** Accepted sources *)

Lemma assembled_text raw prog :
  parse_program raw = Ok prog -> Z.of_nat (length raw) < 2 ^ 30 ->
  wf_text prog /\ stamp prog = prog.
Proof.
  intros Hp Hl. destruct (decode_lines_spec _ _ _ _ Hp) as [Hlen Hall].
  pose proof (instr_lines_length raw) as Hil.
  assert (Hdec : forall j i, prog !! j = Some i ->
    pc i = u32 (Z.of_nat j * 4) /\ wf_instr i = true).
  { intros j i Hj. destruct (lookup_lt_is_Some_2 (instr_lines raw) j) as [toks Ht].
    { rewrite <- Hlen. by eapply lookup_lt_Some. }
    destruct (Hall j toks Ht) as (i' & Hi' & Hd). rewrite Hj in Hi'. injection Hi' as <-.
    destruct (decode_wf _ _ _ _ _ Hd) as [Hpc Hwf]. split; [by rewrite Hpc|done]. }
  split.
  - split; [|lia]. apply Forall_lookup. intros j i Hj. by apply (Hdec j).
  - apply list_eq. intros j. rewrite stamp_lookup. destruct (prog !! j) as [i|] eqn:Hj; [|done].
    cbn. destruct (Hdec j i Hj) as [Hpc _]. rewrite <- Hpc. by destruct i.
Qed.

(** ** Numbers in a text

    What a number is, without the readers of Text: the value of a non-empty
    string of digits, as far as the digits go, behind spaces and a sign. *)

Section Numbers.
Context (base : Z).

Inductive digit_value : string -> Z -> Prop :=
| value_digit c d : digit base c = Some d -> digit_value (String c EmptyString) d
| value_more ds v c d :
    digit_value ds v -> digit base c = Some d ->
    digit_value (ds +:+ String c EmptyString) (v * base + d).

(** The text starts with digits of value [v], and goes on with something else. *)
Definition numeral (s : string) (v : Z) : Prop :=
  exists ds rest, s = ds +:+ rest /\ digit_value ds v /\ stops base rest.

Lemma digit_value_read ds v rest :
  digit_value ds v -> read_digits base None (ds +:+ rest) = read_digits base (Some v) rest.
Proof.
  intros H. revert rest. induction H as [c d Hd|ds v c d H IH Hd]; intros rest.
  - rewrite app_cons, empty_app. cbn [read_digits]. by rewrite Hd.
  - rewrite <- (assoc_L String.append), IH, app_cons, empty_app. cbn [read_digits]. by rewrite Hd.
Qed.

Lemma numeral_read s v : numeral s v -> read_digits base None s = Some v.
Proof. intros (ds & rest & -> & Hv & Hr). by rewrite (digit_value_read ds v), read_stops. Qed.

Lemma read_more ds v s :
  digit_value ds v -> exists w, read_digits base (Some v) s = Some w /\ numeral (ds +:+ s) w.
Proof.
  revert ds v. induction s as [|c s IH]; intros ds v Hv.
  - exists v. split; [done|]. by exists ds, EmptyString.
  - cbn [read_digits]. destruct (digit base c) as [d|] eqn:Hd; cbn [default].
    + destruct (IH _ _ (value_more ds v c d Hv Hd)) as (w & Hw & Hn). exists w. split; [exact Hw|].
      by rewrite <- (assoc_L String.append), app_cons, empty_app in Hn.
    + exists v. split; [done|]. by exists ds, (String c s).
Qed.

Lemma read_first c s d :
  digit base c = Some d -> read_digits base None (String c s) = read_digits base (Some d) s.
Proof. intros Hd. cbn [read_digits]. by rewrite Hd. Qed.

(** The reader finds the numeral, when there is one. *)
Lemma read_digits_spec s :
  match read_digits base None s with Some v => numeral s v | None => forall v, ~ numeral s v end.
Proof.
  destruct (read_digits base None s) as [v|] eqn:E.
  2: { intros v H%numeral_read. congruence. }
  destruct s as [|c s]; [discriminate|]. destruct (digit base c) as [d|] eqn:Hd.
  - destruct (read_more _ _ s (value_digit c d Hd)) as (w & Hw & Hn).
    rewrite (read_first c s d Hd), Hw in E. injection E as <-. exact Hn.
  - cbn [read_digits] in E. by rewrite Hd in E.
Qed.

Lemma numeral_first s v : numeral s v -> exists c s' d, s = String c s' /\ digit base c = Some d.
Proof.
  intros H%numeral_read. destruct s as [|c s]; [discriminate|]. cbn [read_digits] in H.
  destruct (digit base c) as [d|] eqn:Hd; [|discriminate]. by exists c, s, d.
Qed.

(** A digit is neither a space nor a sign. *)
Lemma digit_no_sign c d : digit base c = Some d -> is_space c = false /\ c <> "+"%char /\ c <> "-"%char.
Proof.
  unfold digit, is_space. intros H.
  assert (Hc : 48 <= code c).
  { destruct (Z.leb_spec 48 (code c)); [done|]. cbn [andb] in H.
    rewrite !(proj2 (Z.leb_gt _ (code c))) in H by lia. cbn [andb] in H.
    by rewrite Z.ltb_irrefl in H. }
  split; [|split; intros ->; vm_compute in Hc; by apply Hc].
  apply orb_false_iff. split; [by apply Z.eqb_neq; lia|].
  apply andb_false_iff. right. apply Z.leb_gt. lia.
Qed.

End Numbers.

(** A sign, and whether it is a minus. *)
Definition is_sign (sg : string) (neg : bool) : Prop :=
  if neg then sg = "-"%string else sg = EmptyString \/ sg = "+"%string.

(** [body] is what follows the spaces and the sign of [s]. *)
Definition behind_sign (s : string) (neg : bool) (body : string) : Prop :=
  exists sp sg, s = sp +:+ sg +:+ body /\ all_chars is_space sp = true /\ is_sign sg neg.

Definition signed (neg : bool) (v : Z) : Z := if neg then - v else v.

Lemma skip_space_split s :
  exists sp, s = sp +:+ skip_space s /\ all_chars is_space sp = true.
Proof.
  induction s as [|c s (sp & IH & Hsp)]; [by exists EmptyString|]. cbn [skip_space].
  destruct (is_space c) eqn:Hc; [|by exists EmptyString].
  exists (String c sp). rewrite app_cons, <- IH. cbn. by rewrite Hc, Hsp.
Qed.

Lemma sign_split s : exists sg, s = sg +:+ snd (sign s) /\ is_sign sg (fst (sign s)).
Proof.
  unfold sign. repeat case_match; subst; cbn [fst snd];
    (exists "-"%string; done) || (exists "+"%string; split; [done|by right]) ||
    (exists EmptyString; split; [done|by left]).
Qed.

Lemma behind_sign_read s : behind_sign s (fst (sign (skip_space s))) (snd (sign (skip_space s))).
Proof.
  destruct (skip_space_split s) as (sp & Hs & Hsp).
  destruct (sign_split (skip_space s)) as (sg & Hb & Hsg).
  exists sp, sg. split; [|done]. by rewrite <- Hb.
Qed.

Lemma skip_space_app sp s : all_chars is_space sp = true -> skip_space (sp +:+ s) = skip_space s.
Proof.
  induction sp as [|c sp IH]; [done|]. rewrite app_cons. cbn.
  destruct (is_space c); [exact IH|discriminate].
Qed.

(** In front of a digit the split is unique. *)
Lemma behind_sign_unique base s neg body c t d :
  behind_sign s neg body -> body = String c t -> digit base c = Some d ->
  sign (skip_space s) = (neg, body).
Proof.
  intros (sp & sg & -> & Hsp & Hsg) -> Hd. rewrite skip_space_app by done.
  destruct (digit_no_sign base c d Hd) as (Hc & Hp & Hm).
  destruct neg; [|destruct Hsg as [Hsg|Hsg]]; cbn in Hsg; subst sg; rewrite ?app_cons, ?empty_app;
    [done| |done].
  cbn [skip_space]. rewrite Hc. unfold sign. repeat case_match; done.
Qed.

(** ** Integers as [std::stoi] and [std::stoul] accept them *)

(** A decimal integer, whatever follows it. *)
Definition decimal_integer (s : string) (z : Z) : Prop :=
  exists neg body v, behind_sign s neg body /\ numeral 10 body v /\ z = signed neg v.

(** The number of a text in the base its prefix says: [0x] and hexadecimal
    digits, [0] and octal ones, or decimal digits. *)
Inductive prefixed : string -> Z -> Prop :=
| prefixed_hex x s v :
    x = "x"%char \/ x = "X"%char -> numeral 16 s v -> prefixed (String "0" (String x s)) v
| prefixed_octal s v :
    (forall x t w, x = "x"%char \/ x = "X"%char -> s = String x t -> ~ numeral 16 t w) ->
    numeral 8 (String "0" s) v -> prefixed (String "0" s) v
| prefixed_decimal c s v : c <> "0"%char -> numeral 10 (String c s) v -> prefixed (String c s) v.

Definition prefixed_integer (s : string) (neg : bool) (v : Z) : Prop :=
  exists body, behind_sign s neg body /\ prefixed body v.

(** The fault of a conversion of text whose numbers are [value], of which
    those that satisfy [fits] are accepted. *)
Inductive number_fault (value : Z -> Prop) (fits : Z -> Prop) : Fault -> Prop :=
| fault_no_number :
    (forall z, ~ value z) -> number_fault value fits (Uncaught "std::invalid_argument")
| fault_too_large z :
    value z -> ~ fits z -> number_fault value fits (Uncaught "std::out_of_range").

Definition int_range (z : Z) : Prop := - 2 ^ 31 <= z < 2 ^ 31.

Lemma stoi_spec s :
  match stoi s with
  | Ok z => decimal_integer s z /\ int_range z
  | Stop f => number_fault (decimal_integer s) int_range f
  end.
Proof.
  unfold stoi, int_range. pose proof (behind_sign_read s) as Hb.
  destruct (sign (skip_space s)) as [neg body] eqn:E. cbn [fst snd] in Hb.
  pose proof (read_digits_spec 10 body) as Hn. destruct (read_digits 10 None body) as [v|].
  - assert (Hz : decimal_integer s (if neg then - v else v)) by (exists neg, body, v; done).
    destruct (andb _ _) eqn:Hr.
    + apply andb_true_iff in Hr as [Hl%Z.leb_le Hh%Z.ltb_lt]. done.
    + apply (fault_too_large _ _ _ Hz). intros [Hl%Z.leb_le Hh%Z.ltb_lt]. by rewrite Hl, Hh in Hr.
  - apply fault_no_number. intros z (neg' & body' & v & Hb' & Hv & _).
    destruct (numeral_first _ _ _ Hv) as (c & t & d & Ht & Hd).
    rewrite (behind_sign_unique 10 s neg' body' c t d Hb' Ht Hd) in E. injection E as -> ->.
    by apply (Hn v).
Qed.

Lemma code_x x : (code x =? 120) || (code x =? 88) = true <-> x = "x"%char \/ x = "X"%char.
Proof.
  split; [|by intros [->| ->]]. intros H. destruct x as [[] [] [] [] [] [] [] []]; vm_compute in H;
    (discriminate H || by left) || by right.
Qed.

Lemma numeral_from_digit base c s d :
  digit base c = Some d -> exists v, read_digits base None (String c s) = Some v /\ numeral base (String c s) v.
Proof.
  intros Hd. destruct (read_more base _ _ s (value_digit base c d Hd)) as (w & Hw & Hn).
  exists w. split; [|exact Hn]. by rewrite (read_first base c s d Hd).
Qed.

Lemma prefixed_first s v : prefixed s v -> exists c t d, s = String c t /\ digit 10 c = Some d.
Proof.
  intros [x t w _ _|t w _ _|c t w _ Hn]; [by eexists "0"%char, _, 0..|].
  destruct (numeral_first _ _ _ Hn) as (c' & t' & d & H & Hd). by exists c', t', d.
Qed.

(** The base that [strtoul] detects is the one of the prefix. *)
Lemma detect_base_spec s :
  match read_digits (fst (detect_base s)) None (snd (detect_base s)) with
  | Some v => prefixed s v
  | None => forall v, ~ prefixed s v
  end.
Proof.
  assert (Hoct : forall t, detect_base (String "0" t) = (8, String "0" t) ->
    (forall x u w, x = "x"%char \/ x = "X"%char -> t = String x u -> ~ numeral 16 u w) ->
    match read_digits (fst (detect_base (String "0" t))) None (snd (detect_base (String "0" t))) with
    | Some v => prefixed (String "0" t) v
    | None => forall v, ~ prefixed (String "0" t) v
    end).
  { intros t -> Hx. cbn [fst snd].
    destruct (numeral_from_digit 8 "0" t 0 eq_refl) as (v & -> & Hn). by apply prefixed_octal. }
  destruct s as [|c s]; [by intros v H; inversion H|].
  destruct (decide (c = "0"%char)) as [->|Hc].
  - destruct s as [|x [|d t]].
    + apply Hoct; [done|]. by intros x u w _ [=].
    + apply Hoct; [done|]. intros x' u w _ [= -> <-] H. by destruct (numeral_first _ _ _ H) as (? & ? & ? & [=] & _).
    + destruct (((code x =? 120) || (code x =? 88)) && bool_decide (is_Some (digit 16 d))) eqn:E.
      * cbn [detect_base]. rewrite E. cbn [fst snd].
        apply andb_true_iff in E as [Hx%code_x [e He]%bool_decide_eq_true].
        destruct (numeral_from_digit 16 d t e He) as (v & -> & Hn). by apply prefixed_hex.
      * apply Hoct; [cbn [detect_base]; by rewrite E|]. intros x' u w Hx [= <- <-] H.
        destruct (numeral_first _ _ _ H) as (c' & t' & e & [= <- <-] & He).
        rewrite (proj2 (code_x x) Hx), bool_decide_eq_true_2 in E; [done|by exists e].
  - assert (detect_base (String c s) = (10, String c s)) as -> by (cbn; repeat case_match; congruence).
    cbn [fst snd]. pose proof (read_digits_spec 10 (String c s)) as H.
    destruct (read_digits 10 None (String c s)) as [v|]; [by apply prefixed_decimal|].
    intros v Hv. inversion Hv; subst; [done..|]. by apply (H v).
Qed.

Definition upper_value (s : string) (v : Z) : Prop := exists neg, prefixed_integer s neg v.
Definition upper_range (v : Z) : Prop := v < 2 ^ 64.

Lemma stoul0_spec s :
  match stoul0 s with
  | Ok z => exists neg v, prefixed_integer s neg v /\ upper_range v /\ z = signed neg v mod 2 ^ 64
  | Stop f => number_fault (upper_value s) upper_range f
  end.
Proof.
  unfold stoul0, upper_value, upper_range. pose proof (behind_sign_read s) as Hb.
  destruct (sign (skip_space s)) as [neg body] eqn:E. cbn [fst snd] in Hb.
  pose proof (detect_base_spec body) as Hn. destruct (detect_base body) as [base rest].
  cbn [fst snd] in Hn. destruct (read_digits base None rest) as [v|].
  - destruct (Z.ltb_spec v (2 ^ 64)) as [Hr|Hr].
    + exists neg, v. split; [by exists body|done].
    + apply (fault_too_large _ _ v); [by exists neg, body|lia].
  - apply fault_no_number. intros z (neg' & body' & Hb' & Hv).
    destruct (prefixed_first _ _ Hv) as (c & t & d & Ht & Hd).
    rewrite (behind_sign_unique 10 s neg' body' c t d Hb' Ht Hd) in E. injection E as -> ->.
    by apply (Hn z).
Qed.

(** ** Operands *)

(** What a format reads at a position of the line: a register, an immediate,
    the immediate of LUI, a memory operand, or a branch target. *)
Inductive Operand : Type := KReg | KImm | KUpper | KMem | KTarget.

(** The offset and the register of a memory operand: before the first
    parenthesis, and from there to the next closing one; a text without
    parentheses is both. *)
Inductive mem_parts : string -> string -> string -> Prop :=
| mem_closed o b rest :
    all_chars (not_char "(") o = true -> all_chars (not_char ")") b = true ->
    mem_parts (o +:+ String "(" (b +:+ String ")" rest)) o b
| mem_open o b :
    all_chars (not_char "(") o = true -> all_chars (not_char ")") b = true ->
    mem_parts (o +:+ String "(" b) o b
| mem_plain s : all_chars (not_char "(") s = true -> mem_parts s s s.

Definition int_ok (s : string) : Prop := exists z, decimal_integer s z /\ int_range z.
Definition int_fault (s : string) (f : Fault) : Prop := number_fault (decimal_integer s) int_range f.

(** A register is a character and a decimal integer. *)
Definition reg_ok (s : string) : Prop := exists c t, s = String c t /\ int_ok t.

Inductive reg_fault : string -> Fault -> Prop :=
| reg_empty : reg_fault EmptyString (Uncaught "std::out_of_range")
| reg_number c t f : int_fault t f -> reg_fault (String c t) f.

Definition operand_ok (k : Operand) (t : string) : Prop :=
  match k with
  | KReg => reg_ok t
  | KImm => int_ok t
  | KUpper => exists v, upper_value t v /\ upper_range v
  | KMem => exists o b, mem_parts t o b /\ int_ok o /\ reg_ok b
  | KTarget => True
  end.

Definition operand_fault (k : Operand) (t : string) (f : Fault) : Prop :=
  match k with
  | KReg => reg_fault t f
  | KImm => int_fault t f
  | KUpper => number_fault (upper_value t) upper_range f
  | KMem => exists o b, mem_parts t o b /\ (int_fault o f \/ (int_ok o /\ reg_fault b f))
  | KTarget => False
  end.

(** [r] is how operand [t] of kind [k] is read. *)
Definition reads {A} (k : Operand) (t : string) (r : res A) : Prop :=
  match r with Ok _ => operand_ok k t | Stop f => operand_fault k t f end.

Lemma stoi_reads s : reads KImm s (stoi s).
Proof. pose proof (stoi_spec s) as H. unfold reads. destruct (stoi s) as [z|]; [by exists z|exact H]. Qed.

Lemma stoul0_reads s : reads KUpper s (stoul0 s).
Proof.
  pose proof (stoul0_spec s) as H. unfold reads. destruct (stoul0 s); [|exact H].
  destruct H as (neg & v & Hv & Hr & _). exists v. split; [by exists neg|exact Hr].
Qed.

Lemma preg_reads s : reads KReg s (preg s).
Proof.
  unfold preg, substr_from. destruct s as [|c s]; [apply reg_empty|]. cbn.
  pose proof (stoi_reads s) as H. replace (drop_chars 0 s) with s by by destruct s.
  unfold reads in *. destruct (stoi s); cbn in *; [by exists c, s|by apply reg_number].
Qed.

Lemma find_char_spec c s :
  match find_char c s with
  | Some n => s = take_chars n s +:+ String c (drop_chars (S n) s) /\
      all_chars (not_char c) (take_chars n s) = true
  | None => all_chars (not_char c) s = true
  end.
Proof.
  induction s as [|c' s IH]; [done|]. cbn [find_char]. case_bool_decide as Hc.
  - subst c'. by destruct s.
  - destruct (find_char c s) as [n|]; cbn [option_map].
    + destruct IH as [Hs Ho]. split; [change (String c' s = String c' (take_chars n s +:+ String c (drop_chars (S n) s))); by f_equal|].
      cbn. unfold not_char at 1. by rewrite bool_decide_eq_false_2, Ho.
    + cbn. unfold not_char at 1. by rewrite bool_decide_eq_false_2, IH.
Qed.

Lemma parse_mem_reads s : reads KMem s (parse_mem s).
Proof.
  assert (Hparts : forall o b, mem_parts s o b ->
    reads KMem s (let! im := stoi o in let! base := preg b in Ok (im, base))).
  { intros o b Hp. pose proof (stoi_reads o) as Ho. pose proof (preg_reads b) as Hb. unfold reads in *.
    destruct (stoi o); cbn [rbind]; [|exists o, b; by split; [|left]].
    destruct (preg b); cbn [rbind]; [by exists o, b|exists o, b; by split; [|right]]. }
  unfold parse_mem. pose proof (find_char_spec "(" s) as Hl.
  destruct (find_char "(" s) as [n|]; [|by apply Hparts, mem_plain]. destruct Hl as [Hs Ho].
  apply Hparts. set (rest := drop_chars (S n) s) in *. rewrite Hs at 1.
  pose proof (find_char_spec ")" rest) as Hr. destruct (find_char ")" rest) as [m|].
  - destruct Hr as [Hr Hb]. rewrite Hr at 1. by apply mem_closed.
  - by apply mem_open.
Qed.

(** ** Lines *)

(** The operands of a format, in the order they are read, for the tokens
    behind the mnemonic: a JALR whose second operand has a parenthesis reads
    it as a memory operand. *)
Definition operands (fm : Format) (args : list string) : list Operand :=
  match fm with
  | FReg3 _ => [KReg; KReg; KReg]
  | FRegImm => [KReg; KReg; KImm]
  | FLui => [KReg; KUpper]
  | FLoad _ | FStore _ => [KReg; KMem]
  | FBranch => [KReg; KReg; KTarget]
  | FJal => [KReg; KTarget]
  | FJalr =>
      match args !! 1%nat with
      | Some t => if all_chars (not_char "(") t then [KReg; KReg; KImm] else [KReg; KMem]
      | None => [KReg; KMem]
      end
  | FConvert _ _ => [KReg; KReg]
  | FNone => []
  end.

(** The first operand that cannot be read: one that is missing, or one whose
    conversion throws, behind operands that are read. *)
Inductive operands_fault : list Operand -> list string -> Fault -> Prop :=
| operand_missing k ks : operands_fault (k :: ks) [] OutOfBounds
| operand_bad k ks t ts f : operand_fault k t f -> operands_fault (k :: ks) (t :: ts) f
| operand_later k ks t ts f :
    operand_ok k t -> operands_fault ks ts f -> operands_fault (k :: ks) (t :: ts) f.

(** Fault [f] of a line [toks] in format [fm]. *)
Definition line_fault (fm : Format) (toks : list string) (f : Fault) : Prop :=
  operands_fault (operands fm (tail toks)) (tail toks) f.

Lemma operand_step {A B} k ks t ts (r : res A) (g : A -> res B) f :
  reads k t r -> rbind r g = Stop f ->
  (forall a, g a = Stop f -> operands_fault ks ts f) -> operands_fault (k :: ks) (t :: ts) f.
Proof.
  intros Hr [H|(a & H & Hg)]%rbind_Stop Hrest; rewrite H in Hr; [by apply operand_bad|].
  apply operand_later; [exact Hr|]. by apply (Hrest a).
Qed.

(** Read the operands one by one. *)
Ltac read_operands :=
  lazymatch goal with
  | H : Ok _ = Stop _ |- _ => discriminate H
  | H : Stop OutOfBounds = Stop _ |- _ => injection H as <-; apply operand_missing
  | H : rbind (preg _) _ = Stop _ |- _ =>
      refine (operand_step KReg _ _ _ _ _ _ (preg_reads _) H _); clear H; intros ? H; read_operands
  | H : rbind (stoi _) _ = Stop _ |- _ =>
      refine (operand_step KImm _ _ _ _ _ _ (stoi_reads _) H _); clear H; intros ? H; read_operands
  | H : rbind (stoul0 _) _ = Stop _ |- _ =>
      refine (operand_step KUpper _ _ _ _ _ _ (stoul0_reads _) H _); clear H; intros ? H; read_operands
  | H : rbind (parse_mem _) _ = Stop _ |- _ =>
      refine (operand_step KMem _ _ _ _ _ _ (parse_mem_reads _) H _); clear H; intros [? ?] H; read_operands
  | H : rbind (Ok _) _ = Stop _ |- _ => cbn [rbind] in H; read_operands
  | H : rbind (Stop _) _ = Stop _ |- _ => cbn [rbind] in H; read_operands
  end.

Lemma decode_format_stop fm o labels mn args p f :
  decode_format fm o labels (mn :: args) p = Stop f -> line_fault fm (mn :: args) f.
Proof.
  unfold line_fault. cbn [tail]. intros H.
  destruct fm; cbn [decode_format operands] in *; [unfold reg3 in H|unfold reg2_imm in H|
    unfold lui_fmt in H|unfold load_fmt in H|unfold store_fmt in H|unfold branch_fmt in H|
    unfold jal_fmt in H|unfold jalr_fmt in H|unfold convert_fmt in H|done];
    destruct args as [|t1 [|t2 [|t3 args]]]; unfold tok in H; cbn in H |- *; try by read_operands.
  all: pose proof (find_char_spec "(" t2) as Hp; destruct (find_char "(" t2) as [n|];
    [|rewrite Hp; by read_operands].
  all: destruct (all_chars (not_char "(") t2) eqn:E; [|by read_operands].
  all: exfalso; destruct Hp as [Hp _]; rewrite Hp, all_chars_app, andb_true_iff in E; by destruct E.
Qed.

Lemma decode_stop labels mn args p f :
  decode labels mn (mn :: args) p = Stop f ->
  exists o, mn = opcode_name o /\ line_fault (format o) (mn :: args) f.
Proof.
  destruct (decode_mnemonic labels mn (mn :: args) p) as [[o ->]| ->]; [|done].
  rewrite decode_opcode_name. intros H. exists o. split; [done|]. by eapply decode_format_stop.
Qed.

(** The line that stops the assembler. *)
Lemma decode_lines_stop labels raw k f :
  decode_lines labels raw k = Stop f ->
  exists j toks o, instr_lines raw !! j = Some toks /\ head_token toks = opcode_name o /\
    line_fault (format o) toks f.
Proof.
  revert k. induction raw as [|l raw IH]; intros k; [done|].
  rewrite instr_lines_cons. cbn [decode_lines]. destruct (tokenize l) as [|t ts]; cbn [is_code]; [apply IH|].
  destruct (is_label (t :: ts)); cbn [negb]; [apply IH|]. intros H.
  apply rbind_Stop in H as [H|(i & _ & H)].
  - destruct (decode_stop _ _ _ _ _ H) as (o & Ho & Hf). by exists 0%nat, (t :: ts), o.
  - apply rbind_Stop in H as [H|(is' & _ & H)]; [|done].
    destruct (IH _ H) as (j & toks & o & Hj & ?). by exists (S j), toks, o.
Qed.
