(* ===== verification/FinalText.v ===== *)
(** * final_regs.txt as data

    The lines of final_regs.txt, and a reader that recovers from them the
    number of cycles, the registers and the non-zero words of memory. *)

From stdpp Require Import strings.
From Stdlib Require Import Ascii SpecFloat.
From S2P Require Import Prelude Words Config Float32 Text Numerals OStream Instruction.
From S2P Require Import RegisterFile Simulator Output Programs AssemblerFacts PrintFacts OutputFacts.

Local Open Scope Z_scope.

(** ** Lines *)

Definition unlines (ls : list string) : string :=
  text_concat ((fun l => l +:+ String newline EmptyString) <$> ls).

Definition one_line (l : string) : Prop := all_chars (not_char newline) l = true.

Lemma unlines_cons l ls : unlines (l :: ls) = l +:+ String newline (unlines ls).
Proof. unfold unlines. cbn. by rewrite <- (assoc_L String.append). Qed.

Lemma unlines_step l ls : unlines (l :: ls) = l +:+ String newline EmptyString +:+ unlines ls.
Proof. apply unlines_cons. Qed.

Lemma unlines_nil : unlines [] = EmptyString.
Proof. done. Qed.

Lemma unlines_app a b : unlines (a ++ b) = unlines a +:+ unlines b.
Proof. unfold unlines. by rewrite fmap_app, text_concat_app. Qed.

Lemma split_lines_line l t :
  one_line l ->
  split_lines (l +:+ String newline t) = (l, match t with EmptyString => [] | _ => getlines t end).
Proof.
  unfold one_line. induction l as [|c l IH]; cbn [all_chars]; intros Hl.
  - rewrite empty_app. cbn [split_lines]. destruct t as [|c t]; [done|].
    cbn [getlines]. by destruct (split_lines (String c t)).
  - apply andb_true_iff in Hl as [Hc Hl]. apply negb_true_iff in Hc.
    rewrite app_cons. cbn [split_lines]. by rewrite IH, Hc.
Qed.

Lemma getlines_line l t : one_line l -> getlines (l +:+ String newline t) = l :: getlines t.
Proof.
  intros Hl. pose proof (split_lines_line l t Hl) as H. unfold getlines at 1.
  destruct (l +:+ String newline t) as [|c s] eqn:E; [by destruct l|]. rewrite H. by destruct t.
Qed.

Lemma getlines_unlines ls : Forall one_line ls -> getlines (unlines ls) = ls.
Proof.
  induction 1 as [|l ls Hl _ IH]; [done|]. by rewrite unlines_cons, getlines_line, IH.
Qed.

(** ** Padding *)

Lemma repeat_char_length n c : String.length (repeat_char n c) = n.
Proof. induction n as [|n IH]; [done|]. cbn. by rewrite IH. Qed.

Lemma pad_length w c s :
  Z.of_nat (String.length s) <= w -> String.length (pad w c s) = Z.to_nat w.
Proof. intros Hs. unfold pad. rewrite length_append, repeat_char_length. lia. Qed.

Lemma repeat_chars f n c : f c = true -> all_chars f (repeat_char n c) = true.
Proof. intros Hc. induction n as [|n IH]; [done|]. cbn. by rewrite Hc. Qed.

Lemma pad_chars f w c s : f c = true -> all_chars f s = true -> all_chars f (pad w c s) = true.
Proof. intros Hc Hs. unfold pad. by rewrite all_chars_app, repeat_chars, Hs. Qed.

Lemma digit_zero base : 2 <= base <= 16 -> digit base "0" = Some 0.
Proof. intros Hb. exact (digit_digit_char base 0 (proj2 Hb) ltac:(lia)). Qed.

(** Zeros in front of a number do not change it. *)
Lemma read_zeros base n s :
  2 <= base <= 16 -> read_digits base (Some 0) (repeat_char n "0" +:+ s) = read_digits base (Some 0) s.
Proof.
  intros Hb. induction n as [|n IH]; [done|]. cbn [repeat_char]. rewrite app_cons. cbn [read_digits].
  rewrite digit_zero by done. exact IH.
Qed.

Lemma read_pad base w n s :
  2 <= base <= 16 -> 0 <= n -> stops base s ->
  read_digits base None (pad w "0" (show_nat base n) +:+ s) = Some n.
Proof.
  intros Hb Hn Hs. pose proof (read_show_nat base Hb n s Hn Hs) as Hr.
  pose proof (read_show_nat_zero base Hb n s Hn Hs) as H0.
  unfold pad. rewrite <- (assoc_L String.append).
  destruct (Z.to_nat _) as [|k]; [exact Hr|]. cbn [repeat_char]. rewrite app_cons. cbn [read_digits].
  rewrite digit_zero by done. cbn [default]. rewrite read_zeros by done. exact H0.
Qed.

Lemma skip_spaces n s : skip_space (repeat_char n " " +:+ s) = skip_space s.
Proof. induction n as [|n IH]; [done|]. cbn [repeat_char]. rewrite app_cons. exact IH. Qed.

(** ** The lines of final_regs.txt *)

Definition int_line (i v : Z) : string :=
  "x" +:+ pad 2 "0" (print_int i) +:+ " 0x" +:+ pad 8 "0" (show_nat 16 v).
Definition fp_line (i : Z) (f : float) : string :=
  "f" +:+ pad 2 "0" (print_int i) +:+ " 0x" +:+ pad 8 "0" (show_nat 16 (repr f)) +:+
  " (" +:+ show_float f +:+ "f)".
Definition mem_line (x : nat * Z) : string :=
  "mem[" +:+ pad 4 " " (print_int (Z.of_nat (fst x))) +:+ "] 0x" +:+ pad 8 "0" (show_nat 16 (snd x)).

Definition nonzero (x : nat * Z) : bool := negb (snd x =? 0).

Definition final_lines (asm_path : string) (s : Sim) : list string :=
  ["# Tomasulo simulation: " +:+ asm_path; "# Total cycles: " +:+ print_int (cycle s - 1); EmptyString;
   "[INT_REGS]"] ++ imap (fun i v => int_line (Z.of_nat i) (u32 v)) (int_regs_ (rf s)) ++
  [EmptyString; "[FP_REGS]"] ++ imap (fun i f => fp_line (Z.of_nat i) f) (fp_regs_ (rf s)) ++
  [EmptyString; "[MEM_NONZERO]"] ++
  (mem_line <$> List.filter nonzero (imap (fun i v => (i, v)) (mem s))).

Lemma final_int_text s i v :
  int_regs_ (rf s) !! i = Some v -> (i < 32)%nat ->
  prints (fun os => final_int s os i) (int_line (Z.of_nat i) (u32 v) +:+ String newline EmptyString).
Proof.
  intros Hv Hi. unfold final_int, RegisterFile.read_int.
  rewrite require_index by (unfold NUM_INT_REGS; lia). cbn [rbind].
  assert (vec_get (int_regs_ (rf s)) (Z.of_nat i) = Ok v) as ->
    by (apply vec_get_Ok; rewrite Nat2Z.id; split; [lia|done]).
  intros t. cbn [rbind]. put_text. unfold int_line. by rewrite <- !(assoc_L String.append).
Qed.

Lemma final_fp_text s i f :
  fp_regs_ (rf s) !! i = Some f -> (i < 32)%nat ->
  prints (fun os => final_fp s os i) (fp_line (Z.of_nat i) f +:+ String newline EmptyString).
Proof.
  intros Hv Hi. unfold final_fp, RegisterFile.read_fp.
  rewrite require_index by (unfold NUM_FP_REGS; lia). cbn [rbind].
  assert (vec_get (fp_regs_ (rf s)) (Z.of_nat i) = Ok f) as ->
    by (apply vec_get_Ok; rewrite Nat2Z.id; split; [lia|done]).
  intros t. cbn [rbind]. put_text. unfold fp_line. by rewrite <- !(assoc_L String.append).
Qed.

Lemma final_mem_text s i v :
  mem s !! i = Some v ->
  prints (fun os => final_mem s os i) (unlines (mem_line <$> List.filter nonzero [(i, v)])).
Proof.
  intros Hv. unfold final_mem.
  assert (vec_get (mem s) (Z.of_nat i) = Ok v) as ->
    by (apply vec_get_Ok; rewrite Nat2Z.id; split; [lia|done]).
  intros t. cbn [rbind]. unfold nonzero. cbn [List.filter snd].
  destruct (v =? 0); cbn [negb]; [cbn; by rewrite app_empty|]. put_text.
  cbn [fmap list_fmap]. unfold unlines, mem_line. cbn [fmap list_fmap text_concat foldr fst snd].
  by rewrite app_empty, <- !(assoc_L String.append).
Qed.

(** A loop over the indices of a vector prints a text per element. *)
Lemma prints_vector {A} (l : list A) n (f : ostream -> nat -> res ostream) (g : nat -> A -> string) :
  len l = n -> (forall i a, l !! i = Some a -> prints (fun os => f os i) (g i a)) ->
  prints (fun os => foldM f os (seq 0 (Z.to_nat n))) (text_concat (imap g l)).
Proof.
  intros <- Hf. rewrite Nat2Z.id.
  assert (H : forall k, (forall i a, l !! i = Some a -> prints (fun os => f os (k + i)%nat) (g i a)) ->
    prints (fun os => foldM f os (seq k (length l))) (text_concat (imap g l))).
  { clear Hf. revert g. induction l as [|a l IH]; intros g k Hf; [apply prints_none|].
    cbn [length seq foldM imap]. unfold text_concat. cbn [foldr].
    apply prints_bind; [specialize (Hf 0%nat a eq_refl); by rewrite Nat.add_0_r in Hf|].
    apply (IH (g ∘ S) (S k)). intros i b Hb. specialize (Hf (S i) b Hb).
    by replace (k + S i)%nat with (S k + i)%nat in Hf by lia. }
  by apply (H 0%nat).
Qed.

Lemma unlines_imap {A} (g : nat -> A -> string) (l : list A) :
  text_concat (imap (fun i a => g i a +:+ String newline EmptyString) l) = unlines (imap g l).
Proof. unfold unlines. by rewrite fmap_imap. Qed.

Lemma unlines_filter (l : list (nat * Z)) :
  text_concat ((fun x => unlines (mem_line <$> List.filter nonzero [x])) <$> l) =
  unlines (mem_line <$> List.filter nonzero l).
Proof.
  induction l as [|x l IH]; [done|]. rewrite fmap_cons. unfold text_concat. cbn [foldr].
  fold (text_concat ((fun x => unlines (mem_line <$> List.filter nonzero [x])) <$> l)).
  rewrite IH. cbn [List.filter]. destruct (nonzero x); [|done].
  rewrite <- unlines_app. done.
Qed.

(** final_regs.txt is its lines. *)
Lemma final_text asm_path s :
  rf_ok (rf s) -> len (mem s) = MEM_SIZE ->
  prints (final_state asm_path s) (unlines (final_lines asm_path s)).
Proof.
  intros [Hi Hf _ _ _] Hm t. unfold final_state, final_lines. put_text.
  rewrite (prints_vector (int_regs_ (rf s)) NUM_INT_REGS (final_int s)
    (fun i v => int_line (Z.of_nat i) (u32 v) +:+ String newline EmptyString) Hi).
  2:{ intros i v Hv. apply final_int_text; [done|]. apply lookup_lt_Some in Hv.
      unfold NUM_INT_REGS in Hi. lia. }
  cbn [rbind]. put_text.
  rewrite (prints_vector (fp_regs_ (rf s)) NUM_FP_REGS (final_fp s)
    (fun i f => fp_line (Z.of_nat i) f +:+ String newline EmptyString) Hf).
  2:{ intros i v Hv. apply final_fp_text; [done|]. apply lookup_lt_Some in Hv.
      unfold NUM_FP_REGS in Hf. lia. }
  cbn [rbind]. put_text.
  rewrite (prints_vector (mem s) MEM_SIZE (final_mem s)
    (fun i v => unlines (mem_line <$> List.filter nonzero [(i, v)])) Hm) by apply final_mem_text.
  f_equal. f_equal. rewrite !unlines_imap.
  assert (text_concat (imap (fun i v => unlines (mem_line <$> List.filter nonzero [(i, v)])) (mem s)) =
    unlines (mem_line <$> List.filter nonzero (imap (fun i v => (i, v)) (mem s)))) as ->.
  { rewrite <- unlines_filter, fmap_imap. done. }
  by rewrite !unlines_app, !unlines_step, !unlines_nil, ?app_empty, ?empty_app, <- !(assoc_L String.append).
Qed.

(** ** The reader *)

(** [xNN 0xHHHHHHHH], whatever follows the digits. *)
Definition read_reg_line (l : string) : option Z := read_digits 16 None (drop_chars 6 l).

(** [mem\[   N\] 0xHHHHHHHH] *)
Definition read_mem_line (l : string) : option (nat * Z) :=
  match read_digits 10 None (skip_space (drop_chars 4 l)), read_digits 16 None (drop_chars 12 l) with
  | Some i, Some v => Some (Z.to_nat i, v)
  | _, _ => None
  end.

Definition read_final (t : string) : option Final :=
  match getlines t with
  | _ :: cycles :: _ :: _ :: rest =>
      match read_digits 10 None (drop_chars 16 cycles), mapM read_reg_line (take 32 rest),
            mapM read_reg_line (take 32 (drop 34 rest)), mapM read_mem_line (drop 68 rest) with
      | Some c, Some xs, Some fs, Some ms => Some (mkFinal c xs fs ms)
      | _, _, _, _ => None
      end
  | _ => None
  end.

Lemma read_imap {A B C} (f : B -> option C) (g : nat -> A -> B) (h : A -> C) (l : list A) :
  (forall i a, l !! i = Some a -> f (g i a) = Some (h a)) ->
  mapM f (imap g l) = Some (h <$> l).
Proof.
  revert g. induction l as [|a l IH]; intros g Hf; [done|].
  cbn [imap mapM fmap list_fmap]. rewrite (Hf 0%nat a eq_refl).
  cbn [mbind option_bind]. rewrite (IH (g ∘ S)); [done|]. intros i b Hb. by apply (Hf (S i) b).
Qed.

Lemma read_map {B C} (f : B -> option C) (g : C -> B) (l : list C) :
  (forall c, c ∈ l -> f (g c) = Some c) -> mapM f (g <$> l) = Some l.
Proof.
  induction l as [|a l IH]; intros Hf; [done|]. cbn [fmap list_fmap mapM].
  rewrite Hf by apply elem_of_cons, or_introl, eq_refl.
  cbn [mbind option_bind]. rewrite IH; [done|]. intros c Hc. apply Hf, elem_of_cons. by right.
Qed.

Lemma print_nat_width i w : 0 <= i < 10 ^ Z.of_nat (S w) -> (String.length (print_int i) <= S w)%nat.
Proof.
  intros Hi. unfold print_int. rewrite (proj2 (Z.ltb_ge i 0)) by lia.
  apply show_nat_length; [lia|done].
Qed.

(** A line whose number stands behind [k] characters. *)
Lemma drop_prefix k a b : String.length a = k -> drop_chars k (a +:+ b) = b.
Proof. intros <-. apply drop_chars_app. Qed.

Lemma read_reg_text c i v s :
  String.length c = 1%nat -> 0 <= i < 32 -> 0 <= v -> stops 16 s ->
  read_reg_line (c +:+ pad 2 "0" (print_int i) +:+ " 0x" +:+ pad 8 "0" (show_nat 16 v) +:+ s) = Some v.
Proof.
  intros Hc Hi Hv Hs. unfold read_reg_line.
  replace (c +:+ pad 2 "0" (print_int i) +:+ " 0x" +:+ pad 8 "0" (show_nat 16 v) +:+ s)
    with ((c +:+ pad 2 "0" (print_int i) +:+ " 0x") +:+ pad 8 "0" (show_nat 16 v) +:+ s)
    by by rewrite <- !(assoc_L String.append).
  rewrite drop_prefix; [by apply read_pad; [lia| |]|].
  rewrite !length_append, Hc, pad_length; [done|].
  pose proof (print_nat_width i 1). cbn in *. lia.
Qed.

Lemma read_int_line i v : 0 <= i < 32 -> 0 <= v -> read_reg_line (int_line i v) = Some v.
Proof. intros. unfold int_line. rewrite <- (app_empty (pad 8 _ _)). by apply read_reg_text. Qed.

Lemma read_fp_line i f : 0 <= i < 32 -> is_u32 (repr f) -> read_reg_line (fp_line i f) = Some (repr f).
Proof. intros Hi [Hf _]. by apply read_reg_text. Qed.

Lemma read_pad_int w i s :
  0 <= i -> stops 10 s -> read_digits 10 None (skip_space (pad w " " (print_int i) +:+ s)) = Some i.
Proof.
  intros Hi Hs. unfold pad. rewrite <- (assoc_L String.append), skip_spaces.
  unfold print_int. rewrite (proj2 (Z.ltb_ge i 0)) by lia.
  rewrite <- (read_show_nat 10 ltac:(lia) i s Hi Hs).
  destruct (print_nat_first i Hi) as (d & t & E & Hd & _). change (show_nat 10 i) with (print_nat i).
  rewrite E, app_cons. by destruct (digit_start d (t +:+ s) Hd) as [-> _].
Qed.

Lemma read_mem_text i v :
  (i < 1024)%nat -> 0 <= v -> read_mem_line (mem_line (i, v)) = Some (i, v).
Proof.
  intros Hi Hv. unfold read_mem_line, mem_line. cbn [fst snd].
  rewrite (drop_prefix 4 "mem[") by done. rewrite read_pad_int by (lia || done).
  replace ("mem[" +:+ pad 4 " " (print_int (Z.of_nat i)) +:+ "] 0x" +:+ pad 8 "0" (show_nat 16 v))
    with (("mem[" +:+ pad 4 " " (print_int (Z.of_nat i)) +:+ "] 0x") +:+ pad 8 "0" (show_nat 16 v))
    by by rewrite <- !(assoc_L String.append).
  rewrite drop_prefix.
  - rewrite <- (app_empty (pad 8 _ _)), read_pad by (lia || done). by rewrite Nat2Z.id.
  - rewrite !length_append, pad_length; [done|].
    pose proof (print_nat_width (Z.of_nat i) 3). cbn in *. lia.
Qed.

(** ** Every line is one line *)

Lemma digit_no_newline d : 0 <= d < 16 -> not_char newline (digit_char d) = true.
Proof. revert d. apply hex_digit_cases. repeat constructor. Qed.

Lemma one_line_nat base n : 2 <= base <= 16 -> one_line (show_nat base n).
Proof. intros Hb. apply show_nat_chars; [lia|]. intros d Hd. apply digit_no_newline. lia. Qed.

Lemma one_line_int z : one_line (print_int z).
Proof. apply print_int_chars; [|done]. intros d Hd. apply digit_no_newline. lia. Qed.

Lemma one_line_app a b : one_line a -> one_line b -> one_line (a +:+ b).
Proof. unfold one_line. intros Ha Hb. by rewrite all_chars_app, Ha, Hb. Qed.

Lemma one_line_pad w c s : not_char newline c = true -> one_line s -> one_line (pad w c s).
Proof. apply pad_chars. Qed.

Lemma take_chars_all f n s : all_chars f s = true -> all_chars f (take_chars n s) = true.
Proof.
  revert s. induction n as [|n IH]; intros [|c s] Hs; try done. cbn in Hs |- *.
  apply andb_true_iff in Hs as [-> Hs]. by apply IH.
Qed.

Lemma drop_chars_all f n s : all_chars f s = true -> all_chars f (drop_chars n s) = true.
Proof.
  revert s. induction n as [|n IH]; intros [|c s] Hs; try done. cbn in Hs |- *.
  apply andb_true_iff in Hs as [_ Hs]. by apply IH.
Qed.

Lemma strip_zeros_all f s : all_chars f s = true -> all_chars f (strip_zeros s) = true.
Proof.
  induction s as [|c s IH]; [done|]. intros Hs. cbn [strip_zeros].
  destruct (all_zeros (String c s)); [done|]. cbn in Hs |- *.
  apply andb_true_iff in Hs as [-> Hs]. by apply IH.
Qed.

Lemma one_line_fraction s : one_line s -> one_line (fraction s).
Proof.
  intros Hs. pose proof (strip_zeros_all (not_char newline) s Hs) as H. unfold fraction.
  by destruct (strip_zeros s).
Qed.

Lemma one_line_float f : one_line (show_float f).
Proof.
  unfold show_float. assert (Hs : forall b, one_line (sign_text b)) by by intros [].
  destruct (value f) as [b|b| |b m e]; try by apply one_line_app.
  destruct (fraction_of m e) as [n d], (scientific n d) as [q x].
  apply one_line_app; [done|]. unfold show_scientific, print_nat.
  pose proof (one_line_nat 10 q ltac:(lia)) as Hq.
  destruct (_ && _); [destruct (0 <=? x)|].
  - apply one_line_app; [by apply take_chars_all|]. apply one_line_fraction. by apply drop_chars_all.
  - change (one_line (String "0" EmptyString +:+
      fraction (repeat_char (Z.to_nat (- x - 1)) "0" +:+ show_nat 10 q))).
    apply one_line_app; [done|]. apply one_line_fraction, one_line_app; [by apply repeat_chars|done].
  - apply one_line_app; [by apply take_chars_all|]. apply one_line_app.
    + apply one_line_fraction. by apply drop_chars_all.
    + unfold show_exponent, one_line. cbn [all_chars].
      rewrite (one_line_pad 2 "0" (print_nat (Z.abs x)) eq_refl) by (apply one_line_nat; lia).
      by destruct (x <? 0).
Qed.

(** Concatenations of literals, padded numbers and floats. *)
Ltac one_line :=
  lazymatch goal with
  | |- one_line (pad _ _ _) =>
      apply one_line_pad; [reflexivity|first [apply one_line_int | apply one_line_nat; lia]]
  | |- one_line (show_float _) => apply one_line_float
  | |- one_line (_ +:+ _) => apply one_line_app; one_line
  | |- _ => reflexivity
  end.

Lemma final_one_line asm_path s : one_line asm_path -> Forall one_line (final_lines asm_path s).
Proof.
  intros Hp. unfold final_lines.
  assert (Himap : forall A (g : nat -> A -> string) (l : list A),
    (forall i a, one_line (g i a)) -> Forall one_line (imap g l)).
  { intros A g l Hg. revert g Hg. induction l as [|a l IH]; intros g Hg; constructor; [done|].
    apply IH. intros i b. apply Hg. }
  repeat apply Forall_app_2; repeat (apply Forall_cons_2; [|]); try apply Forall_nil_2; try done.
  - apply one_line_app; [done|]. apply one_line_int.
  - apply Himap. intros i v. unfold int_line.
    one_line.
  - apply Himap. intros i f. unfold fp_line.
    one_line.
  - apply Forall_fmap, Forall_forall. intros [i v] _. unfold mem_line. cbn.
    one_line.
Qed.

(** Reading the file back gives the final state. *)
Lemma read_final_text asm_path s :
  one_line asm_path -> rf_ok (rf s) -> len (mem s) = MEM_SIZE -> Forall is_u32 (mem s) ->
  1 <= cycle s ->
  read_final (text (final_state asm_path s)) = Some (final_of s).
Proof.
  intros Hp Hrf Hm Hmv Hc. rewrite (prints_text _ _ (final_text asm_path s Hrf Hm)).
  unfold read_final. rewrite getlines_unlines by by apply final_one_line.
  destruct Hrf as [Hi Hf _ Hfr _]. unfold NUM_INT_REGS, NUM_FP_REGS in *.
  unfold final_lines. cbn [app].
  assert (Hli : length (imap (fun i v => int_line (Z.of_nat i) (u32 v)) (int_regs_ (rf s))) = 32%nat)
    by (rewrite length_imap; lia).
  assert (Hlf : length (imap (fun i f => fp_line (Z.of_nat i) f) (fp_regs_ (rf s))) = 32%nat)
    by (rewrite length_imap; lia).
  rewrite (drop_prefix 16 "# Total cycles: ") by done.
  assert (read_digits 10 None (print_int (cycle s - 1)) = Some (cycle s - 1)) as ->.
  { unfold print_int. rewrite (proj2 (Z.ltb_ge _ 0)) by lia. apply read_print_nat. lia. }
  rewrite take_app_length' by done.
  set (ints := imap _ (int_regs_ (rf s))) in *. set (fps := imap _ (fp_regs_ (rf s))) in *.
  set (mems := mem_line <$> _).
  assert (drop 34 (ints ++ EmptyString :: "[FP_REGS]" :: fps ++ EmptyString :: "[MEM_NONZERO]" :: mems) =
          fps ++ EmptyString :: "[MEM_NONZERO]" :: mems) as ->.
  { rewrite drop_app_ge by lia. by rewrite Hli. }
  assert (drop 68 (ints ++ EmptyString :: "[FP_REGS]" :: fps ++ EmptyString :: "[MEM_NONZERO]" :: mems) =
          mems) as ->.
  { rewrite drop_app_ge by lia. rewrite Hli. cbn [Nat.sub drop]. rewrite drop_app_ge by lia. by rewrite Hlf. }
  rewrite take_app_length' by done. unfold ints, fps, mems.
  rewrite (read_imap read_reg_line _ u32).
  2:{ intros i v Hv%lookup_lt_Some. apply read_int_line; [lia|]. apply u32_range. }
  rewrite (read_imap read_reg_line _ repr).
  2:{ intros i f Hv. apply read_fp_line; [apply lookup_lt_Some in Hv; lia|].
      by apply (Forall_lookup_1 _ _ _ _ Hfr Hv). }
  rewrite read_map; [done|].
  intros [i v] Hin%list_elem_of_In. apply List.filter_In in Hin as [Hin%list_elem_of_In _].
  apply elem_of_lookup_imap in Hin as (j & w & [= <- <-] & Hj).
  apply read_mem_text.
  - apply lookup_lt_Some in Hj. unfold MEM_SIZE in Hm. lia.
  - apply (Forall_lookup_1 _ _ _ _ Hmv Hj).
Qed.
