(* ===== verification/FloatText.v ===== *)
(** * The text of a float

    [show_float] against the number the float stands for: rational arithmetic,
    the six significant digits, and a reader of decimal text. *)

From stdpp Require Import strings.
From Stdlib Require Import Ascii SpecFloat QArith Qabs Qpower Lqa.
From S2P Require Import Prelude Words Float32 Text Numerals OStream AssemblerFacts FinalText.

Local Open Scope Z_scope.

(** ** Rationals *)

Definition ten (k : Z) : Q := Qpower 10 k.
Definition ratio (n d : Z) : Q := inject_Z n / inject_Z d.

Lemma ten_add a b : (ten (a + b) == ten a * ten b)%Q.
Proof. apply Qpower_plus. done. Qed.

Lemma ten_pos k : (0 < ten k)%Q.
Proof. apply Qpower_0_lt. done. Qed.

Lemma ten_nonneg k : 0 <= k -> (ten k == inject_Z (10 ^ k))%Q.
Proof. intros Hk. symmetry. exact (Zpower_Qpower 10 k Hk). Qed.

Lemma ten_neg k : (ten (- k) * ten k == 1)%Q.
Proof. rewrite <- ten_add. by replace (- k + k) with 0 by lia. Qed.

Lemma inject_pos d : 0 < d -> (0 < inject_Z d)%Q.
Proof. intros Hd. change 0%Q with (inject_Z 0). by rewrite <- Zlt_Qlt. Qed.

Lemma ratio_mul n d : 0 < d -> (ratio n d * inject_Z d == inject_Z n)%Q.
Proof. intros Hd. unfold ratio. pose proof (inject_pos d Hd). field. lra. Qed.

(** Comparing fractions by cross multiplication. *)
Lemma ratio_le_l a n d : 0 < d -> a * d <= n <-> (inject_Z a <= ratio n d)%Q.
Proof.
  intros Hd. pose proof (inject_pos d Hd) as Hp. rewrite Zle_Qle, inject_Z_mult.
  pose proof (ratio_mul n d Hd) as Hr. split; intros H.
  - apply (Qmult_le_r _ _ (inject_Z d)); [done|]. lra.
  - rewrite <- Hr. apply Qmult_le_compat_r; [done|lra].
Qed.

Lemma ratio_lt_r a n d : 0 < d -> n < a * d <-> (ratio n d < inject_Z a)%Q.
Proof.
  intros Hd. pose proof (ratio_le_l a n d Hd) as Hle. split; intros H.
  - apply Qnot_le_lt. intros Hq. apply Hle in Hq. lia.
  - apply Z.nle_gt. intros Hz. apply Hle in Hz. by apply (Qlt_not_le _ _ H).
Qed.

Lemma scale10_ratio n d k :
  0 < d -> let (n', d') := scale10 n d k in 0 < d' /\ (ratio n' d' == ratio n d * ten k)%Q.
Proof.
  intros Hd. unfold scale10. pose proof (inject_pos d Hd). destruct (Z.leb_spec 0 k) as [Hk|Hk].
  - split; [done|]. unfold ratio. rewrite inject_Z_mult, <- ten_nonneg by done. field. lra.
  - assert (Hp : 0 < 10 ^ (- k)) by (apply Z.pow_pos_nonneg; lia). split; [lia|].
    unfold ratio. rewrite inject_Z_mult, <- ten_nonneg by lia.
    pose proof (ten_neg k) as Hn. pose proof (ten_pos (- k)).
    assert (Ht : (ten k == / ten (- k))%Q).
    { apply (Qmult_inj_l _ _ (ten (- k))); [lra|]. rewrite Hn. field. lra. }
    rewrite Ht. field. lra.
Qed.

(** ** Rounding to six digits *)

Lemma div_even_bounds n d : 0 < d -> n / d <= div_even n d <= n / d + 1.
Proof. intros _. unfold div_even. repeat case_match; lia. Qed.

Lemma div_even_close n d : 0 < d -> 2 * Z.abs (div_even n d * d - n) <= d.
Proof.
  intros Hd. unfold div_even. pose proof (Z.div_mod n d ltac:(lia)) as Hdm.
  pose proof (Z.mod_pos_bound n d Hd) as Hb.
  destruct (Z.compare_spec (2 * (n mod d)) d) as [E|E|E]; [destruct (Z.even _)| |]; nia.
Qed.

Lemma div_even_ratio n d : 0 < d -> (Qabs (inject_Z (div_even n d) - ratio n d) <= 1 # 2)%Q.
Proof.
  intros Hd. pose proof (inject_pos d Hd) as Hp. pose proof (ratio_mul n d Hd) as Hr.
  pose proof (div_even_close n d Hd) as Hc. set (q := div_even n d) in *.
  assert (H1 : (2 * (inject_Z q * inject_Z d - inject_Z n) <= inject_Z d)%Q).
  { change 2%Q with (inject_Z 2). unfold Qminus.
    rewrite <- inject_Z_mult, <- inject_Z_opp, <- inject_Z_plus, <- inject_Z_mult, <- Zle_Qle. lia. }
  assert (H2 : (2 * (inject_Z n - inject_Z q * inject_Z d) <= inject_Z d)%Q).
  { change 2%Q with (inject_Z 2). unfold Qminus.
    rewrite <- inject_Z_mult, <- inject_Z_opp, <- inject_Z_plus, <- inject_Z_mult, <- Zle_Qle. lia. }
  apply Qabs_Qle_condition. split; apply (Qmult_le_r _ _ (inject_Z d)); try done; lra.
Qed.

Lemma ten_shift v k x : (v * ten (- k) < ten x <-> v < ten (x + k))%Q.
Proof.
  pose proof (ten_neg k) as Hn. pose proof (ten_pos (- k)) as Hp.
  assert (E : (ten (x + k) * ten (- k) == ten x)%Q)
    by (rewrite ten_add, <- Qmult_assoc, (Qmult_comm (ten k)), Hn; ring).
  rewrite <- E. by apply Qmult_lt_r.
Qed.

Lemma exponent10_spec fuel x0 n d :
  0 < d -> (ten x0 <= ratio n d)%Q -> (ratio n d < ten (x0 + 1 + Z.of_nat fuel))%Q ->
  (ten (exponent10 fuel x0 n d) <= ratio n d < ten (exponent10 fuel x0 n d + 1))%Q.
Proof.
  intros Hd. revert x0. induction fuel as [|fuel IH]; intros x0 Hlo Hhi; cbn [exponent10].
  - by rewrite Z.add_0_r in Hhi.
  - pose proof (scale10_ratio n d (- (x0 + 1)) Hd) as Hs.
    destruct (scale10 n d (- (x0 + 1))) as [n' d']. destruct Hs as [Hd' Hr].
    pose proof (ratio_lt_r 1 n' d' Hd') as Hlt. pose proof (ten_shift (ratio n d) (x0 + 1) 0) as Hsh.
    rewrite <- Hr in Hsh. change (inject_Z 1) with (ten 0) in Hlt. rewrite Z.mul_1_l in Hlt.
    destruct (Z.ltb_spec n' d') as [Hc|Hc].
    + split; [done|]. by apply Hsh, Hlt.
    + apply IH.
      * apply Qnot_lt_le. intros Hq. apply Hsh, Hlt in Hq. lia.
      * by replace (x0 + 1 + 1 + Z.of_nat fuel) with (x0 + 1 + Z.of_nat (S fuel)) by lia.
Qed.

(** Six digits and an exponent: within half a unit of the last digit. *)
Lemma scientific_spec n d :
  0 < d -> (ten (-46) <= ratio n d)%Q -> (ratio n d < ten 45)%Q ->
  let (q, x) := scientific n d in
  10 ^ 5 <= q < 10 ^ 6 /\
  (Qabs (inject_Z q * ten (x - 5) - ratio n d) <= (1 # 200000) * ratio n d)%Q.
Proof.
  intros Hd Hlo Hhi. unfold scientific.
  destruct (exponent10_spec 90 (-46) n d Hd Hlo Hhi) as [Hx1 Hx2].
  set (x := exponent10 90 (-46) n d) in *. clearbody x.
  pose proof (scale10_ratio n d (5 - x) Hd) as Hs.
  destruct (scale10 n d (5 - x)) as [n' d']. destruct Hs as [Hd' Hr].
  pose proof (div_even_ratio n' d' Hd') as He. pose proof (div_even_bounds n' d' Hd') as Hb.
  assert (Hw1 : 10 ^ 5 * d' <= n').
  { apply ratio_le_l; [done|]. rewrite Hr. apply Qnot_lt_le. intros Hq.
    replace (5 - x) with (- (x - 5)) in Hq by lia. change (inject_Z (10 ^ 5)) with (ten 5) in Hq.
    apply ten_shift in Hq. replace (5 + (x - 5)) with x in Hq by lia. by apply (Qlt_not_le _ _ Hq). }
  assert (Hw2 : n' < 10 ^ 6 * d').
  { apply ratio_lt_r; [done|]. rewrite Hr. replace (5 - x) with (- (x - 5)) by lia.
    change (inject_Z (10 ^ 6)) with (ten 6). apply ten_shift. by replace (6 + (x - 5)) with (x + 1) by lia. }
  assert (Hq1 : 10 ^ 5 <= n' / d') by (apply Z.div_le_lower_bound; lia).
  assert (Hq2 : n' / d' < 10 ^ 6) by (apply Z.div_lt_upper_bound; lia).
  set (q := div_even n' d') in *. clearbody q.
  assert (Hclose : (Qabs (inject_Z q * ten (x - 5) - ratio n d) <= (1 # 200000) * ratio n d)%Q).
  { pose proof (ten_pos (x - 5)) as Hp. pose proof (ten_neg (x - 5)) as Hn.
    replace (- (x - 5)) with (5 - x) in Hn by lia. rewrite Hr in He.
    assert (E : (inject_Z q * ten (x - 5) - ratio n d ==
                 (inject_Z q - ratio n d * ten (5 - x)) * ten (x - 5))%Q).
    { assert (E1 : ((inject_Z q - ratio n d * ten (5 - x)) * ten (x - 5) ==
        inject_Z q * ten (x - 5) - ratio n d * (ten (5 - x) * ten (x - 5)))%Q) by ring.
      rewrite E1, Hn. ring. }
    rewrite E. clear E.
    rewrite Qabs_Qmult, (Qabs_pos (ten (x - 5))) by lra.
    assert (H5 : (ten x == 100000 * ten (x - 5))%Q).
    { replace x with (5 + (x - 5)) at 1 by lia. rewrite ten_add. done. }
    apply Qle_trans with ((1 # 2) * ten (x - 5))%Q; [apply Qmult_le_compat_r; [done|lra]|]. lra. }
  destruct (Z.eqb_spec q (10 ^ 6)) as [->|Hne]; [|split; [lia|done]].
  split; [lia|]. replace (x + 1 - 5) with (1 + (x - 5)) by lia. rewrite ten_add.
  assert (E : (inject_Z (10 ^ 5) * (ten 1 * ten (x - 5)) == inject_Z (10 ^ 6) * ten (x - 5))%Q)
    by by rewrite Qmult_assoc.
  by rewrite E.
Qed.

(** The number a finite float stands for. *)
Definition magnitude (m : positive) (e : Z) : Q :=
  let (n, d) := fraction_of m e in ratio n d.

Lemma value_finite f s m e :
  value f = S754_finite s m e -> Z.pos m < 2 ^ 24 /\ -149 <= e <= 104.
Proof.
  unfold value. pose proof (man_field_range (repr f)) as Hm. pose proof (exp_field_range (repr f)) as He.
  destruct (Z.eqb_spec (exp_field (repr f)) 255); [by destruct (man_field (repr f) =? 0)|].
  destruct (Z.eqb_spec (exp_field (repr f)) 0).
  - destruct (man_field (repr f)) as [|p|p] eqn:E; [done| |done]. intros [= _ <- <-]. lia.
  - intros [= _ <- <-]. rewrite Z2Pos.id by lia. lia.
Qed.

Lemma ten_le_ratio k n d : 0 <= k -> 0 < d -> d <= n * 10 ^ k -> (ten (- k) <= ratio n d)%Q.
Proof.
  intros Hk Hd H. apply Qnot_lt_le. intros Hq. apply (Qlt_not_le _ _ Hq).
  apply (Qmult_le_r _ _ (ten k)); [apply ten_pos|]. rewrite ten_neg.
  pose proof (scale10_ratio n d k Hd) as Hs. unfold scale10 in Hs.
  rewrite (proj2 (Z.leb_le 0 k) Hk) in Hs. destruct Hs as [_ <-].
  apply (proj1 (ratio_le_l 1 _ d Hd)). lia.
Qed.

Lemma fraction_of_range f s m e :
  value f = S754_finite s m e ->
  let (n, d) := fraction_of m e in
  0 < d /\ (ten (-46) <= ratio n d)%Q /\ (ratio n d < ten 45)%Q.
Proof.
  intros Hv. destruct (value_finite f s m e Hv) as [Hm He]. unfold fraction_of.
  change (ten 45) with (inject_Z (10 ^ 45)).
  destruct (Z.leb_spec 0 e) as [Hp|Hp].
  - assert (H2 : 1 <= 2 ^ e <= 2 ^ 104).
    { split; [apply (Z.pow_le_mono_r 2 0 e); lia|apply Z.pow_le_mono_r; lia]. }
    change (2 ^ 104) with 20282409603651670423947251286016 in H2.
    change (2 ^ 24) with 16777216 in Hm.
    assert (1 <= Z.pos m * 2 ^ e < 16777216 * 20282409603651670423947251286017) by nia.
    set (n := Z.pos m * 2 ^ e) in *. clearbody n.
    split; [done|]. split; [apply (ten_le_ratio 46); lia|]. apply (proj1 (ratio_lt_r _ n 1 eq_refl)). lia.
  - assert (H2 : 1 <= 2 ^ (- e) <= 2 ^ 149).
    { split; [apply (Z.pow_le_mono_r 2 0 (- e)); lia|apply Z.pow_le_mono_r; lia]. }
    change (2 ^ 149) with 713623846352979940529142984724747568191373312 in H2.
    change (2 ^ 24) with 16777216 in Hm. set (d := 2 ^ (- e)) in *. clearbody d.
    split; [lia|]. split; [apply (ten_le_ratio 46); lia|].
    apply (proj1 (ratio_lt_r _ _ d ltac:(lia))). lia.
Qed.

(** ** Reading decimal text *)

(** An exponent part, behind its [e]. *)
Definition read_exponent (s : string) : option Z :=
  let (neg, s') := sign s in
  match read_digits 10 None s' with
  | Some v => Some (if neg : bool then - v else v)
  | None => None
  end.

(** Digits, at most one point, an exponent: [c * 10 ^ k] as [(c, k)]. *)
Fixpoint read_mantissa (c k : Z) (point : bool) (s : string) : option (Z * Z) :=
  match s with
  | EmptyString => Some (c, k)
  | String a s' =>
      if bool_decide (a = "."%char) then
        if point then None else read_mantissa c k true s'
      else if bool_decide (a = "e"%char) then
        match read_exponent s' with Some x => Some (c, k + x) | None => None end
      else match digit 10 a with
           | Some d => read_mantissa (c * 10 + d) (if point then k - 1 else k) point s'
           | None => None
           end
  end.

Definition read_decimal (s : string) : option (Z * Z) :=
  let (neg, s') := sign s in
  match read_mantissa 0 0 false s' with
  | Some (c, k) => Some (if neg : bool then - c else c, k)
  | None => None
  end.

Definition is_digit (a : ascii) : bool := bool_decide (is_Some (digit 10 a)).
Definition all_digits (s : string) : Prop := all_chars is_digit s = true.

(** The number behind [c] whose digits are [s]. *)
Fixpoint dval (c : Z) (s : string) : Z :=
  match s with
  | EmptyString => c
  | String a s' => dval (c * 10 + default 0 (digit 10 a)) s'
  end.

Abbreviation slen s := (Z.of_nat (String.length s)) (only parsing).

Lemma all_digits_cons a s : all_digits (String a s) -> (exists d, digit 10 a = Some d) /\ all_digits s.
Proof. intros [Ha%bool_decide_eq_true Hs]%andb_true_iff. done. Qed.

Lemma all_digits_app a b : all_digits a -> all_digits b -> all_digits (a +:+ b).
Proof. unfold all_digits. intros Ha Hb. by rewrite all_chars_app, Ha, Hb. Qed.

Lemma digit_range a d : digit 10 a = Some d -> 0 <= d < 10.
Proof.
  unfold digit. unfold code. pose proof (N2Z.is_nonneg (N_of_ascii a)) as Hn.
  repeat case_match; intros [= <-]; rewrite ?andb_true_iff, ?Z.leb_le, ?Z.ltb_lt in *; lia.
Qed.

Lemma read_digits_dval c s : all_digits s -> read_digits 10 (Some c) s = Some (dval c s).
Proof.
  revert c. induction s as [|a s IH]; intros c Hs; [done|].
  apply all_digits_cons in Hs as [[d Hd] Hs]. cbn [read_digits dval]. rewrite Hd. by apply IH.
Qed.

Lemma dval_app c a b : dval c (a +:+ b) = dval (dval c a) b.
Proof. revert c. induction a as [|x a IH]; intros c; [done|]. rewrite app_cons. apply IH. Qed.

Lemma dval_bounds c s :
  all_digits s -> c * 10 ^ slen s <= dval c s < (c + 1) * 10 ^ slen s.
Proof.
  revert c. induction s as [|a s IH]; intros c Hs; [cbn; lia|].
  apply all_digits_cons in Hs as [[d Hd] Hs]. cbn [dval String.length]. rewrite Hd. cbn [default].
  pose proof (digit_range a d Hd). specialize (IH (c * 10 + d) Hs).
  rewrite Nat2Z.inj_succ, Z.pow_succ_r by lia.
  assert (0 < 10 ^ slen s) by (apply Z.pow_pos_nonneg; lia). unfold id in *. nia.
Qed.

Lemma zeros_dval c s : all_zeros s = true -> dval c s = c * 10 ^ slen s.
Proof.
  revert c. induction s as [|a s IH]; intros c Hs; [cbn; lia|].
  apply andb_true_iff in Hs as [->%bool_decide_eq_true Hs]. cbn [dval String.length].
  rewrite (IH _ Hs), Nat2Z.inj_succ, Z.pow_succ_r by lia. rewrite (digit_zero 10) by lia. cbn [default]. unfold id. lia.
Qed.

(** Dropping zeros divides by a power of ten. *)
Lemma strip_dval c s :
  exists j, 0 <= j /\ slen s = slen (strip_zeros s) + j /\ dval c s = dval c (strip_zeros s) * 10 ^ j.
Proof.
  revert c. induction s as [|a s IH]; intros c; [by exists 0; cbn; lia|].
  cbn [strip_zeros]. destruct (all_zeros (String a s)) eqn:Hz.
  - exists (slen (String a s)). split; [lia|]. split; [done|]. by apply zeros_dval.
  - destruct (IH (c * 10 + default 0 (digit 10 a))) as (j & Hj & Hl & Hv).
    exists j. split; [done|]. split; [cbn [String.length]; lia|]. exact Hv.
Qed.

(** ** Reading the parts of a number *)

Lemma read_mantissa_digits c k point s r :
  all_digits s ->
  read_mantissa c k point (s +:+ r) =
  read_mantissa (dval c s) (if point then k - slen s else k) point r.
Proof.
  revert c k. induction s as [|a s IH]; intros c k Hs.
  - cbn. by destruct point; rewrite ?Z.sub_0_r.
  - apply all_digits_cons in Hs as [[d Hd] Hs]. rewrite app_cons. cbn [read_mantissa].
    assert (a <> "."%char) by by intros ->. assert (a <> "e"%char) by by intros ->.
    rewrite !bool_decide_eq_false_2 by done. rewrite Hd, IH by done. cbn [dval String.length]. rewrite Hd.
    cbn [default]. f_equal. destruct point; lia.
Qed.

(** What may follow the digits. *)
Definition mantissa_end (r : string) : Prop := r = EmptyString \/ exists t, r = String "e" t.

Lemma read_end c k r : mantissa_end r -> read_mantissa c k true r = read_mantissa c k false r.
Proof. by intros [->|[t ->]]. Qed.

Lemma read_fraction c b r :
  all_digits b -> mantissa_end r ->
  exists c' j, 0 <= j /\ dval c b = c' * 10 ^ j /\
    read_mantissa c 0 false (fraction b +:+ r) = read_mantissa c' (j - slen b) false r.
Proof.
  intros Hb Hr. destruct (strip_dval c b) as (j & Hj & Hl & Hv).
  exists (dval c (strip_zeros b)), j. split; [done|]. split; [done|].
  pose proof (strip_zeros_all _ b Hb) as Hs. unfold fraction.
  destruct (strip_zeros b) as [|a t] eqn:E.
  - rewrite empty_app. cbn [dval]. cbn in Hl. by replace (j - slen b) with 0 by lia.
  - rewrite app_cons. cbn [read_mantissa]. rewrite bool_decide_eq_true_2 by done.
    rewrite read_mantissa_digits by done. rewrite read_end by done. f_equal. lia.
Qed.

(** ** Reading a printed number *)

Lemma print_nat_digits n : 0 <= n -> all_digits (print_nat n).
Proof.
  intros Hn. apply show_nat_chars; [lia|]. intros d Hd. unfold is_digit.
  rewrite digit_digit_char by lia. by apply bool_decide_eq_true_2.
Qed.

Lemma print_nat_dval n : 0 <= n -> dval 0 (print_nat n) = n.
Proof.
  intros Hn. pose proof (read_digits_dval 0 _ (print_nat_digits n Hn)) as Hd.
  rewrite <- (app_empty (print_nat n)) in Hd at 1. unfold print_nat at 1 in Hd.
  rewrite read_show_nat_zero in Hd by (lia || done). by injection Hd.
Qed.

Lemma six_digits q : 10 ^ 5 <= q < 10 ^ 6 -> String.length (print_nat q) = 6%nat.
Proof.
  intros Hq. pose proof (dval_bounds 0 _ (print_nat_digits q ltac:(lia))) as Hb.
  rewrite print_nat_dval in Hb by lia.
  pose proof (show_nat_length 10 ltac:(lia) q 5 ltac:(cbn; lia)) as Hl. fold (print_nat q) in Hl.
  destruct (decide (String.length (print_nat q) <= 5)%nat) as [Hs|]; [exfalso|lia].
  pose proof (Z.pow_le_mono_r 10 (slen (print_nat q)) 5 ltac:(lia) ltac:(lia)). lia.
Qed.

Lemma take_drop_chars n s : take_chars n s +:+ drop_chars n s = s.
Proof. revert s. induction n as [|n IH]; intros [|a s]; try done. cbn. by rewrite app_cons, IH. Qed.

Lemma drop_chars_length n s : String.length (drop_chars n s) = (String.length s - n)%nat.
Proof. revert s. induction n as [|n IH]; intros [|a s]; try done. apply IH. Qed.

(** Digits split by the point, and what follows them. *)
Lemma read_split a b r q :
  all_digits a -> all_digits b -> mantissa_end r -> dval 0 (a +:+ b) = q ->
  exists c j, 0 <= j /\ q = c * 10 ^ j /\
    read_mantissa 0 0 false (a +:+ fraction b +:+ r) = read_mantissa c (j - slen b) false r.
Proof.
  intros Ha Hb Hr Hq. rewrite dval_app in Hq.
  destruct (read_fraction (dval 0 a) b r Hb Hr) as (c & j & Hj & Hc & Hm).
  exists c, j. split; [done|]. split; [congruence|]. by rewrite read_mantissa_digits, Hm.
Qed.

Lemma read_show_exponent c k x :
  read_mantissa c k false (show_exponent x) = Some (c, k + x).
Proof.
  unfold show_exponent. cbn [read_mantissa].
  rewrite bool_decide_eq_false_2, bool_decide_eq_true_2 by done. unfold read_exponent.
  assert (Hr : read_digits 10 None (pad 2 "0" (print_nat (Z.abs x))) = Some (Z.abs x)).
  { rewrite <- (app_empty (pad _ _ _)). apply read_pad; [lia|lia|done]. }
  destruct (Z.ltb_spec x 0); cbn [sign]; rewrite Hr; f_equal; f_equal; lia.
Qed.

Lemma all_digits_zeros n : all_digits (repeat_char n "0").
Proof. by apply repeat_chars. Qed.

(** The text of [q * 10 ^ (x - 5)]. *)
Lemma read_show_scientific q x :
  10 ^ 5 <= q < 10 ^ 6 ->
  exists c j, 0 <= j /\ q = c * 10 ^ j /\
    read_mantissa 0 0 false (show_scientific q x) = Some (c, x - 5 + j).
Proof.
  intros Hq. pose proof (print_nat_digits q ltac:(lia)) as Hd.
  pose proof (print_nat_dval q ltac:(lia)) as Hv. pose proof (six_digits q Hq) as Hl.
  unfold show_scientific. set (s := print_nat q) in *. clearbody s.
  assert (Hsplit : forall n r, mantissa_end r -> (n <= 6)%nat ->
    exists c j, 0 <= j /\ q = c * 10 ^ j /\
      read_mantissa 0 0 false (take_chars n s +:+ fraction (drop_chars n s) +:+ r) =
      read_mantissa c (j - 6 + Z.of_nat n) false r).
  { intros n r Hr Hn.
    destruct (read_split (take_chars n s) (drop_chars n s) r q) as (c & j & Hj & Hc & Hm);
      [by apply take_chars_all|by apply drop_chars_all|done|by rewrite take_drop_chars|].
    exists c, j. split; [done|]. split; [done|]. rewrite Hm. f_equal. rewrite drop_chars_length. lia. }
  destruct (_ && _) eqn:Hx; [apply andb_true_iff in Hx as [Hx1%Z.leb_le Hx2%Z.ltb_lt];
    destruct (Z.leb_spec 0 x) as [H0|H0]|].
  - destruct (Hsplit (Z.to_nat (x + 1)) EmptyString) as (c & j & Hj & Hc & Hm); [by left|lia|].
    rewrite app_empty in Hm. exists c, j. split; [done|]. split; [done|].
    rewrite Hm. cbn [read_mantissa]. f_equal. f_equal. lia.
  - destruct (read_split "0" (repeat_char (Z.to_nat (- x - 1)) "0" +:+ s) EmptyString q)
      as (c & j & Hj & Hc & Hm).
    + done.
    + apply all_digits_app; [apply all_digits_zeros|done].
    + by left.
    + rewrite !dval_app, (zeros_dval _ (repeat_char _ _)) by by apply repeat_chars. exact Hv.
    + rewrite app_empty in Hm. exists c, j. split; [done|]. split; [done|].
      change (String "0" (fraction (repeat_char (Z.to_nat (- x - 1)) "0" +:+ s)))
        with ("0" +:+ fraction (repeat_char (Z.to_nat (- x - 1)) "0" +:+ s)).
      rewrite Hm. cbn [read_mantissa]. f_equal. f_equal.
      rewrite length_append, repeat_char_length. lia.
  - destruct (Hsplit 1%nat (show_exponent x)) as (c & j & Hj & Hc & Hm); [by right; eexists|lia|].
    exists c, j. split; [done|]. split; [done|]. rewrite Hm, read_show_exponent. f_equal. f_equal. lia.
Qed.

(** It begins with a digit. *)
Lemma show_scientific_first q x :
  0 <= q -> exists d t, show_scientific q x = String (digit_char d) t /\ 0 <= d < 10.
Proof.
  intros Hq. unfold show_scientific. destruct (print_nat_first q Hq) as (d & t & -> & Hd & _).
  destruct (_ && _) eqn:Hx; [destruct (Z.leb_spec 0 x) as [H0|H0]|].
  - exists d. replace (Z.to_nat (x + 1)) with (S (Z.to_nat x)) by lia. cbn [take_chars].
    rewrite app_cons. by eexists.
  - by exists 0, (fraction (repeat_char (Z.to_nat (- x - 1)) "0" +:+ String (digit_char d) t)).
  - exists d. cbn [take_chars]. rewrite app_cons. by eexists.
Qed.

Lemma sign_text_digit neg d t :
  0 <= d < 10 ->
  sign (sign_text neg +:+ String (digit_char d) t) = (neg, String (digit_char d) t).
Proof.
  intros Hd. destruct neg; [done|]. cbn [sign_text]. rewrite empty_app.
  by destruct (digit_start d t Hd) as [_ ->].
Qed.

(** [c * 10 ^ k] *)
Definition decimal (ck : Z * Z) : Q := inject_Z (fst ck) * ten (snd ck).

(** The value of a float as a rational number; none for infinities and NaN. *)
Definition rational (x : spec_float) : option Q :=
  match x with
  | S754_zero _ => Some 0%Q
  | S754_finite s m e => Some (if s then - magnitude m e else magnitude m e)%Q
  | _ => None
  end.

Lemma show_finite f s m e :
  value f = S754_finite s m e ->
  exists ck, read_decimal (show_float f) = Some ck /\
    (Qabs (decimal ck - (if s then - magnitude m e else magnitude m e)) <=
     (1 # 200000) * magnitude m e)%Q.
Proof.
  intros Hv. unfold show_float. rewrite Hv. pose proof (fraction_of_range f s m e Hv) as Hr.
  unfold magnitude. destruct (fraction_of m e) as [n d]. destruct Hr as (Hd & Hlo & Hhi).
  pose proof (scientific_spec n d Hd Hlo Hhi) as Hs. destruct (scientific n d) as [q x].
  destruct Hs as [Hq Hc]. destruct (read_show_scientific q x Hq) as (c & j & Hj & Hqc & Hm).
  destruct (show_scientific_first q x ltac:(lia)) as (g & t & E & Hg).
  assert (Hval : (inject_Z c * ten (x - 5 + j) == inject_Z q * ten (x - 5))%Q).
  { rewrite ten_add, (ten_nonneg j Hj), Hqc, inject_Z_mult. ring. }
  exists ((if s then - c else c), x - 5 + j). split.
  - unfold read_decimal. rewrite E, sign_text_digit, <- E, Hm by done. done.
  - unfold decimal. cbn [fst snd]. destruct s; [|by rewrite Hval].
    assert (En : (inject_Z (- c) * ten (x - 5 + j) - - ratio n d ==
                 - (inject_Z q * ten (x - 5) - ratio n d))%Q)
      by (rewrite inject_Z_opp, <- Hval; ring).
    by rewrite En, Qabs_opp.
Qed.
