(* ===== verification/SystemProperties.v ===== *)
(** * Correctness of the simulator

    The theorems about whole runs: the out-of-order engine against the
    sequential machine and its progress; at the end the recorded tests. *)

From S2P Require Import Prelude Words Ring Config Float32 Instruction Text Assembler.
From S2P Require Import RegisterFile RegisterRemappingTable ReorderBuffer.
From S2P Require Import CommonDataBus ReservationStation LoadStoreBuffer.
From S2P Require Import InstructionQueue CommitUnit Simulator ISA.
From S2P Require Import StationFacts LSBFacts Invariant SeqFacts UnitFacts LoadValues Cycle Coherence Refinement.
From S2P Require Import Trace Programs.

(** ** Sample programs *)

Definition rri (o : Opcode) (d a im : Z) : Instruction :=
  mkInstruction o d a (-1) im false false false 0.
Definition rrr (o : Opcode) (d a b : Z) : Instruction :=
  mkInstruction o d a b 0 false false false 0.
Definition halt : Instruction := mkInstruction HALT (-1) (-1) (-1) 0 false false false 0.
Definition store (o : Opcode) (src base im : Z) : Instruction :=
  mkInstruction o (-1) base src im false false false 0.

(** A counting loop that stores and reloads its sum. *)
Definition sample : list Instruction :=
  [ rri ADDI 1 0 0; rri ADDI 2 0 3; rri ADDI 3 0 1;
    rrr ADD 1 1 2; store SW 1 0 40; rri LW 4 0 40; rrr SUB 2 2 3;
    mkInstruction BNE (-1) 2 0 (-16) false false false 0; halt ].

Lemma sample_ok : wf_source sample /\ forwarding_safe (FE := x86_fp) (stamp sample).
Proof.
  split; [by apply wf_source_b_sound|]. apply (safe_run_sound (FE := x86_fp) _ 40). by vm_compute.
Qed.

(** Accesses that are neither aligned nor in range: a store and a load at byte
    101, a load of the word it is in sixteen instructions later, and a store
    and a load outside the memory, in different words. *)
Definition wild : list Instruction :=
  [ rri ADDI 1 0 101; rri ADDI 2 0 7; store SW 2 1 0; rri LW 3 1 0 ] ++
  replicate 14 (rri ADDI 4 4 1) ++
  [ rri LW 5 1 2; store SW 2 0 8000; rri LW 6 0 8005; halt ].

Lemma wild_ok : wf_source wild /\ forwarding_safe (FE := x86_fp) (stamp wild).
Proof.
  split; [by apply wf_source_b_sound|]. apply (safe_run_sound (FE := x86_fp) _ 40). by vm_compute.
Qed.

(** The conversion keeps the reorder buffer busy while the store waits. *)
Definition to_float (d a : Z) : Instruction := mkInstruction FCVT_S_W d a (-1) 0 true false false 0.

(** A store to byte 100 and a load from byte 101 of the same word. *)
Definition misaligned : list Instruction :=
  [ rri ADDI 1 0 100; rri ADDI 2 0 7; to_float 1 0; store SW 2 1 0; rri LW 3 1 1; halt ].

(** A store and a load at word 2000 of the 1024-word memory. *)
Definition beyond : list Instruction :=
  [ rri ADDI 1 0 8000; rri ADDI 2 0 7; to_float 1 0; store SW 2 1 0; rri LW 3 1 0; halt ].

(** An instruction behind a HALT with a register that does not exist. *)
Definition unreached : list Instruction := [ to_float 1 0; halt; rri ADDI 40 0 1 ].

Section System.
Context `{FE : FPEnv}.

(** C1. Total correctness of a run. For every program of well-formed
    instructions whose registers exist (the fields of each format, fewer than
    2^30 instructions) whose sequential execution stops within [fuel]
    instructions and keeps its loads clear of recent stores at another byte of
    their word or outside the memory ([forwarding_safe]), [main]'s clock loop
    ends without an assertion failure, an out-of-bounds access or running out
    of cycles, by a HALT or at the end of the program; the registers and the data
    memory are those of the sequential machine; and the run takes at most 18
    cycles for each instruction and 18 more. The cycle limit of the clock loop
    has to leave room for this: [18 * (fuel + 1)] is at most MAX_CYCLES, which
    is so for runs of up to 11110 instructions; what happens to longer ones is
    [simulate_safe]. *)
Theorem simulate_correct prog fuel a :
  wf_source prog -> forwarding_safe (stamp prog) ->
  run (stamp prog) fuel arch_init = Some a -> 18 * (Z.of_nat fuel + 1) <= MAX_CYCLES ->
  exists s, simulate prog = Ok s /\ (halted s = true \/ finished s = true) /\
    agrees s a /\ cycle s <= 1 + 18 * (Z.of_nat fuel + 1).
Proof. apply simulate_halts. Qed.

(** C2. In-order, precise commit, for every program the assembler can return,
    whether its register numbers exist or not. After any number of cycles there is a choice of load values,
    each one that the load can return ([sees]: the word memory held at most 15
    instructions before, or the data of a store that recent to the same byte
    address, with no store to that address in between), such that the commit
    records are the first instructions of the sequential machine with these
    load values, in order and with their results, and the registers and the
    memory are exactly what it has after that many instructions. When the
    program's loads keep clear of hazards this is the plain sequential
    machine. *)
Theorem commits_in_program_order prog l s :
  wf_text prog -> trace prog l s ->
  (exists loads : Loads, valid_loads (stamp prog) (L := loads) (length l) /\
     agrees s (st_at (stamp prog) (L := loads) (length l)) /\
     forall k r, l !! k = Some r -> recorded prog loads k r) /\
  (forwarding_safe (stamp prog) ->
     agrees s (steps (stamp prog) (length l) arch_init) /\
     forall k r, l !! k = Some r -> record_at prog k r).
Proof.
  intros Htext Ht. split; [by apply trace_loads|]. intros Hsafe. by apply trace_sequential.
Qed.

(** C3. What can stop the program: for every program the assembler can return,
    whatever its memory accesses, the clock loop of [main] ends by a HALT, at
    the end of the program or by its cycle limit, or in the assertion of the
    renaming table about a register that does not exist; from any state the
    machine reaches, the next cycle trips no other assertion and reads or
    writes no vector out of range, drains the stations within its fuel, and
    leaves the bus empty. When all registers exist nothing stops it. *)
Theorem cycle_never_faults prog :
  wf_text prog ->
  match simulate prog with
  | Ok s => halted s = true \/ finished s = true \/ MAX_CYCLES < cycle s
  | Stop f => register_fault f /\ ~ all_named prog
  end /\
  forall l s, trace prog l s -> halted s = false ->
    match step_cycle s with
    | Ok s' => cycle s' = cycle s + 1 /\ CommonDataBus.has_results (cdb s') = false
    | Stop f => register_fault f /\ ~ all_named prog
    end.
Proof.
  intros Htext. assert (Hstop : forall L b f, unnamed_from (stamp prog) L b f ->
    register_fault f /\ ~ all_named prog).
  { intros L b f Hun. apply unnamed_from_stops in Hun. split; [apply Hun|].
    by eapply stops_unnamed_not_all. }
  split.
  { pose proof (simulate_cases prog Htext) as H. destruct (simulate prog).
    - by destruct H as (_ & _ & _ & ?).
    - destruct H. by eapply Hstop. }
  intros l s Ht Hh. destruct (trace_related prog Htext l s Ht) as (n & [L HI] & Hcdb).
  destruct (step_cycle_cases (stamp prog) (stamp_wf prog Htext) _ n s HI Hcdb Hh) as (L' & _ & Hcase).
  destruct (step_cycle s); [|by eapply Hstop].
  destruct Hcase as (b' & n' & _ & Hcdb' & ? & _). by rewrite Hcdb'.
Qed.

(** C4. Progress, for every program of well-formed instructions whose registers
    exist. From any state
    the machine reaches, within 18 cycles it halts, finishes, or commits the
    next instruction. *)
Theorem commit_within_18_cycles prog l s :
  wf_source prog -> trace prog l s ->
  exists s', cycles 18 s = Ok s' /\ (halted s' = true \/ finished s' = true \/
    exists l' s1, trace prog l' s1 /\ length l' = S (length l) /\
      exists k, (k < 18)%nat /\ cycles k s1 = Ok s').
Proof.
  intros [Htext Hnm] Ht. destruct (trace_run prog Htext l s Ht) as (n & L & HI & Hcdb & _).
  eapply (next_commit prog Htext Hnm 18 l n 16); try done.
  - by exists L.
  - intros Hn. split; [lia|by eapply patient_16].
  - case_decide; lia.
Qed.

(** C5. Partial correctness without a termination assumption, for every program
    the assembler can return: the run ends in a state of the sequential
    execution with load values its loads can return, whose instructions name
    registers that exist, and when it did not end by the cycle limit, where this
    execution stops; or it stops in an assertion, at the first instruction of
    such an execution that names a register that does not exist. When the
    program's loads keep clear of hazards the load values are those in memory,
    so it is a state of the plain sequential execution. *)
Theorem simulate_safe prog :
  wf_text prog ->
  match simulate prog with
  | Ok s => exists k (loads : Loads), valid_loads (stamp prog) (L := loads) k /\
      named_to (stamp prog) (L := loads) k /\
      agrees s (st_at (stamp prog) (L := loads) k) /\
      (halted s = true \/ finished s = true \/ MAX_CYCLES < cycle s) /\
      (halted s = true \/ finished s = true ->
         exists t, (t <= k)%nat /\ stops_at (stamp prog) (L := loads) t /\
           agrees s (st_at (stamp prog) (L := loads) t)) /\
      (forwarding_safe (stamp prog) ->
         forall t, (t <= k)%nat -> st_at (stamp prog) (L := loads) t = steps (stamp prog) t arch_init)
  | Stop f => stops_unnamed prog f
  end.
Proof.
  intros Htext. pose proof (simulate_cases prog Htext) as H. destruct (simulate prog) as [s|f].
  - destruct H as (b & n & [L HI] & Hend). exists b, L. split; [by eapply Inv_valid|].
    split; [intros k i Hk; apply (inv_named _ _ _ _ _ HI); lia|].
    split; [by eapply Inv_agrees|]. split; [done|]. split.
    + intros Hstop. by eapply stopped_agrees; [apply stamp_wf|..].
    + intros Hsafe t Ht. rewrite <- seq_at_steps. by eapply Inv_coherent.
  - destruct H as [L H]. by eapply unnamed_from_stops.
Qed.

(** C25. Control flow, for every program the assembler can return. The
    commit records follow the program: the first is the instruction at address
    0; every record is the instruction of the program at its address; after a
    branch or jump comes the instruction at the address it resolved to, after
    any other instruction the next one; and nothing commits after a HALT. *)
Theorem commits_follow_control_flow prog l s :
  wf_text prog -> trace prog l s ->
  (forall r, l !! 0%nat = Some r -> cr_pc r = 0) /\
  (forall k r, l !! k = Some r -> exists i, fetch (stamp prog) (cr_pc r) = Some i /\
     r = mkCommitRecord true (op i) (rd i) (rd_fp i) (cr_result r) (pc i)) /\
  (forall k r r', l !! k = Some r -> l !! S k = Some r' -> cr_op r <> HALT /\
     cr_pc r' = 4 * ((if is_branch (cr_op r) || is_jump (cr_op r) then cr_result r
                      else (cr_pc r + 4) mod 2 ^ 32) / 4)).
Proof.
  intros Htext Ht. pose proof (stamp_wf prog Htext) as Hwf.
  destruct (trace_run prog Htext l s Ht) as (n & L & HI & _ & Hl).
  assert (Hpc : forall k r i, ins_at (stamp prog) k = Some i ->
    r = mkCommitRecord true (op i) (rd i) (rd_fp i) (res_at (stamp prog) k) (pc i) ->
    cr_pc r = 4 * (apc (st_at (stamp prog) k) / 4)).
  { intros k r i Hi ->. by destruct (ins_at_pc _ Hwf _ _ Hi). }
  split; [|split].
  - intros r (i & Hi & Hr)%Hl. by rewrite (Hpc _ _ _ Hi Hr).
  - intros k r Hk. pose proof (Hl k r Hk) as (i & Hi & Hr). exists i. split; [|by rewrite Hr].
    unfold fetch. rewrite (Hpc _ _ _ Hi Hr), Z.mul_comm, Z.div_mul by done. exact Hi.
  - intros k r r' Hk Hk'. pose proof (Hl _ _ Hk) as (i & Hi & Hr).
    pose proof (Hl _ _ Hk') as (i' & Hi' & Hr'). pose proof (lookup_lt_Some _ _ _ Hk') as Hlt.
    rewrite (Hpc _ _ _ Hi' Hr'), (apc_S _ k i Hi). rewrite Hr. cbn.
    split; [|unfold is_control in *; by case_match].
    pose proof (inv_halt _ _ _ _ _ HI) as Hh. unfold halt_inv in Hh. destruct (halted s).
    + destruct Hh as (b & _ & Hb & Hlive & _). apply (Hlive k); [lia|done].
    + apply (Hh k); [lia|done].
Qed.

End System.

(** ** Witnesses *)

Lemma simulate_correct_witness :
  exists a s, run (FE := x86_fp) (stamp sample) 40 arch_init = Some a /\
    simulate (FE := x86_fp) sample = Ok s /\ agrees s a.
Proof.
  destruct (run (FE := x86_fp) (stamp sample) 40 arch_init) as [a|] eqn:E;
    [|vm_compute in E; discriminate E].
  destruct (simulate_correct (FE := x86_fp) sample 40 a (proj1 sample_ok) (proj2 sample_ok) E)
    as (s & Hs & _ & Hag & _); [by vm_compute|].
  exists a, s. exact (conj eq_refl (conj Hs Hag)).
Defined.

(** Twelve cycles of the sample program, with several commits. *)
Lemma sample_trace :
  exists l s, trace (FE := x86_fp) sample l s /\ (5 <= length l)%nat /\ halted s = false.
Proof.
  destruct (exec_trace (FE := x86_fp) sample 12) as [[l s]|f] eqn:E; [|vm_compute in E; discriminate E].
  assert (Hl : match exec_trace (FE := x86_fp) sample 12 with
    | Ok (l, s) => (5 <=? length l)%nat && negb (halted s) | Stop _ => false end = true)
    by (vm_compute; reflexivity).
  rewrite E in Hl. apply andb_true_iff in Hl as [Hl%Nat.leb_le Hh%negb_true_iff].
  exists l, s. split; [by eapply (exec_trace_sound (FE := x86_fp))|]. split; [exact Hl|exact Hh].
Qed.

(** Whole runs whose results depend on the order in which loads and stores
    execute. *)
Lemma hazard_trace prog k (f : nat) :
  match exec_trace (FE := x86_fp) prog k with Ok (l, _) => (f <=? length l)%nat | Stop _ => false end = true ->
  exists l s, trace (FE := x86_fp) prog l s /\ (f <= length l)%nat.
Proof.
  destruct (exec_trace (FE := x86_fp) prog k) as [[l s]|e] eqn:E; [|done].
  intros Hl%Nat.leb_le. exists l, s. split; [by eapply (exec_trace_sound (FE := x86_fp))|exact Hl].
Qed.

Lemma hazards_wf : wf_text misaligned /\ wf_text beyond.
Proof. split; by apply wf_text_b_sound. Qed.

Lemma unreached_wf : wf_text unreached.
Proof. by apply wf_text_b_sound. Qed.

Lemma commits_in_program_order_witness :
  (exists l s (loads : Loads), trace (FE := x86_fp) misaligned l s /\ (5 <= length l)%nat /\
     valid_loads (FE := x86_fp) (stamp misaligned) (L := loads) (length l) /\
     agrees s (st_at (FE := x86_fp) (stamp misaligned) (L := loads) (length l))) /\
  exists l s, trace (FE := x86_fp) sample l s /\ (5 <= length l)%nat /\
    agrees s (steps (FE := x86_fp) (stamp sample) (length l) arch_init).
Proof.
  split.
  - destruct (hazard_trace misaligned 80 5) as (l & s & Ht & Hl); [vm_compute; reflexivity|].
    destruct (proj1 (commits_in_program_order (FE := x86_fp) misaligned l s (proj1 hazards_wf) Ht))
      as (loads & Hv & Ha & _).
    exists l, s, loads. exact (conj Ht (conj Hl (conj Hv Ha))).
  - destruct sample_trace as (l & s & Ht & Hl & _). exists l, s. split; [exact Ht|]. split; [exact Hl|].
    exact (proj1 (proj2 (commits_in_program_order (FE := x86_fp) sample l s (proj1 (proj1 sample_ok)) Ht)
      (proj2 sample_ok))).
Defined.

Lemma cycle_never_faults_witness :
  (exists s, simulate (FE := x86_fp) sample = Ok s /\
     (halted s = true \/ finished s = true \/ MAX_CYCLES < cycle s)) /\
  exists l s, trace (FE := x86_fp) sample l s /\
    match step_cycle (FE := x86_fp) s with Ok s' => cycle s' = cycle s + 1 | Stop _ => False end.
Proof.
  destruct (cycle_never_faults (FE := x86_fp) sample (proj1 (proj1 sample_ok))) as [Hsim Hstep].
  split.
  - destruct (simulate (FE := x86_fp) sample) as [s|f].
    + exists s. exact (conj eq_refl Hsim).
    + destruct (proj2 Hsim (proj2 (proj1 sample_ok))).
  - destruct sample_trace as (l & s & Ht & _ & Hh). specialize (Hstep l s Ht Hh).
    exists l, s. split; [exact Ht|]. destruct (step_cycle (FE := x86_fp) s) as [s'|f].
    + exact (proj1 Hstep).
    + exact (proj2 Hstep (proj2 (proj1 sample_ok))).
Defined.

Lemma commit_within_18_cycles_witness :
  exists l s s', trace (FE := x86_fp) sample l s /\ cycles (FE := x86_fp) 18 s = Ok s'.
Proof.
  destruct sample_trace as (l & s & Ht & _ & _).
  destruct (commit_within_18_cycles (FE := x86_fp) sample l s (proj1 sample_ok) Ht)
    as (s' & Hc & _).
  exists l, s, s'. exact (conj Ht Hc).
Defined.

(** Eighty cycles of the program whose load is stale. *)
Lemma commits_follow_control_flow_witness :
  exists l s, trace (FE := x86_fp) misaligned l s /\ (4 <= length l)%nat /\
    (forall r, l !! 0%nat = Some r -> cr_pc r = 0) /\
    (forall k r, l !! k = Some r -> exists i, fetch (stamp misaligned) (cr_pc r) = Some i).
Proof.
  destruct (hazard_trace misaligned 80 4) as (l & s & Ht & Hl); [vm_compute; reflexivity|].
  destruct (commits_follow_control_flow (FE := x86_fp) misaligned l s (proj1 hazards_wf) Ht)
    as (H0 & Hf & _).
  exists l, s. split; [exact Ht|]. split; [exact Hl|]. split; [exact H0|].
  intros k r Hk. destruct (Hf k r Hk) as (i & Hi & _). exists i. exact Hi.
Defined.

(** A program clear of hazards, one whose load returns what memory never held,
    and one with a register that does not exist. *)
Lemma simulate_safe_witness :
  (exists s k, simulate (FE := x86_fp) wild = Ok s /\
     agrees s (steps (FE := x86_fp) (stamp wild) k arch_init)) /\
  (exists s k (loads : Loads), simulate (FE := x86_fp) beyond = Ok s /\
     valid_loads (FE := x86_fp) (stamp beyond) (L := loads) k /\
     agrees s (st_at (FE := x86_fp) (stamp beyond) (L := loads) k)) /\
  exists f, simulate (FE := x86_fp) unreached = Stop f /\ stops_unnamed (FE := x86_fp) unreached f.
Proof.
  split; [|split].
  - pose proof (simulate_safe (FE := x86_fp) wild (proj1 (proj1 wild_ok))) as H.
    destruct (simulate (FE := x86_fp) wild) as [s|f] eqn:E; [|vm_compute in E; discriminate E].
    destruct H as (k & loads & _ & _ & Ha & _ & _ & Hsafe).
    rewrite (Hsafe (proj2 wild_ok) k (Nat.le_refl k)) in Ha. exists s, k. exact (conj eq_refl Ha).
  - pose proof (simulate_safe (FE := x86_fp) beyond (proj2 hazards_wf)) as H.
    destruct (simulate (FE := x86_fp) beyond) as [s|f] eqn:E; [|vm_compute in E; discriminate E].
    destruct H as (k & loads & Hv & _ & Ha & _).
    exists s, k, loads. exact (conj eq_refl (conj Hv Ha)).
  - pose proof (simulate_safe (FE := x86_fp) unreached unreached_wf) as H.
    destruct (simulate (FE := x86_fp) unreached) as [s|f] eqn:E; [vm_compute in E; discriminate E|].
    exists f. exact (conj eq_refl H).
Defined.

(** ** Recorded runs

    Validation of the definitions by evaluation. *)

(** Three programs on which the engine and the sequential machine differ.
    Store-to-load aliasing compares byte addresses while memory is addressed by
    words: a load that overlaps an older, uncommitted store at another byte of
    its word reads the old word. A load outside the memory gets the value of an
    older store there, although this store is lost. And dispatch runs ahead of
    commit: an instruction behind a HALT, which is never executed, stops the
    program when it names a register that does not exist. *)
Example engine_differs :
  match simulate (FE := x86_fp) misaligned, run (FE := x86_fp) (stamp misaligned) 10 arch_init with
  | Ok s, Some a => halted s = true /\ read_bits (rf s) 3 false = Ok 0 /\ read_reg a 3 false = 7
  | _, _ => False
  end /\
  match simulate (FE := x86_fp) beyond, run (FE := x86_fp) (stamp beyond) 10 arch_init with
  | Ok s, Some a => halted s = true /\ read_bits (rf s) 3 false = Ok 7 /\ read_reg a 3 false = 0
  | _, _ => False
  end /\
  match simulate (FE := x86_fp) unreached, run (FE := x86_fp) (stamp unreached) 10 arch_init with
  | Stop f, Some a => f = AssertionFailed "RegisterRemappingTable::map" /\ apc a = 4
  | _, _ => False
  end.
Proof. split; [|split]; by vm_compute. Qed.

(** From the text of the seven programs of sim/test_sim, assembled and run
    by the model, to the cycle counts, registers and memory recorded in
    final_regs.txt. *)
Example recorded_tests :
  Forall (fun t => main (FE := x86_fp) (fst t) = Ok (Some (snd t)))
    [ (int_alu_asm, int_alu_final); (load_store_asm, load_store_final);
      (branch_asm, branch_final); (fp_alu_asm, fp_alu_final);
      (jal_jalr_asm, jal_jalr_final); (combined_asm, combined_final);
      (comprehensive_asm, comprehensive_final) ].
Proof. repeat (apply Forall_cons_2; [vm_compute; reflexivity|]). apply Forall_nil_2. Qed.
