(* ===== verification/UnitProperties.v ===== *)
(** * Correctness of the units *)

From S2P Require Import Prelude Words Ring Config Float32 Instruction.
From S2P Require Import RegisterFile RegisterRemappingTable ReorderBuffer FifoSpec.
From S2P Require Import CommonDataBus BufferStation DispatchUtils.
From S2P Require Import ReservationStation LoadStoreBuffer InstructionQueue.
From S2P Require Import Simulator ISA Execute StationFacts StationInvariant LSBFacts.

(** ** Reorder buffer *)

(** C9. The reorder buffer refines a queue: for every sequence of allocations,
    results, commits and flushes the tags, committed entries and faults are
    those of a list of entries, oldest first, whatever the position of the
    circular indices. *)
Theorem rob_refines_queue size r os :
  ReorderBuffer.create size = Ok r -> outputs rob_op r os = outputs fifo_op (mkFifo size 0 []) os.
Proof. intros H. by apply sim_outputs, create_sim. Qed.

Lemma rob_refines_queue_witness :
  exists r, ReorderBuffer.create 3 = Ok r /\
    outputs rob_op r [OpAllocate default_instruction; OpWriteResult 0 7; OpCommit; OpCommit] =
    outputs fifo_op (mkFifo 3 0 [])
      [OpAllocate default_instruction; OpWriteResult 0 7; OpCommit; OpCommit].
Proof. eexists. split; [reflexivity|]. apply rob_refines_queue. reflexivity. Defined.

(** ** Functional units *)

Section Execution.
Context `{FE : FPEnv}.

(** Signed sums and differences: the C++ expression is defined exactly when the
    word, read as a signed number, is the mathematical result. *)
Definition overflow_exact (e : RSEntry) : Prop :=
  match se_op e with
  | ADD => execute_op_defined e = true <-> s32 (execute_op e) = s32 (se_vj e) + s32 (se_vk e)
  | SUB => execute_op_defined e = true <-> s32 (execute_op e) = s32 (se_vj e) - s32 (se_vk e)
  | ADDI => execute_op_defined e = true <-> s32 (execute_op e) = s32 (se_vj e) + se_imm e
  | _ => True
  end.

Lemma signed_overflow_exact e : overflow_exact e.
Proof.
  assert (Hiff : forall z, in_s32 z = true <-> s32 (u32 (s32 z)) = z).
  { intros z. rewrite u32_s32, s32_u32. unfold in_s32. rewrite andb_true_iff, Z.leb_le, Z.ltb_lt. split.
    - intros ?. apply s32_id. unfold is_s32. lia.
    - intros <-. pose proof (s32_range z) as H. unfold is_s32 in H. lia. }
  unfold overflow_exact, execute_op_defined, execute_op, add32, sub32.
  destruct (se_op e); try done; apply Hiff.
Qed.

(** C10. The functional units compute the operation tables of the instruction
    set: wrap-around sums, shifts by the low five bits, signed and unsigned
    comparisons, branch and jump targets, and binary32 arithmetic. The C++
    expressions of signed sums and differences are defined exactly when they do
    not wrap. *)
Theorem execute_op_correct e :
  is_u32 (se_vj e) -> is_u32 (se_vk e) ->
  execute_op e = alu (se_op e) (se_vj e) (se_vk e) (se_imm e) (se_pc e) /\ is_u32 (execute_op e) /\
  overflow_exact e.
Proof.
  intros Hj Hk. rewrite execute_op_is_alu by done. split; [done|].
  split; [by apply alu_u32|apply signed_overflow_exact].
Qed.

End Execution.

Definition sample_add : RSEntry :=
  mkRSEntry true ADD 0 (2 ^ 31) (2 ^ 31 + 5) (-1) (-1) 0 false false 0 0 0.

Lemma execute_op_correct_witness :
  is_u32 (se_vj sample_add) /\ is_u32 (se_vk sample_add) /\ execute_op (FE := x86_fp) sample_add = 5.
Proof.
  assert (is_u32 (se_vj sample_add)) as Hj by (unfold is_u32; cbn; lia).
  assert (is_u32 (se_vk sample_add)) as Hk by (unfold is_u32; cbn; lia).
  split; [exact Hj|]. split; [exact Hk|].
  rewrite (proj1 (execute_op_correct (FE := x86_fp) sample_add Hj Hk)). vm_compute. reflexivity.
Defined.

(** ** Renaming table *)

Inductive RatOp : Type :=
| RatMap (r : Z) (fp : bool) (tag : Z)
| RatCommit (r : Z) (fp : bool) (tag : Z)
| RatFlush.

Definition rat_op (rat : RegisterRemappingTable) (o : RatOp) : res RegisterRemappingTable :=
  match o with
  | RatMap r fp t => RegisterRemappingTable.map rat r fp t
  | RatCommit r fp t => RegisterRemappingTable.commit rat r fp t
  | RatFlush => Ok RegisterRemappingTable.flush
  end.

(** The producer of every register, as a function. *)
Definition Producers := Z -> bool -> option Z.

Definition producers_op (m : Producers) (o : RatOp) : Producers :=
  match o with
  | RatMap r fp t => fun r' fp' =>
      if bool_decide (r' = r /\ fp' = fp /\ (fp = true \/ r <> 0)) then Some t else m r' fp'
  | RatCommit r fp t => fun r' fp' =>
      if bool_decide (r' = r /\ fp' = fp /\ m r fp = Some t) then None else m r' fp'
  | RatFlush => fun _ _ => None
  end.

Definition rat_op_ok (o : RatOp) : Prop :=
  match o with RatMap r _ _ | RatCommit r _ _ => reg_index r | RatFlush => True end.

Lemma rat_ops_sim os rat m :
  rat_ok rat -> (forall r fp, reg_index r -> mapping rat r fp = m r fp) -> Forall rat_op_ok os ->
  exists rat', foldM rat_op rat os = Ok rat' /\ rat_ok rat' /\
    forall r fp, reg_index r -> mapping rat' r fp = foldl producers_op m os r fp.
Proof.
  revert rat m. induction os as [|o os IH]; intros rat m Hok Hm Hos; [by exists rat|].
  apply Forall_cons in Hos as [Ho Hos]. cbn [foldM foldl].
  assert (exists rat1, rat_op rat o = Ok rat1 /\ rat_ok rat1 /\
    forall r fp, reg_index r -> mapping rat1 r fp = producers_op m o r fp) as (rat1 & -> & Hok1 & Hm1).
  { destruct o as [r fp t|r fp t|]; cbn [rat_op producers_op].
    - destruct (rat_map_spec rat r fp t Hok Ho) as (rat1 & ? & ? & Hm1). exists rat1.
      split_and!; try done. intros r' fp' Hr'. rewrite Hm1 by done. case_bool_decide; auto.
    - destruct (rat_commit_spec rat r fp t Hok Ho) as (rat1 & ? & ? & Hm1). exists rat1.
      split_and!; try done. intros r' fp' Hr'. rewrite Hm1, (Hm r fp Ho) by done. case_bool_decide; auto.
    - eexists. split; [done|]. split; [apply rat_flush_ok|]. intros. apply mapping_flush. }
  cbn [rbind]. by apply IH.
Qed.

(** C12. The renaming table refines a function from registers to producers:
    after any sequence of dispatches ([map]), commits and flushes on register
    indices no operation has faulted, and a lookup gives the last producer
    that has not committed since; x0 never has one, and a commit does not
    drop the mapping of a younger instruction. *)
Theorem rat_refines_producers os :
  Forall rat_op_ok os ->
  exists rat, foldM rat_op RegisterRemappingTable.flush os = Ok rat /\
    forall r fp, reg_index r ->
      exists e, RegisterRemappingTable.lookup rat r fp = Ok e /\
        (if valid e then Some (rob_tag e) else None) = foldl producers_op (fun _ _ => None) os r fp.
Proof.
  intros Hos.
  destruct (rat_ops_sim os RegisterRemappingTable.flush (fun _ _ => None) rat_flush_ok)
    as (rat & Hrun & Hok & Hm); [intros; apply mapping_flush|done|].
  exists rat. split; [done|]. intros r fp Hr.
  destruct (rat_lookup_spec rat r fp Hok Hr) as (e & He & Hme). exists e.
  split; [done|]. by rewrite <- Hme, Hm.
Qed.

Lemma rat_refines_producers_witness :
  Forall rat_op_ok [RatMap 5 false 3; RatMap 5 false 4; RatCommit 5 false 3] /\
  exists rat, foldM rat_op RegisterRemappingTable.flush
    [RatMap 5 false 3; RatMap 5 false 4; RatCommit 5 false 3] = Ok rat.
Proof.
  assert (H : Forall rat_op_ok [RatMap 5 false 3; RatMap 5 false 4; RatCommit 5 false 3])
    by (repeat constructor; cbn; lia).
  split; [exact H|]. destruct (rat_refines_producers _ H) as (rat & Hr & _). exists rat. exact Hr.
Defined.

(** ** Register file *)

(** A write of the commit unit: register, bank and bits. *)
Record RegWrite : Type := mkRegWrite { rw_reg : Z; rw_fp : bool; rw_bits : Z }.

Definition reg_write (rf : RegisterFile) (w : RegWrite) : res RegisterFile :=
  write_bits rf (rw_reg w) (rw_fp w) (rw_bits w).

Definition reg_spec (m : Z -> bool -> Z) (w : RegWrite) : Z -> bool -> Z := fun r fp =>
  if bool_decide (r = rw_reg w /\ fp = rw_fp w /\ (rw_fp w = true \/ rw_reg w <> 0))
  then rw_bits w else m r fp.

Lemma reg_writes_sim ws rf m :
  rf_ok rf -> (forall r fp, reg_index r -> read_bits rf r fp = Ok (m r fp)) ->
  Forall (fun w => reg_index (rw_reg w) /\ is_u32 (rw_bits w)) ws ->
  exists rf', foldM reg_write rf ws = Ok rf' /\ rf_ok rf' /\
    forall r fp, reg_index r -> read_bits rf' r fp = Ok (foldl reg_spec m ws r fp).
Proof.
  revert rf m. induction ws as [|w ws IH]; intros rf m Hok Hm Hws; [by exists rf|].
  apply Forall_cons in Hws as [[Hr Hu] Hws]. cbn [foldM foldl].
  destruct (write_bits_spec rf (rw_reg w) (rw_fp w) (rw_bits w) Hok Hr Hu) as (rf1 & Hw & Hok1 & Hrd).
  unfold reg_write at 1. rewrite Hw. cbn [rbind]. apply IH; [done| |done].
  intros r fp Hidx. rewrite Hrd by done. unfold reg_spec. case_bool_decide; auto.
Qed.

(** C14. The register file refines a pair of 32-word banks: after any sequence
    of writes of words to register indices a read returns the bits last
    written, through [int32_t] and [float] alike, and x0 stays 0. *)
Theorem regfile_refines_banks ws :
  Forall (fun w => reg_index (rw_reg w) /\ is_u32 (rw_bits w)) ws ->
  exists rf, foldM reg_write RegisterFile.init ws = Ok rf /\
    (forall r fp, reg_index r -> read_bits rf r fp = Ok (foldl reg_spec (fun _ _ => 0) ws r fp)) /\
    read_bits rf 0 false = Ok 0.
Proof.
  intros Hws. destruct (reg_writes_sim ws RegisterFile.init (fun _ _ => 0) rf_init_ok)
    as (rf & Hrun & Hok & Hrd); [|done|].
  - intros r fp Hr. unfold reg_index in Hr. unfold read_bits, read_fp, read_int.
    destruct fp; rewrite require_index by done; cbn [rbind].
    + assert (vec_get (fp_regs_ RegisterFile.init) r = Ok (F32 0)) as ->; [|done].
      apply vec_get_Ok. split; [lia|]. apply lookup_replicate_2. unfold NUM_FP_REGS. lia.
    + assert (vec_get (int_regs_ RegisterFile.init) r = Ok 0) as ->; [|done].
      apply vec_get_Ok. split; [lia|]. apply lookup_replicate_2. unfold NUM_INT_REGS. lia.
  - exists rf. split; [done|]. split; [done|]. rewrite Hrd by (unfold reg_index; lia). f_equal.
    clear. assert (H : forall m : Z -> bool -> Z, m 0 false = 0 -> foldl reg_spec m ws 0 false = 0).
    { induction ws as [|w ws IH]; intros m Hm; [done|]. cbn [foldl]. apply IH.
      unfold reg_spec. rewrite bool_decide_eq_false_2; [done|]. intros (E & Hf & [?|?]); congruence. }
    by apply H.
Qed.

Lemma regfile_refines_banks_witness :
  exists rf, foldM reg_write RegisterFile.init
    [mkRegWrite 3 false (2 ^ 32 - 1); mkRegWrite 0 false 9; mkRegWrite 3 true 5] = Ok rf /\
    read_bits rf 0 false = Ok 0.
Proof.
  assert (H : Forall (fun w => reg_index (rw_reg w) /\ is_u32 (rw_bits w))
    [mkRegWrite 3 false (2 ^ 32 - 1); mkRegWrite 0 false 9; mkRegWrite 3 true 5])
    by (repeat constructor; cbn; lia).
  destruct (regfile_refines_banks _ H) as (rf & Hrun & _ & H0). exists rf. exact (conj Hrun H0).
Defined.

(** ** Operand resolution *)

(** Operand resolution at dispatch, in all its cases: no operand; the
    register file when no instruction in flight writes the register; the
    result when its producer is done; the producer's tag, with the slot's old
    value left in place, while the producer executes. *)
Theorem resolve_operand_cases r fp rat rf rob old :
  rat_ok rat -> rf_ok rf -> -1 <= r < 32 ->
  match (if r <? 0 then None else mapping rat r fp) with
  | None => exists v, resolve_operand r fp rat rf rob old = Ok (v, -1) /\
      (if r <? 0 then v = 0 else read_bits rf r fp = Ok v)
  | Some t => forall e, ReorderBuffer.peek rob t = Ok e ->
      resolve_operand r fp rat rf rob old =
        Ok (if bool_decide (ReorderBuffer.re_state e = ReorderBuffer.DONE)
            then (ReorderBuffer.re_result e, -1) else (old, t))
  end.
Proof.
  intros Hrat Hrf Hr. unfold resolve_operand. destruct (Z.ltb_spec r 0) as [Hneg|Hge]; [by exists 0|].
  assert (Hidx : reg_index r) by (unfold reg_index; lia).
  destruct (rat_lookup_spec rat r fp Hrat Hidx) as (re & -> & ->). cbn [rbind].
  destruct (valid re); cbn [negb].
  - intros e ->. cbn [rbind]. by case_bool_decide.
  - destruct (read_bits_total rf r fp Hrf Hidx) as (v & Hv). exists v. split; [|done].
    unfold read_bits in Hv. destruct fp; apply rbind_Ok in Hv as (x & -> & Hx); cbn; congruence.
Qed.

Lemma resolve_operand_cases_witness :
  rat_ok RegisterRemappingTable.flush /\ rf_ok RegisterFile.init /\
  exists v, forall rob, resolve_operand 5 false RegisterRemappingTable.flush RegisterFile.init rob 99
    = Ok (v, -1).
Proof.
  split; [exact rat_flush_ok|]. split; [exact rf_init_ok|]. exists 0. intros rob.
  destruct (resolve_operand_cases 5 false RegisterRemappingTable.flush RegisterFile.init rob 99
    rat_flush_ok rf_init_ok ltac:(lia)) as (v & Hv & Hrd).
  vm_compute in Hrd. injection Hrd as <-. exact Hv.
Defined.
