(* ===== verification/DatapathProperties.v ===== *)
(** * Correctness of the stations, the load/store buffer, the bus and fetch *)

From S2P Require Import Prelude Words Ring Config Float32 Instruction.
From S2P Require Import RegisterFile RegisterRemappingTable ReorderBuffer.
From S2P Require Import CommonDataBus BufferStation DispatchUtils.
From S2P Require Import ReservationStation LoadStoreBuffer InstructionQueue.
From S2P Require Import Simulator ISA Execute StationFacts StationInvariant LSBFacts Broadcast.

(** ** Reservation stations *)

Section Stations.
Context `{FE : FPEnv}.

(** C15. The invariant of a station, over every sequence of issue, snoop, tick,
    pop and flush: the array has [n] slots, and [full] and [empty] say exactly
    that all or none of them are busy. Of each operation that is not pipelined
    at most one entry counts down, and a ready entry of it waits, unchanged,
    while another still has cycles left; operations are told apart by opcode.
    An operation of one cycle never waits: every ready entry of it is done with
    the next tick, so two branches, whose unit is not pipelined, execute in the
    same cycle. *)
Theorem station_invariant n s :
  0 <= n -> station_reach n s ->
  len (ReservationStation.entries_ s) = n /\
  (ReservationStation.full s = true <->
     Forall (fun e => se_busy e = true) (ReservationStation.entries_ s)) /\
  (ReservationStation.empty s = true <->
     Forall (fun e => se_busy e = false) (ReservationStation.entries_ s)) /\
  exclusive (ReservationStation.entries_ s) /\
  (forall j j' e e', ReservationStation.entries_ s !! j = Some e ->
     ReservationStation.entries_ s !! j' = Some e' -> ready e = true ->
     executing (countdown e') = true -> se_op e' = se_op e -> is_pipelined (se_op e) = false ->
     ReservationStation.entries_ (ReservationStation.tick s) !! j = Some e) /\
  (forall j e, ReservationStation.entries_ s !! j = Some e -> ready e = true ->
     latency_of (se_op e) = 1 ->
     ReservationStation.entries_ (ReservationStation.tick s) !! j =
       Some (ReservationStation.set_done e (execute_op e))).
Proof.
  intros Hn Hr. destruct (reach_safe n s Hn Hr) as [[Hs Hl Hc] Hsz Ht Hx].
  unfold ReservationStation.full, ReservationStation.empty. rewrite !Z.eqb_eq, Hc, Hsz.
  rewrite <- busy_count_full, <- busy_count_zero. rewrite Hsz in Hl. split_and!; try done.
  - lia.
  - intros j j' e e'. apply unit_taken_waits.
  - intros j e. by apply one_cycle_tick.
Qed.

(** [issue] answers [false] and changes nothing exactly when the station is
    full; otherwise it fills the first free slot and no other. *)
Theorem issue_fills_first_free n s instr tag rat rf rob r s' :
  0 <= n -> station_reach n s -> ReservationStation.issue s instr tag rat rf rob = Ok (r, s') ->
  (r = false <-> ReservationStation.full s = true) /\
  (r = false -> s' = s) /\
  (r = true -> exists j e e', ReservationStation.entries_ s !! j = Some e /\ se_busy e = false /\
     Forall (fun e => se_busy e = true) (take j (ReservationStation.entries_ s)) /\
     ReservationStation.entries_ s' = <[j := e']> (ReservationStation.entries_ s) /\
     se_busy e' = true /\ se_op e' = op instr /\ se_rob_tag e' = tag /\ se_done e' = false).
Proof.
  intros Hn Hreach Hi. destruct (reach_safe n s Hn Hreach) as [[Hs Hl Hc] _ _ _].
  unfold ReservationStation.full. rewrite Z.eqb_eq, Hc.
  apply issue_outcome in Hi as [(-> & -> & Hall)|(-> & j & e & e' & Hj & Hb & Ht & He & ->)].
  - apply busy_count_full in Hall. split_and!; try done. split; [lia|done].
  - split_and!; try done.
    + split; [done|]. intros E. rewrite <- Hl in E. apply busy_count_full in E.
      pose proof (Forall_lookup_1 _ _ _ _ E Hj) as Hbj. cbn in Hbj. congruence.
    + intros _. exists j, e, e'. cbn. unfold ReservationStation.issue_entry in He. inv_res.
      split_and!; done.
Qed.

(** C17. Latency. A ready entry finishes after exactly [latency_of] ticks, with
    the value of its operation, when the operation is pipelined, whatever else
    the station does, or when no other entry has the same operation. Entries of
    one pipelined operation that become ready together start together and
    finish together: the unit takes any number of operations per tick. *)
Theorem exact_latency s j e :
  ReservationStation.entries_ s !! j = Some e -> se_busy e = true -> se_done e = false ->
  se_qj e = -1 -> se_qk e = -1 -> se_cycles_rem e = 0 -> unit_free s j (se_op e) ->
  let lat := Z.to_nat (latency_of (se_op e)) in
  (forall k, (k < lat)%nat ->
     exists e', ReservationStation.entries_ (tick_n k s) !! j = Some e' /\ se_done e' = false) /\
  exists e', ReservationStation.entries_ (tick_n lat s) !! j = Some e' /\ se_done e' = true /\
    se_result e' = execute_op e /\ se_rob_tag e' = se_rob_tag e.
Proof. apply latency_lemma. Qed.

(** Listening. A waiting operand whose tag is on the bus takes the value of
    the first such result and stops waiting; every other field, and every
    entry that is free or finished, stays as it is. *)
Theorem snoop_captures s c j e :
  tags_ok (results c) -> ReservationStation.entries_ s !! j = Some e ->
  let seen v q := match List.find (fun r => cdb_tag r =? q) (results c) with
                  | Some r => (cdb_value r, -1) | None => (v, q) end in
  ReservationStation.entries_ (ReservationStation.snoop s c) !! j = Some
    (if negb (se_busy e) || se_done e then e
     else ReservationStation.set_operands e (seen (se_vj e) (se_qj e)) (seen (se_vk e) (se_qk e))).
Proof.
  intros Hok Hj seen. rewrite snoop_lookup, Hj. cbn. by rewrite !capture_find.
Qed.


End Stations.

(** ** Load/store buffer *)

(** What a load meets in pass 3: the queue after the address passes. *)
Definition addressed (b : LoadStoreBuffer) : list LSBEntry := pass2 <$> (pass1 <$> queue b).

(** C20. Loads read the right place. In one tick a load with its address stays
    where it is while an older store has no address, or the load's address and
    no data; else it takes the data of the youngest older store to its
    address; else, with no such store, the word of the memory (0 outside). This
    holds for every load of the buffer, so any number of them finish in one
    tick: the buffer does not model a single memory port. *)
Theorem load_reads_youngest_store b m b' i e :
  lsb_ring b -> Forall addr_range (queue b) -> LoadStoreBuffer.tick b m = Ok b' ->
  addressed b !! i = Some e -> le_state e = ADDR_READY -> is_load (le_op e) = true ->
  exists e', queue b' !! i = Some e' /\ le_rob_tag e' = le_rob_tag e /\
    if existsb (blocker (le_eff_addr e)) (take i (addressed b)) then e' = e
    else le_state e' = DONE /\
      ((exists k st, (k < i)%nat /\ addressed b !! k = Some st /\
          forwards (le_eff_addr e) st = true /\ le_result e' = le_vk st /\
          Forall (fun x => forwards (le_eff_addr e) x = false)
            (drop (S k) (take i (addressed b)))) \/
       (Forall (fun x => forwards (le_eff_addr e) x = false) (take i (addressed b)) /\
          le_result e' = read_word m (le_eff_addr e))).
Proof.
  intros Hr Ha Ht He Hs Hl. destruct (lsb_tick_spec b m Hr Ha) as (b1 & Ht1 & _ & _ & _ & _ & _ & Hq).
  rewrite Ht in Ht1. injection Ht1 as <-. fold (addressed b) in Hq.
  assert (Hi : queue b' !! i = Some (finish_load m (start_load (addressed b) m i e))).
  { rewrite Hq. unfold tick_queue. fold (addressed b).
    by rewrite list_lookup_fmap, list_lookup_imap, He. }
  eexists. split; [exact Hi|]. unfold start_load. rewrite Hs, Hl. cbn [negb orb bool_decide].
  rewrite bool_decide_eq_true_2 by done. cbn [negb orb].
  pose proof (scan_blocked (le_eff_addr e) (take i (addressed b)) 0 (-1)) as Hb.
  destruct (scan _ _ _ _) as [blocked fwd] eqn:Hscan. cbn [fst] in Hb. rewrite <- Hb.
  destruct blocked.
  { unfold finish_load. rewrite Hs. rewrite bool_decide_eq_false_2 by done. done. }
  destruct (Z.leb_spec 0 fwd) as [Hf|Hf];
    apply scan_forwards in Hscan as [[-> Hall]|(k & st & Hk & -> & Hfw & Hall)]; try lia.
  - assert (Hki : (k < i)%nat).
    { apply lookup_lt_Some in Hk. rewrite length_take in Hk. lia. }
    rewrite lookup_take_lt in Hk by done. rewrite Z.add_0_l, Nat2Z.id, Hk.
    split; [done|]. split; [done|]. left. exists k, st. done.
  - assert (latency_of (le_op e) = 2) as -> by (destruct (le_op e); done).
    split; [done|]. split; [done|]. right. done.
Qed.

(** A load that meets no store takes one tick, from its operand to its
    result, although its latency is configured as two cycles. *)
Theorem lone_load_one_tick b m b' e :
  lsb_ring b -> queue b = [e] -> LoadStoreBuffer.tick b m = Ok b' ->
  is_load (le_op e) = true -> le_state e = WAITING -> le_qj e = -1 ->
  latency_of (le_op e) = 2 /\
  LoadStoreBuffer.has_load_result b' = Ok true /\
  exists e', queue b' = [e'] /\
    le_result e' = read_word m ((le_vj e + le_imm e) mod 2 ^ 32).
Proof.
  intros Hr Hq Ht Hl Hs Hqj.
  destruct (lsb_tick_spec b m Hr) as (b1 & Ht1 & Hr1 & _ & _ & _ & _ & Hq1).
  { rewrite Hq. apply Forall_singleton. intros Hw. congruence. }
  rewrite Ht in Ht1. injection Ht1 as <-.
  assert (Hlat : latency_of (le_op e) = 2) by (destruct (le_op e); done). split; [done|].
  rewrite has_load_result_spec by done. rewrite Hq1, Hq. unfold tick_queue. cbn [fmap list_fmap imap].
  assert (He1 : pass1 e = set_addr e ((le_vj e + le_imm e) mod 2 ^ 32)).
  { unfold pass1. by rewrite Hs, Hqj, add32_imm. }
  rewrite He1. set (e1 := set_addr e _).
  assert (He2 : pass2 e1 = e1).
  { unfold pass2. cbn. apply load_is_not_store in Hl. by rewrite Hl. }
  assert (Hs1 : start_load [e1] m 0 e1 = set_state (set_cycles e1 (2 - 1)) EXECUTING).
  { unfold start_load. rewrite bool_decide_eq_true_2 by done.
    change (is_load (le_op e1)) with (is_load (le_op e)). rewrite Hl. cbn [negb orb take scan Z.leb].
    change (latency_of (le_op e1)) with (latency_of (le_op e)). by rewrite Hlat. }
  assert (Hf : finish_load m (set_state (set_cycles e1 (2 - 1)) EXECUTING) =
    set_result (set_cycles (set_state (set_cycles e1 (2 - 1)) EXECUTING) 0)
      (read_word m ((le_vj e + le_imm e) mod 2 ^ 32))).
  { unfold finish_load. rewrite bool_decide_eq_true_2 by done. done. }
  rewrite He2, Hs1, Hf. split; [|by eexists]. cbn [head_done le_state set_result].
  rewrite bool_decide_eq_true_2 by done. by rewrite andb_true_l, <- Hl.
Qed.

(** C8. Stores reach memory in order. For every buffer that is a ring of entries
    with unsigned addresses, [commit_store] takes the oldest access and no other: when it is a finished store, its data is written to
    the word of its address if the memory has that word and dropped otherwise,
    no other word changes, and the store is removed; when it is a load or not
    finished, or nothing is there, it is an assertion failure. *)
Theorem store_commits_from_head b m :
  lsb_ring b -> Forall addr_range (queue b) ->
  match queue b with
  | h :: q =>
      if bool_decide (le_state h = DONE) && is_store (le_op h)
      then exists b', LoadStoreBuffer.commit_store b m =
             Ok (b', if Z.shiftr (le_eff_addr h) 2 <? len m
                     then <[Z.to_nat (Z.shiftr (le_eff_addr h) 2) := le_vk h]> m else m) /\
             queue b' = q /\ lsb_ring b'
      else LoadStoreBuffer.commit_store b m = Stop (AssertionFailed "LoadStoreBuffer::commit_store")
  | [] => LoadStoreBuffer.commit_store b m = Stop (AssertionFailed "LoadStoreBuffer::commit_store")
  end.
Proof.
  intros Hr Ha. pose proof (can_commit_store_spec b Hr) as Hcan.
  destruct (queue b) as [|h q] eqn:Hq.
  - unfold LoadStoreBuffer.commit_store. by rewrite Hcan.
  - cbn [head_done] in Hcan. destruct (bool_decide (le_state h = DONE) && is_store (le_op h)) eqn:E.
    + destruct (commit_store_spec b m Hr) as (h' & b' & Hq' & _ & _ & Hc & Hr' & _).
      * by rewrite Hq.
      * by rewrite Hq.
      * rewrite Hq in Hq'. injection Hq' as <- Hqq. exists b'. done.
    + unfold LoadStoreBuffer.commit_store. by rewrite Hcan.
Qed.

(** ** Delay line *)

(** An idle [BufferStation] of depth [d] returns an accepted value after
    exactly [d] ticks: not before, and then with its tag. *)
Theorem delay_line_exact d pip b tag v b1 :
  1 <= d -> BufferStation.create d pip = Ok b -> BufferStation.accept b tag v = Ok (true, b1) ->
  (forall n, (n < Z.to_nat d)%nat ->
     exists b2, ticks n b1 = Ok b2 /\ BufferStation.has_output b2 = Ok false) /\
  exists b2 b3, ticks (Z.to_nat d) b1 = Ok b2 /\
    BufferStation.pop_output b2 = Ok (mkBufSlot true tag v, b3).
Proof.
  intros Hd Hc Hacc. destruct (bs_create_ok d pip Hd) as (b0 & Hc0 & Hok & _).
  rewrite Hc in Hc0. injection Hc0 as <-.
  assert (Hb : b = mkBufferStation d pip (replicate (Z.to_nat (d + 1)) default_slot)).
  { unfold BufferStation.create in Hc. apply rbind_Ok in Hc as (u & _ & Hc). by injection Hc. }
  destruct (bs_accept_output b tag v b1 Hok Hacc) as (b2 & Hb2 & _ & b3 & Hpop).
  replace (depth_ b) with d in Hb2 by (by rewrite Hb). split; [|by exists b2, b3].
  assert (Hb1 : b1 = mkBufferStation d pip
    (mkBufSlot true tag v :: replicate (Z.to_nat d) default_slot)).
  { revert Hacc. rewrite Hb. replace (Z.to_nat (d + 1)) with (S (Z.to_nat d)) by lia.
    unfold BufferStation.accept. cbn [replicate pipelined_]. destruct (negb pip && _); [done|].
    cbn [stages_]. unfold vec_get. cbn. unfold vec_set.
    rewrite (proj2 (Z.ltb_lt 0 _)) by (cbn; lia). cbn. intros E. by injection E as <-. }
  assert (Hok1 : bs_ok b1).
  { rewrite Hb1. constructor; cbn [depth_ stages_]; [done|]. cbn. rewrite length_replicate. lia. }
  intros n Hn. destruct (bs_ticks_spec n b1 Hok1) as (x & Hx & [_ Hlx] & Hdx & Hk).
  { rewrite Hb1. cbn. lia. }
  exists x. split; [done|]. unfold BufferStation.has_output.
  assert (vec_get (stages_ x) (depth_ x) = Ok default_slot) as ->; [|done].
  rewrite Hdx, Hb1 in *. cbn [depth_ stages_] in *. apply vec_get_Ok. split; [lia|].
  specialize (Hk (Z.to_nat d - n)%nat). replace (n + (Z.to_nat d - n))%nat with (Z.to_nat d) in Hk by lia.
  rewrite Hk by (cbn; rewrite length_replicate; lia).
  destruct (Z.to_nat d - n)%nat as [|j] eqn:Ej; [lia|]. cbn. apply lookup_replicate_2. lia.
Qed.

(** ** Fetch *)

(** The operations of the fetch buffer. *)
Inductive fetch_step : InstructionQueue -> InstructionQueue -> Prop :=
| step_fetch q q' : InstructionQueue.tick q = Ok q' -> fetch_step q q'
| step_dispatch q i q' : InstructionQueue.dispatch q = Ok (i, q') -> fetch_step q q'
| step_seek q a : 0 <= a -> fetch_step q (InstructionQueue.seek q a).

Inductive fetch_reach (prog : list Instruction) : InstructionQueue -> Prop :=
| fetch_start q : InstructionQueue.create IQ_CAPACITY = Ok q ->
    fetch_reach prog (InstructionQueue.load_program q prog)
| fetch_next q q' : fetch_reach prog q -> fetch_step q q' -> fetch_reach prog q'.

Lemma fetch_reach_window prog q :
  fetch_reach prog q -> program_ q = stamp prog /\ capacity_ q = IQ_CAPACITY /\ exists k, window q k.
Proof.
  induction 1 as [q Hc|q q' _ (Hp & Hcap & k & Hw) Hs].
  - unfold InstructionQueue.create in Hc. apply rbind_Ok in Hc as (u & _ & Hc). injection Hc as <-.
    split; [done|]. split; [done|]. exists 0%nat. by constructor.
  - destruct Hs as [q q' Ht|q i q' Hd|q a Ha].
    + destruct (window_fetch (Z.to_nat IQ_FETCH_WIDTH) q k Hw) as (q1 & Hq1 & Hw1 & Hp1 & Hcap1 & _).
      unfold InstructionQueue.tick in Ht. rewrite Ht in Hq1. injection Hq1 as <-.
      split; [congruence|]. split; [congruence|]. by exists k.
    + destruct (InstructionQueue.can_dispatch q) eqn:Hcan;
        [|unfold InstructionQueue.dispatch in Hd; by rewrite Hcan in Hd].
      pose proof Hd as Hd'. unfold InstructionQueue.dispatch in Hd'. inv_res.
      destruct (window_dispatch q k Hw Hcan) as (i1 & q1 & _ & Hd1 & _ & Hw1).
      rewrite Hd in Hd1. injection Hd1 as _ <-.
      split; [done|]. split; [done|]. by exists (S k).
    + split; [done|]. split; [done|]. exists (Z.to_nat (a / 4)). apply window_seek; [done|].
      by rewrite Hcap.
Qed.

(** C24. Fetch delivers the program in order: after any sequence of fetches,
    dispatches and redirections the buffer is within its capacity and a
    stretch of the program ending at the fetch pointer; what is dispatched is
    the instruction at the front of that stretch, stamped with its byte
    address. *)
Theorem fetch_in_order prog q :
  len prog < 2 ^ 30 -> fetch_reach prog q ->
  len (buffer_ q) <= IQ_CAPACITY /\
  exists k : nat, pc_ q = Z.of_nat k + len (buffer_ q) /\
    buffer_ q = take (length (buffer_ q)) (drop k (stamp prog)) /\
    forall i q', InstructionQueue.dispatch q = Ok (i, q') ->
      stamp prog !! k = Some i /\ pc i = 4 * Z.of_nat k.
Proof.
  intros Hlen Hr. destruct (fetch_reach_window prog q Hr) as (Hp & Hcap & k & Hw).
  pose proof Hw as [Hb Hpc Hc]. rewrite Hp in Hb. rewrite Hcap in Hc. split; [done|].
  exists k. split; [done|]. split; [done|]. intros i q' Hd.
  destruct (InstructionQueue.can_dispatch q) eqn:Hcan;
    [|unfold InstructionQueue.dispatch in Hd; by rewrite Hcan in Hd].
  destruct (window_dispatch q k Hw Hcan) as (i1 & q1 & _ & Hd1 & Hi & _).
  rewrite Hd in Hd1. injection Hd1 as <- _. rewrite Hp in Hi. split; [done|].
  unfold stamp in Hi. rewrite list_lookup_imap in Hi. destruct (prog !! k) eqn:E; [|done].
  injection Hi as <-. apply lookup_lt_Some in E. cbn. rewrite u32_id; [lia|]. unfold is_u32. lia.
Qed.

(** ** Floating-point words *)

(** Words and binary32 values: except for NaN payloads, the value of a word
    determines it, so no register transfer, store or load between the integer
    and float views loses information; and a value the format represents
    exactly is the value of its word. *)
Lemma float_words_roundtrip :
  (forall nan f, is_u32 (float_to_bits f) -> value f <> SpecFloat.S754_nan ->
     of_value nan (value f) = f) /\
  (forall nan x, SpecFloat.valid_binary prec32 emax32 x = true -> x <> SpecFloat.S754_nan ->
     value (bits_to_float (float_to_bits (of_value nan x))) = x).
Proof. split; [apply of_value_value|apply value_of_value]. Qed.

(** ** Witnesses *)

Definition fdiv_instr (d : Z) : Instruction := mkInstruction FDIV_S d 1 2 0 true true true 0.

Definition no_rob : ReorderBuffer := ReorderBuffer.mkReorderBuffer 1 0 0 0 [].

(** [issue] of an instruction whose operands are in the register file. *)
Definition issue_ready (s : ReservationStation) (i : Instruction) (t : Z)
  : res (bool * ReservationStation) :=
  ReservationStation.issue s i t RegisterRemappingTable.flush RegisterFile.init no_rob.

(** A station of two slots with two divisions, one of them executing. *)
Definition two_divisions : ReservationStation :=
  match issue_ready (ReservationStation.create 2) (fdiv_instr 3) 0 with
  | Ok (_, s) => match issue_ready s (fdiv_instr 4) 1 with
                 | Ok (_, s') => ReservationStation.tick (FE := x86_fp) s'
                 | Stop _ => s
                 end
  | Stop _ => ReservationStation.create 2
  end.

Lemma two_divisions_reach : station_reach (FE := x86_fp) 2 two_divisions.
Proof.
  unfold two_divisions. destruct (issue_ready _ (fdiv_instr 3) 0) as [[r s]|f] eqn:E1; [|constructor].
  destruct (issue_ready s (fdiv_instr 4) 1) as [[r' s']|f] eqn:E2.
  - eapply reach_step; [|apply step_tick]. eapply reach_step; [|eapply step_issue, E2].
    eapply reach_step; [|eapply step_issue, E1]. constructor.
  - eapply reach_step; [|eapply step_issue, E1]. constructor.
Qed.

(** Two branches with their operands. *)
Definition beq_instr : Instruction := mkInstruction BEQ (-1) 1 2 8 false false false 0.

Definition two_branches : ReservationStation :=
  match issue_ready (ReservationStation.create 2) beq_instr 0 with
  | Ok (_, s) => match issue_ready s beq_instr 1 with Ok (_, s') => s' | Stop _ => s end
  | Stop _ => ReservationStation.create 2
  end.

Lemma two_branches_reach : station_reach (FE := x86_fp) 2 two_branches.
Proof.
  unfold two_branches. destruct (issue_ready _ beq_instr 0) as [[r s]|f] eqn:E1; [|constructor].
  destruct (issue_ready s beq_instr 1) as [[r' s']|f] eqn:E2.
  - eapply reach_step; [|eapply step_issue, E2]. eapply reach_step; [|eapply step_issue, E1]. constructor.
  - eapply reach_step; [|eapply step_issue, E1]. constructor.
Qed.

Lemma station_invariant_witness :
  0 <= 2 /\ station_reach (FE := x86_fp) 2 two_divisions /\ station_reach (FE := x86_fp) 2 two_branches /\
  len (ReservationStation.entries_ two_divisions) = 2 /\
  Forall (fun e => se_busy e = true) (ReservationStation.entries_ two_divisions) /\
  exists e e', ReservationStation.entries_ two_branches = [e; e'] /\
    ReservationStation.entries_ (ReservationStation.tick (FE := x86_fp) two_branches) !! 0%nat =
      Some (ReservationStation.set_done e (execute_op (FE := x86_fp) e)) /\
    ReservationStation.entries_ (ReservationStation.tick (FE := x86_fp) two_branches) !! 1%nat =
      Some (ReservationStation.set_done e' (execute_op (FE := x86_fp) e')).
Proof.
  assert (H2 : 0 <= 2) by lia.
  assert (Hf : ReservationStation.full two_divisions = true) by (vm_compute; reflexivity).
  destruct (station_invariant (FE := x86_fp) 2 two_divisions H2 two_divisions_reach) as (Hl & Hfull & _).
  destruct (station_invariant (FE := x86_fp) 2 two_branches H2 two_branches_reach) as (_ & _ & _ & _ & _ & H1).
  split; [exact H2|]. split; [exact two_divisions_reach|]. split; [exact two_branches_reach|].
  split; [exact Hl|]. split; [exact (proj1 Hfull Hf)|].
  eexists _, _. split; [vm_compute; reflexivity|]. split; [apply H1|apply H1]; vm_compute; reflexivity.
Defined.

Lemma issue_fills_first_free_witness :
  issue_ready two_divisions (fdiv_instr 5) 2 = Ok (false, two_divisions) /\
  ReservationStation.full two_divisions = true.
Proof.
  assert (H2 : 0 <= 2) by lia.
  assert (Hi : issue_ready two_divisions (fdiv_instr 5) 2 = Ok (false, two_divisions))
    by (vm_compute; reflexivity).
  split; [exact Hi|].
  exact (proj1 (proj1 (issue_fills_first_free 2 two_divisions (fdiv_instr 5) 2 RegisterRemappingTable.flush
    RegisterFile.init no_rob false two_divisions
    H2 two_divisions_reach Hi)) eq_refl).
Defined.

(** A division with its operands, next to another operation. *)
Definition ready_fdiv : RSEntry :=
  mkRSEntry true FDIV_S 3 (2 ^ 30) (2 ^ 30) (-1) (-1) 0 true false 0 0 0.
Definition ready_fadd : RSEntry :=
  mkRSEntry true FADD_S 4 (2 ^ 30) (2 ^ 30) (-1) (-1) 0 true false 0 0 0.
Definition one_fdiv : ReservationStation :=
  ReservationStation.mkReservationStation 2 2 [ready_fadd; ready_fdiv].

Lemma exact_latency_witness :
  unit_free one_fdiv 1 FDIV_S /\
  exists e', ReservationStation.entries_ (tick_n (FE := x86_fp) 8 one_fdiv) !! 1%nat = Some e' /\
    se_done e' = true /\ se_result e' = execute_op (FE := x86_fp) ready_fdiv.
Proof.
  assert (Hf : unit_free one_fdiv 1 FDIV_S).
  { right. intros [|[|j']] e' Hne Hj; [injection Hj as <-; discriminate|done|discriminate Hj]. }
  split; [exact Hf|].
  destruct (exact_latency (FE := x86_fp) one_fdiv 1 ready_fdiv eq_refl eq_refl eq_refl eq_refl
    eq_refl eq_refl Hf) as (_ & e' & He & Hd & Hr & _).
  exists e'. exact (conj He (conj Hd Hr)).
Defined.

Definition waiting_fadd : RSEntry :=
  mkRSEntry true FADD_S 3 (2 ^ 30) 0 (-1) 2 0 true false 0 0 0.

Lemma snoop_captures_witness :
  ReservationStation.entries_ (ReservationStation.snoop
    (ReservationStation.mkReservationStation 1 1 [waiting_fadd])
    (mkCommonDataBus [mkCDBResult 1 5; mkCDBResult 2 6; mkCDBResult 2 7])) !! 0%nat =
  Some (ReservationStation.set_operands waiting_fadd (2 ^ 30, -1) (6, -1)).
Proof.
  refine (snoop_captures _ _ 0 waiting_fadd _ _); [repeat constructor; cbn; lia|reflexivity].
Defined.

(** A store of 9 to word 1, without address yet, in front of a load of it. *)
Definition store_entry : LSBEntry := mkLSBEntry WAITING SW 0 4 9 (-1) (-1) 0 false 0 0 0 0.
Definition load_entry : LSBEntry := mkLSBEntry WAITING LW 1 0 0 (-1) (-1) 4 false 0 0 0 4.

Definition store_then_load : LoadStoreBuffer :=
  mkLoadStoreBuffer 4 3 1 2 [load_entry; LoadStoreBuffer.default_entry;
                             LoadStoreBuffer.default_entry; store_entry].


Lemma load_reads_youngest_store_witness :
  exists b' e', LoadStoreBuffer.tick store_then_load [0; 1] = Ok b' /\
    queue b' !! 1%nat = Some e' /\ le_rob_tag e' = 1 /\ le_state e' = DONE.
Proof.
  assert (Hr : lsb_ring store_then_load) by (constructor; cbn; first [lia | reflexivity]).
  assert (Ha : Forall addr_range (queue store_then_load))
    by (repeat constructor; intros H; exfalso; apply H; reflexivity).
  destruct (LoadStoreBuffer.tick store_then_load [0; 1]) as [b'|f] eqn:E; [|discriminate E].
  destruct (load_reads_youngest_store store_then_load [0; 1] b' 1 (set_addr load_entry 4)
    Hr Ha E eq_refl eq_refl eq_refl) as (e' & He & Ht & H).
  exists b', e'. split; [reflexivity|]. split; [exact He|]. split; [exact Ht|]. exact (proj1 H).
Defined.

Lemma lone_load_one_tick_witness :
  exists b', LoadStoreBuffer.tick (mkLoadStoreBuffer 2 1 0 1 [LoadStoreBuffer.default_entry; load_entry])
      [0; 7] = Ok b' /\
    LoadStoreBuffer.has_load_result b' = Ok true /\
    exists e', queue b' = [e'] /\ le_result e' = 7.
Proof.
  set (b := mkLoadStoreBuffer 2 1 0 1 [LoadStoreBuffer.default_entry; load_entry]).
  assert (Hr : lsb_ring b) by (constructor; cbn; first [lia | reflexivity]).
  destruct (LoadStoreBuffer.tick b [0; 7]) as [b'|f] eqn:E; [|discriminate E].
  destruct (lone_load_one_tick b [0; 7] b' load_entry Hr eq_refl E eq_refl eq_refl eq_refl)
    as (_ & H1 & H2).
  exists b'. exact (conj eq_refl (conj H1 H2)).
Defined.

Definition done_store : LoadStoreBuffer :=
  mkLoadStoreBuffer 2 1 0 1
    [LoadStoreBuffer.default_entry; mkLSBEntry DONE SW 0 4 9 (-1) (-1) 0 false 4 0 0 0].

Lemma store_commits_from_head_witness :
  exists b', LoadStoreBuffer.commit_store done_store [0; 7; 8] = Ok (b', [0; 9; 8]) /\ queue b' = [].
Proof.
  assert (Hr : lsb_ring done_store) by (constructor; cbn; first [lia | reflexivity]).
  assert (Ha : Forall addr_range (queue done_store)).
  { apply Forall_cons_2; [intros _; vm_compute; discriminate|apply Forall_nil_2]. }
  destruct (store_commits_from_head done_store [0; 7; 8] Hr Ha) as (b' & Hc & Hq & _).
  exists b'. exact (conj Hc Hq).
Defined.

Lemma delay_line_exact_witness :
  exists b b1 b2 b3, BufferStation.create 3 true = Ok b /\ BufferStation.accept b 4 11 = Ok (true, b1) /\
    ticks 3 b1 = Ok b2 /\ BufferStation.pop_output b2 = Ok (mkBufSlot true 4 11, b3).
Proof.
  assert (H1 : 1 <= 3) by lia.
  destruct (BufferStation.create 3 true) as [b|f] eqn:Ec; [|discriminate Ec].
  destruct (BufferStation.accept b 4 11) as [[r b1]|f] eqn:Ea;
    injection Ec as <-; [|discriminate Ea]. injection Ea as <- <-.
  destruct (delay_line_exact 3 true _ 4 11 _ H1 eq_refl eq_refl) as (_ & b2 & b3 & Ht & Hp).
  eexists _, _, b2, b3. exact (conj eq_refl (conj eq_refl (conj Ht Hp))).
Defined.

Definition three_nops : list Instruction := replicate 3 default_instruction.

(** The buffer after two fetches and one dispatch. *)
Definition one_left : InstructionQueue :=
  mkInstructionQueue IQ_CAPACITY (stamp three_nops) 2 [set_pc default_instruction 4].

Lemma one_left_reach : fetch_reach three_nops one_left.
Proof.
  eapply fetch_next; [eapply fetch_next; [eapply fetch_next; [eapply fetch_start; reflexivity|]|]|].
  - eapply step_fetch. vm_compute. reflexivity.
  - eapply step_fetch. vm_compute. reflexivity.
  - eapply step_dispatch. vm_compute. reflexivity.
Qed.

Lemma fetch_in_order_witness :
  exists i q', InstructionQueue.dispatch one_left = Ok (i, q') /\ pc i = 4.
Proof.
  assert (Hl : len three_nops < 2 ^ 30) by (cbn; lia).
  destruct (fetch_in_order three_nops one_left Hl one_left_reach) as (_ & k & Hpc & _ & Hd).
  destruct (InstructionQueue.dispatch one_left) as [[i q']|f] eqn:E; [|discriminate E].
  exists i, q'. split; [reflexivity|]. destruct (Hd i q' eq_refl) as [_ Hi].
  rewrite Hi. cbn in Hpc. lia.
Defined.
