(* ===== verification/AssemblerProperties.v ===== *)
(** * Correctness of the assembler *)

From stdpp Require Import gmap strings.
From Stdlib Require Import Ascii.
From S2P Require Import Prelude Words Config Float32 Instruction Text Numerals Assembler.
From S2P Require Import InstructionQueue ISA Refinement.
From S2P Require Import AssemblerFacts Disassembler AssemblerLines AssemblerErrors.

Local Open Scope Z_scope.

(** C26. Round trip: the assembler reads the text of a decoded program back to
    the program, each instruction at the address of its line. The text names
    every operation by [opcode_name] and gives branch offsets as numbers. *)
Theorem assemble_disassembled prog :
  Forall printable prog -> parse_program (disassemble <$> prog) = Ok (stamp prog).
Proof. intros Hp. unfold parse_program. by rewrite decode_lines_disassembled. Qed.

(** C27. What the assembler accepts is a program the engine's theorems apply
    to: the fields are those of the format, immediates fit, and addresses are
    the positions, so that loading it changes nothing. Register numbers are
    not checked; the theorems that need them to exist apply exactly when they
    do. *)
Theorem assembled_well_formed raw prog :
  parse_program raw = Ok prog -> Z.of_nat (length raw) < 2 ^ 30 ->
  wf_text prog /\ stamp prog = prog /\
  (wf_source prog <-> Forall (fun i => rd i < 32 /\ rs1 i < 32 /\ rs2 i < 32) prog).
Proof.
  intros Hp Hl. destruct (assembled_text raw prog Hp Hl) as [Ht Hs]. split; [done|]. split; [done|].
  unfold wf_source. rewrite all_named_regs. tauto.
Qed.

(** C28. Labels: a branch or jump to a label that is no number goes to the
    instruction that follows the label's last definition, before or after
    the branch. *)
Theorem label_resolution before def after prog name k toks o :
  parse_program (before ++ def :: after) = Ok prog ->
  defines name def -> Forall (fun l => ~ defines name l) after ->
  instr_lines (before ++ def :: after) !! k = Some toks ->
  head_token toks = opcode_name o -> target_token o toks = Some name ->
  (forall z, stoi name <> Ok z) ->
  exists i, prog !! k = Some i /\ op i = o /\
    (pc i + imm i) mod 2 ^ 32 = (4 * Z.of_nat (length (instr_lines before))) mod 2 ^ 32.
Proof.
  intros Hp Hdef Hafter Hk Hh Ht Hnum. unfold parse_program in Hp.
  destruct (decode_lines_spec _ _ _ _ Hp) as [_ Hall].
  destruct (Hall k toks Hk) as (i & Hi & Hd). rewrite Hh in Hd.
  destruct (decode_target _ _ _ _ _ _ Hd Ht) as (Ho & Hpc & Him).
  exists i. split; [done|]. split; [done|]. rewrite Him, Hpc. unfold branch_offset.
  destruct (stoi name) as [z|f] eqn:E; [by destruct (Hnum z)|].
  rewrite (collect_labels_last name before def after Hdef Hafter).
  rewrite label_offset_target. f_equal. lia.
Qed.

(** C29. Errors that are reported but do not stop the assembler: a branch or
    jump to a label that is not defined is assembled with offset 0, a branch
    to itself, and a line whose mnemonic names no operation becomes a NOP.
    Nothing is written to [cerr] exactly when there is no such line. *)
Theorem assembler_tolerated_errors raw prog k toks :
  parse_program raw = Ok prog -> instr_lines raw !! k = Some toks ->
  (forall o name, head_token toks = opcode_name o -> target_token o toks = Some name ->
     (forall z, stoi name <> Ok z) -> Forall (fun l => ~ defines name l) raw ->
     exists i, prog !! k = Some i /\ op i = o /\ imm i = 0) /\
  ((forall o, head_token toks <> opcode_name o) ->
     exists i, prog !! k = Some i /\ op i = NOP) /\
  (parse_messages raw = EmptyString <-> Forall (clean_line raw) (instr_lines raw)).
Proof.
  intros Hp Hk. unfold parse_program in Hp.
  destruct (decode_lines_spec _ _ _ _ Hp) as [_ Hall].
  destruct (Hall k toks Hk) as (i & Hi & Hd). split_and!; [| |apply messages_silent].
  - intros o name Hh Ht Hnum Hundef. rewrite Hh in Hd.
    destruct (decode_target _ _ _ _ _ _ Hd Ht) as (Ho & _ & Him).
    exists i. split; [done|]. split; [done|]. rewrite Him. unfold branch_offset.
    destruct (stoi name) as [z|f] eqn:E; [by destruct (Hnum z)|].
    by rewrite (collect_labels_other name raw ∅ 0 Hundef).
  - intros Hno. exists i. split; [done|].
    destruct (decode_mnemonic (collect_labels raw ∅ 0) (head_token toks) toks
      (u32 ((0 + Z.of_nat k) * 4))) as [[o Ho]|Hnop]; [by destruct (Hno o)|].
    rewrite Hnop in Hd. by injection Hd as <-.
Qed.

(** ** Witnesses *)

Definition printed : list Instruction :=
  [ instr ADDI 1 0 (-1) (-5) false false false 0; instr LUI 2 (-1) (-1) 74565 false false false 0;
    instr LW 3 1 (-1) 8 false false false 0; instr FSW (-1) 1 4 12 false false true 0;
    instr JALR 1 2 (-1) 0 false false false 0; instr BNE (-1) 1 2 (-8) false false false 0;
    instr FCVT_W_S 5 6 (-1) 0 false true false 0; instr HALT (-1) (-1) (-1) 0 false false false 0 ].

Lemma assemble_disassembled_witness :
  Forall printable printed /\ parse_program (disassemble <$> printed) = Ok (stamp printed).
Proof.
  assert (H : Forall printable printed)
    by (repeat apply Forall_cons_2; try apply Forall_nil_2; split_and!; try reflexivity;
        unfold is_s32; cbn; lia).
  split; [exact H|]. exact (assemble_disassembled printed H).
Defined.

(** A loop with a label before the branch and one behind it. *)
Definition labelled : list string :=
  [ "loop:"; "ADDI x1, x1, -1  # count down"; "BEQ x1, x0, done"; "JAL x0, loop"; "done:"; "FROB x1";
    "HALT" ].

Lemma assembled_well_formed_witness :
  exists prog, parse_program labelled = Ok prog /\ wf_source prog /\ stamp prog = prog.
Proof.
  destruct (parse_program labelled) as [prog|f] eqn:E; [|vm_compute in E; discriminate E].
  assert (Hl : Z.of_nat (length labelled) < 2 ^ 30) by (cbn; lia).
  destruct (assembled_well_formed labelled prog E Hl) as (_ & Hs & Hiff).
  assert (Hr : Forall (fun i => rd i < 32 /\ rs1 i < 32 /\ rs2 i < 32) prog).
  { vm_compute in E. injection E as <-.
    repeat apply Forall_cons_2; try apply Forall_nil_2; split_and!; reflexivity. }
  exists prog. exact (conj eq_refl (conj (proj2 Hiff Hr) Hs)).
Defined.

Lemma done_no_number z : stoi "done" <> Ok z.
Proof. vm_compute. discriminate. Qed.

Lemma label_resolution_witness :
  exists prog i, parse_program labelled = Ok prog /\ prog !! 1%nat = Some i /\ op i = BEQ /\
    (pc i + imm i) mod 2 ^ 32 = 12.
Proof.
  destruct (parse_program labelled) as [prog|f] eqn:E; [|vm_compute in E; discriminate E].
  assert (Hd : defines "done" "done:") by (exists []; vm_compute; reflexivity).
  assert (Ha : Forall (fun l => ~ defines "done" l) ["FROB x1"; "HALT"])
    by (repeat apply Forall_cons_2; try apply Forall_nil_2;
        apply (bool_decide_unpack (~ defines "done" _)); vm_compute; exact I).
  destruct (label_resolution (take 4 labelled) "done:" ["FROB x1"; "HALT"] prog "done" 1
    ["BEQ"; "x1"; "x0"; "done"] BEQ E Hd Ha ltac:(vm_compute; reflexivity) eq_refl eq_refl
    done_no_number) as (i & Hi & Ho & Ht).
  exists prog, i. split; [reflexivity|]. split; [exact Hi|]. split; [exact Ho|].
  rewrite Ht. vm_compute. reflexivity.
Defined.

Lemma assembler_tolerated_errors_witness :
  exists prog i, parse_program labelled = Ok prog /\ prog !! 3%nat = Some i /\ op i = NOP /\
    ~ Forall (clean_line labelled) (instr_lines labelled).
Proof.
  destruct (parse_program labelled) as [prog|f] eqn:E; [|vm_compute in E; discriminate E].
  destruct (assembler_tolerated_errors labelled prog 3 ["FROB"; "x1"] E
    ltac:(vm_compute; reflexivity)) as (_ & H & Hm).
  destruct H as (i & Hi & Ho); [intros o; destruct o; vm_compute; discriminate|].
  exists prog, i. refine (conj eq_refl (conj Hi (conj Ho _))).
  intros Hc. apply Hm in Hc. vm_compute in Hc. discriminate Hc.
Defined.
