(* ===== verification/PipelineProperties.v ===== *)
(** * Correctness of the pipeline's contents

    What the units hold in every state the machine reaches, against the
    sequential machine with the load values of the run: the reorder buffer, the
    renaming table, the operands of waiting instructions, and the control
    instruction in flight. *)

From S2P Require Import Prelude Words Ring Config Float32 Instruction.
From S2P Require Import RegisterFile RegisterRemappingTable ReorderBuffer.
From S2P Require Import CommonDataBus ReservationStation LoadStoreBuffer.
From S2P Require Import InstructionQueue CommitUnit Simulator ISA.
From S2P Require Import StationFacts LSBFacts Invariant SeqFacts UnitFacts LoadValues Cycle Coherence Refinement Trace.
From S2P Require Import Programs SystemProperties.

(** The entry writes register [(r, fp)] when it commits. *)
Definition entry_writes (e : ROBEntry) (r : Z) (fp : bool) : Prop :=
  re_rd e = r /\ re_rd_fp e = fp /\ (fp = true \/ r <> 0).

Abbreviation rob_queue s := (ReorderBuffer.queue (rob s)).

(** ** From the invariant of a run *)

Section Contents.
Context `{FE : FPEnv}.
Context (p : list Instruction) {L : Loads}.

Lemma queue_entry b n s k e :
  Inv p [] b n s -> rob_queue s !! k = Some e ->
  in_win b n (b + k) /\ slot (rob s) (b + k) = Some e /\ slot_ok p (b + k) e.
Proof.
  intros HI Hk. pose proof (ui_rob _ _ _ _ _ _ _ (inv_units _ _ _ _ _ HI)) as Hr.
  pose proof (rob_queue_length _ (ri_ok _ _ _ _ Hr)) as Hl. rewrite (ri_count _ _ _ _ Hr) in Hl.
  pose proof (lookup_lt_Some _ _ _ Hk) as Hlt.
  assert (Hw : in_win b n (b + k)) by (unfold in_win; lia).
  pose proof (queue_slot p b n (rob s) (b + k) Hr Hw) as Hs.
  replace (b + k - b)%nat with k in Hs by lia. rewrite Hk in Hs.
  destruct (ri_slots _ _ _ _ Hr (b + k) Hw) as (e' & He' & Hok). rewrite He' in Hs.
  injection Hs as ->. done.
Qed.

Lemma queue_at b n s i :
  Inv p [] b n s -> in_win b n i ->
  exists e, rob_queue s !! (i - b)%nat = Some e /\ slot (rob s) i = Some e /\ slot_ok p i e.
Proof.
  intros HI Hw. pose proof (ui_rob _ _ _ _ _ _ _ (inv_units _ _ _ _ _ HI)) as Hr.
  destruct (ri_slots _ _ _ _ Hr i Hw) as (e & He & Hok).
  exists e. by rewrite (queue_slot p b n (rob s) i Hr Hw).
Qed.

Lemma tag_position b n s i :
  Inv p [] b n s -> in_win b n i -> tag i = tag_at (rob s) (Z.of_nat (i - b)).
Proof.
  intros HI Hw. pose proof (ui_rob _ _ _ _ _ _ _ (inv_units _ _ _ _ _ HI)) as Hr.
  rewrite (tag_at_tag p b n (rob s) (i - b) Hr). f_equal. unfold in_win in Hw. lia.
Qed.

Lemma entry_writes_iff k e r fp :
  slot_ok p k e -> 0 <= r -> (entry_writes e r fp <-> writes p k r fp).
Proof.
  intros [(i & Hi & _ & Hrd & Hfp & _) _] Hr. unfold entry_writes, writes. split.
  - intros (<- & <- & Hx). exists i. rewrite Hrd, Hfp in *. done.
  - intros (j & Hj & <- & <- & _ & Hx). rewrite Hi in Hj. injection Hj as <-. done.
Qed.

(** A control instruction of the window is its last. *)
Lemma control_last b n s x i :
  Inv p [] b n s -> in_win b n x -> ins_at p x = Some i -> is_control (op i) = true ->
  S x = (b + n)%nat /\ branch_in_flight s = true /\ buffer_ (iq s) = [].
Proof.
  intros HI Hw Hi Hc. pose proof (inv_iq _ _ _ _ _ HI) as [_ _ _ Hwait Hrun].
  destruct (branch_in_flight s).
  - destruct (Hwait eq_refl) as (Hbuf & m & j & -> & _ & _ & Hold). split_and!; [|done..].
    destruct (decide (x = b + m)%nat) as [->|Hne]; [lia|].
    assert (Hw' : in_win b m x) by (unfold in_win in *; lia).
    specialize (Hold _ _ Hw' Hi). congruence.
  - destruct (Hrun eq_refl) as [Hno _]. specialize (Hno _ _ Hw Hi). congruence.
Qed.

(** Clear of hazards the window holds the instructions of the sequential
    machine, with its values up to a HALT. *)
Lemma window_ins b n s x :
  forwarding_safe p -> Inv p [] b n s -> (x < b + n)%nat ->
  ins_at p x = ins_at p x (L := from_memory_all).
Proof.
  intros Hsafe HI. induction x as [|x IH]; intros Hx; [done|].
  destruct (decide (S x <= b)%nat) as [Hle|Hgt].
  { unfold ins_at. by rewrite (Inv_coherent p _ _ _ _ Hsafe HI). }
  specialize (IH ltac:(lia)). destruct (ins_at p x) as [i|] eqn:Hi.
  - symmetry in IH. unfold ins_at at 1 2. f_equal. rewrite (apc_S p x i Hi), (apc_S p x i IH).
    destruct (is_control (op i)) eqn:Hc; [|done].
    destruct (control_last b n s x i HI) as [? _]; try done; [unfold in_win|]; lia.
  - unfold ins_at. rewrite (st_at_stuck p x Hi), (st_at_stuck p x (eq_sym IH)).
    unfold ins_at in Hi, IH. by rewrite Hi, <- IH.
Qed.

Lemma window_coherent b n s x :
  forwarding_safe p -> Inv p [] b n s -> (x < b + n)%nat -> live p x (L := from_memory_all) ->
  st_at p x = steps p x arch_init /\ res_at p x = res_at p x (L := from_memory_all).
Proof.
  intros Hsafe HI Hx Hl. pose proof (loads_inv_valid p _ _ _ (inv_loads _ _ _ _ _ HI)) as Hv.
  assert (Hl' : live p x).
  { intros k i Hk Hi. rewrite (window_ins b n s k Hsafe HI) in Hi by lia. by apply (Hl k i). }
  assert (Hst : forall k, (k <= x)%nat -> st_at p k = st_at p k (L := from_memory_all)).
  { intros k Hk. apply (coherent p (b + n) k Hsafe Hv); [lia|]. intros j Hj.
    apply (live_le p x j Hl'). lia. }
  split; [by rewrite Hst, seq_at_steps|]. by apply (coherent_result p (b + n)).
Qed.

End Contents.

Section Pipeline.
Context `{FE : FPEnv}.
Context (prog : list Instruction) (Htext : wf_text prog).

Abbreviation p := (stamp prog).

(** A run's load values [loads], for the first [m] instructions: what the loads
    can return, and when the program's loads keep clear of hazards, what makes
    these instructions those of the plain sequential machine, with its states
    and results up to a HALT. *)
Definition explains (loads : Loads) (m : nat) : Prop :=
  valid_loads p (L := loads) m /\
  (forwarding_safe p -> forall n, (n < m)%nat ->
     ins_at p (L := loads) n = fetch p (apc (steps p n arch_init)) /\
     (live p n (L := from_memory_all) ->
        st_at p (L := loads) n = steps p n arch_init /\
        forall i, ins_at p (L := loads) n = Some i ->
          res_at p (L := loads) n = ISA.result i (steps p n arch_init))).

Lemma trace_explained l s :
  trace prog l s -> exists w (L : Loads), Inv p (L := L) [] (length l) w s /\
    explains L (length l + length (rob_queue s)).
Proof.
  intros Ht. destruct (trace_run prog Htext l s Ht) as (w & L & HI & _). exists w, L.
  split; [done|]. pose proof (ui_rob _ _ _ _ _ _ _ (inv_units _ _ _ _ _ HI)) as Hr.
  pose proof (rob_queue_length _ (ri_ok _ _ _ _ Hr)) as Hl. rewrite (ri_count _ _ _ _ Hr) in Hl.
  replace (length (rob_queue s)) with w by lia.
  split; [by eapply loads_inv_valid, inv_loads|]. intros Hsafe n Hn.
  pose proof (window_ins p _ _ s n Hsafe HI Hn) as Hins. rewrite <- seq_at_steps.
  split; [exact Hins|]. intros Hlive.
  destruct (window_coherent p _ _ s n Hsafe HI Hn Hlive) as [Hst Hres].
  split; [by rewrite Hst, seq_at_steps|]. intros i Hi. rewrite Hins in Hi.
  by rewrite Hres, (res_at_with p n i Hi).
Qed.

(** Register [(r, fp)] as an operand of instruction [n]: the value it has
    before [n], or the tag of an older instruction of the reorder buffer that
    writes it and is still executing; [m] is the instruction's own position in
    the reorder buffer. *)
Definition operand_correct (loads : Loads) (s : Sim) (n m : nat) (r : Z) (fp : bool) (v q : Z) : Prop :=
  (q = -1 /\ v = read_reg (st_at p (L := loads) n) r fp) \/
  exists m' e', (m' < m)%nat /\ rob_queue s !! m' = Some e' /\ q = tag_at (rob s) (Z.of_nat m') /\
    re_state e' = ReorderBuffer.IN_FLIGHT /\ entry_writes e' r fp.

Lemma operand_correct_of (L : Loads) b n s i r fp v q :
  Inv p (L := L) [] b n s -> in_win b n i ->
  operand_ok p (rob s) [] b i r fp v q -> operand_correct L s i (i - b) r fp v q.
Proof.
  intros HI Hw [(Hq & Hv & _)|(s' & Hs' & -> & Hwr & _ & Hp)]; [by left|right].
  assert (Hlt : (s' < i)%nat) by (by destruct Hwr as (? & _)).
  assert (Hw' : in_win b n s') by (unfold in_win in *; lia).
  destruct (queue_at p b n s s' HI Hw') as (e & Hk & Hsl & Hok).
  exists (s' - b)%nat, e. split; [unfold in_win in *; lia|]. split; [done|]. split; [by apply (tag_position p b n)|].
  destruct Hp as [(e' & He' & Hst)|Hex]; [|by apply Exists_nil in Hex].
  rewrite Hsl in He'. injection He' as <-. split; [done|].
  destruct Hwr as (_ & Hwr & _). apply (entry_writes_iff p s' e r fp Hok); [|done].
  by destruct Hwr as (? & _ & <- & _ & ? & _).
Qed.

(** ** Properties *)

(** C30. The reorder buffer holds the next instructions in program order, for
    every program the assembler can return. For some load values the loads
    can return, the entry [k] places behind the head is instruction number
    (committed + [k]) of the sequential machine with these values, and a
    finished entry holds the result this machine computes, behind a HALT too.
    When the program's loads keep clear of hazards these are the instructions
    of the plain sequential machine, and up to a HALT its results. *)
Theorem rob_holds_program_order l s :
  trace prog l s ->
  exists loads : Loads, explains loads (length l + length (rob_queue s)) /\
    forall k e, rob_queue s !! k = Some e ->
      let n := (length l + k)%nat in
      exists i, ins_at p (L := loads) n = Some i /\ re_op e = op i /\ re_rd e = rd i /\
        re_rd_fp e = rd_fp i /\ re_pc e = pc i /\
        (re_state e = ReorderBuffer.DONE -> re_result e = res_at p (L := loads) n).
Proof.
  intros Ht. destruct (trace_explained l s Ht) as (w & L & HI & Hex). exists L. split; [done|].
  intros k e Hk n. destruct (queue_entry _ _ _ _ _ _ HI Hk) as (_ & _ & [(i & Hi & Ho & Hrd & Hfp & Hpc) Hst]).
  exists i. split_and!; try done. intros Hd. destruct Hst as [Hf|[_ Hres]]; [congruence|done].
Qed.

(** C32. No lost wake-up and no stale operand, for every program the assembler
    can return: with load values the loads can return, every operand of an
    instruction in a station or in the load/store buffer is the value the
    register has there in the sequential machine, or waits for an older
    instruction of the reorder buffer that writes this register and has not
    finished. When the program's loads keep clear of hazards it is the plain
    sequential machine, up to a HALT. *)
Theorem operands_correct l s :
  trace prog l s ->
  exists loads : Loads, explains loads (length l + length (rob_queue s)) /\
  (forall k j e, ReservationStation.entries_ (station (stations s) k) !! j = Some e ->
     se_busy e = true ->
     exists m i, let n := (length l + m)%nat in (m < length (rob_queue s))%nat /\
       ins_at p (L := loads) n = Some i /\ se_op e = op i /\ se_rob_tag e = tag_at (rob s) (Z.of_nat m) /\
       operand_correct loads s n m (rs1 i) (rs1_fp i) (se_vj e) (se_qj e) /\
       operand_correct loads s n m (rs2 i) (rs2_fp i) (se_vk e) (se_qk e)) /\
  (forall e, e ∈ LSBFacts.queue (lsb s) ->
     exists m i, let n := (length l + m)%nat in (m < length (rob_queue s))%nat /\
       ins_at p (L := loads) n = Some i /\ le_op e = op i /\ le_rob_tag e = tag_at (rob s) (Z.of_nat m) /\
       operand_correct loads s n m (rs1 i) false (le_vj e) (le_qj e) /\
       operand_correct loads s n m (rs2 i) (rs2_fp i) (le_vk e) (le_qk e)).
Proof.
  intros Ht. destruct (trace_explained l s Ht) as (w & L & HI & Hex). exists L. split; [done|].
  pose proof (inv_units _ _ _ _ _ HI) as [_ Hs Hl _].
  assert (Hpos : forall x, in_win (length l) w x ->
    x = (length l + (x - length l))%nat /\ (x - length l < length (rob_queue s))%nat).
  { intros x Hw. split; [unfold in_win in Hw; lia|].
    destruct (queue_at p _ _ _ _ HI Hw) as (e & He & _). by eapply lookup_lt_Some. }
  split.
  - intros k j e Hj Hb. destruct (si_entries _ _ _ _ _ _ _ (Hs k) j e Hj Hb) as (x & i & Hw & []).
    exists (x - length l)%nat, i. cbn zeta. destruct (Hpos x Hw) as [Hx Hlt]. rewrite <- Hx. split_and!; try done.
    + rewrite se_tag_eq. by apply (tag_position p _ w).
    + by apply (operand_correct_of _ _ w).
    + by apply (operand_correct_of _ _ w).
  - intros e He. destruct (li_entries _ _ _ _ _ _ Hl) as (ss & Hfa & _).
    apply list_elem_of_lookup_1 in He as [j Hj].
    destruct (Forall2_lookup_r _ _ _ _ _ Hfa Hj) as (x & _ & Hw & i & []).
    exists (x - length l)%nat, i. cbn zeta. destruct (Hpos x Hw) as [Hx Hlt]. rewrite <- Hx. split_and!; try done.
    + rewrite le_tag_eq. by apply (tag_position p _ w).
    + by apply (operand_correct_of _ _ w).
    + by apply (operand_correct_of _ _ w).
Qed.

(** C31. The renaming table maps a register to the youngest instruction of the
    reorder buffer that writes it, and to nothing when there is none. *)
Theorem rat_tracks_youngest_writer l s r fp :
  trace prog l s -> reg_index r ->
  exists m, RegisterRemappingTable.lookup (rat s) r fp = Ok m /\
    if valid m
    then exists k e, rob_queue s !! k = Some e /\ rob_tag m = tag_at (rob s) (Z.of_nat k) /\
           entry_writes e r fp /\
           forall k' e', (k < k')%nat -> rob_queue s !! k' = Some e' -> ~ entry_writes e' r fp
    else forall k e, rob_queue s !! k = Some e -> ~ entry_writes e r fp.
Proof.
  intros Ht Hr. destruct (trace_explained l s Ht) as (w & L & HI & _).
  destruct (inv_rat _ _ _ _ _ HI) as [Hok Hrat]. specialize (Hrat r fp Hr).
  destruct (rat_lookup_spec _ _ fp Hok Hr) as (m & Hm & Hmap). exists m. split; [done|].
  assert (H0 : 0 <= r) by (unfold reg_index in Hr; lia). rewrite Hmap in Hrat.
  destruct (valid m).
  - destruct Hrat as (i & Hw & Htag & Hwr & Hyoung).
    destruct (queue_at _ _ _ _ _ HI Hw) as (e & Hk & _ & Hok').
    exists (i - length l)%nat, e. split; [done|]. rewrite Htag. split; [by eapply tag_position|].
    split; [by apply (entry_writes_iff p i)|]. intros k' e' Hlt Hk' He'.
    destruct (queue_entry _ _ _ _ _ _ HI Hk') as (Hw' & _ & Hok2).
    apply (Hyoung (length l + k')%nat); [unfold in_win in *; lia|].
    by apply (entry_writes_iff p _ e').
  - intros k e Hk He. destruct (queue_entry _ _ _ _ _ _ HI Hk) as (Hw' & _ & Hok2).
    apply (Hrat _ Hw'). by apply (entry_writes_iff p _ e).
Qed.

(** C6. A result has one owner. For every program the assembler can return, in
    every reachable state a tag names one busy slot of one of the six stations,
    or one entry of the load/store buffer, never both and never two, so that
    what is broadcast under a tag is the result of the one instruction that has
    it. *)
Theorem tags_have_one_owner l s :
  trace prog l s ->
  (forall k j e k' j' e', ReservationStation.entries_ (station (stations s) k) !! j = Some e ->
     ReservationStation.entries_ (station (stations s) k') !! j' = Some e' ->
     se_busy e = true -> se_busy e' = true -> se_rob_tag e = se_rob_tag e' -> k' = k /\ j' = j) /\
  (forall j j' e e', LSBFacts.queue (lsb s) !! j = Some e -> LSBFacts.queue (lsb s) !! j' = Some e' ->
     le_rob_tag e = le_rob_tag e' -> j = j') /\
  (forall k j e j' e', ReservationStation.entries_ (station (stations s) k) !! j = Some e ->
     se_busy e = true -> LSBFacts.queue (lsb s) !! j' = Some e' -> se_rob_tag e <> le_rob_tag e').
Proof.
  intros Ht. destruct (trace_explained l s Ht) as (w & L & HI & _).
  pose proof (inv_units _ _ _ _ _ HI) as [Hr Hs Hl _].
  destruct (li_entries _ _ _ _ _ _ Hl) as (ss & Hfa & Hord & _). split_and!.
  - intros. by eapply (oldest_unique p).
  - intros j j' e e' Hj Hj' Htag.
    destruct (Forall2_lookup_r _ _ _ _ _ Hfa Hj) as (x & Hx & Hw & i & He).
    destruct (Forall2_lookup_r _ _ _ _ _ Hfa Hj') as (x' & Hx' & Hw' & i' & He').
    apply le_tag_eq in He, He'.
    assert (x = x') as <- by (eapply (slot_inj p); eauto; congruence).
    destruct (Nat.lt_trichotomy j j') as [Hlt|[?|Hlt]]; [|done|].
    + pose proof (Hord _ _ _ _ Hlt Hx Hx'). lia.
    + pose proof (Hord _ _ _ _ Hlt Hx' Hx). lia.
  - intros k j e j' e' Hj Hb Hj' Htag.
    destruct (si_entries _ _ _ _ _ _ _ (Hs k) j e Hj Hb) as (x & i & Hw & Hen).
    destruct (Forall2_lookup_r _ _ _ _ _ Hfa Hj') as (x' & Hx' & Hw' & i' & He').
    rewrite (se_tag_eq _ _ _ _ _ _ _ _ Hen), (le_tag_eq _ _ _ _ _ _ _ He') in Htag.
    assert (x = x') as <- by by eapply (slot_inj p).
    pose proof (se_instr _ _ _ _ _ _ _ _ Hen) as Hi. rewrite (le_instr _ _ _ _ _ _ _ He') in Hi.
    injection Hi as ->. pose proof (se_route _ _ _ _ _ _ _ _ Hen) as Hrt.
    pose proof (le_mem _ _ _ _ _ _ _ He') as Hm. apply target_rs_mem in Hm. congruence.
Qed.

(** C34. No speculation past control flow: a branch or jump in the reorder
    buffer is its youngest entry, the flag that stalls fetch is set, and
    nothing is waiting in the fetch buffer, so nothing in flight would have to
    be flushed. (docs/ISA.md describes another machine: fetch goes on at PC + 4
    and a taken branch flushes the buffers.) *)
Theorem control_is_youngest l s k e :
  trace prog l s -> rob_queue s !! k = Some e -> is_branch (re_op e) || is_jump (re_op e) = true ->
  S k = length (rob_queue s) /\ branch_in_flight s = true /\ buffer_ (iq s) = [].
Proof.
  intros Ht Hk Hc. destruct (trace_explained l s Ht) as (w & L & HI & _).
  destruct (queue_entry _ _ _ _ _ _ HI Hk) as (Hw & _ & [(i & Hi & Ho & _) _]).
  change (is_control (re_op e) = true) in Hc. rewrite Ho in Hc.
  destruct (control_last _ _ _ _ _ _ HI Hw Hi Hc) as [Hlast ?]. split; [|done].
  pose proof (ui_rob _ _ _ _ _ _ _ (inv_units _ _ _ _ _ HI)) as Hr.
  pose proof (rob_queue_length _ (ri_ok _ _ _ _ Hr)) as Hl. rewrite (ri_count _ _ _ _ Hr) in Hl. lia.
Qed.

End Pipeline.

(** ** Witnesses *)

(** A chain of two conversions and an addition, overtaken by integer work and
    followed by a store and a load. *)
Definition overlap : list Instruction :=
  [ to_float 1 0; mkInstruction FADD_S 2 1 1 0 true true true 0; rri ADDI 1 0 5; store SW 1 0 4; rri LW 2 0 4; rrr ADD 3 1 2;
    halt ].

Lemma overlap_ok : wf_source overlap /\ forwarding_safe (FE := x86_fp) (stamp overlap).
Proof.
  split; [by apply wf_source_b_sound|]. apply (safe_run_sound (FE := x86_fp) _ 40). by vm_compute.
Qed.

Lemma trace_at prog k (f : Sim -> bool) :
  match exec_trace (FE := x86_fp) prog k with Ok (_, s) => f s | Stop _ => false end = true ->
  exists l s, trace (FE := x86_fp) prog l s /\ f s = true.
Proof.
  destruct (exec_trace (FE := x86_fp) prog k) as [[l s]|f'] eqn:E; [|done].
  intros Hf. exists l, s. split; [by eapply (exec_trace_sound (FE := x86_fp))|done].
Qed.

(** The first entry of the reorder buffer that [f] holds of. *)
Lemma queue_exists (f : ROBEntry -> bool) (s : Sim) :
  existsb f (ReorderBuffer.queue (rob s)) = true ->
  exists k e, ReorderBuffer.queue (rob s) !! k = Some e /\ f e = true.
Proof.
  intros (e & He & Hf)%existsb_exists. apply list_elem_of_In, list_elem_of_lookup_1 in He as [k Hk].
  by exists k, e.
Qed.

Definition finished_entry (e : ROBEntry) : bool := bool_decide (re_state e = ReorderBuffer.DONE).
Definition control_entry (e : ROBEntry) : bool := is_branch (re_op e) || is_jump (re_op e).

(** Some station entry waits for an operand. *)
Definition waiting (s : Sim) : bool :=
  existsb (fun k => existsb (fun e => se_busy e && negb (se_qk e =? -1))
    (ReservationStation.entries_ (station (stations s) k))) rs_ids.

Lemma rob_holds_program_order_witness :
  exists l s k e i, trace (FE := x86_fp) overlap l s /\
    ReorderBuffer.queue (rob s) !! k = Some e /\ re_state e = ReorderBuffer.DONE /\
    fetch (stamp overlap) (apc (steps (FE := x86_fp) (stamp overlap) (length l + k) arch_init)) = Some i /\
    re_op e = op i.
Proof.
  destruct (trace_at overlap 6 (fun s => existsb finished_entry (ReorderBuffer.queue (rob s))))
    as (l & s & Ht & Hf); [vm_compute; reflexivity|].
  destruct (queue_exists _ _ Hf) as (k & e & Hk & Hd). apply bool_decide_eq_true in Hd.
  destruct (rob_holds_program_order (FE := x86_fp) overlap (proj1 (proj1 overlap_ok)) l s Ht)
    as (loads & [_ Hex] & Hrob).
  destruct (Hrob k e Hk) as (i & Hi & Ho & _).
  pose proof (lookup_lt_Some _ _ _ Hk) as Hlt.
  destruct (Hex (proj2 overlap_ok) (length l + k)%nat ltac:(lia)) as [Hseq _]. rewrite Hi in Hseq.
  exists l, s, k, e, i. exact (conj Ht (conj Hk (conj Hd (conj (eq_sym Hseq) Ho)))).
Defined.

Lemma rat_tracks_youngest_writer_witness :
  exists l s m, trace (FE := x86_fp) overlap l s /\
    RegisterRemappingTable.lookup (rat s) 1 false = Ok m.
Proof.
  destruct (trace_at overlap 6 waiting ltac:(vm_compute; reflexivity)) as (l & s & Ht & _).
  assert (Hr : reg_index 1) by (unfold reg_index; lia).
  destruct (rat_tracks_youngest_writer (FE := x86_fp) overlap (proj1 (proj1 overlap_ok)) l s 1
    false Ht Hr) as (m & Hm & _).
  exists l, s, m. exact (conj Ht Hm).
Defined.

Lemma operands_correct_witness :
  exists l s (loads : Loads), trace (FE := x86_fp) overlap l s /\ waiting s = true /\
    explains (FE := x86_fp) overlap loads (length l + length (ReorderBuffer.queue (rob s))) /\
    forall e, e ∈ LSBFacts.queue (lsb s) ->
      exists m i, ins_at (FE := x86_fp) (stamp overlap) (L := loads) (length l + m) = Some i /\ le_op e = op i.
Proof.
  destruct (trace_at overlap 6 waiting) as (l & s & Ht & Hf); [vm_compute; reflexivity|].
  destruct (operands_correct (FE := x86_fp) overlap (proj1 (proj1 overlap_ok)) l s Ht)
    as (loads & Hex & _ & Hlsb).
  exists l, s, loads. split; [exact Ht|]. split; [exact Hf|]. split; [exact Hex|]. intros e He.
  destruct (Hlsb e He) as (m & i & _ & Hi & Ho & _).
  exists m, i. exact (conj Hi Ho).
Defined.

Lemma tags_have_one_owner_witness :
  exists l s, trace (FE := x86_fp) sample l s /\
    forall k j e j' e', ReservationStation.entries_ (station (stations s) k) !! j = Some e ->
      se_busy e = true -> LSBFacts.queue (lsb s) !! j' = Some e' -> se_rob_tag e <> le_rob_tag e'.
Proof.
  destruct sample_trace as (l & s & Ht & _). exists l, s. split; [exact Ht|].
  exact (proj2 (proj2 (tags_have_one_owner (FE := x86_fp) sample (proj1 (proj1 sample_ok))
    l s Ht))).
Defined.

Lemma control_is_youngest_witness :
  exists l s, trace (FE := x86_fp) sample l s /\ branch_in_flight s = true.
Proof.
  destruct (trace_at sample 13 (fun s => existsb control_entry (ReorderBuffer.queue (rob s))))
    as (l & s & Ht & Hf); [vm_compute; reflexivity|].
  destruct (queue_exists _ _ Hf) as (k & e & Hk & Hc).
  destruct (control_is_youngest (FE := x86_fp) sample (proj1 (proj1 sample_ok)) l s k e
    Ht Hk Hc) as (_ & Hb & _).
  exists l, s. exact (conj Ht Hb).
Defined.
