(* ===== verification/ControlProperties.v ===== *)
(** * Correctness of dispatch and commit

    What one call of [try_dispatch] and one tick of the commit unit do to the
    units, in any state. *)

From S2P Require Import Prelude Words Ring Config Float32 Instruction.
From S2P Require Import RegisterFile RegisterRemappingTable ReorderBuffer.
From S2P Require Import CommonDataBus ReservationStation LoadStoreBuffer.
From S2P Require Import InstructionQueue CommitUnit Simulator.

(** ** Dispatch *)

(** The unit an operation goes to has no free entry. *)
Definition unit_full (fr : Front) (o : Opcode) : bool :=
  match target_rs o with
  | Some k => ReservationStation.full (station (fr_stations fr) k)
  | None => LoadStoreBuffer.full (fr_lsb fr)
  end.

(** A structural hazard: nothing to dispatch, or no room for it. *)
Definition hazard (fr : Front) : bool :=
  match buffer_ (fr_iq fr) with
  | [] => true
  | i :: _ => ReorderBuffer.full (fr_rob fr) || unit_full fr (op i)
  end.

Definition is_control_op (o : Opcode) : bool := is_branch o || is_jump o.

(** The instruction at the front leaves the fetch buffer. *)
Lemma dispatch_front q i q' :
  InstructionQueue.dispatch q = Ok (i, q') -> buffer_ q = i :: buffer_ q'.
Proof.
  unfold InstructionQueue.dispatch, InstructionQueue.can_dispatch. intros H. inv_res.
  by destruct (buffer_ q); simplify_eq/=.
Qed.

Lemma allocate_count r i t r' :
  ReorderBuffer.full r = false ->
  ReorderBuffer.allocate r i = Ok (t, r') ->
  ReorderBuffer.count_ r' = ReorderBuffer.count_ r + 1 /\ t = ReorderBuffer.tail_ r.
Proof. unfold ReorderBuffer.allocate. intros -> H. by inv_res. Qed.

(** C35. Dispatch stalls exactly on a structural hazard (no instruction, a full
    reorder buffer, or a full target unit) and then changes nothing; otherwise
    the front instruction leaves the fetch buffer, takes the reorder buffer's
    tail slot, and reports whether it is a branch or jump. *)
Theorem dispatch_hazards fr rf issued fr' :
  try_dispatch fr rf = Ok (issued, fr') ->
  (issued = negb (hazard fr)) /\
  (issued = false -> fr' = fr) /\
  (issued = true -> exists i, buffer_ (fr_iq fr) = i :: buffer_ (fr_iq fr') /\
     ReorderBuffer.count_ (fr_rob fr') = ReorderBuffer.count_ (fr_rob fr) + 1 /\
     map_dest (fr_rat fr) i (ReorderBuffer.tail_ (fr_rob fr)) = Ok (fr_rat fr') /\
     fr_branch fr' = fr_branch fr || is_control_op (op i)).
Proof.
  destruct fr as [iq rob rat ss lsb bd]. unfold try_dispatch, hazard, unit_full.
  cbn [fr_iq fr_rob fr_rat fr_stations fr_lsb fr_branch].
  unfold InstructionQueue.peek, InstructionQueue.can_dispatch at 1 2.
  destruct (buffer_ iq) as [|i q] eqn:Hbuf; cbn [negb require rbind].
  { intros E. injection E as <- <-. by split_and!. }
  change (vec_get (i :: q) 0) with (Ok i). cbn [rbind].
  destruct (target_rs (op i)) as [k|] eqn:Hk;
    [destruct (ReservationStation.full (station ss k))|destruct (LoadStoreBuffer.full lsb)];
    destruct (ReorderBuffer.full rob) eqn:Hfull; cbn [negb andb orb];
    try (intros E; injection E as <- <-; by split_and!).
  all: intros H; apply rbind_Ok in H as ([t rob'] & Ha & H); apply rbind_Ok in H as ([r u] & _ & H);
    apply rbind_Ok in H as (rat' & Hm & H); apply rbind_Ok in H as ([j iq'] & Hd & H);
    injection H as <- <-; split; [done|]; split; [done|]; intros _; exists i;
    cbn [fr_iq fr_rob fr_rat fr_branch];
    apply (allocate_count _ _ _ _ Hfull) in Ha as [Hc ->]; apply dispatch_front in Hd; rewrite Hbuf in Hd;
    injection Hd as <- ->; done.
Qed.

(** ** Commit *)

(** The commit unit. When the head of the reorder buffer has not finished
    it only clears its record. Otherwise it removes the head and records it,
    and each kind of instruction touches only its own state: HALT the halt
    flag; a branch the next address; a jump the next address and its link
    register; a store memory and the load/store buffer; any other instruction
    its destination register. *)
Theorem commit_unit_frame s b s' :
  CommitUnit.tick s = Ok (b, s') ->
  ReorderBuffer.head_ready (cs_rob s) = Ok b /\
  if b then exists e, ReorderBuffer.commit (cs_rob s) = Ok (e, cs_rob s') /\
      cs_last s' = record_of e /\
      cs_halted s' = cs_halted s || op_eqb (re_op e) HALT /\
      cs_next_pc s' = (if is_control_op (re_op e) then re_result e else cs_next_pc s) /\
      (is_store (re_op e) = false -> cs_mem s' = cs_mem s /\ cs_lsb s' = cs_lsb s) /\
      (is_store (re_op e) = true ->
         LoadStoreBuffer.commit_store (cs_lsb s) (cs_mem s) = Ok (cs_lsb s', cs_mem s')) /\
      (re_rd e < 0 \/ is_store (re_op e) || is_branch (re_op e) || op_eqb (re_op e) HALT = true ->
         cs_rf s' = cs_rf s /\ cs_rat s' = cs_rat s)
  else s' = mkCommitState (cs_rob s) (cs_rf s) (cs_rat s) (cs_lsb s) (cs_mem s) (cs_next_pc s)
              (cs_halted s) default_record.
Proof.
  destruct s as [rob rf rat lsb mem npc h la]. unfold tick.
  intros H. apply rbind_Ok in H as (ready & Hready & H).
  destruct ready; cbn [negb] in H; cbn [cs_rob cs_rf cs_rat cs_lsb cs_mem cs_next_pc cs_halted cs_last].
  2: { injection H as <- <-. done. }
  apply rbind_Ok in H as (t & _ & H). apply rbind_Ok in H as ([e rob'] & Hc & H).
  assert (Hb : b = true /\ cs_rob s' = rob').
  { clear Hready Hc. repeat first [apply rbind_Ok in H as (? & ? & H) | case_match]; by simplify_eq/=. }
  destruct Hb as [-> Hrob]. split; [done|]. exists e. rewrite Hrob. split; [done|].
  unfold is_control_op. clear Hrob Hready Hc.
  destruct (op_eqb (re_op e) HALT) eqn:Hhalt.
  { apply bool_decide_eq_true in Hhalt. rewrite Hhalt. injection H as <-. rewrite orb_true_r.
    split_and!; try done; intros E; discriminate E. }
  destruct (is_branch (re_op e)) eqn:Hbr.
  { injection H as <-. rewrite orb_false_r.
    assert (is_store (re_op e) = false) as -> by (by destruct (re_op e)). by split_and!. }
  destruct (is_jump (re_op e)) eqn:Hj.
  { assert (is_store (re_op e) = false) as -> by (by destruct (re_op e)).
    destruct (Z.leb_spec 0 (re_rd e)); inv_res; rewrite ?orb_false_r; split_and!; try done.
    intros [?|?]; [lia|done]. }
  destruct (is_store (re_op e)) eqn:Hst.
  { inv_res. case_match. inv_res. cbn. rewrite ?orb_false_r. by split_and!. }
  destruct (Z.leb_spec 0 (re_rd e)); inv_res; rewrite ?orb_false_r; split_and!; try done.
  intros [?|?]; [lia|done].
Qed.

(** ** Witnesses *)

Definition one_instruction (i : Instruction) : InstructionQueue :=
  mkInstructionQueue IQ_CAPACITY [i] 1 [i].

Definition idle_stations (n : Z) : Stations :=
  let s := ReservationStation.create n in mkStations s s s s s s.

Definition empty_rob : ReorderBuffer :=
  ReorderBuffer.mkReorderBuffer 2 0 0 0 (replicate 2 ReorderBuffer.default_entry).

(** One slot per unit, or none. *)
Definition front (n : Z) : Front :=
  mkFront (one_instruction (mkInstruction JAL 1 (-1) (-1) 8 false false false 0)) empty_rob
    RegisterRemappingTable.flush (idle_stations n)
    (mkLoadStoreBuffer 1 0 0 0 [LoadStoreBuffer.default_entry]) false.

Lemma dispatch_hazards_witness :
  try_dispatch (front 0) RegisterFile.init = Ok (false, front 0) /\ hazard (front 0) = true /\
  exists fr', try_dispatch (front 1) RegisterFile.init = Ok (true, fr') /\ fr_branch fr' = true.
Proof.
  assert (H0 : try_dispatch (front 0) RegisterFile.init = Ok (false, front 0))
    by (vm_compute; reflexivity).
  split; [exact H0|]. split.
  - pose proof (proj1 (dispatch_hazards (front 0) _ _ _ H0)) as E.
    destruct (hazard (front 0)); [reflexivity|discriminate E].
  - destruct (try_dispatch (front 1) RegisterFile.init) as [[issued fr']|f] eqn:E;
      [|vm_compute in E; discriminate E].
    destruct (dispatch_hazards (front 1) _ _ _ E) as (Hi & _ & Hd).
    change (negb (hazard (front 1))) with true in Hi. subst issued.
    destruct (Hd eq_refl) as (i & Hbuf & _ & _ & Hb).
    exists fr'. split; [reflexivity|]. rewrite Hb. injection Hbuf as <- _. reflexivity.
Defined.

(** A finished branch at the head. *)
Definition branch_at_head : CommitState :=
  mkCommitState
    (ReorderBuffer.mkReorderBuffer 2 1 0 1
       [ReorderBuffer.default_entry; ReorderBuffer.mkROBEntry ReorderBuffer.DONE BEQ (-1) false 40 12])
    RegisterFile.init RegisterRemappingTable.flush
    (mkLoadStoreBuffer 1 0 0 0 [LoadStoreBuffer.default_entry]) [0] 0 false default_record.

Lemma commit_unit_frame_witness :
  exists s', CommitUnit.tick branch_at_head = Ok (true, s') /\ cs_rf s' = RegisterFile.init.
Proof.
  destruct (CommitUnit.tick branch_at_head) as [[b s']|f] eqn:E; [|discriminate E].
  pose proof (commit_unit_frame branch_at_head b s' E) as [Hr H].
  vm_compute in Hr. injection Hr as <-. destruct H as (e & Hc & _ & _ & _ & _ & _ & Hrf).
  exists s'. split; [reflexivity|]. vm_compute in Hc. injection Hc as <- _.
  exact (proj1 (Hrf (or_introl eq_refl))).
Defined.
