(* ===== verification/OutputProperties.v ===== *)
(** * What the simulator writes

    The files and the console of a run: the logs and the trace, final_regs.txt
    read back, cu.log against the sequential machine, and the two texts of a
    floating-point register. *)

From stdpp Require Import strings.
From Stdlib Require Import SpecFloat QArith Qabs.
From S2P Require Import Prelude Words Ring Config Float32 Text Numerals OStream Instruction.
From S2P Require Import Assembler RegisterFile RegisterRemappingTable ReorderBuffer.
From S2P Require Import CommonDataBus ReservationStation LoadStoreBuffer.
From S2P Require Import InstructionQueue CommitUnit Simulator Output ISA.
From S2P Require Import Invariant SeqFacts Cycle Coherence Refinement Trace PrintFacts OutputFacts.
From S2P Require Import Disassembler AssemblerLines AssemblerErrors Programs FinalText FloatText.

Local Open Scope Z_scope.

(** ** final_regs.txt of a sequential state *)

Definition arch_final (cycles : Z) (a : Arch) : Final :=
  mkFinal cycles ((fun r => read_reg a (Z.of_nat r) false) <$> seq 0 32)
    ((fun r => read_reg a (Z.of_nat r) true) <$> seq 0 32)
    (List.filter nonzero ((fun w => (w, am a (Z.of_nat w))) <$> seq 0 1024)).

Lemma agrees_final s a : rf_ok (rf s) -> agrees s a -> final_of s = arch_final (cycle s - 1) a.
Proof.
  intros [Hi Hf _ _ _] (Hr & Hl & Hm). unfold NUM_INT_REGS, NUM_FP_REGS, MEM_SIZE in *.
  assert (Hreg : forall (l : list Z) fp, length l = 32%nat ->
    (forall i v, l !! i = Some v -> read_bits (rf s) (Z.of_nat i) fp = Ok v) ->
    l = (fun r => read_reg a (Z.of_nat r) fp) <$> seq 0 32).
  { intros l fp Hlen Hv. apply list_eq_same_length with (n := 32%nat); [|done|].
    - by rewrite length_fmap, length_seq.
    - intros i x y Hi32 Hx Hy. apply list_lookup_fmap_Some in Hy as (k & -> & Hk).
      apply lookup_seq in Hk as [-> _]. specialize (Hv i x Hx).
      rewrite Hr in Hv by (unfold reg_index; lia). by injection Hv. }
  unfold final_of, arch_final. f_equal.
  - apply Hreg; [rewrite length_fmap; lia|]. intros i v Hv.
    apply list_lookup_fmap_Some in Hv as (x & -> & Hx). unfold read_bits, read_int.
    pose proof (lookup_lt_Some _ _ _ Hx). rewrite require_index by (unfold NUM_INT_REGS; lia).
    cbn [rbind]. by rewrite (proj2 (vec_get_Ok _ _ x)) by (rewrite Nat2Z.id; split; [lia|done]).
  - apply Hreg; [rewrite length_fmap; lia|]. intros i v Hv.
    apply list_lookup_fmap_Some in Hv as (x & -> & Hx). unfold read_bits, read_fp.
    pose proof (lookup_lt_Some _ _ _ Hx). rewrite require_index by (unfold NUM_FP_REGS; lia).
    cbn [rbind]. by rewrite (proj2 (vec_get_Ok _ _ x)) by (rewrite Nat2Z.id; split; [lia|done]).
  - f_equal. apply list_eq. intros i. rewrite list_lookup_imap, list_lookup_fmap.
    destruct (decide (i < 1024)%nat) as [Hlt|Hge].
    + rewrite lookup_seq_lt by done. pose proof (Hm (Z.of_nat i) ltac:(lia)) as H.
      rewrite Nat2Z.id in H. by rewrite H.
    + rewrite lookup_ge_None_2 by lia. by rewrite lookup_seq_ge by lia.
Qed.

Lemma agrees_mem_u32 s a : arch_ok a -> agrees s a -> Forall is_u32 (mem s).
Proof.
  intros [_ _ Ho _] (_ & Hl & Hm). apply Forall_lookup. intros i v Hv.
  pose proof (lookup_lt_Some _ _ _ Hv). pose proof (Hm (Z.of_nat i) ltac:(lia)) as H'.
  rewrite Nat2Z.id, Hv in H'. injection H' as ->. apply Ho.
Qed.

Section Files.
Context `{FE : FPEnv}.

(** A command line, and what has to be true of it for a run: the program can be
    read, assembles to some program that satisfies the assumptions of the
    machine, and the output directories can be made. *)
Record runnable (fs : FileSystem) (asm_path out_dir src : string) (prog : list Instruction) : Prop := {
  ru_read : readable fs asm_path = Some src;
  ru_parse : parse_program (getlines src) = Ok prog;
  ru_some : prog <> [];
  ru_wf : wf_source prog;
  ru_logs : makeable fs (out_dir +:+ "/logs") = true;
  ru_final : makeable fs (out_dir +:+ "/final") = true
}.

(** [main] on such a command line is [run_program]. *)
Lemma main_runs fs argv0 asm_path out_dir rest src prog :
  runnable fs asm_path out_dir src prog ->
  Output.main fs argv0 (asm_path :: out_dir :: rest) =
  run_program fs asm_path out_dir (parse_messages (getlines src)) prog.
Proof.
  intros [Hr Hp Hne _ Hl Hf]. unfold Output.main, create_directories, parse_file.
  rewrite Hl, Hf, Hr. cbn [rbind]. rewrite Hp. cbn [rbind]. by destruct prog.
Qed.

(** C37. What [main] leaves is the report of its run: the clock loop with its
    fourteen streams, each dump going through the formatting state of the
    stream it is given, computes the states of the loop without output, exits
    with 0, and leaves in every log one text per cycle that depends on the
    state shown alone, and in the trace, cycle by cycle, the header and those
    same texts in the order of the calls. No dump leaks its number base, fill
    or width into the next one, and no log or dump faults. *)
Theorem main_writes_report fs argv0 asm_path out_dir rest src prog :
  runnable fs asm_path out_dir src prog ->
  exists s h, simulate prog = Ok s /\ history_of prog = Ok h /\
    Output.main fs argv0 (asm_path :: out_dir :: rest) =
      Ok (report fs asm_path out_dir (parse_messages (getlines src)) h s).
Proof.
  intros Hr. rewrite (main_runs _ argv0 _ _ rest _ _ Hr). destruct Hr as [_ _ _ Hsrc _ _].
  destruct (simulate_total prog Hsrc) as (s & _ & _ & Hs & _).
  pose proof (run_program_report prog fs asm_path out_dir (parse_messages (getlines src)) (proj1 Hsrc)) as H.
  rewrite Hs in H. destruct H as (h & Hh & Hmain). by exists s, h.
Qed.

(** The ways [main] can end. *)
Inductive main_outcome (fs : FileSystem) (argv0 : string) : list string -> res Exit -> Prop :=
| out_usage args :
    (length args < 2)%nat ->
    main_outcome fs argv0 args (Ok (mkExit 1 EmptyString
      ("Usage: " +:+ argv0 +:+ " <program.asm> <output_dir/>" +:+ String newline EmptyString) [] []))
| out_no_directory asm_path out_dir rest :
    makeable fs (out_dir +:+ "/logs") = false \/ makeable fs (out_dir +:+ "/final") = false ->
    main_outcome fs argv0 (asm_path :: out_dir :: rest)
      (Stop (Uncaught "std::filesystem::filesystem_error"))
| out_no_program asm_path out_dir rest cerr :
    (readable fs asm_path = None /\
       cerr = "Cannot open program: " +:+ asm_path +:+ String newline EmptyString) \/
    (exists src, readable fs asm_path = Some src /\ instr_lines (getlines src) = [] /\
       cerr = parse_messages (getlines src)) ->
    main_outcome fs argv0 (asm_path :: out_dir :: rest) (Ok (mkExit 1 EmptyString
      (cerr +:+ "No instructions loaded." +:+ String newline EmptyString)
      [out_dir +:+ "/logs"; out_dir +:+ "/final"] []))
| out_bad_line asm_path out_dir rest src j toks o f :
    readable fs asm_path = Some src -> instr_lines (getlines src) !! j = Some toks ->
    head_token toks = opcode_name o -> line_fault (format o) toks f ->
    main_outcome fs argv0 (asm_path :: out_dir :: rest) (Stop f)
| out_bad_register asm_path out_dir rest src prog f :
    readable fs asm_path = Some src -> parse_program (getlines src) = Ok prog ->
    simulate prog = Stop f -> stops_unnamed prog f ->
    main_outcome fs argv0 (asm_path :: out_dir :: rest) (Stop f)
| out_report asm_path out_dir rest src prog s h :
    readable fs asm_path = Some src -> parse_program (getlines src) = Ok prog -> prog <> [] ->
    simulate prog = Ok s -> history_of prog = Ok h ->
    main_outcome fs argv0 (asm_path :: out_dir :: rest)
      (Ok (report fs asm_path out_dir (parse_messages (getlines src)) h s)).

(** C7. Every way [main] can end, for every command line and every file system
    whose files have fewer than 2^30 lines: the usage message; an output
    directory that cannot be made; no instructions; a line with too few
    operands, or an operand that is no number or does not fit an [int]; an
    assertion of the renaming table, at the first instruction the run reaches
    that names a register that does not exist; or exit code 0 with the report
    of the run. It never runs forever, leaves a vector after assembly, or fails
    another assertion. *)
Theorem main_outcomes fs argv0 args :
  (forall path src, readable fs path = Some src -> Z.of_nat (length (getlines src)) < 2 ^ 30) ->
  main_outcome fs argv0 args (Output.main fs argv0 args).
Proof.
  intros Hsmall. destruct args as [|asm_path [|out_dir rest]]; [by apply out_usage; cbn; lia..|].
  unfold Output.main, create_directories.
  destruct (makeable fs (out_dir +:+ "/logs")) eqn:Hl; [|by apply out_no_directory; left].
  destruct (makeable fs (out_dir +:+ "/final")) eqn:Hf; [|by apply out_no_directory; right].
  cbn [rbind]. unfold parse_file. destruct (readable fs asm_path) as [src|] eqn:Hr; cbn [rbind].
  2: { apply out_no_program. left. done. }
  destruct (parse_program (getlines src)) as [prog|f] eqn:Hp; cbn [rbind].
  2: { destruct (decode_lines_stop _ _ _ _ Hp) as (j & toks & o & Hj & Ho & Hfault).
       by eapply out_bad_line. }
  destruct (assembled_text _ _ Hp (Hsmall _ _ Hr)) as [Htext _].
  destruct prog as [|i prog].
  { apply out_no_program. right. exists src. split; [done|]. split; [|done].
    destruct (decode_lines_spec _ _ _ _ Hp) as [Hlen _]. by apply nil_length_inv. }
  pose proof (run_program_report (i :: prog) fs asm_path out_dir (parse_messages (getlines src)) Htext) as H.
  pose proof (simulate_cases (i :: prog) Htext) as Hend.
  destruct (simulate (i :: prog)) as [s|f] eqn:Hs.
  - destruct H as (h & Hh & ->). by eapply out_report.
  - rewrite H. destruct Hend as [L Hend]. eapply out_bad_register; [done..|].
    by eapply unnamed_from_stops.
Qed.

(** C38. final_regs.txt is the result: when the program's loads keep clear of
    hazards, the sequential machine stops within [fuel] instructions, and the
    cycle limit leaves room for them ([18 * (fuel + 1) <= MAX_CYCLES], at most
    11110 instructions), [main] exits with 0 and writes a final_regs.txt from
    which a reader recovers the number of cycles [simulate] ran, every register
    and exactly the non-zero words of the memory; registers and memory are those
    of the sequential machine, and the cycles at most 18 for each instruction
    and 18 more. *)
Theorem final_file_correct fs argv0 asm_path out_dir rest src prog fuel a :
  runnable fs asm_path out_dir src prog -> forwarding_safe (stamp prog) -> one_line asm_path ->
  writable fs ((out_dir +:+ "/final") +:+ "/" +:+ "final_regs.txt") = true ->
  run (stamp prog) fuel arch_init = Some a -> 18 * (Z.of_nat fuel + 1) <= MAX_CYCLES ->
  exists s e t, simulate prog = Ok s /\
    Output.main fs argv0 (asm_path :: out_dir :: rest) = Ok e /\ exit_code e = 0 /\
    ((out_dir +:+ "/final") +:+ "/" +:+ "final_regs.txt", t) ∈ out_files e /\
    read_final t = Some (arch_final (cycle s - 1) a) /\ 0 <= cycle s - 1 <= 18 * (Z.of_nat fuel + 1).
Proof.
  intros Hr Hsafe Hline Hw Hrun Hfuel. rewrite (main_runs _ argv0 _ _ rest _ _ Hr). destruct Hr.
  destruct (simulate_halts prog fuel a) as (s & Hs & _ & Hag & Hc); [done..|].
  destruct (simulate_total prog) as (s2 & b & n & Hs2 & [L HI] & _); [done..|].
  rewrite Hs in Hs2. injection Hs2 as <-.
  pose proof (run_program_report prog fs asm_path out_dir (parse_messages (getlines src))
    (proj1 ru_wf0)) as Hmain. rewrite Hs in Hmain. destruct Hmain as (h & Hh & Hmain).
  destruct (run_history prog (proj1 ru_wf0) s Hs) as (h' & Hh' & Hlen & _).
  rewrite Hh in Hh'. injection Hh' as <-. destruct HI as [_ _ [Hrf _] _ _ _ _ _]. pose proof Hag as (_ & Hl & _).
  eexists s, _, _. split; [exact Hs|]. split; [exact Hmain|]. split; [done|]. split; [|split; [|lia]].
  - unfold report, file_entry. cbn [out_files]. rewrite Hw, !elem_of_app.
    right. right. apply elem_of_cons. by left.
  - rewrite <- (agrees_final s a Hrf Hag). apply read_final_text; try done; [|lia].
    eapply agrees_mem_u32; [|done].
    destruct (run_stops (stamp prog) fuel 0 a) as (t & _ & _ & ->); [intros s' i Hs'; lia|done|].
    apply st_at_ok.
Qed.

(** C39. cu.log is the run, one line per cycle: for every program of well-formed
    instructions the log has one line for every cycle, numbered from 1, and
    leaving out the idle ones its lines are the instructions the engine
    committed, the commit of the last cycle apart, which no line shows. For some
    load values that the loads can return, the [k]-th of them shows the
    operation, address, destination and result of the [k]-th instruction the
    sequential machine with these values executes, and with that last commit
    these are all the instructions that made the final registers and memory.
    When the program's loads keep clear of hazards this is the plain sequential
    machine. *)
Theorem cu_log_is_sequential_run prog :
  wf_source prog ->
  exists s h rs, simulate prog = Ok s /\ history_of prog = Ok h /\
    log_text h u_cu = text_concat (imap (fun i r => commit_line (1 + Z.of_nat i) r) rs) /\
    len rs = cycle s - 1 /\
    let committed := valid_records rs ++ valid_records [last s] in
    trace prog committed s /\
    (exists loads : Loads, valid_loads (stamp prog) (L := loads) (length committed) /\
       agrees s (st_at (stamp prog) (L := loads) (length committed)) /\
       forall k r, committed !! k = Some r -> recorded prog loads k r) /\
    (forwarding_safe (stamp prog) ->
       (forall k r, committed !! k = Some r -> record_at prog k r) /\
       agrees s (steps (stamp prog) (length committed) arch_init)).
Proof.
  intros [Htext Hnm]. destruct (simulate_total prog (conj Htext Hnm)) as (s & _ & _ & Hs & _).
  destruct (run_history prog Htext s Hs) as (h & Hh & Hlen & Hlog & Ht).
  exists s, h, (shown h). split; [done|]. split; [done|]. split; [done|].
  split; [unfold shown; by rewrite length_fmap|]. split; [done|].
  split; [by apply trace_loads|]. intros Hsafe.
  by destruct (trace_sequential prog Htext Hsafe _ _ Ht).
Qed.

End Files.

(** ** Floats *)

(** Reading back what [os << f] prints. *)
Lemma float_text_accurate f :
  match rational (value f) with
  | Some v => exists ck, read_decimal (show_float f) = Some ck /\
      (Qabs (decimal ck - v) <= (1 # 200000) * Qabs v)%Q
  | None => read_decimal (show_float f) = None
  end.
Proof.
  destruct (value f) as [s|s| |s m e] eqn:Hv; cbn [rational].
  - exists (0, 0). unfold show_float. rewrite Hv. by destruct s.
  - unfold show_float. rewrite Hv. by destruct s.
  - unfold show_float. rewrite Hv. by destruct (sign_field (repr f)).
  - destruct (show_finite f s m e Hv) as (ck & Hr & Hc). exists ck. split; [done|].
    assert (Hm : (0 <= magnitude m e)%Q).
    { pose proof (fraction_of_range f s m e Hv) as H. unfold magnitude.
      destruct (fraction_of m e) as [n d]. destruct H as (_ & Hlo & _).
      apply Qle_trans with (2 := Hlo). apply Qlt_le_weak, ten_pos. }
    destruct s; [rewrite Qabs_opp|]; by rewrite (Qabs_pos (magnitude m e)).
Qed.

(** C40. The two fields of a floating-point line of final_regs.txt agree: the
    hexadecimal one reads back to the bits of the register, and the decimal one
    to a number whose distance from what these bits denote is at most 5 parts
    in 10^6 of its magnitude, exactly zero for the zeros; for infinities and
    NaNs it is no number. *)
Theorem fp_line_accurate s i f :
  rf_ok (rf s) -> RegisterFile.read_fp (rf s) (Z.of_nat i) = Ok f ->
  exists h t, text (fun os => final_fp s os i) = h +:+ " (" +:+ t +:+ "f)" +:+ String newline EmptyString /\
    read_reg_line h = Some (repr f) /\
    match rational (value f) with
    | Some v => exists ck, read_decimal t = Some ck /\
        (Qabs (decimal ck - v) <= (1 # 200000) * Qabs v)%Q
    | None => read_decimal t = None
    end.
Proof.
  intros [_ _ _ Hfr _] Hread. apply rbind_Ok in Hread as (u & Hi & Hv).
  apply require_Ok, andb_true_iff in Hi as [_ Hi%Z.ltb_lt]. unfold NUM_FP_REGS in Hi.
  apply vec_get_Ok in Hv as [_ Hv]. rewrite Nat2Z.id in Hv.
  destruct (Forall_lookup_1 _ _ _ _ Hfr Hv) as [Hf _].
  exists ("f" +:+ pad 2 "0" (print_int (Z.of_nat i)) +:+ " 0x" +:+ pad 8 "0" (show_nat 16 (repr f))).
  exists (show_float f). split; [|split; [|apply float_text_accurate]].
  - rewrite (prints_text _ _ (final_fp_text s i f Hv ltac:(lia))). unfold fp_line.
    by rewrite <- !(assoc_L String.append).
  - rewrite <- (app_empty (pad 8 _ _)). apply read_reg_text; [done|lia|done|done].
Qed.

(** ** Witnesses *)

(** A file system with one program, where everything can be written. *)
Definition answer_src : string :=
  unlines ["ADDI x1, x0, 42   # the answer"; "SW x1, 100(x0)"; "HALT"].

Definition answer : list Instruction :=
  [ mkInstruction ADDI 1 0 (-1) 42 false false false 0;
    mkInstruction SW (-1) 0 1 100 false false false 4;
    mkInstruction HALT (-1) (-1) (-1) 0 false false false 8 ].

Definition answer_fs : FileSystem :=
  mkFileSystem (fun p => if bool_decide (p = "answer.asm"%string) then Some answer_src else None)
    (fun _ => true) (fun _ => true).

Lemma answer_runnable : runnable answer_fs "answer.asm" "out" answer_src answer.
Proof.
  constructor.
  - reflexivity.
  - by vm_compute.
  - discriminate.
  - by apply wf_source_b_sound.
  - reflexivity.
  - reflexivity.
Qed.

Lemma answer_safe : forwarding_safe (FE := x86_fp) (stamp answer).
Proof. apply (safe_run_sound (FE := x86_fp) _ 10). by vm_compute. Qed.

Lemma main_writes_report_witness :
  runnable answer_fs "answer.asm" "out" answer_src answer /\
  exists s h, simulate (FE := x86_fp) answer = Ok s /\ history_of (FE := x86_fp) answer = Ok h /\
    Output.main (FE := x86_fp) answer_fs "tomasulo" ["answer.asm"; "out"] =
      Ok (report answer_fs "answer.asm" "out" (parse_messages (getlines answer_src)) h s).
Proof.
  split; [apply answer_runnable|].
  apply (main_writes_report (FE := x86_fp) answer_fs "tomasulo" "answer.asm" "out" [] answer_src answer).
  apply answer_runnable.
Defined.

(** The file system with one more file, and with sources that stop: a
    missing operand, a number that is none, the stack pointer by its name, a
    register number that is no [int], and a register that is not there, behind
    a HALT. *)
Definition file_fs (src : string) : FileSystem :=
  mkFileSystem (fun _ => Some src) (fun _ => true) (fun _ => true).

Definition stopping : list (string * Fault) :=
  [ (unlines ["ADD x1, x2"], OutOfBounds);
    (unlines ["ADDI x1, x0, ten"], Uncaught "std::invalid_argument");
    (unlines ["ADDI sp, x0, 1"], Uncaught "std::invalid_argument");
    (unlines ["LW x1, 4(x2147483648)"], Uncaught "std::out_of_range");
    (unlines ["FCVT.S.W f1, x0"; "HALT"; "ADDI x40, x0, 1"],
      AssertionFailed "RegisterRemappingTable::map") ].

Lemma main_outcomes_witness :
  main_outcome (FE := x86_fp) answer_fs "tomasulo" ["answer.asm"; "out"]
    (Output.main (FE := x86_fp) answer_fs "tomasulo" ["answer.asm"; "out"]) /\
  Forall (fun x => main_outcome (FE := x86_fp) (file_fs (fst x)) "tomasulo" ["bad.asm"; "out"] (Stop (snd x)))
    stopping.
Proof.
  split.
  - apply (main_outcomes (FE := x86_fp)). intros path src Hsrc. cbn in Hsrc.
    destruct (bool_decide (path = "answer.asm"%string)); [|discriminate Hsrc].
    injection Hsrc as <-. reflexivity.
  - assert (H : forall src f, Output.main (FE := x86_fp) (file_fs src) "tomasulo" ["bad.asm"; "out"] = Stop f ->
      Z.of_nat (length (getlines src)) < 2 ^ 30 ->
      main_outcome (FE := x86_fp) (file_fs src) "tomasulo" ["bad.asm"; "out"] (Stop f)).
    { intros src f Hm Hl. rewrite <- Hm. apply (main_outcomes (FE := x86_fp)). intros path src' Hsrc.
      injection Hsrc as <-. exact Hl. }
    repeat apply Forall_cons_2; try apply Forall_nil_2; apply H; vm_compute; reflexivity.
Defined.

Definition answer_end : Arch := steps (FE := x86_fp) (stamp answer) 2 arch_init.

Lemma final_file_correct_witness :
  run (FE := x86_fp) (stamp answer) 3 arch_init = Some answer_end /\
  exists s e t, simulate (FE := x86_fp) answer = Ok s /\
    Output.main (FE := x86_fp) answer_fs "tomasulo" ["answer.asm"; "out"] = Ok e /\
    exit_code e = 0 /\ (("out" +:+ "/final") +:+ "/" +:+ "final_regs.txt", t) ∈ out_files e /\
    read_final t = Some (arch_final (cycle s - 1) answer_end) /\
    0 <= cycle s - 1 <= 18 * (Z.of_nat 3 + 1).
Proof.
  assert (Hrun : run (FE := x86_fp) (stamp answer) 3 arch_init = Some answer_end) by reflexivity.
  split; [exact Hrun|].
  apply (final_file_correct (FE := x86_fp) answer_fs "tomasulo" "answer.asm" "out" [] answer_src answer
    3 answer_end); [apply answer_runnable|apply answer_safe|reflexivity|reflexivity|exact Hrun|unfold MAX_CYCLES; lia].
Defined.

Lemma cu_log_is_sequential_run_witness :
  (wf_source answer /\ forwarding_safe (FE := x86_fp) (stamp answer)) /\
  exists s h rs, simulate (FE := x86_fp) answer = Ok s /\ history_of (FE := x86_fp) answer = Ok h /\
    log_text h u_cu = text_concat (imap (fun i r => commit_line (1 + Z.of_nat i) r) rs) /\
    len rs = cycle s - 1 /\
    (forall k r, (valid_records rs ++ valid_records [last s]) !! k = Some r ->
       record_at (FE := x86_fp) answer k r) /\
    agrees s (steps (FE := x86_fp) (stamp answer)
      (length (valid_records rs ++ valid_records [last s])) arch_init).
Proof.
  split; [exact (conj (ru_wf _ _ _ _ _ answer_runnable) answer_safe)|].
  destruct (cu_log_is_sequential_run (FE := x86_fp) answer (ru_wf _ _ _ _ _ answer_runnable))
    as (s & h & rs & Hs & Hh & Hlog & Hlen & _ & _ & Hseq).
  exists s, h, rs. exact (conj Hs (conj Hh (conj Hlog (conj Hlen (Hseq answer_safe))))).
Defined.

(** A state whose register f3 holds 0.1. *)
Definition tenth : float := bits_to_float 1036831949.
Definition tenth_rf : RegisterFile :=
  mkRegisterFile (int_regs_ RegisterFile.init) (<[3%nat := tenth]> (fp_regs_ RegisterFile.init)).
Definition with_rf (r : RegisterFile) (s : Sim) : Sim :=
  mkSim (mem s) r (rat s) (rob s) (cdb s) (stations s) (lsb s) (iq s) (last s) (halted s)
    (branch_in_flight s) (cycle s).

Lemma tenth_rf_ok : rf_ok tenth_rf.
Proof.
  destruct rf_init_ok as [Hi Hf Hir Hfr H0]. constructor; try done.
  - apply Forall_insert; [done|]. by vm_compute.
Qed.

Lemma fp_line_accurate_witness :
  exists s v h t, RegisterFile.read_fp (rf s) 3 = Ok tenth /\ rational (value tenth) = Some v /\
    text (fun os => final_fp s os 3) = h +:+ " (" +:+ t +:+ "f)" +:+ String newline EmptyString /\
    read_reg_line h = Some 1036831949 /\
    exists ck, read_decimal t = Some ck /\ (Qabs (decimal ck - v) <= (1 # 200000) * Qabs v)%Q.
Proof.
  destruct (init_sim answer) as [s|f] eqn:E; [|vm_compute in E; discriminate E].
  destruct (fp_line_accurate (with_rf tenth_rf s) 3 tenth tenth_rf_ok eq_refl)
    as (h & t & Ht & Hh & Hv).
  exists (with_rf tenth_rf s). destruct (rational (value tenth)) as [v|] eqn:Ev;
    [|vm_compute in Ev; discriminate Ev].
  exists v, h, t. exact (conj eq_refl (conj eq_refl (conj Ht (conj Hh Hv)))).
Defined.
