(* ===== verification/HwPkg.v ===== *)
(** * rv32if_pkg.sv, and the vectors of SystemVerilog *)

From S2P Require Import Prelude Words.

(** * rv32if_pkg.sv: types and helpers of the hardware core

    A vector [logic \[w-1:0\]] is an integer in [0 .. 2^w - 1]; operators
    write out the truncation to the width of the assignment. Signals have two
    values: unknown and high-impedance ones are not modelled, every register
    starts from the value its reset gives it. *)

(** ** SystemVerilog vectors *)

(** Truncation to [w] bits: an assignment, or a size cast [w'(z)]. *)
Definition trunc (w z : Z) : Z := z mod 2 ^ w.

(** The part select [z\[hi:lo\]]. *)
Definition bits (z hi lo : Z) : Z := (z / 2 ^ lo) mod 2 ^ (hi - lo + 1).

(** [{a, b}] where [b] has [w] bits. *)
Definition cat (a w b : Z) : Z := a * 2 ^ w + b.

(** [{n{b}}]: a bit repeated [n] times. *)
Definition fill (n : Z) (b : bool) : Z := if b then 2 ^ n - 1 else 0.

(** [~z] in [w] bits. *)
Definition bnot (w z : Z) : Z := 2 ^ w - 1 - z.

(** ** Structural sizes *)

Definition IQ_DEPTH : Z := 8.
Definition ROB_SIZE : Z := 16.
Definition RS_ALU_SIZE : Z := 6.
Definition RS_BRANCH_SIZE : Z := 2.
Definition RS_FP_ADDSUB_SIZE : Z := 3.
Definition RS_FP_MUL_SIZE : Z := 2.
Definition RS_FP_DIV_SIZE : Z := 2.
Definition RS_FP_CVT_SIZE : Z := 2.
Definition LSB_SIZE : Z := 8.
Definition NUM_FU : Z := 7.
Definition NUM_INT_REGS : Z := 32.
Definition NUM_FP_REGS : Z := 32.
Definition MEM_SIZE : Z := 1024.

Definition DATA_W : Z := 32.
Definition ARCH_W : Z := 5.
Definition TAG_W : Z := 4.
Definition PC_W : Z := 32.

(** ** Opcodes *)

Inductive opcode_e : Type :=
| OP_ADD | OP_SUB | OP_AND | OP_OR | OP_XOR | OP_SLL | OP_SRL | OP_SRA
| OP_ADDI | OP_ANDI | OP_ORI | OP_XORI | OP_SLLI | OP_SRLI
| OP_LW | OP_SW
| OP_BEQ | OP_BNE | OP_BLT | OP_BGE
| OP_JAL | OP_JALR | OP_LUI | OP_AUIPC
| OP_SRAI | OP_SLT | OP_SLTU | OP_SLTI | OP_SLTIU
| OP_LB | OP_LBU | OP_LH | OP_LHU | OP_SB | OP_SH
| OP_BLTU | OP_BGEU
| OP_FADD_S | OP_FSUB_S | OP_FMUL_S | OP_FDIV_S
| OP_FLW | OP_FSW | OP_FCVT_W_S | OP_FCVT_S_W
| OP_NOP | OP_HALT.

#[global] Instance opcode_e_eq_dec : EqDecision opcode_e.
Proof. solve_decision. Defined.

Definition opb (a b : opcode_e) : bool := bool_decide (a = b).

(** The encoding the [enum] gives. *)
Definition opcode_code (o : opcode_e) : Z :=
  match o with
  | OP_ADD => 0 | OP_SUB => 1 | OP_AND => 2 | OP_OR => 3 | OP_XOR => 4
  | OP_SLL => 5 | OP_SRL => 6 | OP_SRA => 7 | OP_ADDI => 8 | OP_ANDI => 9
  | OP_ORI => 10 | OP_XORI => 11 | OP_SLLI => 12 | OP_SRLI => 13
  | OP_LW => 14 | OP_SW => 15 | OP_BEQ => 16 | OP_BNE => 17 | OP_BLT => 18
  | OP_BGE => 19 | OP_JAL => 20 | OP_JALR => 21 | OP_LUI => 22
  | OP_FADD_S => 23 | OP_FSUB_S => 24 | OP_FMUL_S => 25 | OP_FDIV_S => 26
  | OP_FLW => 27 | OP_FSW => 28 | OP_FCVT_W_S => 29 | OP_FCVT_S_W => 30
  | OP_AUIPC => 31 | OP_SRAI => 32 | OP_SLT => 33 | OP_SLTU => 34
  | OP_SLTI => 35 | OP_SLTIU => 36 | OP_LB => 37 | OP_LBU => 38 | OP_LH => 39
  | OP_LHU => 40 | OP_SB => 41 | OP_SH => 42 | OP_BLTU => 43 | OP_BGEU => 44
  | OP_NOP => 62 | OP_HALT => 63
  end.

(** ** Structures *)

Record instr_t : Type := mkInstr {
  in_op : opcode_e;
  in_rd : Z;
  in_rs1 : Z;
  in_rs2 : Z;
  in_imm : Z;
  in_rd_fp : bool;
  in_rs1_fp : bool;
  in_rs2_fp : bool;
  in_rd_valid : bool;
  in_pc : Z
}.

Record cdb_t : Type := mkCdb {
  cdb_tag : Z;
  cdb_value : Z;
  cdb_valid : bool
}.

Inductive rob_state_e : Type := ROB_IDLE | ROB_IN_FLIGHT | ROB_DONE.

#[global] Instance rob_state_e_eq_dec : EqDecision rob_state_e.
Proof. solve_decision. Defined.

Record rob_entry_t : Type := mkRobEntry {
  ro_state : rob_state_e;
  ro_op : opcode_e;
  ro_rd : Z;
  ro_rd_fp : bool;
  ro_rd_valid : bool;
  ro_result : Z;
  ro_pc : Z;
  ro_is_branch : bool;
  ro_branch_taken : bool;
  ro_branch_target : Z
}.

Record rs_entry_t : Type := mkRsEntry {
  rs_op : opcode_e;
  rs_rob_tag : Z;
  rs1_ready : bool;
  rs1_val : Z;
  rs1_tag : Z;
  rs2_ready : bool;
  rs2_val : Z;
  rs2_tag : Z;
  rs_imm : Z;
  rs_pc : Z
}.

(** The structures with every bit zero, [X'('0)]: opcode 0 is [OP_ADD], state
    0 is [ROB_IDLE]. *)
Definition instr_0 : instr_t := mkInstr OP_ADD 0 0 0 0 false false false false 0.
Definition cdb_0 : cdb_t := mkCdb 0 0 false.
Definition rob_entry_0 : rob_entry_t :=
  mkRobEntry ROB_IDLE OP_ADD 0 false false 0 0 false false 0.
Definition rs_entry_0 : rs_entry_t := mkRsEntry OP_ADD 0 false 0 0 false 0 0 0 0.

(** ** Helper functions *)

Definition is_branch_op (o : opcode_e) : bool :=
  opb o OP_BEQ || opb o OP_BNE || opb o OP_BLT || opb o OP_BGE || opb o OP_BLTU || opb o OP_BGEU.

Definition is_jump_op (o : opcode_e) : bool := opb o OP_JAL || opb o OP_JALR.

Definition is_load_op (o : opcode_e) : bool :=
  opb o OP_LW || opb o OP_FLW || opb o OP_LB || opb o OP_LBU || opb o OP_LH || opb o OP_LHU.

Definition is_store_op (o : opcode_e) : bool :=
  opb o OP_SW || opb o OP_FSW || opb o OP_SB || opb o OP_SH.

Definition is_fp_op (o : opcode_e) : bool :=
  opb o OP_FADD_S || opb o OP_FSUB_S || opb o OP_FMUL_S || opb o OP_FDIV_S ||
  opb o OP_FLW || opb o OP_FSW || opb o OP_FCVT_W_S || opb o OP_FCVT_S_W.

(** ** Arrays *)

(** [a\[i\]] for an unpacked array: the index has as many bits as the array
    needs, so the default is never read from an array of the right size. *)
Definition at_ {A} (d : A) (l : list A) (i : Z) : A := nth (Z.to_nat i) l d.

(** [a\[i\] <= x] *)
Definition put {A} (l : list A) (i : Z) (x : A) : list A := <[Z.to_nat i := x]> l.

(** * Lemmas on SystemVerilog vectors *)

(** ** Part selects of concatenations *)

Lemma bits_range z hi lo : lo <= hi + 1 -> 0 <= bits z hi lo < 2 ^ (hi - lo + 1).
Proof. intros. apply Z.mod_pos_bound, Z.pow_pos_nonneg; lia. Qed.

Lemma bits_cat_high a w b hi lo :
  0 <= b < 2 ^ w -> 0 <= w <= lo -> bits (cat a w b) hi lo = bits a (hi - w) (lo - w).
Proof.
  intros Hb Hw. unfold bits, cat. replace (hi - w - (lo - w)) with (hi - lo) by lia. f_equal.
  replace (2 ^ lo) with (2 ^ w * 2 ^ (lo - w)) by (rewrite <- Z.pow_add_r by lia; f_equal; lia).
  rewrite <- Z.div_div by lia. f_equal. rewrite Z.div_add_l by lia.
  rewrite (Z.div_small b) by lia. lia.
Qed.

Lemma bits_cat_low a w b hi lo :
  0 <= lo <= hi -> hi < w -> bits (cat a w b) hi lo = bits b hi lo.
Proof.
  intros Hl Hh. unfold bits, cat.
  replace (2 ^ w) with (2 ^ (w - hi - 1) * 2 ^ (hi - lo + 1) * 2 ^ lo)
    by (rewrite <- !Z.pow_add_r by lia; f_equal; lia).
  rewrite Z.mul_assoc, Z.div_add_l by lia. rewrite Z.mul_assoc, Z.add_comm. apply Z_mod_plus_full.
Qed.

Lemma bits_full z w : 0 <= z < 2 ^ (w + 1) -> bits z w 0 = z.
Proof.
  intros. unfold bits. rewrite Z.pow_0_r, Z.div_1_r, Z.sub_0_r. by apply Z.mod_small.
Qed.

Lemma testbit_bits z n : Z.testbit z n = (bits z n n =? 1).
Proof.
  destruct (Z.lt_ge_cases n 0) as [Hn|Hn].
  - rewrite Z.testbit_neg_r by done. unfold bits.
    rewrite Z.pow_neg_r, Zdiv_0_r by done. by rewrite Zmod_0_l.
  - unfold bits. rewrite Z.sub_diag. change (2 ^ (0 + 1)) with 2.
    rewrite <- (Z.testbit_spec' z n) by done. by destruct (Z.testbit z n).
Qed.

(** Adjacent part selects join. *)
Lemma cat_bits z hi mid lo w :
  0 <= lo <= mid -> mid <= hi -> w = mid - lo -> cat (bits z hi mid) w (bits z (mid - 1) lo) = bits z hi lo.
Proof.
  intros Hl Hm ->. unfold cat, bits. replace (mid - 1 - lo + 1) with (mid - lo) by lia.
  replace (2 ^ mid) with (2 ^ lo * 2 ^ (mid - lo)) by (rewrite <- Z.pow_add_r by lia; f_equal; lia).
  rewrite <- Z.div_div by lia.
  replace (2 ^ (hi - lo + 1)) with (2 ^ (mid - lo) * 2 ^ (hi - mid + 1))
    by (rewrite <- Z.pow_add_r by lia; f_equal; lia).
  rewrite Z.rem_mul_r by lia. lia.
Qed.

(** Size bounds. *)
Lemma cat_range a n w b : 0 <= a < 2 ^ n -> 0 <= b < 2 ^ w -> 0 <= n -> 0 <= w -> 0 <= cat a w b < 2 ^ (n + w).
Proof.
  intros Ha Hb Hn Hw. unfold cat. rewrite Z.pow_add_r by done.
  assert (0 < 2 ^ w) by (apply Z.pow_pos_nonneg; lia). nia.
Qed.

Lemma trunc_range w z : 0 <= w -> 0 <= trunc w z < 2 ^ w.
Proof. intros. apply Z.mod_pos_bound, Z.pow_pos_nonneg; lia. Qed.

Lemma trunc_id w z : 0 <= z < 2 ^ w -> trunc w z = z.
Proof. apply Z.mod_small. Qed.

Lemma bits_low z n : 0 <= n -> bits z (n - 1) 0 = z mod 2 ^ n.
Proof. intros. unfold bits. rewrite Z.pow_0_r, Z.div_1_r. f_equal. f_equal. lia. Qed.

Lemma at_put {A} (d : A) l i j x :
  0 <= i < len l -> 0 <= j -> at_ d (put l i x) j = if j =? i then x else at_ d l j.
Proof.
  intros Hi Hj. unfold at_, put. rewrite !nth_lookup. destruct (Z.eqb_spec j i) as [->|Hne].
  - by rewrite list_lookup_insert_eq by lia.
  - by rewrite list_lookup_insert_ne by lia.
Qed.

Lemma length_put {A} (l : list A) i x : length (put l i x) = length l.
Proof. apply length_insert. Qed.
