(* ===== verification/HwUnits.v ===== *)
(** * The functional units of the core: integer, branch, floating point *)

From S2P Require Import Prelude Words HwPkg.

(** * alu_unit.sv, branch_unit.sv: the integer units

    Each unit registers its result: the outputs of a cycle are the state the
    last clock edge left. *)

(** ** alu_int *)

Module alu_int.

Record state : Type := mk {
  valid_o : bool;
  tag_o : Z;
  result_o : Z
}.

Definition reset : state := mk false 0 0.

(** [result_next] *)
Definition result_next (op_i : opcode_e) (pc_i rs1_i rs2_i imm_i : Z) : Z :=
  match op_i with
  | OP_ADD => trunc 32 (rs1_i + rs2_i)
  | OP_SUB => trunc 32 (rs1_i - rs2_i)
  | OP_AND => Z.land rs1_i rs2_i
  | OP_OR => Z.lor rs1_i rs2_i
  | OP_XOR => Z.lxor rs1_i rs2_i
  | OP_SLL => trunc 32 (Z.shiftl rs1_i (bits rs2_i 4 0))
  | OP_SRL => Z.shiftr rs1_i (bits rs2_i 4 0)
  | OP_SRA => trunc 32 (Z.shiftr (s32 rs1_i) (bits rs2_i 4 0))
  | OP_SLT => if s32 rs1_i <? s32 rs2_i then 1 else 0
  | OP_SLTU => if rs1_i <? rs2_i then 1 else 0
  | OP_ADDI => trunc 32 (rs1_i + imm_i)
  | OP_ANDI => Z.land rs1_i imm_i
  | OP_ORI => Z.lor rs1_i imm_i
  | OP_XORI => Z.lxor rs1_i imm_i
  | OP_SLLI => trunc 32 (Z.shiftl rs1_i (bits imm_i 4 0))
  | OP_SRLI => Z.shiftr rs1_i (bits imm_i 4 0)
  | OP_SRAI => trunc 32 (Z.shiftr (s32 rs1_i) (bits imm_i 4 0))
  | OP_SLTI => if s32 rs1_i <? s32 imm_i then 1 else 0
  | OP_SLTIU => if rs1_i <? imm_i then 1 else 0
  | OP_LUI => imm_i
  | OP_AUIPC => trunc 32 (pc_i + imm_i)
  | _ => 0
  end.

(** The clock edge; an idle unit keeps its last result and tag. *)
Definition next (s : state) (valid_i : bool) (op_i : opcode_e) (tag_i pc_i rs1_i rs2_i imm_i : Z)
    : state :=
  if valid_i then mk true tag_i (result_next op_i pc_i rs1_i rs2_i imm_i)
  else mk false (tag_o s) (result_o s).

End alu_int.

(** ** branch_unit *)

Module branch_unit.

Record state : Type := mk {
  valid_o : bool;
  tag_o : Z;
  target_o : Z;
  taken_o : bool
}.

Definition reset : state := mk false 0 0 false.

Definition taken_next (op_i : opcode_e) (rs1_i rs2_i : Z) : bool :=
  match op_i with
  | OP_BEQ => rs1_i =? rs2_i
  | OP_BNE => negb (rs1_i =? rs2_i)
  | OP_BLT => s32 rs1_i <? s32 rs2_i
  | OP_BGE => s32 rs2_i <=? s32 rs1_i
  | OP_BLTU => rs1_i <? rs2_i
  | OP_BGEU => rs2_i <=? rs1_i
  | OP_JAL | OP_JALR => true
  | _ => false
  end.

Definition target_next (op_i : opcode_e) (rs1_i rs2_i imm_i pc_i : Z) : Z :=
  match op_i with
  | OP_BEQ | OP_BNE | OP_BLT | OP_BGE | OP_BLTU | OP_BGEU | OP_JAL =>
      if taken_next op_i rs1_i rs2_i then trunc 32 (pc_i + imm_i) else trunc 32 (pc_i + 4)
  | OP_JALR => Z.land (trunc 32 (rs1_i + imm_i)) (bnot 32 1)
  | _ => 0
  end.

(** The clock edge; an idle unit clears its outputs. *)
Definition next (s : state) (valid_i : bool) (op_i : opcode_e) (tag_i rs1_i rs2_i imm_i pc_i : Z)
    : state :=
  if valid_i
  then mk true tag_i (target_next op_i rs1_i rs2_i imm_i pc_i) (taken_next op_i rs1_i rs2_i)
  else mk false 0 0 false.

End branch_unit.

(** * The floating-point units: fp_add.sv, fp_mul.sv, fp_div.sv, fp_cvt.sv, fp_round.sv

    Vectors are sliced and shifted as in the source. A unit that holds its
    result until the bus takes it freezes when it is not granted
    ([advance]). *)

(** The highest set bit below [n], as the [for] loops find it: the last
    assignment wins, 0 when no bit is set. *)
Fixpoint highest_bit (n : nat) (z : Z) : Z :=
  match n with
  | O => 0
  | S k => if Z.testbit z (Z.of_nat k) then Z.of_nat k else highest_bit k z
  end.

(** ** fp_add *)

Module fp_add.

(** [fp_add_core], from the point where [ea >= eb]: align, add or subtract,
    normalize. *)
Definition aligned (sa sb : bool) (ea eb ma mb : Z) : Z :=
  let ediff := trunc 8 (ea - eb) in
  let xa := cat ma 2 0 in
  let xb := if 25 <? ediff then 0 else Z.shiftr (cat mb 2 0) (bits ediff 4 0) in
  let '(s, sr) :=
    if eqb sa sb then (trunc 27 (xa + xb), sa)
    else if xb <=? xa then (trunc 27 (xa - xb), sa)
    else (trunc 27 (xb - xa), sb) in
  if s =? 0 then 0
  else if Z.testbit s 26 then
    cat (cat (Z.b2z sr) 8 (trunc 8 (ea + 1))) 23 (bits s 25 3)
  else
    let sh := trunc 8 (25 - highest_bit 26 s) in
    let norm := trunc 26 (Z.shiftl (bits s 25 0) (bits sh 4 0)) in
    if sh <? ea then cat (cat (Z.b2z sr) 8 (trunc 8 (ea - sh))) 23 (bits norm 24 2)
    else 0.

Definition fp_add_core (a b : Z) (subtract : bool) : Z :=
  let sa := Z.testbit a 31 in
  let ea := bits a 30 23 in
  let ma := cat 1 23 (bits a 22 0) in
  let sb := xorb (Z.testbit b 31) subtract in
  let eb := bits b 30 23 in
  let mb := cat 1 23 (bits b 22 0) in
  if (ea =? 0) && (eb =? 0) then 0
  else if ea =? 0 then cat (Z.b2z sb) 31 (bits b 30 0)
  else if eb =? 0 then a
  else if ea <? eb then aligned sb sa eb ea mb ma
  else aligned sa sb ea eb ma mb.

End fp_add.

(** ** fp_cvt *)

Module fp_cvt.

Definition fp_to_int (f : Z) : Z :=
  let fs := Z.testbit f 31 in
  let fe := bits f 30 23 in
  let fmant := cat 1 23 (bits f 22 0) in
  if fe =? 0 then 0
  else if fe <? 127 then 0
  else if 158 <=? fe then (if fs then 2 ^ 31 else 2 ^ 31 - 1)
  else
    let exp_u := trunc 5 (fe - 127) in
    let mag :=
      if 23 <=? exp_u then trunc 32 (Z.shiftl fmant (trunc 5 (exp_u - 23)))
      else Z.shiftr fmant (trunc 5 (23 - exp_u)) in
    if fs then trunc 32 (bnot 32 mag + 1) else mag.

Definition int_to_fp (x : Z) : Z :=
  if x =? 0 then 0
  else
    let xs := Z.testbit x 31 in
    let mag := if xs then trunc 32 (bnot 32 x + 1) else x in
    let pos := highest_bit 32 mag in
    let sh := trunc 5 (31 - pos) in
    let norm := trunc 32 (Z.shiftl mag sh) in
    let fe := trunc 8 (127 + pos) in
    cat (cat (Z.b2z xs) 8 fe) 23 (bits norm 30 8).

Definition compute_result (op_i : opcode_e) (rs1_i : Z) : Z :=
  if opb op_i OP_FCVT_W_S then fp_to_int rs1_i else int_to_fp rs1_i.

End fp_cvt.

(** ** The two-stage pipeline of fp_add and fp_cvt

    The two modules have the same registers and the same [always_ff] block;
    they differ in [compute_result]. *)

Module two_stage.

Record state : Type := mk {
  s1_valid : bool;
  s1_tag : Z;
  s1_result : Z;
  s2_valid : bool;
  s2_tag : Z;
  s2_result : Z
}.

Definition reset : state := mk false 0 0 false 0 0.

Definition advance (s : state) (cdb_grant_i : bool) : bool := negb (s2_valid s) || cdb_grant_i.
Definition fu_ready_o := advance.

(** [cdb_valid_o], [cdb_tag_o] and [cdb_result_o] *)
Definition cdb_o (s : state) : cdb_t := mkCdb (s2_tag s) (s2_result s) (s2_valid s).

Definition next (s : state) (flush_i valid_i : bool) (tag_i compute_result : Z) (cdb_grant_i : bool)
    : state :=
  if flush_i then reset
  else if advance s cdb_grant_i
  then mk valid_i tag_i (if valid_i then compute_result else 0) (s1_valid s) (s1_tag s) (s1_result s)
  else s.

End two_stage.

(** ** fp_mul *)

Module fp_mul.

Record state : Type := mk {
  s1_valid : bool; s1_zero : bool; s1_sign : bool; s1_tag : Z; s1_exp : Z;
  s1_hh : Z; s1_hl : Z; s1_lh : Z; s1_ll : Z;
  s2_valid : bool; s2_zero : bool; s2_sign : bool; s2_tag : Z; s2_exp : Z; s2_product : Z;
  s3_valid : bool; s3_tag : Z; s3_result : Z;
  s4_valid : bool; s4_tag : Z; s4_result : Z
}.

Definition reset : state :=
  mk false false false 0 0 0 0 0 0 false false false 0 0 0 false 0 0 false 0 0.

Definition c1_sign (rs1_i rs2_i : Z) : bool := xorb (Z.testbit rs1_i 31) (Z.testbit rs2_i 31).
Definition c1_zero (rs1_i rs2_i : Z) : bool := (bits rs1_i 30 23 =? 0) || (bits rs2_i 30 23 =? 0).
Definition c1_exp (rs1_i rs2_i : Z) : Z := trunc 10 (bits rs1_i 30 23 + bits rs2_i 30 23 - 127).

(** A 24-bit mantissa with its hidden bit, and its halves. *)
Definition mant (rs : Z) : Z := cat 1 23 (bits rs 22 0).
Definition hi (m : Z) : Z := bits m 23 12.
Definition lo (m : Z) : Z := bits m 11 0.

Definition c2_product (hh hl lh ll : Z) : Z :=
  trunc 48 (cat hh 24 0 + cat hl 12 0 + cat lh 12 0 + ll).

Definition c3_result (zero sign : bool) (exp product : Z) : Z :=
  if zero || (product =? 0) then 0
  else
    let '(er, mant) :=
      if Z.testbit product 47 then (trunc 10 (exp + 1), bits product 46 24)
      else (exp, bits product 45 23) in
    if Z.testbit er 9 || (er =? 0) then 0
    else if 254 <? er then cat (cat (Z.b2z sign) 8 254) 23 (2 ^ 23 - 1)
    else cat (cat (Z.b2z sign) 8 (bits er 7 0)) 23 mant.

Definition advance (s : state) (cdb_grant_i : bool) : bool := negb (s4_valid s) || cdb_grant_i.
Definition fu_ready_o := advance.
Definition cdb_o (s : state) : cdb_t := mkCdb (s4_tag s) (s4_result s) (s4_valid s).

Definition next (s : state) (flush_i valid_i : bool) (tag_i rs1_i rs2_i : Z) (cdb_grant_i : bool)
    : state :=
  let ma := mant rs1_i in
  let mb := mant rs2_i in
  if flush_i then reset
  else if advance s cdb_grant_i
  then mk valid_i (c1_zero rs1_i rs2_i) (c1_sign rs1_i rs2_i) tag_i (c1_exp rs1_i rs2_i)
         (trunc 24 (hi ma * hi mb)) (trunc 24 (hi ma * lo mb))
         (trunc 24 (lo ma * hi mb)) (trunc 24 (lo ma * lo mb))
         (s1_valid s) (s1_zero s) (s1_sign s) (s1_tag s) (s1_exp s)
         (c2_product (s1_hh s) (s1_hl s) (s1_lh s) (s1_ll s))
         (s2_valid s) (s2_tag s) (c3_result (s2_zero s) (s2_sign s) (s2_exp s) (s2_product s))
         (s3_valid s) (s3_tag s) (s3_result s)
  else s.

End fp_mul.

(** ** fp_div *)

Module fp_div.

Inductive state_e : Type := IDLE | DIVIDE | DONE.

#[global] Instance state_e_eq_dec : EqDecision state_e.
Proof. solve_decision. Defined.

Record state : Type := mk {
  st : state_e;
  s_tag : Z;
  s_sign : bool;
  s_exp : Z;
  s_dv : Z;
  s_preg : Z;
  s_sreg : Z;
  s_qreg : Z;
  s_cnt : Z
}.

Definition reset : state := mk IDLE 0 false 0 0 0 0 0 0.

(** One of the three steps of [div3_step]: the quotient bit, the remainder and
    the shift register. *)
Definition div_bit (p s dv : Z) : bool * Z * Z :=
  let p' := Z.lor (trunc 24 (Z.shiftl p 1)) (Z.shiftr s 23) in
  let s' := trunc 24 (Z.shiftl s 1) in
  if dv <=? p' then (true, trunc 24 (p' - dv), s') else (false, p', s').

(** [div3_step] and its copy [div3_idle]: [(p_out, s_out, qbits)]. *)
Definition div3_step (p_in s_in dv : Z) : Z * Z * Z :=
  let '(q2, p2, s2) := div_bit p_in s_in dv in
  let '(q1, p1, s1) := div_bit p2 s2 dv in
  let '(q0, p0, s0) := div_bit p1 s1 dv in
  (p0, s0, cat (cat (Z.b2z q2) 1 (Z.b2z q1)) 1 (Z.b2z q0)).

Definition c_result (s : state) : Z :=
  let exp := s_exp s in
  let q := s_qreg s in
  if Z.testbit exp 9 || (exp =? 0) then 0
  else if 254 <? exp then cat (cat (Z.b2z (s_sign s)) 8 254) 23 (2 ^ 23 - 1)
  else if Z.testbit q 23 then cat (cat (Z.b2z (s_sign s)) 8 (bits exp 7 0)) 23 (bits q 22 0)
  else if 1 <? exp
  then cat (cat (Z.b2z (s_sign s)) 8 (trunc 8 (bits exp 7 0 - 1))) 23 (cat (bits q 21 0) 1 0)
  else 0.

Definition fu_ready_o (s : state) : bool := bool_decide (st s = IDLE).
Definition cdb_o (s : state) : cdb_t := mkCdb (s_tag s) (c_result s) (bool_decide (st s = DONE)).

Definition c_idle (tag_i rs1_i rs2_i : Z) : state :=
  let ma := cat 1 23 (bits rs1_i 22 0) in
  let mb := cat 1 23 (bits rs2_i 22 0) in
  let '(p0, s0, qb0) := div3_step 0 ma mb in
  mk DIVIDE tag_i (xorb (Z.testbit rs1_i 31) (Z.testbit rs2_i 31))
    (trunc 10 (bits rs1_i 30 23 - bits rs2_i 30 23 + 127)) mb p0 s0 qb0 0.

Definition next (s : state) (flush_i valid_i : bool) (tag_i rs1_i rs2_i : Z) (cdb_grant_i : bool)
    : state :=
  if flush_i then reset
  else
    match st s with
    | IDLE => if valid_i then c_idle tag_i rs1_i rs2_i else s
    | DIVIDE =>
        let '(c_preg, c_sreg, c_qbits) := div3_step (s_preg s) (s_sreg s) (s_dv s) in
        let q := cat (bits (s_qreg s) 20 0) 3 c_qbits in
        if s_cnt s =? 6
        then mk DONE (s_tag s) (s_sign s) (s_exp s) (s_dv s) c_preg c_sreg q (s_cnt s)
        else mk DIVIDE (s_tag s) (s_sign s) (s_exp s) (s_dv s) c_preg c_sreg q (trunc 3 (s_cnt s + 1))
    | DONE =>
        if cdb_grant_i
        then mk IDLE (s_tag s) (s_sign s) (s_exp s) (s_dv s) (s_preg s) (s_sreg s) (s_qreg s) (s_cnt s)
        else s
    end.

End fp_div.

(** ** fp_round: not instantiated by the core *)

Module fp_round.

Definition round_up (sign_i : bool) (mant_i : Z) (guard_i round_i sticky_i : bool) (rm_i : Z) : bool :=
  match rm_i with
  | 0 => guard_i && (round_i || sticky_i || Z.testbit mant_i 0)
  | 1 => false
  | 2 => sign_i && (guard_i || round_i || sticky_i)
  | 3 => negb sign_i && (guard_i || round_i || sticky_i)
  | 4 => guard_i
  | _ => false
  end.

Definition result_o (sign_i : bool) (exp_i mant_i : Z) (guard_i round_i sticky_i : bool) (rm_i : Z)
    : Z :=
  let mant_inc := trunc 24 (mant_i + Z.b2z (round_up sign_i mant_i guard_i round_i sticky_i rm_i)) in
  let exp_out := if Z.testbit mant_inc 23 then trunc 9 (exp_i + 1) else exp_i in
  if (exp_out =? 0) || Z.testbit exp_out 8 then 0
  else if 254 <? exp_out then cat (cat (Z.b2z sign_i) 8 254) 23 (2 ^ 23 - 1)
  else cat (cat (Z.b2z sign_i) 8 (bits exp_out 7 0)) 23 (bits mant_inc 22 0).

End fp_round.
