(* ===== verification/HwTables.v ===== *)
(** * The bus, the queues and the register tables of the core *)

From S2P Require Import Prelude Words HwPkg.

(** * arbiter.sv, cdb.sv: the common data bus of the core

    Vectors of [WIDTH] request bits are integers; [fu_results_i] is the list
    of the results of the units, unit 0 first. *)

(** ** arbiter *)

Module arbiter.

Definition double_req (w req : Z) : Z := cat req w req.

Definition double_grant (w req base : Z) : Z :=
  Z.land (double_req w req) (bnot (2 * w) (trunc (2 * w) (double_req w req - base))).

Definition grant (w req base : Z) : Z :=
  Z.lor (bits (double_grant w req base) (w - 1) 0) (bits (double_grant w req base) (2 * w - 1) w).

End arbiter.

(** ** cdb *)

Module cdb.

(** The register [last_grant]. *)
Definition state : Type := Z.
Definition reset : state := 1.

(** [valid_vec] *)
Fixpoint valid_vec (fu_results_i : list cdb_t) : Z :=
  match fu_results_i with
  | [] => 0
  | r :: rs => Z.b2z (cdb_valid r) + 2 * valid_vec rs
  end.

(** [base = {last_grant\[NUM_FU-2:0\], last_grant\[NUM_FU-1\]}] *)
Definition base (last_grant : state) : Z :=
  cat (bits last_grant (NUM_FU - 2) 0) 1 (bits last_grant (NUM_FU - 1) (NUM_FU - 1)).

(** [fu_grant_o], that is [grant_vec]. *)
Definition fu_grant_o (last_grant : state) (fu_results_i : list cdb_t) : Z :=
  arbiter.grant NUM_FU (valid_vec fu_results_i) (base last_grant).

(** [idx_terms\[i\]], [idx_reduce\[i\]] and [grant_idx]. *)
Definition idx_term (grant_vec : Z) (i : nat) : Z :=
  Z.land (fill 3 (Z.testbit grant_vec (Z.of_nat i))) (trunc 3 (Z.of_nat i)).

Fixpoint idx_reduce (grant_vec : Z) (i : nat) : Z :=
  match i with
  | O => idx_term grant_vec 0
  | S k => Z.lor (idx_reduce grant_vec k) (idx_term grant_vec i)
  end.

Definition grant_idx (grant_vec : Z) : Z := idx_reduce grant_vec (Z.to_nat NUM_FU - 1).

Definition cdb_o (last_grant : state) (fu_results_i : list cdb_t) : cdb_t :=
  let grant_vec := fu_grant_o last_grant fu_results_i in
  if grant_vec =? 0 then cdb_0 else at_ cdb_0 fu_results_i (grant_idx grant_vec).

Definition next (last_grant : state) (fu_results_i : list cdb_t) : state :=
  let grant_vec := fu_grant_o last_grant fu_results_i in
  if grant_vec =? 0 then last_grant else grant_vec.

End cdb.

(** * instr_queue.sv, rob.sv: the two circular buffers of the core

    In an [always_ff] block every right-hand side reads the values before the
    clock edge and the last write to a register wins: the writes of a block are
    applied in their order, each computed from the old state. *)

(** ** instr_queue *)

Module instr_queue.

Record state : Type := mk {
  entries : list instr_t;
  head : Z;
  tail : Z;
  count : Z
}.

(** Reset and flush clear the pointers; the entries start unknown, as zero
    here, and none is read before it is written. *)
Definition reset : state := mk (replicate (Z.to_nat IQ_DEPTH) instr_0) 0 0 0.

Definition full_o (q : state) : bool := count q =? IQ_DEPTH.
Definition valid_o (q : state) : bool := negb (count q =? 0).
Definition instr_o (q : state) : instr_t := at_ instr_0 (entries q) (head q).

Definition next (q : state) (flush_i push_en_i : bool) (push_instr_i : instr_t) (pop_en_i : bool)
    : state :=
  if flush_i then mk (entries q) 0 0 0
  else
    let push := push_en_i && negb (full_o q) in
    let pop := pop_en_i && valid_o q in
    mk (if push then put (entries q) (tail q) push_instr_i else entries q)
       (if pop then trunc 3 (head q + 1) else head q)
       (if push then trunc 3 (tail q + 1) else tail q)
       (trunc 4 (count q + Z.b2z push - Z.b2z pop)).

End instr_queue.

(** ** rob_unit *)

Module rob_unit.

Record state : Type := mk {
  entries : list rob_entry_t;
  head : Z;
  tail : Z;
  count : Z
}.

Definition reset : state := mk (replicate (Z.to_nat ROB_SIZE) rob_entry_0) 0 0 0.

(** The inputs of a clock edge. *)
Record inputs : Type := mkInputs {
  flush_i : bool;
  alloc_en_i : bool;
  alloc_instr_i : instr_t;
  cdb_i : cdb_t;
  br_valid_i : bool;
  br_tag_i : Z;
  br_taken_i : bool;
  br_target_i : Z;
  commit_en_i : bool
}.

Definition entry (r : state) (tag : Z) : rob_entry_t := at_ rob_entry_0 (entries r) tag.

Definition alloc_tag_o (r : state) : Z := tail r.
Definition full_o (r : state) : bool := count r =? ROB_SIZE.
Definition commit_entry_o (r : state) : rob_entry_t := entry r (head r).
Definition commit_valid_o (r : state) : bool := bool_decide (ro_state (commit_entry_o r) = ROB_DONE).
Definition lookup_done_o (r : state) (tag : Z) : bool := bool_decide (ro_state (entry r tag) = ROB_DONE).
Definition lookup_val_o (r : state) (tag : Z) : Z := ro_result (entry r tag).

(** [cdb_e], [br_e], [new_e] and [commit_e]. *)
Definition cdb_e (e : rob_entry_t) (value : Z) : rob_entry_t :=
  mkRobEntry ROB_DONE (ro_op e) (ro_rd e) (ro_rd_fp e) (ro_rd_valid e) value (ro_pc e)
    (ro_is_branch e) (ro_branch_taken e) (ro_branch_target e).

Definition br_e (e : rob_entry_t) (taken : bool) (target : Z) : rob_entry_t :=
  mkRobEntry ROB_DONE (ro_op e) (ro_rd e) (ro_rd_fp e) (ro_rd_valid e) (ro_result e) (ro_pc e)
    (ro_is_branch e) taken target.

Definition new_e (i : instr_t) : rob_entry_t :=
  mkRobEntry ROB_IN_FLIGHT (in_op i) (in_rd i) (in_rd_fp i) (in_rd_valid i) 0 (in_pc i)
    (is_branch_op (in_op i) || is_jump_op (in_op i)) false 0.

Definition commit_e (e : rob_entry_t) : rob_entry_t :=
  mkRobEntry ROB_IDLE (ro_op e) (ro_rd e) (ro_rd_fp e) (ro_rd_valid e) (ro_result e) (ro_pc e)
    (ro_is_branch e) (ro_branch_taken e) (ro_branch_target e).

(** The four guarded writes of the clock edge. *)
Definition write_cdb (r : state) (i : inputs) (es : list rob_entry_t) : list rob_entry_t :=
  let e := entry r (cdb_tag (cdb_i i)) in
  if cdb_valid (cdb_i i) && bool_decide (ro_state e = ROB_IN_FLIGHT)
  then put es (cdb_tag (cdb_i i)) (cdb_e e (cdb_value (cdb_i i))) else es.

Definition write_branch (r : state) (i : inputs) (es : list rob_entry_t) : list rob_entry_t :=
  let e := entry r (br_tag_i i) in
  if br_valid_i i && ro_is_branch e
  then put es (br_tag_i i) (br_e e (br_taken_i i) (br_target_i i)) else es.

Definition do_alloc (r : state) (i : inputs) : bool := alloc_en_i i && negb (full_o r).
Definition do_commit (r : state) (i : inputs) : bool := commit_en_i i && commit_valid_o r.

Definition write_alloc (r : state) (i : inputs) (es : list rob_entry_t) : list rob_entry_t :=
  if do_alloc r i then put es (tail r) (new_e (alloc_instr_i i)) else es.

Definition write_commit (r : state) (i : inputs) (es : list rob_entry_t) : list rob_entry_t :=
  if do_commit r i then put es (head r) (commit_e (entry r (head r))) else es.

Definition next (r : state) (i : inputs) : state :=
  if flush_i i then reset
  else
    mk (write_commit r i (write_alloc r i (write_branch r i (write_cdb r i (entries r)))))
       (if do_commit r i then trunc 4 (head r + 1) else head r)
       (if do_alloc r i then trunc 4 (tail r + 1) else tail r)
       (trunc 5 (count r + Z.b2z (do_alloc r i) - Z.b2z (do_commit r i))).

End rob_unit.

(** * rat.sv, regfile.sv: renaming and registers of the core

    Both files exist once for integer and once for floating-point registers in
    each module, with the same structure but for register 0; a [table] and a
    [bank] are one half. *)

(** ** rat_table *)

Module rat_table.

(** One half: [x_valid] and [x_tags], or [f_valid] and [f_tags]. *)
Record table : Type := mkTable {
  valid : list bool;
  tags : list Z
}.

Record state : Type := mk { x : table; f : table }.

Definition table_0 : table := mkTable (replicate 32 false) (replicate 32 0).
Definition reset : state := mk table_0 table_0.

(** A commit or a mapping request: enable, address and tag. *)
Record port : Type := mkPort { en : bool; addr : Z; tag : Z }.

Definition is_valid (t : table) (r : Z) : bool := at_ false (valid t) r.
Definition tag_of (t : table) (r : Z) : Z := at_ 0 (tags t) r.

(** [x_rs1_tag_o] .. [f_rs2_valid_o]: a mapping that the commit port clears
    this cycle reads as not valid. *)
Definition lookup_tag_o (t : table) (rs : Z) : Z := tag_of t rs.

Definition lookup_valid_o (t : table) (commit : port) (rs : Z) : bool :=
  is_valid t rs &&
  negb (en commit && (addr commit =? rs) && (tag commit =? tag_of t rs)).

Definition set_row (t : table) (r : Z) (v : bool) (tg : Z) : table :=
  mkTable (put (valid t) r v) (put (tags t) r tg).

(** The commit block, then the map block; the guard of the commit block reads
    the table before the edge. *)
Definition next_table (t : table) (commit map : port) (map_en : bool) : table :=
  let t1 :=
    if en commit && (is_valid t (addr commit) && (tag_of t (addr commit) =? tag commit))
    then set_row t (addr commit) false 0 else t in
  if map_en then set_row t1 (addr map) true (tag map) else t1.

Definition next (s : state) (flush_i : bool) (x_commit f_commit x_map f_map : port) : state :=
  if flush_i then reset
  else mk (next_table (x s) x_commit x_map (en x_map && negb (addr x_map =? 0)))
          (next_table (f s) f_commit f_map (en f_map)).

End rat_table.

(** ** regfile *)

Module regfile.

Record state : Type := mk { int_regs : list Z; fp_regs : list Z }.

Definition reset : state :=
  mk (replicate (Z.to_nat NUM_INT_REGS) 0) (replicate (Z.to_nat NUM_FP_REGS) 0).

(** A write port: enable, address and value. *)
Record port : Type := mkPort { wr_en : bool; wr_addr : Z; wr_val : Z }.

Definition next (s : state) (x_wr f_wr : port) : state :=
  mk (if wr_en x_wr && negb (wr_addr x_wr =? 0) then put (int_regs s) (wr_addr x_wr) (wr_val x_wr)
      else int_regs s)
     (if wr_en f_wr then put (fp_regs s) (wr_addr f_wr) (wr_val f_wr) else fp_regs s).

(** Reads see the write of the same cycle. *)
Definition x_val_o (s : state) (x_wr : port) (rs : Z) : Z :=
  if wr_en x_wr && (wr_addr x_wr =? rs) && negb (wr_addr x_wr =? 0)
  then wr_val x_wr else at_ 0 (int_regs s) rs.

Definition f_val_o (s : state) (f_wr : port) (rs : Z) : Z :=
  if wr_en f_wr && (wr_addr f_wr =? rs) then wr_val f_wr else at_ 0 (fp_regs s) rs.

End regfile.
