(* ===== verification/HwStation.v ===== *)
(** * Where instructions wait: stations, load/store buffer, memories *)

From S2P Require Import Prelude Words HwPkg.

(** * reservation_station.sv: a reservation station of the core *)

Module reservation_station.

(** The parameter [SIZE] is the length of the two lists. *)
Record state : Type := mk {
  busy : list bool;
  slots : list rs_entry_t
}.

Definition reset (SIZE : Z) : state :=
  mk (replicate (Z.to_nat SIZE) false) (replicate (Z.to_nat SIZE) rs_entry_0).

(** [issue_chain] and [dispatch_chain]: the index of the first element that
    satisfies [p], the last index when there is none. *)
Fixpoint chain {A} (p : A -> bool) (i : Z) (l : list A) : Z :=
  match l with
  | [] => i
  | [_] => i
  | x :: l' => if p x then i else chain p (i + 1) l'
  end.

Definition ready_vec (s : state) : list bool :=
  zip_with (fun b e => b && rs1_ready e && rs2_ready e) (busy s) (slots s).

Definition full_o (s : state) : bool := forallb id (busy s).
Definition issue_idx (s : state) : Z := chain id 0 (ready_vec s).
Definition dispatch_idx (s : state) : Z := chain negb 0 (busy s).
Definition issue_valid_o (s : state) (fu_ready_i : bool) : bool :=
  existsb id (ready_vec s) && fu_ready_i.
Definition issue_entry_o (s : state) : rs_entry_t := at_ rs_entry_0 (slots s) (issue_idx s).

(** What a slot captures from the bus ([upd]); the load/store buffer has the
    same loop. *)
Definition capture (cdb_i : cdb_t) (busy : bool) (e : rs_entry_t) : rs_entry_t :=
  let hit1 := busy && cdb_valid cdb_i && negb (rs1_ready e) && (rs1_tag e =? cdb_tag cdb_i) in
  let hit2 := busy && cdb_valid cdb_i && negb (rs2_ready e) && (rs2_tag e =? cdb_tag cdb_i) in
  mkRsEntry (rs_op e) (rs_rob_tag e)
    (if hit1 then true else rs1_ready e) (if hit1 then cdb_value cdb_i else rs1_val e) (rs1_tag e)
    (if hit2 then true else rs2_ready e) (if hit2 then cdb_value cdb_i else rs2_val e) (rs2_tag e)
    (rs_imm e) (rs_pc e).

Definition next (s : state) (flush_i dispatch_valid_i : bool) (dispatch_entry_i : rs_entry_t)
    (cdb_i : cdb_t) (fu_ready_i : bool) : state :=
  if flush_i then reset (len (busy s))
  else
    let captured := zip_with (capture cdb_i) (busy s) (slots s) in
    let dispatch := dispatch_valid_i && negb (full_o s) in
    let busy1 := if dispatch then put (busy s) (dispatch_idx s) true else busy s in
    mk (if issue_valid_o s fu_ready_i then put busy1 (issue_idx s) false else busy1)
       (if dispatch then put captured (dispatch_idx s) dispatch_entry_i else captured).

End reservation_station.

(** * load_store_buffer.sv, data_mem.sv, instr_mem.sv: memory accesses of the core *)

(** ** load_store_buffer: accesses in program order *)

Module load_store_buffer.

Record state : Type := mk {
  entries : list rs_entry_t;
  valid : list bool;
  store_notified : list bool;
  head : Z;
  tail : Z;
  count : Z;
  load_pending : bool;
  load_pending_tag : Z;
  load_pending_op : opcode_e;
  load_pending_byte_sel : Z;
  load_pending_addr_r : Z
}.

Definition reset : state :=
  mk (replicate (Z.to_nat LSB_SIZE) rs_entry_0) (replicate (Z.to_nat LSB_SIZE) false)
     (replicate (Z.to_nat LSB_SIZE) false) 0 0 0 false 0 OP_LW 0 0.

Definition head_entry (s : state) : rs_entry_t := at_ rs_entry_0 (entries s) (head s).
Definition head_valid (s : state) : bool := at_ false (valid s) (head s).

(** [store_ready_vec] *)
Definition store_ready (e : rs_entry_t) (valid notified : bool) : bool :=
  valid && is_store_op (rs_op e) && rs1_ready e && rs2_ready e && negb notified.

Definition store_ready_vec (s : state) : list bool :=
  zip_with (fun f n => f n) (zip_with store_ready (entries s) (valid s)) (store_notified s).

Definition any_store_ready (s : state) : bool := existsb id (store_ready_vec s).
Definition store_notify_idx (s : state) : Z := reservation_station.chain id 0 (store_ready_vec s).

Definition full (s : state) : bool := count s =? LSB_SIZE.
Definition fu_ready_o (s : state) : bool := negb (full s).
Definition head_ready (s : state) : bool := rs1_ready (head_entry s) && rs2_ready (head_entry s).
Definition head_is_load (s : state) : bool := is_load_op (rs_op (head_entry s)).
Definition head_is_store (s : state) : bool := is_store_op (rs_op (head_entry s)).
Definition head_addr (s : state) : Z := trunc 32 (rs1_val (head_entry s) + rs_imm (head_entry s)).

Definition issue_load (s : state) : bool :=
  head_valid s && negb (load_pending s) && head_is_load s && head_ready s.

Definition commit_store (s : state) (store_commit_i : bool) (store_commit_tag_i : Z) : bool :=
  head_valid s && head_is_store s && store_commit_i &&
  (rs_rob_tag (head_entry s) =? store_commit_tag_i).

Definition do_pop (s : state) (store_commit_i : bool) (store_commit_tag_i : Z) : bool :=
  issue_load s || commit_store s store_commit_i store_commit_tag_i.

(** Bytes and halves of a store in their lanes, and the lanes it writes. *)
Definition store_be (op : opcode_e) (addr : Z) : Z :=
  match op with
  | OP_SB => trunc 4 (Z.shiftl 1 (bits addr 1 0))
  | OP_SH => if Z.testbit addr 1 then 12 else 3
  | _ => 15
  end.

Definition store_wdata (op : opcode_e) (v : Z) : Z :=
  match op with
  | OP_SB => let b := bits v 7 0 in cat (cat (cat b 8 b) 8 b) 8 b
  | OP_SH => let h := bits v 15 0 in cat h 16 h
  | _ => v
  end.

Definition load_result (op : opcode_e) (byte_sel mem_rd_data_i : Z) : Z :=
  let d := mem_rd_data_i in
  match op with
  | OP_LB =>
      match byte_sel with
      | 0 => cat (fill 24 (Z.testbit d 7)) 8 (bits d 7 0)
      | 1 => cat (fill 24 (Z.testbit d 15)) 8 (bits d 15 8)
      | 2 => cat (fill 24 (Z.testbit d 23)) 8 (bits d 23 16)
      | _ => cat (fill 24 (Z.testbit d 31)) 8 (bits d 31 24)
      end
  | OP_LBU =>
      match byte_sel with
      | 0 => bits d 7 0
      | 1 => bits d 15 8
      | 2 => bits d 23 16
      | _ => bits d 31 24
      end
  | OP_LH =>
      if Z.testbit byte_sel 1 then cat (fill 16 (Z.testbit d 31)) 16 (bits d 31 16)
      else cat (fill 16 (Z.testbit d 15)) 16 (bits d 15 0)
  | OP_LHU => if Z.testbit byte_sel 1 then bits d 31 16 else bits d 15 0
  | _ => d
  end.

Definition mem_rd_addr_o (s : state) : Z :=
  if load_pending s then load_pending_addr_r s else head_addr s.

(** The write port of the data memory. *)
Record write_port : Type := mkWrite { wr_en : bool; wr_be : Z; wr_addr : Z; wr_data : Z }.

Definition mem_wr_o (s : state) (store_commit_i : bool) (store_commit_tag_i : Z) : write_port :=
  mkWrite (commit_store s store_commit_i store_commit_tag_i)
    (store_be (rs_op (head_entry s)) (head_addr s)) (head_addr s)
    (store_wdata (rs_op (head_entry s)) (rs2_val (head_entry s))).

Definition cdb_o (s : state) (mem_rd_data_i : Z) : cdb_t :=
  mkCdb
    (if load_pending s then load_pending_tag s
     else rs_rob_tag (at_ rs_entry_0 (entries s) (store_notify_idx s)))
    (if load_pending s
     then load_result (load_pending_op s) (load_pending_byte_sel s) mem_rd_data_i else 0)
    (load_pending s || any_store_ready s).

Definition next (s : state) (flush_i issue_valid_i : bool) (issue_entry_i : rs_entry_t)
    (cdb_i : cdb_t) (store_commit_i : bool) (store_commit_tag_i : Z) (cdb_grant_i : bool) : state :=
  if flush_i then reset
  else
    let load := issue_load s in
    let pop := do_pop s store_commit_i store_commit_tag_i in
    let push := issue_valid_i && negb (full s) in
    let notified0 :=
      if negb (load_pending s) && any_store_ready s && cdb_grant_i
      then put (store_notified s) (store_notify_idx s) true else store_notified s in
    let entries0 := zip_with (reservation_station.capture cdb_i) (valid s) (entries s) in
    let valid1 := if pop then put (valid s) (head s) false else valid s in
    let notified1 := if pop then put notified0 (head s) false else notified0 in
    mk (if push then put entries0 (tail s) issue_entry_i else entries0)
       (if push then put valid1 (tail s) true else valid1)
       (if push then put notified1 (tail s) false else notified1)
       (if pop then trunc 3 (head s + 1) else head s)
       (if push then trunc 3 (tail s + 1) else tail s)
       (trunc 4 (count s + Z.b2z push - Z.b2z pop))
       (if load then true else load_pending s && negb cdb_grant_i)
       (if load then rs_rob_tag (head_entry s) else load_pending_tag s)
       (if load then rs_op (head_entry s) else load_pending_op s)
       (if load then bits (head_addr s) 1 0 else load_pending_byte_sel s)
       (if load then head_addr s else load_pending_addr_r s).

End load_store_buffer.

(** ** data_mem *)

Module data_mem.

Record state : Type := mk { mem : list Z; rd_data_o : Z }.

(** The word index of a byte address, [addr\[ADDR_W+1:2\]]. *)
Definition word_index (addr : Z) : Z := bits addr 11 2.

Definition byte (v k : Z) : Z := bits v (8 * k + 7) (8 * k).

(** A word with the enabled byte lanes of [new]. *)
Definition merge (be old new : Z) : Z :=
  let lane k := if Z.testbit be k then byte new k else byte old k in
  cat (cat (cat (lane 3) 8 (lane 2)) 8 (lane 1)) 8 (lane 0).

Definition next (s : state) (rd_addr_i : Z) (wr : load_store_buffer.write_port) : state :=
  let i := word_index (load_store_buffer.wr_addr wr) in
  mk (if load_store_buffer.wr_en wr
      then put (mem s) i
             (merge (load_store_buffer.wr_be wr) (at_ 0 (mem s) i) (load_store_buffer.wr_data wr))
      else mem s)
     (at_ 0 (mem s) (word_index rd_addr_i)).

End data_mem.

(** ** instr_mem *)

Module instr_mem.

Record state : Type := mk { mem : list Z; instr_o : Z }.

Definition next (s : state) (pc_i : Z) (write_en_i : bool) (write_addr_i write_data_i : Z) : state :=
  mk (if write_en_i then put (mem s) write_addr_i write_data_i else mem s)
     (at_ 0 (mem s) (bits pc_i 11 2)).

End instr_mem.
