(* ===== verification/HwControl.v ===== *)
(** * decode, dispatch.sv, commit_unit.sv: the control logic of the core

    All three are combinational. *)

From S2P Require Import Prelude Words HwPkg.

(** ** decode (tomasulo_core.sv) *)

Module decode.

(** The immediates of the formats. *)
Definition imm_i (raw : Z) : Z := cat (fill 20 (Z.testbit raw 31)) 12 (bits raw 31 20).

Definition imm_s (raw : Z) : Z :=
  cat (cat (fill 20 (Z.testbit raw 31)) 7 (bits raw 31 25)) 5 (bits raw 11 7).

Definition imm_b (raw : Z) : Z :=
  cat (cat (cat (cat (cat (fill 19 (Z.testbit raw 31)) 1 (bits raw 31 31)) 1 (bits raw 7 7))
    6 (bits raw 30 25)) 4 (bits raw 11 8)) 1 0.

Definition imm_j (raw : Z) : Z :=
  cat (cat (cat (cat (cat (fill 11 (Z.testbit raw 31)) 1 (bits raw 31 31)) 8 (bits raw 19 12))
    1 (bits raw 20 20)) 10 (bits raw 30 21)) 1 0.

Definition imm_u (raw : Z) : Z := cat (bits raw 31 12) 12 0.

(** The operation of each group, from [funct3] and bit 5 of [funct7]. *)
Definition op_r (f7_5 : bool) (funct3 : Z) : opcode_e :=
  match f7_5, funct3 with
  | false, 0 => OP_ADD | true, 0 => OP_SUB
  | false, 7 => OP_AND | false, 6 => OP_OR
  | false, 4 => OP_XOR | false, 1 => OP_SLL
  | false, 5 => OP_SRL | true, 5 => OP_SRA
  | false, 2 => OP_SLT | false, 3 => OP_SLTU
  | _, _ => OP_NOP
  end.

Definition op_i (f7_5 : bool) (funct3 : Z) : opcode_e :=
  match funct3 with
  | 0 => OP_ADDI | 7 => OP_ANDI
  | 6 => OP_ORI | 4 => OP_XORI
  | 1 => OP_SLLI
  | 2 => OP_SLTI | 3 => OP_SLTIU
  | 5 => if f7_5 then OP_SRAI else OP_SRLI
  | _ => OP_NOP
  end.

Definition op_load (funct3 : Z) : opcode_e :=
  match funct3 with
  | 2 => OP_LW | 0 => OP_LB | 4 => OP_LBU | 1 => OP_LH | 5 => OP_LHU | _ => OP_NOP
  end.

Definition op_store (funct3 : Z) : opcode_e :=
  match funct3 with 2 => OP_SW | 0 => OP_SB | 1 => OP_SH | _ => OP_NOP end.

Definition op_branch (funct3 : Z) : opcode_e :=
  match funct3 with
  | 0 => OP_BEQ | 1 => OP_BNE | 4 => OP_BLT | 5 => OP_BGE | 6 => OP_BLTU | 7 => OP_BGEU | _ => OP_NOP
  end.

Definition decode (raw pc : Z) : instr_t :=
  let rd := bits raw 11 7 in
  let rs1 := bits raw 19 15 in
  let rs2 := bits raw 24 20 in
  let funct3 := bits raw 14 12 in
  let funct7 := bits raw 31 25 in
  let nop := mkInstr OP_NOP 0 0 0 0 false false false false pc in
  let fp o := mkInstr o rd rs1 rs2 0 true true true true pc in
  match bits raw 6 0 with
  | 0x33 => mkInstr (op_r (Z.testbit funct7 5) funct3) rd rs1 rs2 0 false false false true pc
  | 0x13 => mkInstr (op_i (Z.testbit funct7 5) funct3) rd rs1 0 (imm_i raw) false false false true pc
  | 0x03 => mkInstr (op_load funct3) rd rs1 0 (imm_i raw) false false false true pc
  | 0x23 => mkInstr (op_store funct3) 0 rs1 rs2 (imm_s raw) false false false false pc
  | 0x63 => mkInstr (op_branch funct3) 0 rs1 rs2 (imm_b raw) false false false false pc
  | 0x6F => mkInstr OP_JAL rd 0 0 (imm_j raw) false false false true pc
  | 0x67 =>
      if funct3 =? 0 then mkInstr OP_JALR rd rs1 0 (imm_i raw) false false false true pc else nop
  | 0x37 => mkInstr OP_LUI rd 0 0 (imm_u raw) false false false true pc
  | 0x17 => mkInstr OP_AUIPC rd 0 0 (imm_u raw) false false false true pc
  | 0x07 =>
      if funct3 =? 2 then mkInstr OP_FLW rd rs1 0 (imm_i raw) true false false true pc else nop
  | 0x27 =>
      if funct3 =? 2 then mkInstr OP_FSW 0 rs1 rs2 (imm_s raw) false false true false pc else nop
  | 0x53 =>
      match funct7 with
      | 0 => fp OP_FADD_S
      | 4 => fp OP_FSUB_S
      | 8 => fp OP_FMUL_S
      | 12 => fp OP_FDIV_S
      | 96 => mkInstr OP_FCVT_W_S rd rs1 0 0 false true false true pc
      | 104 => mkInstr OP_FCVT_S_W rd rs1 0 0 true false false true pc
      | _ => nop
      end
  | 0x73 => mkInstr OP_HALT 0 0 0 0 false false false false pc
  | _ => nop
  end.

End decode.

(** ** dispatch *)

Module dispatch.

(** The reservation stations, as the [case] on the opcode selects them. *)
Inductive target : Type :=
| T_ALU | T_BR | T_FP_ADD | T_FP_MUL | T_FP_DIV | T_LSB | T_FP_CVT.

#[global] Instance target_eq_dec : EqDecision target.
Proof. solve_decision. Defined.

Definition target_of (o : opcode_e) : target :=
  match o with
  | OP_ADD | OP_SUB | OP_AND | OP_OR | OP_XOR | OP_SLL | OP_SRL | OP_SRA
  | OP_ADDI | OP_ANDI | OP_ORI | OP_XORI | OP_SLLI | OP_SRLI | OP_SRAI
  | OP_SLT | OP_SLTU | OP_SLTI | OP_SLTIU | OP_LUI | OP_AUIPC | OP_NOP | OP_HALT => T_ALU
  | OP_BEQ | OP_BNE | OP_BLT | OP_BGE | OP_BLTU | OP_BGEU | OP_JAL | OP_JALR => T_BR
  | OP_FADD_S | OP_FSUB_S => T_FP_ADD
  | OP_FMUL_S => T_FP_MUL
  | OP_FDIV_S => T_FP_DIV
  | OP_LW | OP_LB | OP_LBU | OP_LH | OP_LHU | OP_SW | OP_SB | OP_SH | OP_FLW | OP_FSW => T_LSB
  | OP_FCVT_W_S | OP_FCVT_S_W => T_FP_CVT
  end.

(** One source operand: the register file when the register is not in flight,
    else the reorder buffer, else the bus of this cycle, else the tag. *)
Definition operand (rat_valid : bool) (tag regfile_val : Z) (rob_done : bool) (rob_val : Z)
    (cdb_i : cdb_t) : bool * Z :=
  if negb rat_valid then (true, regfile_val)
  else if rob_done then (true, rob_val)
  else if cdb_valid cdb_i && (cdb_tag cdb_i =? tag) then (true, cdb_value cdb_i)
  else (false, 0).

(** [iq_rd_en_o] and [rob_alloc_en_o] *)
Definition fire (iq_valid_i rob_full_i target_full : bool) : bool :=
  iq_valid_i && negb rob_full_i && negb target_full.

Definition x_map_en (i : instr_t) : bool :=
  in_rd_valid i && negb (in_rd_fp i) && negb (in_rd i =? 0).

Definition f_map_en (i : instr_t) : bool := negb (x_map_en i) && in_rd_valid i && in_rd_fp i.

End dispatch.

(** ** commit_unit *)

Module commit_unit.

(** [x_wr_en_o] with its RAT port, [f_wr_en_o] with its own, [flush_o] and
    [store_commit_o], for the entry at the head. *)
Definition x_wr_en_o (valid : bool) (e : rob_entry_t) : bool :=
  valid && ro_rd_valid e && negb (ro_rd_fp e).
Definition f_wr_en_o (valid : bool) (e : rob_entry_t) : bool :=
  valid && ro_rd_valid e && ro_rd_fp e.
Definition flush_o (valid : bool) (e : rob_entry_t) : bool :=
  valid && ro_is_branch e && ro_branch_taken e.
Definition redirect_pc_o (valid : bool) (e : rob_entry_t) : Z :=
  if flush_o valid e then ro_branch_target e else 0.
Definition store_commit_o (valid : bool) (e : rob_entry_t) : bool :=
  valid && is_store_op (ro_op e).

(** A signal that is zero when its port is not enabled. *)
Definition gate (en : bool) (v : Z) : Z := if en then v else 0.

End commit_unit.
