(* ===== verification/HwCore.v ===== *)
(** * The core, and the core in its testbench *)

From S2P Require Import Prelude Words HwPkg HwUnits HwTables HwStation HwControl.

(** * tomasulo_core.sv: the units wired together

    [Core] holds every register of the core. The wires of a cycle are
    functions of it and of the word the data memory returns ([mem_rd_data_i]);
    [next] is the clock edge. *)

Module tomasulo_core.

Record Core : Type := mkCore {
  u_iq : instr_queue.state;
  u_rob : rob_unit.state;
  rob_head_reg : Z;
  u_rat : rat_table.state;
  u_rf : regfile.state;
  u_rs_alu : reservation_station.state;
  u_rs_br : reservation_station.state;
  u_rs_fp_add : reservation_station.state;
  u_rs_fp_mul : reservation_station.state;
  u_rs_fp_div : reservation_station.state;
  u_rs_fp_cvt : reservation_station.state;
  u_alu : alu_int.state;
  alu_cdb : cdb_t;
  u_br : branch_unit.state;
  br_op_d : opcode_e;
  br_pc_d : Z;
  br_cdb : cdb_t;
  u_fp_add : two_stage.state;
  u_fp_mul : fp_mul.state;
  u_fp_div : fp_div.state;
  u_lsb : load_store_buffer.state;
  u_fp_cvt : two_stage.state;
  u_cdb : cdb.state
}.

Definition reset : Core :=
  mkCore instr_queue.reset rob_unit.reset 0 rat_table.reset regfile.reset
    (reservation_station.reset RS_ALU_SIZE) (reservation_station.reset RS_BRANCH_SIZE)
    (reservation_station.reset RS_FP_ADDSUB_SIZE) (reservation_station.reset RS_FP_MUL_SIZE)
    (reservation_station.reset RS_FP_DIV_SIZE) (reservation_station.reset RS_FP_CVT_SIZE)
    alu_int.reset cdb_0 branch_unit.reset OP_NOP 0 cdb_0
    two_stage.reset fp_mul.reset fp_div.reset load_store_buffer.reset two_stage.reset cdb.reset.

(** ** The result bus *)

Section Wires.
Context (c : Core) (mem_rd_data_i : Z).

Definition fu_results : list cdb_t :=
  [alu_cdb c; br_cdb c; two_stage.cdb_o (u_fp_add c); fp_mul.cdb_o (u_fp_mul c);
   fp_div.cdb_o (u_fp_div c); load_store_buffer.cdb_o (u_lsb c) mem_rd_data_i;
   two_stage.cdb_o (u_fp_cvt c)].

Definition cdb_w : cdb_t := cdb.cdb_o (u_cdb c) fu_results.
Definition fu_grant_w (k : Z) : bool := Z.testbit (cdb.fu_grant_o (u_cdb c) fu_results) k.

End Wires.

(** ** Commit *)

Section Commit.
Context (c : Core).

Definition rob_commit_entry_w : rob_entry_t := rob_unit.commit_entry_o (u_rob c).
Definition rob_commit_valid_w : bool := rob_unit.commit_valid_o (u_rob c).
Definition commit_en_w : bool := rob_commit_valid_w.
Definition flush_w : bool := commit_unit.flush_o rob_commit_valid_w rob_commit_entry_w.
Definition redirect_pc_o : Z := commit_unit.redirect_pc_o rob_commit_valid_w rob_commit_entry_w.
Definition store_commit_w : bool := commit_unit.store_commit_o rob_commit_valid_w rob_commit_entry_w.
Definition store_commit_tag_w : Z := rob_head_reg c.
Definition halted_o : bool :=
  commit_en_w && rob_commit_valid_w && opb (ro_op rob_commit_entry_w) OP_HALT.

Definition x_wr_en_w : bool := commit_unit.x_wr_en_o rob_commit_valid_w rob_commit_entry_w.
Definition f_wr_en_w : bool := commit_unit.f_wr_en_o rob_commit_valid_w rob_commit_entry_w.

Definition x_wr_w : regfile.port :=
  regfile.mkPort x_wr_en_w (commit_unit.gate x_wr_en_w (ro_rd rob_commit_entry_w))
    (commit_unit.gate x_wr_en_w (ro_result rob_commit_entry_w)).
Definition f_wr_w : regfile.port :=
  regfile.mkPort f_wr_en_w (commit_unit.gate f_wr_en_w (ro_rd rob_commit_entry_w))
    (commit_unit.gate f_wr_en_w (ro_result rob_commit_entry_w)).
Definition x_commit_w : rat_table.port :=
  rat_table.mkPort x_wr_en_w (commit_unit.gate x_wr_en_w (ro_rd rob_commit_entry_w))
    (commit_unit.gate x_wr_en_w (rob_head_reg c)).
Definition f_commit_w : rat_table.port :=
  rat_table.mkPort f_wr_en_w (commit_unit.gate f_wr_en_w (ro_rd rob_commit_entry_w))
    (commit_unit.gate f_wr_en_w (rob_head_reg c)).

End Commit.

(** ** Dispatch *)

Section Dispatch.
Context (c : Core) (cdb_i : cdb_t).

Definition iq_instr_w : instr_t := instr_queue.instr_o (u_iq c).

(** Whether the station an instruction goes to is full. *)
Definition target_full (t : dispatch.target) : bool :=
  match t with
  | dispatch.T_ALU => reservation_station.full_o (u_rs_alu c)
  | dispatch.T_BR => reservation_station.full_o (u_rs_br c)
  | dispatch.T_FP_ADD => reservation_station.full_o (u_rs_fp_add c)
  | dispatch.T_FP_MUL => reservation_station.full_o (u_rs_fp_mul c)
  | dispatch.T_FP_DIV => reservation_station.full_o (u_rs_fp_div c)
  | dispatch.T_LSB => negb (load_store_buffer.fu_ready_o (u_lsb c))
  | dispatch.T_FP_CVT => reservation_station.full_o (u_rs_fp_cvt c)
  end.

(** A source operand: ready with its value, or not; and its tag. *)
Definition operand_w (rs : Z) (fp : bool) : bool * Z * Z :=
  let tag :=
    if fp then rat_table.lookup_tag_o (rat_table.f (u_rat c)) rs
    else rat_table.lookup_tag_o (rat_table.x (u_rat c)) rs in
  let rat_valid :=
    if fp then rat_table.lookup_valid_o (rat_table.f (u_rat c)) (f_commit_w c) rs
    else rat_table.lookup_valid_o (rat_table.x (u_rat c)) (x_commit_w c) rs in
  let val :=
    if fp then regfile.f_val_o (u_rf c) (f_wr_w c) rs
    else regfile.x_val_o (u_rf c) (x_wr_w c) rs in
  (dispatch.operand rat_valid tag val
     (rob_unit.lookup_done_o (u_rob c) tag) (rob_unit.lookup_val_o (u_rob c) tag) cdb_i, tag).

Definition entry_w : rs_entry_t :=
  let i := iq_instr_w in
  let '(ready1, val1, tag1) := operand_w (in_rs1 i) (in_rs1_fp i) in
  let '(ready2, val2, tag2) := operand_w (in_rs2 i) (in_rs2_fp i) in
  mkRsEntry (in_op i) (rob_unit.alloc_tag_o (u_rob c)) ready1 val1 tag1 ready2 val2 tag2
    (in_imm i) (in_pc i).

(** [iq_pop_w], [rob_alloc_en_w] *)
Definition iq_pop_w : bool :=
  dispatch.fire (instr_queue.valid_o (u_iq c)) (rob_unit.full_o (u_rob c))
    (target_full (dispatch.target_of (in_op iq_instr_w))).

(** [alu_disp_valid_w] .. [fp_cvt_disp_valid_w] *)
Definition disp_valid_w (t : dispatch.target) : bool :=
  iq_pop_w && bool_decide (dispatch.target_of (in_op iq_instr_w) = t).

Definition map_w (en : bool) : rat_table.port :=
  rat_table.mkPort en (commit_unit.gate en (in_rd iq_instr_w))
    (commit_unit.gate en (rob_unit.alloc_tag_o (u_rob c))).
Definition x_map_w : rat_table.port := map_w (iq_pop_w && dispatch.x_map_en iq_instr_w).
Definition f_map_w : rat_table.port := map_w (iq_pop_w && dispatch.f_map_en iq_instr_w).

End Dispatch.

(** ** The result latches of the ALU and the branch unit *)

Definition alu_fu_ready (c : Core) (grant : bool) : bool :=
  (negb (cdb_valid (alu_cdb c)) || grant) && negb (alu_int.valid_o (u_alu c)).

Definition br_fu_ready (c : Core) (grant : bool) : bool :=
  (negb (cdb_valid (br_cdb c)) || grant) && negb (branch_unit.valid_o (u_br c)).

(** The value a jump or branch broadcasts: PC+4 for JAL and JALR. *)
Definition br_cdb_val (c : Core) : Z :=
  if opb (br_op_d c) OP_JAL || opb (br_op_d c) OP_JALR then trunc 32 (br_pc_d c + 4)
  else branch_unit.target_o (u_br c).

(** Either latch: loaded by its unit, cleared by its grant. *)
Definition latch (l : cdb_t) (flush valid : bool) (tag value : Z) (grant : bool) : cdb_t :=
  if flush then cdb_0
  else if valid then mkCdb tag value true
  else if grant then mkCdb (cdb_tag l) (cdb_value l) false else l.

(** ** The clock edge *)

(** One station: dispatched to, listening, issuing to its unit. *)
Definition next_rs (c : Core) (cdb_i : cdb_t) (t : dispatch.target) (s : reservation_station.state)
    (fu_ready : bool) : reservation_station.state :=
  let v := disp_valid_w c t in
  reservation_station.next s (flush_w c) v (if v then entry_w c cdb_i else rs_entry_0) cdb_i fu_ready.

Definition rob_inputs (c : Core) (cdb_i : cdb_t) : rob_unit.inputs :=
  rob_unit.mkInputs (flush_w c) (iq_pop_w c) (if iq_pop_w c then iq_instr_w c else instr_0) cdb_i
    (branch_unit.valid_o (u_br c)) (branch_unit.tag_o (u_br c))
    (branch_unit.taken_o (u_br c)) (branch_unit.target_o (u_br c)) (commit_en_w c).

Definition next (c : Core) (fetch_valid_i : bool) (fetch_raw_i fetch_pc_i mem_rd_data_i : Z) : Core :=
  let bus := cdb_w c mem_rd_data_i in
  let grant := fu_grant_w c mem_rd_data_i in
  let flush := flush_w c in
  let alu_ready := alu_fu_ready c (grant 0) in
  let br_ready := br_fu_ready c (grant 1) in
  let add_ready := two_stage.fu_ready_o (u_fp_add c) (grant 2) in
  let mul_ready := fp_mul.fu_ready_o (u_fp_mul c) (grant 3) in
  let div_ready := fp_div.fu_ready_o (u_fp_div c) in
  let cvt_ready := two_stage.fu_ready_o (u_fp_cvt c) (grant 6) in
  let alu_e := reservation_station.issue_entry_o (u_rs_alu c) in
  let br_e := reservation_station.issue_entry_o (u_rs_br c) in
  let add_e := reservation_station.issue_entry_o (u_rs_fp_add c) in
  let mul_e := reservation_station.issue_entry_o (u_rs_fp_mul c) in
  let div_e := reservation_station.issue_entry_o (u_rs_fp_div c) in
  let cvt_e := reservation_station.issue_entry_o (u_rs_fp_cvt c) in
  let lsb_v := disp_valid_w c dispatch.T_LSB in
  mkCore
    (instr_queue.next (u_iq c) flush (fetch_valid_i && negb (instr_queue.full_o (u_iq c)))
       (decode.decode fetch_raw_i fetch_pc_i) (iq_pop_w c))
    (rob_unit.next (u_rob c) (rob_inputs c bus))
    (if flush then 0
     else if commit_en_w c && rob_commit_valid_w c then trunc 4 (rob_head_reg c + 1)
     else rob_head_reg c)
    (rat_table.next (u_rat c) flush (x_commit_w c) (f_commit_w c) (x_map_w c) (f_map_w c))
    (regfile.next (u_rf c) (x_wr_w c) (f_wr_w c))
    (next_rs c bus dispatch.T_ALU (u_rs_alu c) alu_ready)
    (next_rs c bus dispatch.T_BR (u_rs_br c) br_ready)
    (next_rs c bus dispatch.T_FP_ADD (u_rs_fp_add c) add_ready)
    (next_rs c bus dispatch.T_FP_MUL (u_rs_fp_mul c) mul_ready)
    (next_rs c bus dispatch.T_FP_DIV (u_rs_fp_div c) div_ready)
    (next_rs c bus dispatch.T_FP_CVT (u_rs_fp_cvt c) cvt_ready)
    (alu_int.next (u_alu c) (reservation_station.issue_valid_o (u_rs_alu c) alu_ready)
       (rs_op alu_e) (rs_rob_tag alu_e) (rs_pc alu_e) (rs1_val alu_e) (rs2_val alu_e) (rs_imm alu_e))
    (latch (alu_cdb c) flush (alu_int.valid_o (u_alu c)) (alu_int.tag_o (u_alu c))
       (alu_int.result_o (u_alu c)) (grant 0))
    (branch_unit.next (u_br c) (reservation_station.issue_valid_o (u_rs_br c) br_ready)
       (rs_op br_e) (rs_rob_tag br_e) (rs1_val br_e) (rs2_val br_e) (rs_imm br_e) (rs_pc br_e))
    (rs_op br_e)
    (rs_pc br_e)
    (latch (br_cdb c) flush (branch_unit.valid_o (u_br c)) (branch_unit.tag_o (u_br c))
       (br_cdb_val c) (grant 1))
    (two_stage.next (u_fp_add c) flush (reservation_station.issue_valid_o (u_rs_fp_add c) add_ready)
       (rs_rob_tag add_e) (fp_add.fp_add_core (rs1_val add_e) (rs2_val add_e) (opb (rs_op add_e) OP_FSUB_S))
       (grant 2))
    (fp_mul.next (u_fp_mul c) flush (reservation_station.issue_valid_o (u_rs_fp_mul c) mul_ready)
       (rs_rob_tag mul_e) (rs1_val mul_e) (rs2_val mul_e) (grant 3))
    (fp_div.next (u_fp_div c) flush (reservation_station.issue_valid_o (u_rs_fp_div c) div_ready)
       (rs_rob_tag div_e) (rs1_val div_e) (rs2_val div_e) (grant 4))
    (load_store_buffer.next (u_lsb c) flush lsb_v (if lsb_v then entry_w c bus else rs_entry_0) bus
       (store_commit_w c) (store_commit_tag_w c) (grant 5))
    (two_stage.next (u_fp_cvt c) flush (reservation_station.issue_valid_o (u_rs_fp_cvt c) cvt_ready)
       (rs_rob_tag cvt_e) (fp_cvt.compute_result (rs_op cvt_e) (rs1_val cvt_e)) (grant 6))
    (cdb.next (u_cdb c) (fu_results c mem_rd_data_i)).

(** The ports of the data memory. *)
Definition mem_rd_addr_o (c : Core) : Z := load_store_buffer.mem_rd_addr_o (u_lsb c).
Definition mem_wr_o (c : Core) : load_store_buffer.write_port :=
  load_store_buffer.mem_wr_o (u_lsb c) (store_commit_w c) (store_commit_tag_w c).
Definition iq_full_o (c : Core) : bool := instr_queue.full_o (u_iq c).

End tomasulo_core.

(** * sim_compliance.sv: the core with its memories and fetch stage

    The testbench of the compliance programs. [System] is the core, the fetch
    registers and the two memories; [next] is a clock edge. The instruction
    word is read combinationally, as the testbench does. *)

Module sim_compliance.

Record System : Type := mkSystem {
  core : tomasulo_core.Core;
  fetch_pc : Z;
  fetch_pc_d : Z;
  fetch_valid : bool;
  imem : list Z;
  dmem : data_mem.state;
  halted : bool
}.

(** After reset, with the program in both memories; unwritten words are 0. The
    word the data memory returns before the first clock edge is undefined in
    the RTL and 0 here; no load is pending then, so nothing reads it. *)
Definition load (words : list Z) : list Z := take (Z.to_nat MEM_SIZE) (words ++ replicate (Z.to_nat MEM_SIZE) 0).

Definition reset (words : list Z) : System :=
  mkSystem tomasulo_core.reset 0 0 false (load words) (data_mem.mk (load words) 0) false.

Definition instr_raw (s : System) : Z := at_ 0 (imem s) (bits (fetch_pc_d s) 11 2).
Definition iq_full (s : System) : bool := tomasulo_core.iq_full_o (core s).
Definition fetch_fires (s : System) : bool := fetch_valid s && negb (iq_full s).
Definition mem_rd_data (s : System) : Z := data_mem.rd_data_o (dmem s).

Definition next (s : System) : System :=
  let c := core s in
  let flush := tomasulo_core.flush_w c in
  let redirect_pc := tomasulo_core.redirect_pc_o c in
  mkSystem
    (tomasulo_core.next c (fetch_fires s) (instr_raw s) (fetch_pc_d s) (mem_rd_data s))
    (if flush then redirect_pc else if iq_full s then fetch_pc s else trunc 32 (fetch_pc s + 4))
    (if flush then redirect_pc else if iq_full s then fetch_pc_d s else fetch_pc s)
    (if flush then false else true)
    (imem s)
    (data_mem.next (dmem s) (tomasulo_core.mem_rd_addr_o c) (tomasulo_core.mem_wr_o c))
    (halted s || tomasulo_core.halted_o c).

Fixpoint run (n : nat) (s : System) : System :=
  match n with
  | O => s
  | S k => run k (next s)
  end.

End sim_compliance.
