(* ===== verification/HwDecode.v ===== *)
(** * Encoding instructions, and decoding them again *)

From S2P Require Import Prelude Words Config Instruction ISA Execute HwPkg HwUnits HwControl.

(** * Instructions of the simulator in the core

    What an assembled instruction is to the hardware: its opcode, its operand
    fields and its immediate ([hw_instr]); and its 32-bit encoding, after the
    formats of docs/ISA.md ([encode]). Nothing here is code of the core; it is
    the correspondence the theorems about [decode] and the units state. *)

(** ** The correspondence *)

Definition hw_op (o : Opcode) : opcode_e :=
  match o with
  | ADD => OP_ADD | SUB => OP_SUB | AND => OP_AND | OR => OP_OR | XOR => OP_XOR
  | SLL => OP_SLL | SRL => OP_SRL | SRA => OP_SRA
  | ADDI => OP_ADDI | ANDI => OP_ANDI | ORI => OP_ORI | XORI => OP_XORI
  | SLLI => OP_SLLI | SRLI => OP_SRLI | LUI => OP_LUI
  | LW => OP_LW | SW => OP_SW
  | BEQ => OP_BEQ | BNE => OP_BNE | BLT => OP_BLT | BGE => OP_BGE
  | JAL => OP_JAL | JALR => OP_JALR
  | FADD_S => OP_FADD_S | FSUB_S => OP_FSUB_S | FMUL_S => OP_FMUL_S | FDIV_S => OP_FDIV_S
  | FLW => OP_FLW | FSW => OP_FSW | FCVT_W_S => OP_FCVT_W_S | FCVT_S_W => OP_FCVT_S_W
  | NOP => OP_NOP | HALT => OP_HALT
  end.

(** The decoder shifts the immediate of LUI; the simulator does so in the
    unit. *)
Definition hw_imm (o : Opcode) (im : Z) : Z :=
  match o with
  | LUI => u32 (im * 2 ^ 12)
  | _ => u32 im
  end.

(** Register -1, "none", is register 0 without a writeback. *)
Definition hw_reg (r : Z) : Z := Z.max r 0.

Definition hw_instr (i : Instruction) (p : Z) : instr_t :=
  mkInstr (hw_op (op i)) (hw_reg (rd i)) (hw_reg (rs1 i)) (hw_reg (rs2 i)) (hw_imm (op i) (imm i))
    (rd_fp i) (rs1_fp i) (rs2_fp i) (0 <=? rd i) p.

(** ** The encodings *)

Definition r_type (opcode funct3 funct7 : Z) (i : Instruction) : Z :=
  cat (cat (cat (cat (cat funct7 5 (hw_reg (rs2 i))) 5 (hw_reg (rs1 i))) 3 funct3) 5 (hw_reg (rd i)))
    7 opcode.

Definition i_type (opcode funct3 : Z) (i : Instruction) : Z :=
  cat (cat (cat (cat (bits (u32 (imm i)) 11 0) 5 (hw_reg (rs1 i))) 3 funct3) 5 (hw_reg (rd i))) 7 opcode.

Definition s_type (opcode funct3 : Z) (i : Instruction) : Z :=
  let im := u32 (imm i) in
  cat (cat (cat (cat (cat (bits im 11 5) 5 (hw_reg (rs2 i))) 5 (hw_reg (rs1 i))) 3 funct3)
    5 (bits im 4 0)) 7 opcode.

Definition b_type (opcode funct3 : Z) (i : Instruction) : Z :=
  let im := u32 (imm i) in
  cat (cat (cat (cat (cat (cat (cat (bits im 12 12) 6 (bits im 10 5)) 5 (hw_reg (rs2 i)))
    5 (hw_reg (rs1 i))) 3 funct3) 4 (bits im 4 1)) 1 (bits im 11 11)) 7 opcode.

Definition u_type (opcode : Z) (i : Instruction) : Z :=
  cat (cat (bits (u32 (imm i)) 19 0) 5 (hw_reg (rd i))) 7 opcode.

Definition j_type (opcode : Z) (i : Instruction) : Z :=
  let im := u32 (imm i) in
  cat (cat (cat (cat (cat (bits im 20 20) 10 (bits im 10 1)) 1 (bits im 11 11)) 8 (bits im 19 12))
    5 (hw_reg (rd i))) 7 opcode.

(** NOP has the encoding of [addi x0, x0, 0], HALT that of [ecall]. *)
Definition encode (i : Instruction) : Z :=
  match op i with
  | ADD => r_type 0x33 0 0 i
  | SUB => r_type 0x33 0 32 i
  | SLL => r_type 0x33 1 0 i
  | XOR => r_type 0x33 4 0 i
  | SRL => r_type 0x33 5 0 i
  | SRA => r_type 0x33 5 32 i
  | OR => r_type 0x33 6 0 i
  | AND => r_type 0x33 7 0 i
  | ADDI => i_type 0x13 0 i
  | SLLI => i_type 0x13 1 i
  | XORI => i_type 0x13 4 i
  | SRLI => i_type 0x13 5 i
  | ORI => i_type 0x13 6 i
  | ANDI => i_type 0x13 7 i
  | LUI => u_type 0x37 i
  | LW => i_type 0x03 2 i
  | SW => s_type 0x23 2 i
  | BEQ => b_type 0x63 0 i
  | BNE => b_type 0x63 1 i
  | BLT => b_type 0x63 4 i
  | BGE => b_type 0x63 5 i
  | JAL => j_type 0x6F i
  | JALR => i_type 0x67 0 i
  | FLW => i_type 0x07 2 i
  | FSW => s_type 0x27 2 i
  | FADD_S => r_type 0x53 0 0 i
  | FSUB_S => r_type 0x53 0 4 i
  | FMUL_S => r_type 0x53 0 8 i
  | FDIV_S => r_type 0x53 0 12 i
  | FCVT_W_S => r_type 0x53 0 96 i
  | FCVT_S_W => r_type 0x53 0 104 i
  | NOP => 0x13
  | HALT => 0x73
  end.

(** The immediates an encoding holds. *)
Definition imm_fits (o : Opcode) (im : Z) : bool :=
  let signed_bits n := (- 2 ^ (n - 1) <=? im) && (im <? 2 ^ (n - 1)) in
  match o with
  | ADDI | ANDI | ORI | XORI | LW | SW | FLW | FSW | JALR => signed_bits 12
  | SLLI | SRLI => (0 <=? im) && (im <? 32)
  | BEQ | BNE | BLT | BGE => signed_bits 13 && Z.even im
  | JAL => signed_bits 21 && Z.even im
  | LUI => (0 <=? im) && (im <? 2 ^ 20)
  | _ => im =? 0
  end.

(** The fields an operation has: register files, and -1 for the registers its
    format does not name. *)
Definition format_ok (i : Instruction) : bool :=
  let none r := r =? -1 in
  let x r := (0 <=? r) && (r <? 32) in
  let fp a b c := eqb (rd_fp i) a && eqb (rs1_fp i) b && eqb (rs2_fp i) c in
  match op i with
  | ADD | SUB | AND | OR | XOR | SLL | SRL | SRA =>
      x (rd i) && x (rs1 i) && x (rs2 i) && fp false false false
  | ADDI | ANDI | ORI | XORI | SLLI | SRLI | LW | JALR =>
      x (rd i) && x (rs1 i) && none (rs2 i) && fp false false false
  | SW | BEQ | BNE | BLT | BGE => none (rd i) && x (rs1 i) && x (rs2 i) && fp false false false
  | LUI | JAL => x (rd i) && none (rs1 i) && none (rs2 i) && fp false false false
  | FADD_S | FSUB_S | FMUL_S | FDIV_S => x (rd i) && x (rs1 i) && x (rs2 i) && fp true true true
  | FLW => x (rd i) && x (rs1 i) && none (rs2 i) && fp true false false
  | FSW => none (rd i) && x (rs1 i) && x (rs2 i) && fp false false true
  | FCVT_W_S => x (rd i) && x (rs1 i) && none (rs2 i) && fp false true false
  | FCVT_S_W => x (rd i) && x (rs1 i) && none (rs2 i) && fp true false false
  | HALT => none (rd i) && none (rs1 i) && none (rs2 i) && fp false false false
  | NOP => false
  end.

Definition encodable (i : Instruction) : bool := format_ok i && imm_fits (op i) (imm i).

(** * Decoding what is encoded *)

(** ** Part selects *)

Lemma bits_bits z h l h' l' :
  0 <= l -> 0 <= l' <= h' -> h' <= h - l -> bits (bits z h l) h' l' = bits z (l + h') (l + l').
Proof.
  intros Hl Hl' Hh. unfold bits.
  replace (l + h' - (l + l') + 1) with (h' - l' + 1) by lia.
  assert (0 < 2 ^ l) by (apply Z.pow_pos_nonneg; lia). assert (0 < 2 ^ l') by (apply Z.pow_pos_nonneg; lia).
  rewrite (Z.pow_add_r 2 l l'), <- Z.div_div by lia. set (y := z / 2 ^ l).
  replace (h - l + 1) with (l' + (h - l - l' + 1)) by lia. rewrite (Z.pow_add_r 2 l'), Z.rem_mul_r by (try apply Z.pow_pos_nonneg; lia).
  rewrite Z.add_comm, Z.mul_comm, Z.div_add_l by lia.
  rewrite (Z.div_small (y mod 2 ^ l')) by (apply Z.mod_pos_bound; lia). rewrite Z.add_0_r.
  replace (2 ^ (h - l - l' + 1)) with (2 ^ (h' - l' + 1) * 2 ^ (h - l - h'))
    by (rewrite <- Z.pow_add_r by lia; f_equal; lia).
  rewrite Z.rem_mul_r by (try apply Z.pow_pos_nonneg; try apply Z.pow_nonzero; lia).
  rewrite Z.mul_comm, Z_mod_plus_full. apply Z.mod_mod. apply Z.pow_nonzero; lia.
Qed.

(** Adjacent selects join behind what precedes them. *)
Lemma cat_join a w1 z hi mid lo w2 w :
  0 <= lo <= mid -> mid <= hi -> 0 <= w1 -> w2 = mid - lo -> w = w1 + w2 ->
  cat (cat a w1 (bits z hi mid)) w2 (bits z (mid - 1) lo) = cat a w (bits z hi lo).
Proof.
  intros Hl Hm Hw1 Hw2 ->. rewrite <- (cat_bits z hi mid lo w2) by (done || lia).
  unfold cat. rewrite Z.pow_add_r by lia. ring.
Qed.

(** Sign extension of the low [n] bits gives a small integer back. *)
Lemma sign_extend n im :
  1 <= n <= 31 -> - 2 ^ (n - 1) <= im < 2 ^ (n - 1) ->
  cat (fill (32 - n) (bits (u32 im) (n - 1) (n - 1) =? 1)) n (bits (u32 im) (n - 1) 0) = u32 im.
Proof.
  intros Hn Him. rewrite <- testbit_bits. unfold bits. rewrite Z.pow_0_r, Z.div_1_r.
  replace (n - 1 - 0 + 1) with n by lia.
  assert (Hp : 2 ^ n = 2 * 2 ^ (n - 1)) by (rewrite <- Z.pow_succ_r by lia; f_equal; lia).
  assert (Hp1 : 0 < 2 ^ (n - 1)) by (apply Z.pow_pos_nonneg; lia).
  assert (H32 : 2 ^ 32 = 2 ^ (32 - n) * 2 ^ n) by (rewrite <- Z.pow_add_r by lia; f_equal; lia).
  assert (Hm : 0 < 2 ^ (32 - n)) by (apply Z.pow_pos_nonneg; lia).
  assert (Hu : u32 im = if im <? 0 then im + 2 ^ 32 else im).
  { unfold u32. symmetry. destruct (Z.ltb_spec im 0);
      [apply (Zmod_unique _ _ (-1))|apply (Zmod_unique _ _ 0)]; nia. }
  assert (Hb : Z.testbit (u32 im) (n - 1) = (im <? 0)).
  { destruct (Z.ltb_spec im 0).
    - rewrite Hu. rewrite <- (Z.mod_pow2_bits_low (im + 2 ^ 32) 32) by lia.
      rewrite <- (Z.mod_pow2_bits_low _ n) by lia.
      replace ((im + 2 ^ 32) mod 2 ^ 32) with (im + 2 ^ 32) by (apply (Zmod_unique _ _ 0); nia).
      apply Z.testbit_true; [lia|].
      replace ((im + 2 ^ 32) mod 2 ^ n) with (im + 2 ^ n)
        by (apply (Zmod_unique _ _ (2 ^ (32 - n) - 1)); nia).
      replace ((im + 2 ^ n) / 2 ^ (n - 1)) with 1; [done|].
      apply (Zdiv_unique _ _ _ (im + 2 ^ (n - 1))); lia.
    - rewrite Hu. apply Z.testbit_false; [lia|]. rewrite Z.div_small by lia. done. }
  rewrite Hb, Hu. unfold cat, fill. destruct (Z.ltb_spec im 0).
  - replace ((im + 2 ^ 32) mod 2 ^ n) with (im + 2 ^ n)
      by (apply (Zmod_unique _ _ (2 ^ (32 - n) - 1)); nia). nia.
  - rewrite Z.mod_small by lia. lia.
Qed.

(** Evaluate closed bounds, resolve selects of concatenations. *)
Ltac norm_bounds :=
  repeat match goal with
  | |- context [bits ?z ?h ?l] =>
      let h' := eval vm_compute in h in let l' := eval vm_compute in l in
      progress change (bits z h l) with (bits z h' l')
  end.

Ltac in_range :=
  first [lia | by apply bits_range | match goal with |- context [bits ?z ?h ?l] =>
    pose proof (bits_range z h l ltac:(lia)); lia end].

Ltac slice :=
  repeat (match goal with
  | |- context [bits (cat ?a ?w ?b) ?hi ?lo] =>
      first [rewrite (bits_cat_low a w b hi lo) by lia
            |rewrite (bits_cat_high a w b hi lo) by (first [split; in_range|in_range])]
  | |- context [bits (bits ?z ?h ?l) ?h' ?l'] => rewrite (bits_bits z h l h' l') by lia
  end; norm_bounds).

(** ** The formats *)

Section Formats.
Context (i : Instruction) (opcode funct3 funct7 : Z).
Hypothesis Hrd : -1 <= rd i < 32.
Hypothesis Hrs1 : -1 <= rs1 i < 32.
Hypothesis Hrs2 : -1 <= rs2 i < 32.
Hypothesis Hop : 0 <= opcode < 2 ^ 7.
Hypothesis Hf3 : 0 <= funct3 < 2 ^ 3.
Hypothesis Hf7 : 0 <= funct7 < 2 ^ 7.

Lemma hw_reg_range r : -1 <= r < 32 -> 0 <= hw_reg r < 2 ^ 5.
Proof. unfold hw_reg. lia. Qed.

#[local] Hint Resolve hw_reg_range : core.

Ltac fields := repeat split; slice; try (apply bits_full; cbn; auto with core); auto with core.

Lemma r_fields :
  let raw := r_type opcode funct3 funct7 i in
  bits raw 6 0 = opcode /\ bits raw 11 7 = hw_reg (rd i) /\ bits raw 14 12 = funct3 /\
  bits raw 19 15 = hw_reg (rs1 i) /\ bits raw 24 20 = hw_reg (rs2 i) /\ bits raw 31 25 = funct7.
Proof.
  pose proof (hw_reg_range _ Hrd). pose proof (hw_reg_range _ Hrs1). pose proof (hw_reg_range _ Hrs2).
  cbn zeta. unfold r_type. fields.
Qed.

Lemma i_fields :
  let raw := i_type opcode funct3 i in
  bits raw 6 0 = opcode /\ bits raw 11 7 = hw_reg (rd i) /\ bits raw 14 12 = funct3 /\
  bits raw 19 15 = hw_reg (rs1 i) /\ bits raw 31 31 = bits (u32 (imm i)) 11 11 /\
  bits raw 31 20 = bits (u32 (imm i)) 11 0 /\ bits (bits raw 31 25) 5 5 = bits (u32 (imm i)) 10 10.
Proof.
  pose proof (hw_reg_range _ Hrd). pose proof (hw_reg_range _ Hrs1). cbn zeta. unfold i_type. fields.
Qed.

Lemma i_imm :
  - 2 ^ 11 <= imm i < 2 ^ 11 -> decode.imm_i (i_type opcode funct3 i) = u32 (imm i).
Proof.
  intros Him. unfold decode.imm_i. rewrite testbit_bits.
  destruct i_fields as (_ & _ & _ & _ & -> & -> & _). by apply (sign_extend 12).
Qed.

Lemma s_fields :
  let raw := s_type opcode funct3 i in
  bits raw 6 0 = opcode /\ bits raw 14 12 = funct3 /\ bits raw 19 15 = hw_reg (rs1 i) /\
  bits raw 24 20 = hw_reg (rs2 i) /\ bits raw 31 31 = bits (u32 (imm i)) 11 11 /\
  bits raw 31 25 = bits (u32 (imm i)) 11 5 /\ bits raw 11 7 = bits (u32 (imm i)) 4 0.
Proof.
  pose proof (hw_reg_range _ Hrs1). pose proof (hw_reg_range _ Hrs2). cbn zeta. unfold s_type. fields.
Qed.

Lemma s_imm :
  - 2 ^ 11 <= imm i < 2 ^ 11 -> decode.imm_s (s_type opcode funct3 i) = u32 (imm i).
Proof.
  intros Him. unfold decode.imm_s. rewrite testbit_bits.
  destruct s_fields as (_ & _ & _ & _ & -> & -> & ->).
  rewrite (cat_join _ 7 _ 11 5 0 5 12) by lia. by apply (sign_extend 12).
Qed.

(** The scrambled formats hold an even offset without its last bit. *)
Lemma even_bit z : Z.even z = true -> bits (u32 z) 0 0 = 0.
Proof.
  intros He. unfold bits. rewrite Z.pow_0_r, Z.div_1_r. change (2 ^ (0 - 0 + 1)) with 2.
  unfold u32. change (2 ^ 32) with (2 * 2 ^ 31). rewrite Z.rem_mul_r by lia.
  rewrite (Z.mul_comm 2), Z_mod_plus_full, Z.mod_mod by lia. by rewrite Zmod_even, He.
Qed.

Lemma b_fields :
  let raw := b_type opcode funct3 i in
  bits raw 6 0 = opcode /\ bits raw 14 12 = funct3 /\ bits raw 19 15 = hw_reg (rs1 i) /\
  bits raw 24 20 = hw_reg (rs2 i) /\ bits raw 31 31 = bits (u32 (imm i)) 12 12 /\
  bits raw 7 7 = bits (u32 (imm i)) 11 11 /\ bits raw 30 25 = bits (u32 (imm i)) 10 5 /\
  bits raw 11 8 = bits (u32 (imm i)) 4 1.
Proof.
  pose proof (hw_reg_range _ Hrs1). pose proof (hw_reg_range _ Hrs2). cbn zeta. unfold b_type. fields.
Qed.

Lemma b_imm :
  - 2 ^ 12 <= imm i < 2 ^ 12 -> Z.even (imm i) = true ->
  decode.imm_b (b_type opcode funct3 i) = u32 (imm i).
Proof.
  intros Him He. unfold decode.imm_b. rewrite testbit_bits.
  destruct b_fields as (_ & _ & _ & _ & -> & -> & -> & ->). rewrite <- (even_bit _ He).
  rewrite (cat_join _ 1 _ 12 12 11 1 2), (cat_join _ 2 _ 12 11 5 6 8), (cat_join _ 8 _ 12 5 1 4 12),
    (cat_join _ 12 _ 12 1 0 1 13) by lia. by apply (sign_extend 13).
Qed.

Lemma u_fields :
  let raw := u_type opcode i in
  bits raw 6 0 = opcode /\ bits raw 11 7 = hw_reg (rd i) /\ bits raw 31 12 = bits (u32 (imm i)) 19 0.
Proof.
  pose proof (hw_reg_range _ Hrd). cbn zeta. unfold u_type. fields.
Qed.

Lemma u_imm : 0 <= imm i < 2 ^ 20 -> decode.imm_u (u_type opcode i) = u32 (imm i * 2 ^ 12).
Proof.
  intros Him. unfold decode.imm_u. destruct u_fields as (_ & _ & ->).
  rewrite (u32_id (imm i)) by (unfold is_u32; lia). rewrite bits_full by lia.
  symmetry. unfold cat. rewrite Z.add_0_r. apply u32_id. unfold is_u32. lia.
Qed.

Lemma j_fields :
  let raw := j_type opcode i in
  bits raw 6 0 = opcode /\ bits raw 11 7 = hw_reg (rd i) /\
  bits raw 31 31 = bits (u32 (imm i)) 20 20 /\ bits raw 19 12 = bits (u32 (imm i)) 19 12 /\
  bits raw 20 20 = bits (u32 (imm i)) 11 11 /\ bits raw 30 21 = bits (u32 (imm i)) 10 1.
Proof.
  pose proof (hw_reg_range _ Hrd). cbn zeta. unfold j_type. fields.
Qed.

Lemma j_imm :
  - 2 ^ 20 <= imm i < 2 ^ 20 -> Z.even (imm i) = true ->
  decode.imm_j (j_type opcode i) = u32 (imm i).
Proof.
  intros Him He. unfold decode.imm_j. rewrite testbit_bits.
  destruct j_fields as (_ & _ & -> & -> & -> & ->). rewrite <- (even_bit _ He).
  rewrite (cat_join _ 1 _ 20 20 12 8 9), (cat_join _ 9 _ 20 12 11 1 10), (cat_join _ 10 _ 20 11 1 10 20),
    (cat_join _ 20 _ 20 1 0 1 21) by lia. by apply (sign_extend 21).
Qed.

End Formats.

(** ** The round trip *)

Lemma format_regs i : format_ok i = true -> -1 <= rd i < 32 /\ -1 <= rs1 i < 32 /\ -1 <= rs2 i < 32.
Proof.
  unfold format_ok. destruct (op i); rewrite ?andb_true_iff, ?Z.leb_le, ?Z.ltb_lt, ?Z.eqb_eq;
    try discriminate; lia.
Qed.

(** The decoder reads bit 5 of [funct7] to tell a right shift from its
    arithmetic form: it is bit 10 of the immediate, and 0 in a shift amount. *)
Lemma shift_amount_bit im : 0 <= im < 32 -> bits (u32 im) 10 10 = 0.
Proof.
  intros H. rewrite u32_id by (unfold is_u32; lia). unfold bits. by rewrite Z.div_small by lia.
Qed.

(** [decode] of a format, given the fields its format lemma states. *)
Ltac fields_of l :=
  let H := fresh "Hfields" in
  pose proof l as H; cbn zeta in H; decompose [and] H; clear H;
  unfold decode.decode; rewrite ?(testbit_bits (bits _ 31 25));
  repeat match goal with Hb : bits _ _ _ = _ |- _ => rewrite Hb; revert Hb end; intros.

(** The facts of [format_ok] and [imm_fits]. *)
Ltac ok_facts :=
  repeat match goal with
  | H : _ && _ = true |- _ => apply andb_true_iff in H as [? ?]
  | H : (_ =? _) = true |- _ => apply Z.eqb_eq in H
  | H : (_ <=? _) = true |- _ => apply Z.leb_le in H
  | H : (_ <? _) = true |- _ => apply Z.ltb_lt in H
  | H : Bool.eqb _ _ = true |- _ => apply Bool.eqb_prop in H
  end.

Ltac same_instr :=
  rewrite ?shift_amount_bit by lia; cbn -[hw_reg u32 Z.leb];
  repeat match goal with H : ?f ?i = ?v |- _ =>
    lazymatch f with rd_fp => idtac | rs1_fp => idtac | rs2_fp => idtac
      | rd => idtac | rs1 => idtac | rs2 => idtac end; rewrite H; clear H end;
  f_equal; try (symmetry; apply Z.leb_le; lia);
  try match goal with H : imm ?i = 0 |- 0 = u32 (imm ?i) => by rewrite H end; try done.

Ltac decoded i Hd H1 H2 :=
  match goal with
  | |- context [r_type ?o ?f ?g i] =>
      fields_of (r_fields i o f g Hd H1 H2 ltac:(lia) ltac:(lia) ltac:(lia))
  | |- context [i_type ?o ?f i] =>
      fields_of (i_fields i o f Hd H1 ltac:(lia) ltac:(lia));
      rewrite ?(i_imm i o f Hd H1) by lia
  | |- context [s_type ?o ?f i] =>
      fields_of (s_fields i o f H1 H2 ltac:(lia) ltac:(lia));
      rewrite (s_imm i o f H1 H2) by lia
  | |- context [b_type ?o ?f i] =>
      fields_of (b_fields i o f H1 H2 ltac:(lia) ltac:(lia));
      rewrite (b_imm i o f H1 H2) by first [lia|done]
  | |- context [u_type ?o i] =>
      fields_of (u_fields i o Hd ltac:(lia)); rewrite (u_imm i o Hd) by lia
  | |- context [j_type ?o i] =>
      fields_of (j_fields i o Hd ltac:(lia)); rewrite (j_imm i o Hd) by first [lia|done]
  end.

Theorem decode_encode i p : encodable i = true -> decode.decode (encode i) p = hw_instr i p.
Proof.
  unfold encodable. intros [Hf Hi]%andb_true_iff. pose proof (format_regs _ Hf) as (Hd & H1 & H2).
  unfold encode, hw_instr, hw_imm. destruct (op i) eqn:Ho; unfold format_ok, imm_fits in *; rewrite Ho in *; ok_facts.
  all: try (decoded i Hd H1 H2; same_instr).
  - discriminate.
  - same_instr. by rewrite Hi.
Qed.
