(* ===== verification/HwUnitFacts.v ===== *)
(** * What the functional units compute *)

From Stdlib Require Import SpecFloat.
From S2P Require Import Prelude Words Float32 Config Instruction ISA Execute HwPkg HwUnits HwDecode.

(** * The functional units of the core *)

(** ** Integer units against the operation tables *)

Lemma shift_amount y : bits y 4 0 = y mod 32.
Proof. unfold bits. by rewrite Z.div_1_r. Qed.

Lemma u32_mod_32 im : u32 im mod 32 = im mod 32.
Proof.
  unfold u32. change (2 ^ 32) with (32 * 2 ^ 27). rewrite Z.rem_mul_r by lia.
  rewrite Z.add_mod, Z.mul_comm, Z_mod_mult, Z.add_0_r, !Z.mod_mod by lia. done.
Qed.

Lemma trunc_add_u32 x im : trunc 32 (x + u32 im) = (x + im) mod 2 ^ 32.
Proof. apply u32_add_u32_r. Qed.

#[export] Hint Rewrite shift_amount u32_mod_32 trunc_add_u32 : hw.

(** Operations of the integer station and the unit that executes them. *)
Definition alu_op (o : Opcode) : bool :=
  match o with
  | ADD | SUB | AND | OR | XOR | SLL | SRL | SRA | ADDI | ANDI | ORI | XORI | SLLI | SRLI | LUI
  | NOP | HALT => true
  | _ => false
  end.

Lemma alu_int_is_alu `{FE : FPEnv} o x y im p :
  alu_op o = true -> is_u32 x -> is_u32 y ->
  alu_int.result_next (hw_op o) p x y (hw_imm o im) = alu o x y im p.
Proof.
  intros Ho Hx Hy. pose proof mod_32_range as Hm.
  destruct o; try discriminate Ho; cbn [hw_op hw_imm alu_int.result_next alu];
    autorewrite with hw; rewrite ?Z.shiftl_mul_pow2, ?Z.shiftr_div_pow2 by apply Hm;
    try done; by rewrite signed_s32.
Qed.

Lemma branch_unit_is_alu `{FE : FPEnv} o x y im p :
  is_branch o || is_jump o = true -> is_u32 x -> is_u32 y ->
  branch_unit.target_next (hw_op o) x y (hw_imm o im) p = alu o x y im p.
Proof.
  intros Ho Hx Hy.
  destruct o; try discriminate Ho; cbn [hw_op hw_imm branch_unit.target_next branch_unit.taken_next alu];
    autorewrite with hw; rewrite ?signed_s32 by done; try done.
  apply clear_bit0, u32_range.
Qed.

(** * Rounding to nearest against truncation

    The simulator rounds with [binary_round_aux] of the Standard Library's
    SpecFloat, to nearest even; the core truncates. A truncated normal result
    is the rounded one or the word before it. *)

(** After [n] shifts: the quotient, the last bit shifted out, and whether
    anything was shifted out before it. *)
Definition shifted (m n : Z) : shr_record :=
  Build_shr_record (m / 2 ^ n) (2 ^ (n - 1) <=? m mod 2 ^ n) (negb (m mod 2 ^ (n - 1) =? 0)).

(** The bits of a remainder below a power of two [q] and the bit above. *)
Lemma last_bit q a c : 0 <= a < q -> 0 <= c < 2 ->
  (q <=? a + q * c) = (c =? 1) /\ (a + q * c =? 0) = (a =? 0) && (c =? 0).
Proof.
  intros Ha Hc. assert (c = 0 \/ c = 1) as [-> | ->] by lia;
    rewrite ?Z.mul_0_r, ?Z.mul_1_r, ?andb_true_r, ?andb_false_r; split; lia.
Qed.

Lemma shr_1_shifted m n : 0 <= m -> 0 < n -> shr_1 (shifted m n) = shifted m (n + 1).
Proof.
  intros Hm Hn. unfold shifted. replace (n + 1 - 1) with n by lia.
  assert (H1 : 2 ^ n = 2 ^ (n - 1) * 2) by (replace n with (n - 1 + 1) at 1 by lia; by rewrite Z.pow_add_r by lia).
  assert (H2 : 0 < 2 ^ (n - 1)) by (apply Z.pow_pos_nonneg; lia).
  rewrite Z.pow_add_r by lia. change (2 ^ 1) with 2. rewrite <- Z.div_div by lia.
  rewrite (Z.rem_mul_r m (2 ^ n)) by lia.
  destruct (last_bit (2 ^ (n - 1)) (m mod 2 ^ (n - 1)) ((m / 2 ^ (n - 1)) mod 2)) as [Eb Ez];
    [by apply Z.mod_pos_bound|by apply Z.mod_pos_bound|].
  destruct (last_bit (2 ^ n) (m mod 2 ^ n) ((m / 2 ^ n) mod 2)) as [Fb _];
    [by apply Z.mod_pos_bound; lia|by apply Z.mod_pos_bound|].
  rewrite Fb, <- Zodd_mod.
  assert (Hs : (2 ^ (n - 1) <=? m mod 2 ^ n) || negb (m mod 2 ^ (n - 1) =? 0) = negb (m mod 2 ^ n =? 0)).
  { rewrite H1, Z.rem_mul_r by lia. rewrite Eb, Ez, negb_andb, orb_comm. f_equal.
    pose proof (Z.mod_pos_bound (m / 2 ^ (n - 1)) 2 ltac:(lia)). lia. }
  unfold shr_1. rewrite Hs, <- Z.div2_div.
  assert (0 <= m / 2 ^ n) by (apply Z.div_pos; lia). by destruct (m / 2 ^ n) as [|[q|q|]|q]; try lia.
Qed.

Lemma shr_1_first m : 0 < m -> shr_1 (Build_shr_record m false false) = shifted m 1.
Proof.
  intros Hm. unfold shifted. cbn [Z.sub Z.opp Z.add Z.pos_sub]. rewrite Z.pow_0_r, Z.mod_1_r, Z.pow_1_r.
  assert ((1 <=? m mod 2) = Z.odd m) as ->
    by (rewrite Zodd_mod; pose proof (Z.mod_pos_bound m 2 ltac:(lia)); lia).
  rewrite <- Z.div2_div. by destruct m as [|[q|q|]|q]; try lia.
Qed.

Lemma iter_pos_nat {A} (f : A -> A) p x : SpecFloat.iter_pos f p x = Nat.iter (Pos.to_nat p) f x.
Proof.
  revert x. induction p as [p IH|p IH|]; intros x; cbn [SpecFloat.iter_pos]; [| |done].
  - rewrite !IH, <- Nat.iter_add, <- Nat.iter_succ_r. f_equal. lia.
  - rewrite !IH, <- Nat.iter_add. f_equal. lia.
Qed.

Lemma iter_shr p m : 0 < m ->
  SpecFloat.iter_pos shr_1 p (Build_shr_record m false false) = shifted m (Zpos p).
Proof.
  intros Hm. rewrite iter_pos_nat. destruct (Pos2Nat.is_succ p) as [k Hk]. rewrite Hk.
  replace (Zpos p) with (Z.of_nat k + 1) by lia. clear Hk.
  induction k as [|k IH]; [by apply shr_1_first|].
  change (Nat.iter (S (S k)) ?f ?x) with (f (Nat.iter (S k) f x)). rewrite IH.
  rewrite shr_1_shifted by lia. f_equal. lia.
Qed.

Lemma Zdigits2_unique m d : 0 < d -> 2 ^ (d - 1) <= m < 2 ^ d -> Zdigits2 m = d.
Proof.
  intros Hd Hm. assert (0 < 2 ^ (d - 1)) by (apply Z.pow_pos_nonneg; lia).
  destruct m as [|p|p]; [lia| |lia]. cbn [Zdigits2]. pose proof (digits2_pos_bounds p) as Hp.
  set (n := Zpos (digits2_pos p)) in *.
  assert (n - 1 < d) by (apply (Z.pow_lt_mono_r_iff 2); lia).
  assert (d - 1 < n) by (apply (Z.pow_lt_mono_r_iff 2); lia). lia.
Qed.

(** The word of a normal number from its sign, exponent field and 24-bit
    mantissa. *)
Definition float_word (s : bool) (e m : Z) : Z := cat (cat (Z.b2z s) 8 e) 23 (m - 2 ^ 23).

Lemma of_value_word s p e nan :
  2 ^ 23 <= Zpos p < 2 ^ 24 -> 1 <= e <= 254 ->
  float_to_bits (of_value nan (S754_finite s p (e - 150))) = float_word s e (Zpos p).
Proof.
  intros Hp He. unfold of_value, float_to_bits. cbn [repr].
  destruct (Z.ltb_spec (Zpos p) (2 ^ 23)); [lia|].
  replace (e - 150 + 150) with e by lia. unfold pack, float_word, cat.
  rewrite (Z.mod_small e), (Z.mod_small (Zpos p - 2 ^ 23)) by lia. destruct s; try reflexivity; cbn [Z.b2z]; lia.
Qed.

(** One step up in the order of words, through the exponent and to infinity. *)
Lemma float_word_next s e m : 2 ^ 23 <= m < 2 ^ 24 -> 1 <= e <= 254 ->
  float_word s e m + 1 =
    if m =? 2 ^ 24 - 1 then (if e =? 254 then pack s 255 0 else float_word s (e + 1) (2 ^ 23))
    else float_word s e (m + 1).
Proof.
  intros Hm He. unfold float_word, cat, pack.
  destruct (Z.eqb_spec m (2 ^ 24 - 1)) as [->|], (Z.eqb_spec e 254) as [->|]; destruct s; try reflexivity; cbn [Z.b2z]; lia.
Qed.

(** The last steps of [binary_round_aux] on a mantissa of 24 bits or 2^24. *)
Lemma finish_round s k e nan :
  2 ^ 23 <= k <= 2 ^ 24 -> 1 <= e <= 254 ->
  float_to_bits (of_value nan
    (let '(mrs, e') := shr_fexp prec32 emax32 k (e - 150) loc_Exact in
     match shr_m mrs with
     | Z0 => S754_zero s
     | Zpos m => if e' <=? emax32 - prec32 then S754_finite s m e' else S754_infinity s
     | _ => S754_nan
     end)) =
  if k =? 2 ^ 24 then float_word s e (2 ^ 24 - 1) + 1 else float_word s e k.
Proof.
  intros Hk He. unfold shr_fexp, fexp, emin. destruct (Z.eqb_spec k (2 ^ 24)) as [->|Hne].
  - rewrite (Zdigits2_unique _ 25) by lia. unfold prec32, emax32.
    replace (_ - (e - 150)) with 1 by lia. cbn [shr].
    cbn [shr_record_of_loc]. rewrite iter_shr by lia.
    change (shr_m (shifted (2 ^ 24) 1)) with (Zpos 8388608). cbn match.
    rewrite float_word_next by lia. rewrite Z.eqb_refl.
    destruct (Z.leb_spec (e - 150 + 1) (128 - 24)), (Z.eqb_spec e 254); try lia; [|done].
    replace (e - 150 + 1) with (e + 1 - 150) by lia. by rewrite of_value_word by lia.
  - rewrite (Zdigits2_unique _ 24) by lia. unfold prec32, emax32.
    replace (_ - (e - 150)) with 0 by lia. cbn [shr shr_record_of_loc shr_m].
    destruct k as [|k|k]; [lia| |lia]. cbn match.
    destruct (Z.leb_spec (e - 150) (128 - 24)); [|lia]. by rewrite of_value_word by lia.
Qed.

(** Rounding the quotient of [p] by [2^n] to nearest, ties to even. *)
Definition round_up (p n : Z) : bool :=
  let r := 2 * (p mod 2 ^ n) in
  (2 ^ n <? r) || ((r =? 2 ^ n) && Z.odd (p / 2 ^ n)).

Lemma round_shifted p n :
  0 < n -> round_nearest_even (p / 2 ^ n) (loc_of_shr_record (shifted p n)) =
    p / 2 ^ n + Z.b2z (round_up p n).
Proof.
  intros Hn. unfold shifted, round_up, loc_of_shr_record.
  assert (H1 : 2 ^ n = 2 ^ (n - 1) * 2) by (replace n with (n - 1 + 1) at 1 by lia; by rewrite Z.pow_add_r by lia).
  assert (H2 : 0 < 2 ^ (n - 1)) by (apply Z.pow_pos_nonneg; lia).
  assert (Hr : p mod 2 ^ n = p mod 2 ^ (n - 1) + 2 ^ (n - 1) * ((p / 2 ^ (n - 1)) mod 2))
    by (rewrite H1; apply Z.rem_mul_r; lia).
  pose proof (Z.mod_pos_bound p (2 ^ (n - 1)) H2). pose proof (Z.mod_pos_bound (p / 2 ^ (n - 1)) 2 ltac:(lia)).
  assert (Hc : (p / 2 ^ (n - 1)) mod 2 = 0 \/ (p / 2 ^ (n - 1)) mod 2 = 1) by lia.
  rewrite <- Z.negb_even. rewrite Hr, H1.
  destruct Hc as [-> | ->]; rewrite ?Z.mul_0_r, ?Z.mul_1_r.
  - assert (2 ^ (n - 1) <=? p mod 2 ^ (n - 1) + 0 = false) as -> by lia.
    assert (2 ^ (n - 1) * 2 <? 2 * (p mod 2 ^ (n - 1) + 0) = false) as -> by lia.
    assert (2 * (p mod 2 ^ (n - 1) + 0) =? 2 ^ (n - 1) * 2 = false) as -> by lia.
    destruct (_ =? 0); cbn; lia.
  - assert (2 ^ (n - 1) <=? p mod 2 ^ (n - 1) + 2 ^ (n - 1) = true) as -> by lia.
    destruct (Z.eqb_spec (p mod 2 ^ (n - 1)) 0) as [-> |]; cbn [negb round_nearest_even].
    + assert (2 ^ (n - 1) * 2 <? 2 * (0 + 2 ^ (n - 1)) = false) as -> by lia.
      assert (2 * (0 + 2 ^ (n - 1)) =? 2 ^ (n - 1) * 2 = true) as -> by lia.
      destruct (Z.even _); cbn; lia.
    + assert (2 ^ (n - 1) * 2 <? 2 * (p mod 2 ^ (n - 1) + 2 ^ (n - 1)) = true) as -> by lia. cbn. lia.
Qed.

Lemma round_up_0 p : round_up p 0 = false.
Proof. unfold round_up. rewrite Z.pow_0_r, Z.mod_1_r. done. Qed.

Lemma round_up_exact p n : 0 <= n -> p mod 2 ^ n = 0 -> round_up p n = false.
Proof.
  intros Hn E. unfold round_up. rewrite E. assert (0 < 2 ^ n) by (apply Z.pow_pos_nonneg; lia).
  assert (2 ^ n <? 2 * 0 = false) as -> by lia. by assert (2 * 0 =? 2 ^ n = false) as -> by lia.
Qed.

(** Rounding [p], whose leading bit has weight [2^(e-127)]: the word of the
    quotient, or the next one. *)
Lemma round_aux_word s p n e nan :
  0 <= n -> 2 ^ (23 + n) <= Zpos p < 2 ^ (24 + n) -> 1 <= e <= 254 ->
  float_to_bits (of_value nan
    (binary_round_aux prec32 emax32 s (Zpos p) (e - 150 - n) loc_Exact)) =
  float_word s e (Zpos p / 2 ^ n) + Z.b2z (round_up (Zpos p) n).
Proof.
  intros Hn Hp He. set (k := Zpos p / 2 ^ n).
  assert (H0 : 0 < 2 ^ n) by (apply Z.pow_pos_nonneg; lia).
  assert (Hk : 2 ^ 23 <= k < 2 ^ 24).
  { unfold k. rewrite !Z.pow_add_r in Hp by lia.
    split; [apply Z.div_le_lower_bound|apply Z.div_lt_upper_bound]; lia. }
  assert (Hd : Zdigits2 (Zpos p) = 24 + n)
    by (apply Zdigits2_unique; [lia|]; by replace (24 + n - 1) with (23 + n) by lia).
  assert (Hs : exists mrs, shr_fexp prec32 emax32 (Zpos p) (e - 150 - n) loc_Exact = (mrs, e - 150) /\
    round_nearest_even (shr_m mrs) (loc_of_shr_record mrs) = k + Z.b2z (round_up (Zpos p) n)).
  { unfold shr_fexp, fexp, emin. rewrite Hd. unfold prec32, emax32.
    replace (_ - (e - 150 - n)) with n by lia. cbn [shr_record_of_loc].
    destruct n as [|n|n]; [| |lia]; cbn [shr].
    - eexists. split; [f_equal; lia|]. rewrite round_up_0. cbn. unfold k. rewrite Z.div_1_r. lia.
    - eexists. split; [f_equal; lia|]. rewrite iter_shr by lia. by apply round_shifted. }
  destruct Hs as (mrs & Hshr & Hm). unfold binary_round_aux. rewrite Hshr, Hm.
  rewrite finish_round by (destruct (round_up _ _); cbn [Z.b2z]; lia).
  destruct (round_up (Zpos p) n); cbn [Z.b2z]; [|rewrite !Z.add_0_r; by destruct (Z.eqb_spec k (2 ^ 24)); [lia|]].
  rewrite (float_word_next s e k) by lia.
  destruct (Z.eqb_spec (k + 1) (2 ^ 24)), (Z.eqb_spec k (2 ^ 24 - 1)); try lia.
  rewrite float_word_next by lia. by rewrite Z.eqb_refl.
Qed.

(** * The floating-point units of the core *)

(** ** fp_div: restoring division of the mantissas *)

(** After [k] steps the unit has divided the upper [k] bits of the dividend. *)
Record div_inv (dd dv : Z) (k : Z) (p s q : Z) : Prop := {
  inv_p : p = (dd / 2 ^ (24 - k)) mod dv;
  inv_s : s = (dd * 2 ^ k) mod 2 ^ 24;
  inv_q : q = dd / 2 ^ (24 - k) / dv
}.

Lemma lor_bit p b : 0 <= b < 2 -> Z.lor (2 * p) b = 2 * p + b.
Proof.
  intros Hb. assert (b = 0 \/ b = 1) as [->| ->] by lia; [by rewrite Z.lor_0_r, Z.add_0_r|].
  apply Z.bits_inj'. intros n Hn. rewrite Z.lor_spec. destruct (Z.eq_dec n 0) as [->|].
  - by rewrite Z.testbit_even_0, Z.testbit_odd_0.
  - replace n with (Z.succ (n - 1)) by lia.
    rewrite Z.testbit_even_succ, Z.testbit_odd_succ by lia.
    change 1 with (2 * 0 + 1) at 2. rewrite Z.testbit_odd_succ, Z.bits_0 by lia. apply orb_false_r.
Qed.

Lemma div_bit_step dd dv k p s q :
  0 <= dd < 2 ^ 24 -> 0 < dv < 2 ^ 24 -> 0 <= k < 24 -> div_inv dd dv k p s q ->
  match fp_div.div_bit p s dv with
  | (b, p', s') => div_inv dd dv (k + 1) p' s' (2 * q + Z.b2z b)
  end.
Proof.
  intros Hdd Hdv Hk [Hp Hs Hq].
  set (top := dd / 2 ^ (24 - k)) in *.
  set (bit := (dd / 2 ^ (23 - k)) mod 2).
  assert (Hpow : 2 ^ (24 - k) = 2 ^ (23 - k) * 2)
    by (replace (24 - k) with (23 - k + 1) by lia; rewrite Z.pow_add_r by lia; done).
  assert (0 < 2 ^ (23 - k)) by (apply Z.pow_pos_nonneg; lia).
  assert (Htop : dd / 2 ^ (24 - (k + 1)) = 2 * top + bit).
  { replace (24 - (k + 1)) with (23 - k) by lia. unfold top, bit.
    rewrite Hpow, <- Z.div_div by lia. apply Z.div_mod. lia. }
  assert (Hbit : 0 <= bit < 2) by (apply Z.mod_pos_bound; lia).
  assert (Htopr : 0 <= top < 2 ^ k).
  { unfold top. split; [apply Z.div_pos; lia|]. apply Z.div_lt_upper_bound; [lia|].
    rewrite <- Z.pow_add_r by lia. replace (24 - k + k) with 24 by lia. lia. }
  assert (Hpr : 0 <= p < dv) by (rewrite Hp; apply Z.mod_pos_bound; lia).
  assert (Hple : p <= top) by (rewrite Hp; apply Z.mod_le; lia).
  assert (H2k : 2 * 2 ^ k <= 2 ^ 24)
    by (rewrite <- Z.pow_succ_r by lia; apply Z.pow_le_mono_r; lia).
  assert (Hsb : Z.shiftr s 23 = bit).
  { rewrite Hs, Z.shiftr_div_pow2 by lia. unfold bit.
    replace (2 ^ 24) with (2 ^ k * 2 ^ (24 - k)) by (rewrite <- Z.pow_add_r by lia; f_equal; lia).
    rewrite (Z.mul_comm dd), Zmult_mod_distr_l.
    replace (2 ^ 23) with (2 ^ k * 2 ^ (23 - k)) by (rewrite <- Z.pow_add_r by lia; f_equal; lia).
    rewrite Z.div_mul_cancel_l by lia. rewrite Hpow, Z.rem_mul_r by lia.
    rewrite Z.add_comm, Z.mul_comm, Z.div_add_l by lia.
    rewrite (Z.div_small (dd mod _)) by (apply Z.mod_pos_bound; lia). lia. }
  assert (Hs' : trunc 24 (Z.shiftl s 1) = (dd * 2 ^ (k + 1)) mod 2 ^ 24).
  { unfold trunc. rewrite Z.shiftl_mul_pow2, Hs by lia. rewrite Zmult_mod_idemp_l. f_equal.
    rewrite (Z.pow_add_r 2 k) by lia. lia. }
  assert (Hp' : Z.lor (trunc 24 (Z.shiftl p 1)) (Z.shiftr s 23) = 2 * p + bit).
  { rewrite Hsb, Z.shiftl_mul_pow2, trunc_id by lia. rewrite Z.mul_comm. by apply lor_bit. }
  assert (Hdm : 2 * top + bit = dv * (2 * q) + (2 * p + bit)).
  { pose proof (Z.div_mod top dv ltac:(lia)). rewrite <- Hq, <- Hp in H0. lia. }
  unfold fp_div.div_bit. rewrite Hp', Hs'.
  destruct (Z.leb_spec dv (2 * p + bit)); cbn [Z.b2z]; constructor; rewrite ?Htop; try done.
  - rewrite trunc_id by lia. apply (Zmod_unique _ _ (2 * q + 1)); lia.
  - apply (Zdiv_unique _ _ _ (2 * p + bit - dv)); lia.
  - apply (Zmod_unique _ _ (2 * q)); lia.
  - rewrite Z.add_0_r. apply (Zdiv_unique _ _ _ (2 * p + bit)); lia.
Qed.

Lemma div3_step_spec dd dv k p s q :
  0 <= dd < 2 ^ 24 -> 0 < dv < 2 ^ 24 -> 0 <= k <= 21 -> div_inv dd dv k p s q ->
  match fp_div.div3_step p s dv with
  | (p', s', qb) => div_inv dd dv (k + 3) p' s' (cat q 3 qb) /\ 0 <= qb < 8
  end.
Proof.
  intros Hdd Hdv Hk H0. unfold fp_div.div3_step.
  pose proof (div_bit_step dd dv k p s q Hdd Hdv ltac:(lia) H0) as H1.
  destruct (fp_div.div_bit p s dv) as [[b2 p2] s2].
  pose proof (div_bit_step dd dv (k + 1) p2 s2 _ Hdd Hdv ltac:(lia) H1) as H2.
  destruct (fp_div.div_bit p2 s2 dv) as [[b1 p1] s1].
  pose proof (div_bit_step dd dv (k + 1 + 1) p1 s1 _ Hdd Hdv ltac:(lia) H2) as H3.
  destruct (fp_div.div_bit p1 s1 dv) as [[b0 p0] s0].
  replace (k + 3) with (k + 1 + 1 + 1) by lia. split.
  - replace (cat q 3 _) with (2 * (2 * (2 * q + Z.b2z b2) + Z.b2z b1) + Z.b2z b0) by (unfold cat; lia).
    done.
  - unfold cat. destruct b2, b1, b0; cbn; lia.
Qed.

(** *** The unit from issue to result *)

(** A 24-bit mantissa with its hidden bit. *)
Definition mantissa (a : Z) : Z := cat 1 23 (bits a 22 0).

Lemma mantissa_range a : 2 ^ 23 <= mantissa a < 2 ^ 24.
Proof. unfold mantissa, cat. pose proof (bits_range a 22 0 ltac:(lia)). lia. Qed.

(** What the other inputs of the unit are while it divides does not matter. *)
Record div_input : Type := mkDivInput {
  dv_valid : bool; dv_tag : Z; dv_rs1 : Z; dv_rs2 : Z; dv_grant : bool
}.

Definition div_edge (s : fp_div.state) (i : div_input) : fp_div.state :=
  fp_div.next s false (dv_valid i) (dv_tag i) (dv_rs1 i) (dv_rs2 i) (dv_grant i).

(** The state [j] edges after an issue. *)
Record dividing (tag a b : Z) (j : Z) (s : fp_div.state) : Prop := {
  dv_state : fp_div.st s = fp_div.DIVIDE;
  dv_s_tag : fp_div.s_tag s = tag;
  dv_sign : fp_div.s_sign s = xorb (Z.testbit a 31) (Z.testbit b 31);
  dv_exp : fp_div.s_exp s = trunc 10 (bits a 30 23 - bits b 30 23 + 127);
  dv_dv : fp_div.s_dv s = mantissa b;
  dv_div : div_inv (mantissa a) (mantissa b) (3 * j)
             (fp_div.s_preg s) (fp_div.s_sreg s) (fp_div.s_qreg s);
  dv_cnt : fp_div.s_cnt s = j - 1
}.

Lemma div_start dd dv : 0 <= dd < 2 ^ 24 -> 0 < dv -> div_inv dd dv 0 0 dd 0.
Proof.
  intros Hdd Hdv. constructor; cbn [Z.sub Z.opp Z.add]; rewrite ?(Z.div_small dd) by lia;
    rewrite ?Z.mod_0_l, ?Z.div_0_l by lia; try done.
  rewrite Z.pow_0_r, Z.mul_1_r, Z.mod_small by lia. done.
Qed.

Lemma dividing_first tag a b : dividing tag a b 1 (fp_div.c_idle tag a b).
Proof.
  unfold fp_div.c_idle. fold (mantissa a). fold (mantissa b).
  pose proof (mantissa_range a). pose proof (mantissa_range b).
  pose proof (div3_step_spec (mantissa a) (mantissa b) 0 0 (mantissa a) 0
    ltac:(lia) ltac:(lia) ltac:(lia) (div_start (mantissa a) (mantissa b) ltac:(lia) ltac:(lia))) as Hd.
  destruct (fp_div.div3_step 0 (mantissa a) (mantissa b)) as [[p s] qb].
  destruct Hd as [Hd Hqb]. constructor; cbn; try done.
Qed.

(** The quotient register does not overflow before the end: it holds at most
    the upper bits of the quotient, which is 0 or 1. *)
Lemma div_quotient_small dd dv k p s q :
  0 <= dd < 2 ^ 24 -> 2 ^ 23 <= dv -> 0 <= k <= 24 -> div_inv dd dv k p s q -> 0 <= q <= 1.
Proof.
  intros Hdd Hdv Hk [_ _ ->]. assert (0 < 2 ^ (24 - k)) by (apply Z.pow_pos_nonneg; lia).
  assert (0 <= dd / 2 ^ (24 - k) <= dd).
  { split; [apply Z.div_pos; lia|]. apply Z.div_le_upper_bound; nia. }
  split; [apply Z.div_pos; lia|].
  apply Z.lt_succ_r, Z.div_lt_upper_bound; lia.
Qed.

Lemma dividing_step tag a b j s i :
  1 <= j <= 7 -> dividing tag a b j s ->
  let s' := div_edge s i in
  if j =? 7 then
    fp_div.st s' = fp_div.DONE /\ fp_div.s_tag s' = tag /\
    fp_div.s_sign s' = xorb (Z.testbit a 31) (Z.testbit b 31) /\
    fp_div.s_exp s' = trunc 10 (bits a 30 23 - bits b 30 23 + 127) /\
    fp_div.s_qreg s' = mantissa a / mantissa b
  else dividing tag a b (j + 1) s'.
Proof.
  intros Hj [Hst Htag Hsg Hexp Hdv Hdi Hcnt]. cbn zeta. unfold div_edge, fp_div.next. rewrite Hst.
  pose proof (mantissa_range a). pose proof (mantissa_range b).
  pose proof (div3_step_spec (mantissa a) (mantissa b) (3 * j) _ _ _
    ltac:(lia) ltac:(lia) ltac:(lia) Hdi) as Hd.
  pose proof (div_quotient_small (mantissa a) (mantissa b) (3 * j) _ _ _
    ltac:(lia) ltac:(lia) ltac:(lia) Hdi) as Hq.
  rewrite Hdv. destruct (fp_div.div3_step _ _ _) as [[p' s''] qb]. destruct Hd as [Hd Hqb].
  assert (Hb : bits (fp_div.s_qreg s) 20 0 = fp_div.s_qreg s) by (apply bits_full; lia).
  rewrite Hb, Hcnt. replace (j - 1 =? 6) with (j =? 7) by lia.
  destruct (Z.eqb_spec j 7) as [->|Hne].
  - cbn. repeat split; try done. destruct Hd as [_ _ ->]. cbn. by rewrite Z.div_1_r.
  - constructor; cbn; try done.
    + replace (3 * (j + 1)) with (3 * j + 3) by lia. done.
    + rewrite trunc_id by lia. lia.
Qed.

(** The word a finished division puts on the bus. *)
Definition div_word (a b : Z) : Z :=
  let sign := Z.b2z (xorb (Z.testbit a 31) (Z.testbit b 31)) in
  let e := bits a 30 23 - bits b 30 23 + 127 in
  if (e <=? 1) then 0
  else if 254 <? e then cat (cat sign 8 254) 23 (2 ^ 23 - 1)
  else cat (cat sign 8 (e - 1)) 23 (if mantissa b <=? mantissa a then 2 else 0).

Lemma div_result s a b :
  fp_div.s_sign s = xorb (Z.testbit a 31) (Z.testbit b 31) ->
  fp_div.s_exp s = trunc 10 (bits a 30 23 - bits b 30 23 + 127) ->
  fp_div.s_qreg s = mantissa a / mantissa b ->
  fp_div.c_result s = div_word a b.
Proof.
  intros Hs He Hq. unfold fp_div.c_result, div_word. rewrite Hs, He, Hq.
  pose proof (bits_range a 30 23 ltac:(lia)) as Ha. pose proof (bits_range b 30 23 ltac:(lia)) as Hb.
  set (e := bits a 30 23 - bits b 30 23 + 127) in *.
  pose proof (mantissa_range a). pose proof (mantissa_range b).
  assert (Hq2 : mantissa a / mantissa b = if mantissa b <=? mantissa a then 1 else 0).
  { symmetry. destruct (Z.leb_spec (mantissa b) (mantissa a));
      [apply (Zdiv_unique _ _ _ (mantissa a - mantissa b))|apply (Zdiv_unique _ _ _ (mantissa a))]; lia. }
  assert (Het : trunc 10 e = if e <? 0 then e + 1024 else e).
  { unfold trunc. symmetry. destruct (Z.ltb_spec e 0);
      [apply (Zmod_unique _ _ (-1))|apply (Zmod_unique _ _ 0)]; lia. }
  assert (H9 : Z.testbit (trunc 10 e) 9 = (e <? 0)).
  { rewrite testbit_bits. unfold bits. rewrite Het.
    destruct (Z.ltb_spec e 0); Z.to_euclidean_division_equations; lia. }
  rewrite H9, Hq2, Het. cbn zeta. destruct (Z.ltb_spec e 0); cbn [orb].
  { by destruct (Z.leb_spec e 1); [|lia]. }
  destruct (Z.eqb_spec e 0) as [->|]; [done|].
  destruct (Z.ltb_spec 254 e), (Z.leb_spec e 1); try lia.
  { assert (e = 1) as -> by lia. by destruct (_ <=? _). }
  rewrite (bits_full e), trunc_id by lia.
  assert (1 <? e = true) as -> by lia.
  by destruct (_ <=? _).
Qed.

(** Issue, then seven more edges: whatever arrives meanwhile, the unit is done
    and offers [div_word]. *)
Lemma fp_div_run s0 i0 ins :
  fp_div.st s0 = fp_div.IDLE -> dv_valid i0 = true -> length ins = 7%nat ->
  fp_div.cdb_o (foldl div_edge (div_edge s0 i0) ins) =
    mkCdb (dv_tag i0) (div_word (dv_rs1 i0) (dv_rs2 i0)) true.
Proof.
  intros Hs Hv Hlen.
  assert (H1 : dividing (dv_tag i0) (dv_rs1 i0) (dv_rs2 i0) 1 (div_edge s0 i0)).
  { unfold div_edge, fp_div.next. rewrite Hs, Hv. apply dividing_first. }
  destruct ins as [|i1 [|i2 [|i3 [|i4 [|i5 [|i6 [|i7 [|]]]]]]]]; try discriminate Hlen. cbn [foldl].
  assert (Hmore : forall j s i, 1 <= j <= 6 -> dividing (dv_tag i0) (dv_rs1 i0) (dv_rs2 i0) j s ->
    dividing (dv_tag i0) (dv_rs1 i0) (dv_rs2 i0) (j + 1) (div_edge s i)).
  { intros j s i Hj Hd. pose proof (dividing_step _ _ _ j s i ltac:(lia) Hd) as Hn. cbn zeta in Hn.
    by destruct (Z.eqb_spec j 7); [lia|]. }
  apply (Hmore 1 _ i1), (Hmore 2 _ i2), (Hmore 3 _ i3), (Hmore 4 _ i4), (Hmore 5 _ i5),
    (Hmore 6 _ i6) in H1; try lia.
  destruct (dividing_step _ _ _ 7 _ i7 ltac:(lia) H1) as (Hst & Htag & Hsg & He & Hq).
  unfold fp_div.cdb_o. by rewrite Hst, Htag, (div_result _ _ _ Hsg He Hq).
Qed.

(** ** fp_mul: the product of the mantissas in four stages *)

(** The split multiplication is exact. *)
Lemma split_product a b :
  0 <= a < 2 ^ 24 -> 0 <= b < 2 ^ 24 ->
  fp_mul.c2_product (trunc 24 (fp_mul.hi a * fp_mul.hi b)) (trunc 24 (fp_mul.hi a * fp_mul.lo b))
    (trunc 24 (fp_mul.lo a * fp_mul.hi b)) (trunc 24 (fp_mul.lo a * fp_mul.lo b)) = a * b.
Proof.
  intros Ha Hb.
  assert (Hsplit : forall x, 0 <= x < 2 ^ 24 -> x = fp_mul.hi x * 2 ^ 12 + fp_mul.lo x /\
    0 <= fp_mul.hi x < 2 ^ 12 /\ 0 <= fp_mul.lo x < 2 ^ 12).
  { intros x Hx. pose proof (bits_range x 23 12 ltac:(lia)). pose proof (bits_range x 11 0 ltac:(lia)).
    split; [|done]. pose proof (cat_bits x 23 12 0 12 ltac:(lia) ltac:(lia) eq_refl) as E.
    unfold fp_mul.hi, fp_mul.lo. unfold cat in E. change (12 - 1) with 11 in E.
    rewrite (bits_full x 23) in E by lia. by rewrite E. }
  destruct (Hsplit a Ha) as (Ea & Ha1 & Ha0), (Hsplit b Hb) as (Eb & Hb1 & Hb0).
  assert (Hp : forall x y, 0 <= x < 2 ^ 12 -> 0 <= y < 2 ^ 12 -> 0 <= x * y < 2 ^ 24) by nia.
  rewrite !trunc_id by (by apply Hp). unfold fp_mul.c2_product.
  replace (cat (fp_mul.hi a * fp_mul.hi b) 24 0 + cat (fp_mul.hi a * fp_mul.lo b) 12 0 +
    cat (fp_mul.lo a * fp_mul.hi b) 12 0 + fp_mul.lo a * fp_mul.lo b) with (a * b)
    by (transitivity ((fp_mul.hi a * 2 ^ 12 + fp_mul.lo a) * (fp_mul.hi b * 2 ^ 12 + fp_mul.lo b));
        [by rewrite <- Ea, <- Eb|unfold cat; ring]).
  apply trunc_id. nia.
Qed.

(** The exponent field and 24-bit mantissa of a truncated product. *)
Definition mul_exp (a b : Z) : Z :=
  bits a 30 23 + bits b 30 23 - 127 + (if 2 ^ 47 <=? mantissa a * mantissa b then 1 else 0).
Definition mul_drop (a b : Z) : Z := if 2 ^ 47 <=? mantissa a * mantissa b then 24 else 23.

(** The word a multiplication puts on the bus. *)
Definition mul_word (a b : Z) : Z :=
  let sign := xorb (Z.testbit a 31) (Z.testbit b 31) in
  if (bits a 30 23 =? 0) || (bits b 30 23 =? 0) then 0
  else if mul_exp a b <=? 0 then 0
  else if 254 <? mul_exp a b then float_word sign 254 (2 ^ 24 - 1)
  else float_word sign (mul_exp a b) (mantissa a * mantissa b / 2 ^ mul_drop a b).

Lemma mul_result a b :
  fp_mul.c3_result (fp_mul.c1_zero a b) (fp_mul.c1_sign a b) (fp_mul.c1_exp a b)
    (mantissa a * mantissa b) = mul_word a b.
Proof.
  unfold fp_mul.c3_result, mul_word, fp_mul.c1_zero, fp_mul.c1_sign, fp_mul.c1_exp, mul_exp, mul_drop.
  pose proof (bits_range a 30 23 ltac:(lia)) as Ha. pose proof (bits_range b 30 23 ltac:(lia)) as Hb.
  pose proof (mantissa_range a). pose proof (mantissa_range b).
  set (e := bits a 30 23 + bits b 30 23 - 127). set (p := mantissa a * mantissa b).
  assert (Hp : 2 ^ 46 <= p < 2 ^ 48) by (unfold p; nia).
  destruct ((bits a 30 23 =? 0) || (bits b 30 23 =? 0)); cbn [orb]; [done|].
  assert (p =? 0 = false) as -> by lia.
  assert (H47 : Z.testbit p 47 = (2 ^ 47 <=? p)).
  { rewrite testbit_bits. unfold bits. destruct (Z.leb_spec (2 ^ 47) p); Z.to_euclidean_division_equations; lia. }
  rewrite H47.
  assert (Hw : forall er m, -127 <= er < 512 -> 2 ^ 23 <= m < 2 ^ 24 ->
    (if Z.testbit (trunc 10 er) 9 || (trunc 10 er =? 0) then 0
     else if 254 <? trunc 10 er
     then cat (cat (Z.b2z (xorb (Z.testbit a 31) (Z.testbit b 31))) 8 254) 23 (2 ^ 23 - 1)
     else cat (cat (Z.b2z (xorb (Z.testbit a 31) (Z.testbit b 31))) 8 (bits (trunc 10 er) 7 0)) 23
            (m - 2 ^ 23)) =
    (if er <=? 0 then 0
     else if 254 <? er then float_word (xorb (Z.testbit a 31) (Z.testbit b 31)) 254 (2 ^ 24 - 1)
     else float_word (xorb (Z.testbit a 31) (Z.testbit b 31)) er m)).
  { intros er m Her Hm. assert (Het : trunc 10 er = if er <? 0 then er + 1024 else er).
    { unfold trunc. symmetry. destruct (Z.ltb_spec er 0);
        [apply (Zmod_unique _ _ (-1))|apply (Zmod_unique _ _ 0)]; lia. }
    assert (H9 : Z.testbit (trunc 10 er) 9 = (er <? 0)).
    { rewrite testbit_bits. unfold bits. rewrite Het.
      destruct (Z.ltb_spec er 0); Z.to_euclidean_division_equations; lia. }
    rewrite H9, Het. destruct (Z.ltb_spec er 0), (Z.leb_spec er 0); cbn [orb]; try lia; try done.
    { by assert (er =? 0 = true) as -> by lia. }
    assert (er =? 0 = false) as -> by lia.
    destruct (Z.ltb_spec 254 er); [done|]. unfold float_word. by rewrite (bits_full er) by lia. }
  destruct (Z.leb_spec (2 ^ 47) p).
  - assert (bits p 46 24 = p / 2 ^ 24 - 2 ^ 23) as ->
      by (unfold bits; Z.to_euclidean_division_equations; lia).
    replace (trunc 10 (trunc 10 e + 1)) with (trunc 10 (e + 1))
      by (unfold trunc; by rewrite Zplus_mod_idemp_l).
    apply Hw; [lia|]. Z.to_euclidean_division_equations; lia.
  - assert (bits p 45 23 = p / 2 ^ 23 - 2 ^ 23) as ->
      by (unfold bits; Z.to_euclidean_division_equations; lia).
    rewrite Z.add_0_r. apply Hw; [lia|]. Z.to_euclidean_division_equations; lia.
Qed.

(** *** The pipeline under back-pressure *)

Record fpu_input : Type := mkFpuInput {
  fi_valid : bool; fi_tag : Z; fi_rs1 : Z; fi_rs2 : Z; fi_grant : bool
}.

Definition mul_edge (s : fp_mul.state) (i : fpu_input) : fp_mul.state :=
  fp_mul.next s false (fi_valid i) (fi_tag i) (fi_rs1 i) (fi_rs2 i) (fi_grant i).

(** The number of edges at which the pipeline moves. *)
Fixpoint mul_moves (s : fp_mul.state) (ins : list fpu_input) : nat :=
  match ins with
  | [] => O
  | i :: ins' => (if fp_mul.advance s (fi_grant i) then 1 else 0) + mul_moves (mul_edge s i) ins'
  end.

(** The multiplication of [a] and [b] is in stage [k]. *)
Definition mul_stage (k : nat) (tag a b : Z) (s : fp_mul.state) : Prop :=
  match k with
  | 1%nat =>
      fp_mul.s1_valid s = true /\ fp_mul.s1_tag s = tag /\
      fp_mul.s1_zero s = fp_mul.c1_zero a b /\ fp_mul.s1_sign s = fp_mul.c1_sign a b /\
      fp_mul.s1_exp s = fp_mul.c1_exp a b /\
      fp_mul.c2_product (fp_mul.s1_hh s) (fp_mul.s1_hl s) (fp_mul.s1_lh s) (fp_mul.s1_ll s) =
        mantissa a * mantissa b
  | 2%nat =>
      fp_mul.s2_valid s = true /\ fp_mul.s2_tag s = tag /\
      fp_mul.s2_zero s = fp_mul.c1_zero a b /\ fp_mul.s2_sign s = fp_mul.c1_sign a b /\
      fp_mul.s2_exp s = fp_mul.c1_exp a b /\ fp_mul.s2_product s = mantissa a * mantissa b
  | 3%nat => fp_mul.s3_valid s = true /\ fp_mul.s3_tag s = tag /\ fp_mul.s3_result s = mul_word a b
  | 4%nat => fp_mul.cdb_o s = mkCdb tag (mul_word a b) true
  | _ => False
  end.

Lemma mul_issue s i :
  fi_valid i = true -> fp_mul.advance s (fi_grant i) = true ->
  mul_stage 1 (fi_tag i) (fi_rs1 i) (fi_rs2 i) (mul_edge s i).
Proof.
  intros Hv Ha. unfold mul_edge, fp_mul.next. rewrite Ha, Hv. cbn. repeat split.
  apply split_product; unfold fp_mul.mant; fold (mantissa (fi_rs1 i)); fold (mantissa (fi_rs2 i));
    pose proof (mantissa_range (fi_rs1 i)); pose proof (mantissa_range (fi_rs2 i)); lia.
Qed.

Lemma mul_step k tag a b s i :
  (1 <= k <= 3)%nat -> mul_stage k tag a b s ->
  mul_stage (if fp_mul.advance s (fi_grant i) then S k else k) tag a b (mul_edge s i).
Proof.
  intros Hk H. unfold mul_edge, fp_mul.next. destruct (fp_mul.advance s (fi_grant i)); [|done].
  destruct k as [|[|[|[|k]]]]; try lia; cbn in *; try tauto.
  - destruct H as (Hv & Ht & Hz & Hs & He & ->). rewrite Hz, Hs, He. split; [done|]. split; [done|].
    apply mul_result.
  - unfold fp_mul.cdb_o. cbn. destruct H as (-> & -> & ->). done.
Qed.

Lemma mul_pipeline ins k tag a b s :
  (1 <= k)%nat -> (k + mul_moves s ins <= 4)%nat -> mul_stage k tag a b s ->
  mul_stage (k + mul_moves s ins) tag a b (foldl mul_edge s ins).
Proof.
  revert k s. induction ins as [|i ins IH]; intros k s Hk; cbn [mul_moves foldl];
    [by rewrite Nat.add_0_r|].
  intros Hle Hs. destruct (decide (k = 4%nat)) as [->|Hne].
  - destruct (fp_mul.advance s (fi_grant i)) eqn:Ha; [lia|]. cbn [Nat.add] in *.
    apply (IH 4%nat); [lia|lia|]. unfold mul_edge, fp_mul.next. by rewrite Ha.
  - pose proof (mul_step k tag a b s i ltac:(lia) Hs) as H1.
    destruct (fp_mul.advance s (fi_grant i)); [|by apply IH].
    replace (k + (1 + mul_moves (mul_edge s i) ins))%nat
      with (S k + mul_moves (mul_edge s i) ins)%nat by lia.
    apply IH; [lia|lia|done].
Qed.

(** Once the bus has let the pipeline move three times after an issue, the unit
    offers the product until it is granted. *)
Lemma fp_mul_run s i ins :
  fi_valid i = true -> fp_mul.advance s (fi_grant i) = true -> mul_moves (mul_edge s i) ins = 3%nat ->
  fp_mul.cdb_o (foldl mul_edge (mul_edge s i) ins) =
    mkCdb (fi_tag i) (mul_word (fi_rs1 i) (fi_rs2 i)) true.
Proof.
  intros Hv Ha Hm.
  pose proof (mul_pipeline ins 1 _ _ _ (mul_edge s i) ltac:(lia) ltac:(lia) (mul_issue s i Hv Ha)) as H.
  by rewrite Hm in H.
Qed.

(** *** The product of the simulator *)

Lemma value_of_normal a :
  1 <= bits a 30 23 <= 254 ->
  value (bits_to_float a) =
    S754_finite (Z.testbit a 31) (Z.to_pos (mantissa a)) (bits a 30 23 - 150).
Proof.
  intros He. unfold bits_to_float. change (bits a 30 23) with (exp_field a) in *.
  rewrite value_normal by lia. unfold sign_field. do 2 f_equal. unfold mantissa, cat, man_field, bits.
  change (22 - 0 + 1) with 23. rewrite Z.pow_0_r, Z.div_1_r. lia.
Qed.

(** For normal operands and a product whose truncation is normal, the simulator
    gives the word of the unit, or the next one where rounding goes up. *)
Lemma mul_word_rounded `{FE : FPEnv} a b :
  1 <= bits a 30 23 <= 254 -> 1 <= bits b 30 23 <= 254 -> 1 <= mul_exp a b <= 254 ->
  float_to_bits (fp_arith FMul (bits_to_float a) (bits_to_float b)) =
    mul_word a b + Z.b2z (round_up (mantissa a * mantissa b) (mul_drop a b)).
Proof.
  intros Ha Hb He. unfold fp_arith. cbn [fp_value_op].
  rewrite !value_of_normal by done. cbn [SFmul].
  pose proof (mantissa_range a) as Hma. pose proof (mantissa_range b) as Hmb.
  set (p := (Z.to_pos (mantissa a) * Z.to_pos (mantissa b))%positive).
  assert (Hp : Zpos p = mantissa a * mantissa b)
    by (unfold p; rewrite Pos2Z.inj_mul, !Z2Pos.id by lia; done).
  unfold mul_word. assert (bits a 30 23 =? 0 = false) as -> by lia.
  assert (bits b 30 23 =? 0 = false) as -> by lia. cbn [orb].
  assert (mul_exp a b <=? 0 = false) as -> by lia. assert (254 <? mul_exp a b = false) as -> by lia.
  replace (bits a 30 23 - 150 + (bits b 30 23 - 150)) with (mul_exp a b - 150 - mul_drop a b)
    by (unfold mul_exp, mul_drop; destruct (_ <=? _); lia).
  rewrite <- Hp. apply round_aux_word; [unfold mul_drop; destruct (_ <=? _); lia| |done].
  rewrite Hp. unfold mul_drop. destruct (Z.leb_spec (2 ^ 47) (mantissa a * mantissa b)); cbn; nia.
Qed.
