(* ===== verification/HwFloatFacts.v ===== *)
(** * Conversions, sums and differences of the core against the simulator *)

From Stdlib Require Import SpecFloat.
From S2P Require Import Prelude Words Float32 HwPkg HwUnits HwUnitFacts.

(** * fp_cvt.sv and fp_add.sv against the arithmetic of the simulator *)

(** ** Float to integer *)

Lemma bits_exp_field a : bits a 30 23 = exp_field a.
Proof. done. Qed.

Lemma mantissa_man_field a : mantissa a = man_field a + 2 ^ 23.
Proof.
  unfold mantissa, cat, man_field, bits. change (22 - 0 + 1) with 23. rewrite Z.pow_0_r, Z.div_1_r. lia.
Qed.

Lemma trunc_neg m : 0 <= m < 2 ^ 32 -> trunc 32 (bnot 32 m + 1) = u32 (- m).
Proof. intros Hm. unfold trunc, bnot, u32. replace (2 ^ 32 - 1 - m + 1) with (- m + 1 * 2 ^ 32) by lia. apply Z_mod_plus_full. Qed.

(** Where C++ defines the conversion the unit gives the same integer. *)
Lemma fp_to_int_f2i `{FE : FPEnv} a :
  f2i_defined (bits_to_float a) = true ->
  fp_cvt.fp_to_int a = u32 (f2i (bits_to_float a)).
Proof.
  unfold f2i_defined, f2i, fp_cvt.fp_to_int. fold (mantissa a). rewrite bits_exp_field.
  pose proof (exp_field_range a) as He. pose proof (man_field_range a) as Hm.
  pose proof (mantissa_range a) as Hma. unfold bits_to_float in *.
  destruct (Z.eqb_spec (exp_field a) 0) as [E|N].
  { rewrite value_subnormal by done. destruct (man_field a) as [|m|m] eqn:Em; [done| |lia].
    intros _. cbn [trunc_value]. change (0 <=? -149) with false. cbn match.
    rewrite Z.shiftr_div_pow2, Z.div_small by lia. by destruct (sign_field a). }
  destruct (decide (exp_field a = 255)) as [E|N'].
  { rewrite value_special by done. by destruct (_ =? _). }
  rewrite value_normal by lia. rewrite <- mantissa_man_field. cbn [trunc_value]. rewrite Z2Pos.id by lia.
  set (n := if 0 <=? exp_field a - 150 then Z.shiftl (mantissa a) (exp_field a - 150)
            else Z.shiftr (mantissa a) (- (exp_field a - 150))).
  intros Hdef. rewrite Hdef. fold (sign_field a).
  destruct (Z.ltb_spec (exp_field a) 127) as [Hlt|Hge].
  { assert (n = 0) as Hn; [|rewrite Hn; by destruct (sign_field a)].
    unfold n. destruct (Z.leb_spec 0 (exp_field a - 150)); [lia|].
    rewrite Z.shiftr_div_pow2 by lia. apply Z.div_small. split; [lia|].
    apply Z.lt_le_trans with (2 ^ 24); [lia|]. apply Z.pow_le_mono_r; lia. }
  destruct (Z.leb_spec 158 (exp_field a)) as [Hbig|Hsmall].
  - assert (Hn : 2 ^ 31 <= n).
    { unfold n. destruct (Z.leb_spec 0 (exp_field a - 150)); [|lia].
      rewrite Z.shiftl_mul_pow2 by lia.
      assert (2 ^ 8 <= 2 ^ (exp_field a - 150)) by (apply Z.pow_le_mono_r; lia). nia. }
    destruct (sign_field a); [|lia]. assert (n = 2 ^ 31) as -> by lia. done.
  - rewrite (trunc_id 5 (exp_field a - 127)) by lia.
    assert (Hmag : (if 23 <=? exp_field a - 127 then trunc 32 (Z.shiftl (mantissa a) (trunc 5 (exp_field a - 127 - 23)))
      else Z.shiftr (mantissa a) (trunc 5 (23 - (exp_field a - 127)))) = n /\ 0 <= n < 2 ^ 31).
    { unfold n. destruct (Z.leb_spec 0 (exp_field a - 150)), (Z.leb_spec 23 (exp_field a - 127)); try lia.
      - rewrite (trunc_id 5) by lia. rewrite !Z.shiftl_mul_pow2 by lia.
        replace (exp_field a - 127 - 23) with (exp_field a - 150) by lia.
        assert (0 < 2 ^ (exp_field a - 150) <= 2 ^ 7)
          by (split; [apply Z.pow_pos_nonneg; lia|apply Z.pow_le_mono_r; lia]).
        rewrite trunc_id by nia. split; [done|]. nia.
      - rewrite (trunc_id 5) by lia. replace (23 - (exp_field a - 127)) with (- (exp_field a - 150)) by lia.
        rewrite Z.shiftr_div_pow2 by lia. split; [done|].
        assert (0 < 2 ^ (- (exp_field a - 150))) by (apply Z.pow_pos_nonneg; lia).
        split; [apply Z.div_pos; lia|]. apply Z.div_lt_upper_bound; nia. }
    destruct Hmag as [-> Hn]. destruct (sign_field a).
    + apply trunc_neg. lia.
    + symmetry. apply u32_id. unfold is_u32. lia.
Qed.

(** ** Integer to float *)

Lemma highest_bit_spec n m : 0 < m < 2 ^ Z.of_nat n -> highest_bit n m = Z.log2 m.
Proof.
  induction n as [|n IH]; intros Hm; [cbn in Hm; lia|]. cbn [highest_bit].
  rewrite Nat2Z.inj_succ, Z.pow_succ_r in Hm by lia.
  destruct (Z.lt_ge_cases m (2 ^ Z.of_nat n)) as [Hlt|Hge].
  - assert (Z.testbit m (Z.of_nat n) = false) as ->; [|apply IH; lia].
    apply Z.testbit_false; [lia|]. by rewrite Z.div_small by lia.
  - assert (Z.log2 m = Z.of_nat n) as <-.
    { apply Z.log2_unique; [lia|]. rewrite Z.pow_succ_r by lia. lia. }
    by rewrite Z.bit_log2 by lia.
Qed.

(** The word of an integer of magnitude [m]: its upper 24 bits. *)
Definition int_word (s : bool) (m : Z) : Z :=
  let n := Z.log2 m in
  float_word s (127 + n) (if n <=? 23 then m * 2 ^ (23 - n) else m / 2 ^ (n - 23)).

Lemma norm_bits m n :
  0 <= n <= 31 -> 2 ^ n <= m < 2 ^ (n + 1) ->
  bits (trunc 32 (Z.shiftl m (trunc 5 (31 - n)))) 30 8 =
    (if n <=? 23 then m * 2 ^ (23 - n) else m / 2 ^ (n - 23)) - 2 ^ 23.
Proof.
  intros Hn Hm. rewrite (trunc_id 5) by lia. rewrite Z.shiftl_mul_pow2 by lia.
  assert (H31 : 2 ^ 31 <= m * 2 ^ (31 - n) < 2 ^ 32).
  { replace (2 ^ 31) with (2 ^ n * 2 ^ (31 - n)) by (rewrite <- Z.pow_add_r by lia; f_equal; lia).
    replace (2 ^ 32) with (2 ^ (n + 1) * 2 ^ (31 - n)) by (rewrite <- Z.pow_add_r by lia; f_equal; lia).
    assert (0 < 2 ^ (31 - n)) by (apply Z.pow_pos_nonneg; lia). nia. }
  rewrite trunc_id by lia.
  assert (Hq : m * 2 ^ (31 - n) / 2 ^ 8 = if n <=? 23 then m * 2 ^ (23 - n) else m / 2 ^ (n - 23)).
  { destruct (Z.leb_spec n 23).
    - replace (2 ^ (31 - n)) with (2 ^ (23 - n) * 2 ^ 8) by (rewrite <- Z.pow_add_r by lia; f_equal; lia).
      rewrite Z.mul_assoc. apply Z.div_mul. lia.
    - replace (2 ^ 8) with (2 ^ (n - 23) * 2 ^ (31 - n)) by (rewrite <- Z.pow_add_r by lia; f_equal; lia).
      apply Z.div_mul_cancel_r; apply Z.pow_nonzero; lia. }
  rewrite <- Hq. unfold bits. change (30 - 8 + 1) with 23.
  Z.to_euclidean_division_equations; lia.
Qed.

Lemma int_to_fp_word z :
  - 2 ^ 31 <= z < 2 ^ 31 -> z <> 0 -> fp_cvt.int_to_fp (u32 z) = int_word (z <? 0) (Z.abs z).
Proof.
  intros Hz Hne. unfold fp_cvt.int_to_fp, int_word.
  assert (Hu : u32 z = if z <? 0 then z + 2 ^ 32 else z).
  { unfold u32. symmetry. destruct (Z.ltb_spec z 0);
      [apply (Zmod_unique _ _ (-1))|apply (Zmod_unique _ _ 0)]; lia. }
  assert (Hs : Z.testbit (u32 z) 31 = (z <? 0)).
  { rewrite testbit_bits. unfold bits. rewrite Hu.
    destruct (Z.ltb_spec z 0); Z.to_euclidean_division_equations; lia. }
  assert (u32 z =? 0 = false) as -> by (rewrite Hu; destruct (Z.ltb_spec z 0); lia).
  rewrite Hs.
  assert (Hmag : (if z <? 0 then trunc 32 (bnot 32 (u32 z) + 1) else u32 z) = Z.abs z).
  { rewrite Hu. destruct (Z.ltb_spec z 0); [|lia]. unfold bnot. rewrite trunc_id; lia. }
  rewrite Hmag. rewrite highest_bit_spec by (cbn; lia).
  pose proof (Z.log2_spec (Z.abs z) ltac:(lia)) as Hl.
  assert (0 <= Z.log2 (Z.abs z) <= 31).
  { split; [apply Z.log2_nonneg|]. apply Z.lt_succ_r, Z.log2_lt_pow2; lia. }
  rewrite norm_bits by (rewrite ?Z.add_1_r; lia). rewrite trunc_id by lia. done.
Qed.

Lemma iter_xO p d : Zpos (Pos.iter xO p d) = Zpos p * 2 ^ Zpos d.
Proof.
  induction d as [|d IH] using Pos.peano_ind; [cbn; lia|].
  rewrite Pos.iter_succ, Pos2Z.inj_xO, IH, Pos2Z.inj_succ, Z.pow_succ_r by lia. lia.
Qed.

(** [binary_normalize] of an integer of magnitude [p] at exponent [ex], whose
    leading bit has weight [2^(e-127)]: 24 bits or fewer are exact, more are
    rounded. *)
Definition drop (m : Z) : Z := Z.max 0 (Z.log2 m - 23).
Definition top24 (m : Z) : Z := if Z.log2 m <=? 23 then m * 2 ^ (23 - Z.log2 m) else m / 2 ^ drop m.

Lemma normalize_word z ex nan :
  z <> 0 -> 1 <= Z.log2 (Z.abs z) + ex + 127 <= 254 ->
  float_to_bits (of_value nan (binary_normalize prec32 emax32 z ex false)) =
    float_word (z <? 0) (Z.log2 (Z.abs z) + ex + 127) (top24 (Z.abs z)) +
    Z.b2z (round_up (Z.abs z) (drop (Z.abs z))).
Proof.
  intros Hne He.
  assert (Hn : binary_normalize prec32 emax32 z ex false =
    binary_round prec32 emax32 (z <? 0) (Z.to_pos (Z.abs z)) ex) by (by destruct z).
  rewrite Hn. clear Hn. set (p := Z.to_pos (Z.abs z)).
  assert (Hp : Zpos p = Z.abs z) by (apply Z2Pos.id; lia). rewrite <- Hp in *.
  pose proof (Z.log2_spec (Zpos p) ltac:(lia)) as Hl. pose proof (Z.log2_nonneg (Zpos p)) as Hn0.
  unfold top24, drop. set (n := Z.log2 (Zpos p)) in *.
  assert (Hd : Zpos (digits2_pos p) = n + 1).
  { change (Zpos (digits2_pos p)) with (Zdigits2 (Zpos p)). apply Zdigits2_unique; [lia|].
    replace (n + 1 - 1) with n by lia. rewrite Z.add_1_r. done. }
  unfold binary_round. rewrite Hd. unfold shl_align, fexp, emin.
  replace (Z.max (n + 1 + ex - prec32) (3 - emax32 - prec32)) with (n - 23 + ex)
    by (unfold prec32, emax32; lia).
  replace (n - 23 + ex - ex) with (n - 23) by lia. destruct (Z.leb_spec n 23) as [Hle|Hgt].
  - assert (Hal : exists q, Zpos q = Zpos p * 2 ^ (23 - n) /\
      match n - 23 with Zneg d => (Pos.iter xO p d, n - 23 + ex) | _ => (p, ex) end = (q, n - 23 + ex)).
    { destruct (Z.eqb_spec n 23) as [->|].
      - exists p. rewrite Z.sub_diag, Z.pow_0_r, Z.mul_1_r. split; [done|]. by f_equal; lia.
      - destruct (n - 23) as [|d|d] eqn:Ed; try lia.
        exists (Pos.iter xO p d). split; [|done]. replace (23 - n) with (Zpos d) by lia. apply iter_xO. }
    destruct Hal as (q & Hq & ->).
    assert (Hqr : 2 ^ (23 + 0) <= Zpos q < 2 ^ (24 + 0)).
    { rewrite !Z.add_0_r, Hq.
      replace (2 ^ 23) with (2 ^ n * 2 ^ (23 - n)) by (rewrite <- Z.pow_add_r by lia; f_equal; lia).
      replace (2 ^ 24) with (2 ^ Z.succ n * 2 ^ (23 - n)) by (rewrite <- Z.pow_add_r by lia; f_equal; lia).
      assert (0 < 2 ^ (23 - n)) by (apply Z.pow_pos_nonneg; lia).
      split; [apply Z.mul_le_mono_nonneg_r|apply Z.mul_lt_mono_pos_r]; lia. }
    replace (Z.max 0 (n - 23)) with 0 by lia. rewrite round_up_0.
    replace (n - 23 + ex) with (n + ex + 127 - 150 - 0) by lia.
    rewrite round_aux_word, round_up_0, Z.pow_0_r, Z.div_1_r, Hq by (done || lia). done.
  - assert (match n - 23 with Zneg d => (Pos.iter xO p d, n - 23 + ex) | _ => (p, ex) end = (p, ex)) as ->
      by (by destruct (n - 23) as [|d|d] eqn:Ed; try lia).
    replace (Z.max 0 (n - 23)) with (n - 23) by lia.
    replace ex with (n + ex + 127 - 150 - (n - 23)) at 1 by lia.
    apply round_aux_word; [lia| |done].
    replace (23 + (n - 23)) with n by lia. by replace (24 + (n - 23)) with (Z.succ n) by lia.
Qed.

(** The simulator rounds: the word of the unit, or the next one, which it is
    not below 2^24. *)
Lemma i2f_word `{FE : FPEnv} z :
  - 2 ^ 31 <= z < 2 ^ 31 -> z <> 0 ->
  float_to_bits (i2f z) = int_word (z <? 0) (Z.abs z) + Z.b2z (round_up (Z.abs z) (drop (Z.abs z))).
Proof.
  intros Hz Hne. unfold i2f.
  assert (0 <= Z.log2 (Z.abs z) <= 31).
  { split; [apply Z.log2_nonneg|]. apply Z.lt_succ_r, Z.log2_lt_pow2; lia. }
  rewrite normalize_word by lia. unfold int_word, top24, drop. rewrite Z.add_0_r, (Z.add_comm 127).
  do 2 f_equal. destruct (Z.leb_spec (Z.log2 (Z.abs z)) 23); [done|]. by rewrite Z.max_r by lia.
Qed.

(** * fp_add.sv against the additions of the simulator

    The unit aligns the smaller operand with two guard bits and drops the rest.
    A sum is then truncated; a difference is taken from a subtrahend that is
    too small by less than a guard bit. Either way the word is the one rounding
    to nearest gives, or the one before it. *)

(** ** The upper 24 bits *)

Lemma top24_range m : 0 < m -> 2 ^ 23 <= top24 m < 2 ^ 24.
Proof.
  intros Hm. unfold top24, drop. pose proof (Z.log2_spec m Hm) as Hl.
  pose proof (Z.log2_nonneg m). set (n := Z.log2 m) in *. destruct (Z.leb_spec n 23).
  - replace (2 ^ 23) with (2 ^ n * 2 ^ (23 - n)) by (rewrite <- Z.pow_add_r by lia; f_equal; lia).
    replace (2 ^ 24) with (2 ^ Z.succ n * 2 ^ (23 - n)) by (rewrite <- Z.pow_add_r by lia; f_equal; lia).
    assert (0 < 2 ^ (23 - n)) by (apply Z.pow_pos_nonneg; lia).
    split; [apply Z.mul_le_mono_nonneg_r|apply Z.mul_lt_mono_pos_r]; lia.
  - rewrite Z.max_r by lia. assert (0 < 2 ^ (n - 23)) by (apply Z.pow_pos_nonneg; lia).
    split; [apply Z.div_le_lower_bound|apply Z.div_lt_upper_bound]; try lia;
      rewrite <- Z.pow_add_r by lia; [replace (n - 23 + 23) with n by lia|replace (n - 23 + 24) with (Z.succ n) by lia]; lia.
Qed.

(** The first 24 bits do not change when zeros are appended ... *)
Lemma top24_mul_pow2 m k : 0 < m -> 0 <= k -> top24 (m * 2 ^ k) = top24 m.
Proof.
  intros Hm Hk. unfold top24, drop. rewrite Z.log2_mul_pow2 by lia.
  pose proof (Z.log2_nonneg m). set (n := Z.log2 m) in *.
  destruct (Z.leb_spec (k + n) 23), (Z.leb_spec n 23); try lia.
  - rewrite <- Z.mul_assoc, <- Z.pow_add_r by lia. do 2 f_equal. lia.
  - rewrite Z.max_r by lia. replace (m * 2 ^ k) with (m * 2 ^ (23 - n) * 2 ^ (k + n - 23)).
    + apply Z.div_mul. apply Z.pow_nonzero; lia.
    + rewrite <- Z.mul_assoc, <- Z.pow_add_r by lia. do 2 f_equal. lia.
  - rewrite !Z.max_r by lia. replace (k + n - 23) with (n - 23 + k) by lia. rewrite Z.pow_add_r by lia.
    apply Z.div_mul_cancel_r; apply Z.pow_nonzero; lia.
Qed.

(** ... nor when bits behind them are dropped. *)
Lemma log2_div_pow2 m k : 0 < m -> 0 <= k <= Z.log2 m -> Z.log2 (m / 2 ^ k) = Z.log2 m - k.
Proof. intros Hm Hk. rewrite <- Z.shiftr_div_pow2 by lia. rewrite Z.log2_shiftr by lia. lia. Qed.

Lemma top24_div_pow2 m k : 0 < m -> 0 <= k -> 23 + k <= Z.log2 m -> top24 (m / 2 ^ k) = top24 m.
Proof.
  intros Hm Hk Hl. unfold top24, drop. rewrite log2_div_pow2 by lia. set (n := Z.log2 m) in *.
  destruct (Z.leb_spec n 23).
  - assert (k = 0) as -> by lia. rewrite Z.sub_0_r, Z.pow_0_r, Z.div_1_r.
    by destruct (Z.leb_spec n 23); [|lia].
  - rewrite (Z.max_r _ (n - 23)) by lia. destruct (Z.leb_spec (n - k) 23).
    + assert (n - 23 = k) as -> by lia. replace (23 - (n - k)) with 0 by lia. lia.
    + rewrite Z.max_r, Z.div_div, <- Z.pow_add_r by (try apply Z.pow_nonzero; try apply Z.pow_pos_nonneg; lia).
      do 2 f_equal. lia.
Qed.

(** ** The unit *)

(** Normalization: the word of the sum [s] with its guard bits. *)
Lemma normalize_sum sr ea s :
  0 < s < 2 ^ 27 -> 1 <= ea <= 254 -> 1 <= ea + Z.log2 s - 25 <= 254 ->
  (if Z.testbit s 26 then
     cat (cat (Z.b2z sr) 8 (trunc 8 (ea + 1))) 23 (bits s 25 3)
   else
     if trunc 8 (25 - highest_bit 26 s) <? ea
     then cat (cat (Z.b2z sr) 8 (trunc 8 (ea - trunc 8 (25 - highest_bit 26 s)))) 23
            (bits (trunc 26 (Z.shiftl (bits s 25 0) (bits (trunc 8 (25 - highest_bit 26 s)) 4 0))) 24 2)
     else 0) = float_word sr (ea + Z.log2 s - 25) (top24 s).
Proof.
  intros Hs Hea He. pose proof (Z.log2_spec s ltac:(lia)) as Hl. pose proof (Z.log2_nonneg s) as Hn0.
  assert (Z.log2 s < 27) by (apply Z.log2_lt_pow2; lia).
  assert (H26 : Z.testbit s 26 = (2 ^ 26 <=? s)).
  { rewrite testbit_bits. unfold bits. destruct (Z.leb_spec (2 ^ 26) s); Z.to_euclidean_division_equations; lia. }
  rewrite H26. unfold float_word, top24, drop. destruct (Z.leb_spec (2 ^ 26) s).
  - assert (Z.log2 s = 26) as -> by (apply Z.log2_unique; [lia|]; cbn; lia).
    rewrite trunc_id by lia. change (26 <=? 23) with false. cbn match.
    change (Z.max 0 (26 - 23)) with 3. f_equal; [f_equal; lia|].
    unfold bits. Z.to_euclidean_division_equations; lia.
  - rewrite highest_bit_spec by (cbn; lia).
    assert (Z.log2 s < 26) by (apply Z.log2_lt_pow2; lia).
    set (n := Z.log2 s) in *. rewrite (trunc_id 8 (25 - n)), (trunc_id 8 (ea - _)) by lia.
    assert (25 - n <? ea = true) as -> by lia. replace (ea - (25 - n)) with (ea + n - 25) by lia.
    f_equal. rewrite (bits_full s), (bits_full (25 - n)) by lia. rewrite Z.shiftl_mul_pow2 by lia.
    assert (H25 : 2 ^ 25 <= s * 2 ^ (25 - n) < 2 ^ 26).
    { replace (2 ^ 25) with (2 ^ n * 2 ^ (25 - n)) by (rewrite <- Z.pow_add_r by lia; f_equal; lia).
      replace (2 ^ 26) with (2 ^ Z.succ n * 2 ^ (25 - n)) by (rewrite <- Z.pow_add_r by lia; f_equal; lia).
      assert (0 < 2 ^ (25 - n)) by (apply Z.pow_pos_nonneg; lia).
      split; [apply Z.mul_le_mono_nonneg_r|apply Z.mul_lt_mono_pos_r]; lia. }
    rewrite trunc_id by lia.
    assert (Hq : s * 2 ^ (25 - n) / 2 ^ 2 = if n <=? 23 then s * 2 ^ (23 - n) else s / 2 ^ Z.max 0 (n - 23)).
    { destruct (Z.leb_spec n 23).
      - replace (2 ^ (25 - n)) with (2 ^ (23 - n) * 2 ^ 2) by (rewrite <- Z.pow_add_r by lia; f_equal; lia).
        rewrite Z.mul_assoc. apply Z.div_mul. lia.
      - rewrite Z.max_r by lia.
        replace (2 ^ 2) with (2 ^ (n - 23) * 2 ^ (25 - n)) by (rewrite <- Z.pow_add_r by lia; f_equal; lia).
        apply Z.div_mul_cancel_r; apply Z.pow_nonzero; lia. }
    rewrite <- Hq. unfold bits. change (24 - 2 + 1) with 23. Z.to_euclidean_division_equations; lia.
Qed.

(** The exact sum of two numbers with mantissas [ma], [mb] and exponents [d]
    apart, in units of the smaller one. *)
Definition exact_sum (sa sb : bool) (d ma mb : Z) : Z :=
  (if sa then - ma else ma) * 2 ^ d + (if sb then - mb else mb).

(** The exponent field of the exact sum. *)
Definition sum_exp (eb x : Z) : Z := Z.log2 (Z.abs x) + eb - 23.

(** The magnitude the unit normalizes, with two guard bits: rounded down for a
    sum, up for a difference. *)
Definition guarded (same : bool) (d m : Z) : Z :=
  if same then 4 * m / 2 ^ d else - ((- (4 * m)) / 2 ^ d).

(** The sign and magnitude inside [aligned]. *)
Definition aligned_sum (sa sb : bool) (xa xb : Z) : Z * bool :=
  if eqb sa sb then (trunc 27 (xa + xb), sa)
  else if xb <=? xa then (trunc 27 (xa - xb), sa)
  else (trunc 27 (xb - xa), sb).

Lemma guard_bound d mb :
  0 <= d -> 2 ^ 23 <= mb < 2 ^ 24 ->
  0 <= 4 * mb / 2 ^ d <= 4 * mb /\ (1 <= d -> 4 * mb / 2 ^ d <= 2 * mb) /\ 0 < 2 ^ d.
Proof.
  intros Hd Hmb.
  assert (0 < 2 ^ d) by (apply Z.pow_pos_nonneg; lia).
  split; [|split; [|done]].
  - split; [apply Z.div_pos; lia|]. apply Z.div_le_upper_bound; nia.
  - intros. assert (2 ^ 1 <= 2 ^ d) by (apply Z.pow_le_mono_r; lia).
    apply Z.div_le_upper_bound; nia.
Qed.

Section Aligned.
Context (sa sb : bool) (d ma mb : Z).
Hypothesis Hd : 0 <= d.
Hypothesis Hma : 2 ^ 23 <= ma < 2 ^ 24.
Hypothesis Hmb : 2 ^ 23 <= mb < 2 ^ 24.

Let x := exact_sum sa sb d ma mb.

Lemma aligned_sum_spec :
  x <> 0 -> aligned_sum sa sb (4 * ma) (4 * mb / 2 ^ d) = (guarded (eqb sa sb) d (Z.abs x), x <? 0) /\
    0 < guarded (eqb sa sb) d (Z.abs x) < 2 ^ 27.
Proof.
  intros Hx. destruct (guard_bound d mb Hd Hmb) as (Hg & Hg1 & H0). unfold aligned_sum, guarded.
  assert (Hd0 : d = 0 \/ 1 <= d) by lia. assert (Hd2 : 1 <= d -> 2 <= 2 ^ d).
  { intros. change 2 with (2 ^ 1) at 1. apply Z.pow_le_mono_r; lia. }
  destruct (eqb sa sb) eqn:Es.
  - apply eqb_prop in Es as <-.
    assert (Habs : Z.abs x = ma * 2 ^ d + mb /\ (x <? 0) = sa).
    { unfold x, exact_sum. destruct sa; nia. }
    destruct Habs as [-> ->].
    replace (4 * (ma * 2 ^ d + mb)) with (4 * ma * 2 ^ d + 4 * mb) by lia.
    rewrite Z.div_add_l by lia. rewrite trunc_id by lia. split; [done|]. lia.
  - assert (Habs : x = (if sa then -1 else 1) * (ma * 2 ^ d - mb)).
    { unfold x, exact_sum. destruct sa, sb; try discriminate Es; lia. }
    destruct (Z.leb_spec (4 * mb / 2 ^ d) (4 * ma)) as [Hle|Hgt].
    + assert (Hpos : 0 < ma * 2 ^ d - mb).
      { destruct Hd0 as [E|H1]; [|specialize (Hd2 H1); nia].
        rewrite E, Z.pow_0_r, Z.div_1_r in *. destruct sa; lia. }
      assert (Habs' : Z.abs x = ma * 2 ^ d - mb /\ (x <? 0) = sa) by (destruct sa; lia).
      destruct Habs' as [-> ->].
      replace (- (4 * (ma * 2 ^ d - mb))) with ((- (4 * ma)) * 2 ^ d + 4 * mb) by lia.
      rewrite Z.div_add_l by lia. rewrite trunc_id by lia. split; [f_equal; lia|].
      assert (4 * mb / 2 ^ d < 4 * ma); [|lia].
      destruct Hd0 as [E|H1]; [|specialize (Hg1 H1); lia].
      rewrite E, Z.pow_0_r, Z.div_1_r in *. lia.
    + assert (d = 0) as E by (destruct Hd0 as [|H1]; [done|specialize (Hg1 H1); lia]).
      rewrite E, Z.pow_0_r, Z.div_1_r in *.
      assert (Habs' : Z.abs x = mb - ma /\ (x <? 0) = sb) by (destruct sa, sb; try discriminate Es; lia).
      destruct Habs' as [-> ->]. rewrite Z.div_1_r, trunc_id by lia. split; [f_equal; lia|lia].
Qed.

End Aligned.

(** [aligned] in these terms. *)
Lemma aligned_word sa sb ea eb ma mb :
  1 <= eb <= ea -> ea <= 254 -> 2 ^ 23 <= ma < 2 ^ 24 -> 2 ^ 23 <= mb < 2 ^ 24 ->
  let x := exact_sum sa sb (ea - eb) ma mb in
  let s := guarded (eqb sa sb) (ea - eb) (Z.abs x) in
  x <> 0 -> 1 <= ea + Z.log2 s - 25 <= 254 ->
  fp_add.aligned sa sb ea eb ma mb = float_word (x <? 0) (ea + Z.log2 s - 25) (top24 s).
Proof.
  intros Heb Hea Hma Hmb x s Hx He.
  destruct (aligned_sum_spec sa sb (ea - eb) ma mb ltac:(lia) Hma Hmb Hx) as [Hs Hr].
  fold x in Hs, Hr. fold s in Hs, Hr. unfold fp_add.aligned.
  assert (Hxb : (if 25 <? trunc 8 (ea - eb) then 0 else Z.shiftr (cat mb 2 0) (bits (trunc 8 (ea - eb)) 4 0)) =
    4 * mb / 2 ^ (ea - eb)).
  { rewrite (trunc_id 8) by lia. replace (cat mb 2 0) with (4 * mb) by (unfold cat; lia).
    destruct (Z.ltb_spec 25 (ea - eb)).
    - symmetry. apply Z.div_small. split; [lia|]. apply Z.lt_le_trans with (2 ^ 26); [lia|].
      apply Z.pow_le_mono_r; lia.
    - rewrite bits_full, Z.shiftr_div_pow2 by lia. done. }
  rewrite Hxb. replace (cat ma 2 0) with (4 * ma) by (unfold cat; lia).
  fold (aligned_sum sa sb (4 * ma) (4 * mb / 2 ^ (ea - eb))). rewrite Hs.
  assert (s =? 0 = false) as -> by lia. apply normalize_sum; lia.
Qed.

(** ** Against rounding to nearest *)

(** A magnitude rounded down to its guard bits has the exponent and the first
    bits of the exact one. *)
Lemma guarded_floor d m :
  0 < m -> 0 <= d -> d <= 2 \/ 23 + (d - 2) <= Z.log2 m ->
  Z.log2 (4 * m / 2 ^ d) = Z.log2 m + 2 - d /\ top24 (4 * m / 2 ^ d) = top24 m.
Proof.
  intros Hm Hd Hl. destruct (Z.le_gt_cases d 2) as [Hle|Hgt].
  - assert (4 * m / 2 ^ d = m * 2 ^ (2 - d)) as ->.
    { replace (4 * m) with (m * 2 ^ (2 - d) * 2 ^ d).
      - apply Z.div_mul. apply Z.pow_nonzero; lia.
      - rewrite <- Z.mul_assoc, <- Z.pow_add_r by lia. replace (2 - d + d) with 2 by lia. lia. }
    rewrite Z.log2_mul_pow2, top24_mul_pow2 by lia. split; [lia|done].
  - assert (4 * m / 2 ^ d = m / 2 ^ (d - 2)) as ->.
    { replace (2 ^ d) with (2 ^ (d - 2) * 4)
        by (replace 4 with (2 ^ 2) by done; rewrite <- Z.pow_add_r by lia; f_equal; lia).
      rewrite (Z.mul_comm 4). apply Z.div_mul_cancel_r; [apply Z.pow_nonzero; lia|lia]. }
    rewrite log2_div_pow2, top24_div_pow2 by lia. split; [lia|done].
Qed.

(** A magnitude [f] and its successor: the first bits agree, or those of the
    successor are the next ones and nothing lies behind them. *)
Lemma top24_succ f sr e :
  24 <= Z.log2 f -> 1 <= e -> e + (Z.log2 (f + 1) - Z.log2 f) <= 254 ->
  let w := float_word sr (e + (Z.log2 (f + 1) - Z.log2 f)) (top24 (f + 1)) in
  ((f + 1) mod 2 ^ drop f <> 0 /\ w = float_word sr e (top24 f)) \/
  (f mod 2 ^ drop f = 2 ^ drop f - 1 /\ w = float_word sr e (top24 f) + 1).
Proof.
  intros Hf He H254. cbn zeta.
  assert (H0 : 0 < f) by (destruct (Z.lt_ge_cases 0 f); [done|]; rewrite (Z.log2_nonpos f) in Hf; lia).
  pose proof (Z.log2_le_mono f (f + 1) ltac:(lia)) as Hmono.
  pose proof (Z.log2_spec f H0) as Hl. pose proof (Z.log2_nonneg f).
  assert (Hk : drop f = Z.log2 f - 23) by (unfold drop; lia). rewrite Hk.
  assert (Ht : top24 f = f / 2 ^ (Z.log2 f - 23)).
  { unfold top24. destruct (Z.leb_spec (Z.log2 f) 23); [lia|]. by rewrite Hk. }
  pose proof (top24_range f H0) as Htr. rewrite Ht in *.
  set (n := Z.log2 f) in *. set (k := n - 23) in *.
  assert (Hpk : 0 < 2 ^ k) by (apply Z.pow_pos_nonneg; lia).
  assert (Hn1 : 2 ^ Z.succ n = 2 ^ 24 * 2 ^ k) by (rewrite <- Z.pow_add_r by lia; f_equal; lia).
  assert (Hn : 2 ^ n = 2 ^ 23 * 2 ^ k) by (rewrite <- Z.pow_add_r by lia; f_equal; lia).
  pose proof (Z.div_mod f (2 ^ k) ltac:(lia)) as Hdm. pose proof (Z.mod_pos_bound f (2 ^ k) Hpk) as Hr.
  destruct (Z.eq_dec (f mod 2 ^ k) (2 ^ k - 1)) as [Hlast|Hnl].
  - right. split; [done|]. set (q := f / 2 ^ k) in *.
    assert (Hf1 : f + 1 = (q + 1) * 2 ^ k) by lia.
    rewrite float_word_next by lia. destruct (Z.eqb_spec q (2 ^ 24 - 1)) as [Eq|Nq].
    + assert (Ef : f + 1 = 2 ^ Z.succ n) by (rewrite Hn1, Hf1, Eq; lia).
      assert (Hlog : Z.log2 (f + 1) = Z.succ n) by (rewrite Ef; apply Z.log2_pow2; lia).
      rewrite Hlog in *. rewrite Ef. replace (e + (Z.succ n - n)) with (e + 1) in * by lia.
      destruct (Z.eqb_spec e 254); [lia|]. f_equal.
      unfold top24, drop. rewrite Z.log2_pow2 by lia. destruct (Z.leb_spec (Z.succ n) 23); [lia|].
      rewrite Z.max_r by lia. replace (Z.succ n) with (23 + (Z.succ n - 23)) at 1 by lia.
      rewrite Z.pow_add_r by lia. apply Z.div_mul. apply Z.pow_nonzero; lia.
    + assert (Hlog : Z.log2 (f + 1) = n) by (apply Z.log2_unique; [lia|]; nia).
      rewrite Hlog, Z.sub_diag, Z.add_0_r. f_equal.
      unfold top24, drop. rewrite Hlog. destruct (Z.leb_spec n 23); [lia|].
      rewrite Z.max_r by lia. fold k. rewrite Hf1. apply Z.div_mul. lia.
  - left. assert (Hm1 : (f + 1) mod 2 ^ k = f mod 2 ^ k + 1)
      by (symmetry; apply (Zmod_unique _ _ (f / 2 ^ k)); lia).
    split; [lia|].
    assert (Hlog : Z.log2 (f + 1) = n) by (apply Z.log2_unique; [lia|]; nia).
    rewrite Hlog, Z.sub_diag, Z.add_0_r. f_equal.
    unfold top24, drop. rewrite Hlog. destruct (Z.leb_spec n 23); [lia|].
    rewrite Z.max_r by lia. fold k. symmetry. apply (Zdiv_unique _ _ _ (f mod 2 ^ k + 1)); lia.
Qed.

(** A magnitude rounded up to its guard bits against rounding to nearest. *)
Lemma guarded_ceil sr e q m :
  1 <= q -> 24 + q <= Z.log2 m -> 1 <= e ->
  let s := - ((- m) / 2 ^ q) in
  let e' := e + (Z.log2 s + q - Z.log2 m) in
  e' <= 254 ->
  let w := float_word sr e' (top24 s) in
  let r := float_word sr e (top24 m) + Z.b2z (round_up m (drop m)) in
  r = w \/ r = w + 1.
Proof.
  intros Hq Hl He. cbn zeta.
  assert (H0 : 0 < m) by (destruct (Z.lt_ge_cases 0 m); [done|]; rewrite (Z.log2_nonpos m) in Hl; lia).
  assert (Hpq : 0 < 2 ^ q) by (apply Z.pow_pos_nonneg; lia).
  set (f := m / 2 ^ q).
  assert (Hlf : Z.log2 f = Z.log2 m - q) by (apply log2_div_pow2; lia).
  assert (Htf : top24 f = top24 m) by (apply top24_div_pow2; lia).
  pose proof (Z.div_mod m (2 ^ q) ltac:(lia)) as Hdm. pose proof (Z.mod_pos_bound m (2 ^ q) Hpq) as Hr.
  fold f in Hdm. destruct (Z.eq_dec (m mod 2 ^ q) 0) as [Ez|Nz].
  - assert (- ((- m) / 2 ^ q) = f) as ->.
    { rewrite Z.div_opp_l_z by lia. fold f. lia. }
    rewrite Hlf, Htf. replace (Z.log2 m - q + q - Z.log2 m) with 0 by lia. rewrite Z.add_0_r.
    intros _. destruct (round_up m (drop m)); cbn [Z.b2z]; lia.
  - assert (- ((- m) / 2 ^ q) = f + 1) as ->.
    { rewrite Z.div_opp_l_nz by lia. fold f. lia. }
    replace (Z.log2 (f + 1) + q - Z.log2 m) with (Z.log2 (f + 1) - Z.log2 f) by lia. intros H254.
    destruct (top24_succ f sr e ltac:(lia) He H254) as [[_ ->]|[Hlast ->]]; rewrite Htf.
    { destruct (round_up m (drop m)); cbn [Z.b2z]; lia. }
    left. assert (round_up m (drop m) = true) as ->; [|done].
    assert (Hdf : drop m = q + drop f) by (unfold drop; lia).
    unfold round_up. rewrite Hdf. assert (Hk : 1 <= drop f) by (unfold drop; lia).
    rewrite Z.pow_add_r by lia. assert (Hpk : 0 < 2 ^ drop f) by (apply Z.pow_pos_nonneg; lia).
    rewrite Z.rem_mul_r by lia. fold f. rewrite Hlast.
    assert (H2 : 2 ^ q * 2 <= 2 ^ q * 2 ^ drop f).
    { apply Z.mul_le_mono_nonneg_l; [lia|]. change 2 with (2 ^ 1) at 1. apply Z.pow_le_mono_r; lia. }
    assert (2 ^ q * 2 ^ drop f <? 2 * (m mod 2 ^ q + 2 ^ q * (2 ^ drop f - 1)) = true) as -> by lia.
    done.
Qed.

Lemma guarded_exact d m : 0 <= d <= 2 -> guarded false d m = guarded true d m.
Proof.
  intros Hd. unfold guarded. assert (E : 4 * m = (m * 2 ^ (2 - d)) * 2 ^ d).
  { rewrite <- Z.mul_assoc, <- Z.pow_add_r by lia. replace (2 - d + d) with 2 by lia. lia. }
  assert (2 ^ d <> 0) by (apply Z.pow_nonzero; lia).
  rewrite E, Z.div_mul by done. rewrite <- Z.mul_opp_l, Z.div_mul by done. lia.
Qed.

Lemma log2_sum_lower sa sb d ma mb :
  0 <= d -> 2 ^ 23 <= ma < 2 ^ 24 -> 2 ^ 23 <= mb < 2 ^ 24 -> eqb sa sb = true \/ 3 <= d ->
  let m := Z.abs (exact_sum sa sb d ma mb) in
  0 < m <= (if eqb sa sb then ma * 2 ^ d + mb else ma * 2 ^ d) /\
  (if eqb sa sb then 23 + d else 22 + d) <= Z.log2 m.
Proof.
  intros Hd Hma Hmb Hc m. assert (H0 : 0 < 2 ^ d) by (apply Z.pow_pos_nonneg; lia).
  destruct (eqb sa sb) eqn:Es.
  - assert (Hm : m = ma * 2 ^ d + mb).
    { apply eqb_prop in Es as <-. unfold m, exact_sum. destruct sa; nia. }
    rewrite Hm. split; [nia|]. apply Z.log2_le_pow2; [nia|].
    rewrite Z.pow_add_r by lia. nia.
  - destruct Hc as [|Hc]; [done|].
    assert (H8 : 2 ^ 3 <= 2 ^ d) by (apply Z.pow_le_mono_r; lia).
    assert (Hm : m = ma * 2 ^ d - mb).
    { unfold m, exact_sum. destruct sa, sb; try discriminate Es; nia. }
    rewrite Hm. split; [nia|]. apply Z.log2_le_pow2; [nia|].
    rewrite Z.pow_add_r by lia. nia.
Qed.

(** The unit against rounding to nearest, for a normal result. *)
Lemma aligned_rounded sa sb ea eb ma mb :
  1 <= eb <= ea -> ea <= 254 -> 2 ^ 23 <= ma < 2 ^ 24 -> 2 ^ 23 <= mb < 2 ^ 24 ->
  let x := exact_sum sa sb (ea - eb) ma mb in
  x <> 0 -> 1 <= sum_exp eb x <= 254 ->
  let w := fp_add.aligned sa sb ea eb ma mb in
  let r := float_word (x <? 0) (sum_exp eb x) (top24 (Z.abs x)) +
           Z.b2z (round_up (Z.abs x) (drop (Z.abs x))) in
  r = w \/ r = w + 1.
Proof.
  intros Heb Hea Hma Hmb x Hx He. cbn zeta.
  set (d := ea - eb) in *. set (m := Z.abs x).
  pose proof (aligned_word sa sb ea eb ma mb Heb Hea Hma Hmb) as Hw. cbn zeta in Hw.
  fold d in Hw. fold x in Hw. fold m in Hw. specialize (Hw Hx). unfold sum_exp in *. fold m in He |- *.
  assert (Hfl : eqb sa sb = true \/ d <= 2 -> guarded (eqb sa sb) d m = guarded true d m ->
    fp_add.aligned sa sb ea eb ma mb = float_word (x <? 0) (Z.log2 m + eb - 23) (top24 m)).
  { intros Hc Hg. assert (Hlow : d <= 2 \/ 23 + (d - 2) <= Z.log2 m).
    { destruct Hc as [Es|]; [|by left]. right.
      destruct (log2_sum_lower sa sb d ma mb ltac:(lia) Hma Hmb (or_introl Es)) as [_ Hl].
      rewrite Es in Hl. fold x in Hl. fold m in Hl. lia. }
    destruct (guarded_floor d m ltac:(lia) ltac:(lia) Hlow) as [E1 E2].
    rewrite Hg in Hw. cbn [guarded] in Hw. rewrite E1, E2 in Hw.
    replace (ea + (Z.log2 m + 2 - d) - 25) with (Z.log2 m + eb - 23) in Hw by lia. by apply Hw. }
  destruct (eqb sa sb) eqn:Es; [|destruct (Z.le_gt_cases d 2) as [Hd|Hd]].
  - rewrite Hfl by auto. destruct (round_up _ _); cbn [Z.b2z]; lia.
  - rewrite Hfl by (auto; apply guarded_exact; lia). destruct (round_up _ _); cbn [Z.b2z]; lia.
  - assert (H3 : 3 <= d) by lia.
    destruct (log2_sum_lower sa sb d ma mb ltac:(lia) Hma Hmb (or_intror H3)) as [Hm Hl].
    rewrite Es in Hm, Hl. fold x in Hm, Hl. fold m in Hm, Hl.
    assert (H0 : 0 < 2 ^ (d - 2)) by (apply Z.pow_pos_nonneg; lia).
    assert (Hpd : 2 ^ d = 4 * 2 ^ (d - 2))
      by (replace 4 with (2 ^ 2) by done; rewrite <- Z.pow_add_r by lia; f_equal; lia).
    assert (Hs : guarded false d m = - ((- m) / 2 ^ (d - 2))).
    { unfold guarded. rewrite Hpd. replace (- (4 * m)) with (4 * (- m)) by lia.
      rewrite Z.div_mul_cancel_l by lia. done. }
    rewrite Hs in Hw. set (s := - ((- m) / 2 ^ (d - 2))) in *.
    assert (Hsb : m / 2 ^ (d - 2) <= s <= 4 * ma).
    { unfold s. split.
      - assert ((- m) / 2 ^ (d - 2) <= - (m / 2 ^ (d - 2))); [|lia].
        pose proof (Z.mul_div_le m (2 ^ (d - 2)) H0). apply Z.div_le_upper_bound; nia.
      - assert (- (4 * ma) <= (- m) / 2 ^ (d - 2)); [|lia]. apply Z.div_le_lower_bound; nia. }
    assert (Hlog : Z.log2 m - (d - 2) <= Z.log2 s <= 25).
    { split; [rewrite <- log2_div_pow2 by lia; apply Z.log2_le_mono; lia|].
      apply Z.lt_succ_r, Z.log2_lt_pow2; cbn; try lia.
      assert (0 < m / 2 ^ (d - 2)); [|lia]. apply Z.div_str_pos. split; [done|].
      apply Z.le_trans with (2 ^ Z.log2 m); [apply Z.pow_le_mono_r; lia|]. apply Z.log2_spec. lia. }
    pose proof (guarded_ceil (x <? 0) (Z.log2 m + eb - 23) (d - 2) m ltac:(lia) ltac:(lia) ltac:(lia)) as Hg.
    cbn zeta in Hg. fold s in Hg.
    replace (Z.log2 m + eb - 23 + (Z.log2 s + (d - 2) - Z.log2 m)) with (ea + Z.log2 s - 25) in Hg by lia.
    rewrite Hw by lia. apply Hg. lia.
Qed.

(** ** The operations of the simulator *)

Lemma shl_align_value p ex ez : ez <= ex -> Zpos (fst (shl_align p ex ez)) = Zpos p * 2 ^ (ex - ez).
Proof.
  intros Hle. unfold shl_align. destruct (Z.eqb_spec ez ex) as [->|Hne].
  - rewrite Z.sub_diag. cbn. lia.
  - replace (ez - ex) with (- (ex - ez)) by lia. destruct (ex - ez) as [|d|d] eqn:E; try lia.
    cbn [Z.opp fst]. apply iter_xO.
Qed.

(** The exact sum of two words, in units of the smaller exponent. *)
Definition word_sum (a b : Z) (subtract : bool) : Z :=
  let sa := Z.testbit a 31 in
  let sb := xorb (Z.testbit b 31) subtract in
  if bits a 30 23 <? bits b 30 23
  then exact_sum sb sa (bits b 30 23 - bits a 30 23) (mantissa b) (mantissa a)
  else exact_sum sa sb (bits a 30 23 - bits b 30 23) (mantissa a) (mantissa b).

Definition word_sum_exp (a b : Z) (subtract : bool) : Z :=
  sum_exp (Z.min (bits a 30 23) (bits b 30 23)) (word_sum a b subtract).

Definition add_op (subtract : bool) : FPOp := if subtract then FSub else FAdd.

Lemma fp_arith_sum `{FE : FPEnv} a b subtract :
  1 <= bits a 30 23 <= 254 -> 1 <= bits b 30 23 <= 254 ->
  exists nan, fp_arith (add_op subtract) (bits_to_float a) (bits_to_float b) =
    of_value nan (binary_normalize prec32 emax32 (word_sum a b subtract)
      (Z.min (bits a 30 23) (bits b 30 23) - 150) false).
Proof.
  intros Ha Hb. exists (fp_nan (add_op subtract) (bits_to_float a) (bits_to_float b)).
  unfold fp_arith. rewrite !value_of_normal by done.
  pose proof (mantissa_range a). pose proof (mantissa_range b).
  set (ez := Z.min (bits a 30 23) (bits b 30 23) - 150).
  assert (Hez : Z.min (bits a 30 23 - 150) (bits b 30 23 - 150) = ez) by lia.
  destruct subtract; cbn [add_op fp_value_op SFadd SFsub]; rewrite Hez; do 2 f_equal;
    unfold cond_Zopp; rewrite !shl_align_value, !Z2Pos.id by lia; unfold word_sum, exact_sum;
    destruct (Z.testbit a 31), (Z.testbit b 31); cbn [xorb];
    (destruct (Z.ltb_spec (bits a 30 23) (bits b 30 23));
     [replace (bits a 30 23 - 150 - ez) with 0 by lia;
      replace (bits b 30 23 - 150 - ez) with (bits b 30 23 - bits a 30 23) by lia
     |replace (bits b 30 23 - 150 - ez) with 0 by lia;
      replace (bits a 30 23 - 150 - ez) with (bits a 30 23 - bits b 30 23) by lia]); lia.
Qed.

Lemma aligned_zero sa sb ea eb ma mb :
  1 <= eb <= ea -> ea <= 254 -> 2 ^ 23 <= ma < 2 ^ 24 -> 2 ^ 23 <= mb < 2 ^ 24 ->
  exact_sum sa sb (ea - eb) ma mb = 0 -> fp_add.aligned sa sb ea eb ma mb = 0.
Proof.
  intros Heb Hea Hma Hmb Hx. assert (Hd : ea - eb = 0 \/ 1 <= ea - eb) by lia.
  assert (H2 : 1 <= ea - eb -> 2 <= 2 ^ (ea - eb)).
  { intros. change 2 with (2 ^ 1) at 1. apply Z.pow_le_mono_r; lia. }
  unfold exact_sum in Hx. destruct Hd as [Hd|Hd]; [|specialize (H2 Hd); destruct sa, sb; nia].
  rewrite Hd in Hx. assert (ea = eb) as -> by lia.
  assert (eqb sa sb = false /\ ma = mb) as [Es ->] by (destruct sa, sb; cbn in *; lia).
  unfold fp_add.aligned. rewrite Z.sub_diag, Es. change (trunc 8 0) with 0.
  change (25 <? 0) with false. cbn match. change (bits 0 4 0) with 0. rewrite Z.shiftr_0_r, Z.leb_refl, Z.sub_diag.
  done.
Qed.

(** Normal operands: an exact zero is zero in both; a normal result is the word
    of the unit or the next one. *)
Lemma fp_add_rounded `{FE : FPEnv} a b subtract :
  1 <= bits a 30 23 <= 254 -> 1 <= bits b 30 23 <= 254 ->
  let w := fp_add.fp_add_core a b subtract in
  let r := float_to_bits (fp_arith (add_op subtract) (bits_to_float a) (bits_to_float b)) in
  (word_sum a b subtract = 0 -> w = 0 /\ r = 0) /\
  (word_sum a b subtract <> 0 -> 1 <= word_sum_exp a b subtract <= 254 -> r = w \/ r = w + 1).
Proof.
  intros Ha Hb. cbn zeta. destruct (fp_arith_sum a b subtract Ha Hb) as [nan ->].
  pose proof (mantissa_range a). pose proof (mantissa_range b).
  unfold fp_add.fp_add_core. fold (mantissa a). fold (mantissa b).
  assert (bits a 30 23 =? 0 = false) as -> by lia. assert (bits b 30 23 =? 0 = false) as -> by lia.
  cbn [andb]. split.
  - intros E. rewrite E. split; [|done].
    unfold word_sum in E. destruct (Z.ltb_spec (bits a 30 23) (bits b 30 23)); apply aligned_zero; try done; lia.
  - intros Hne He. unfold word_sum_exp in He.
    rewrite normalize_word by (unfold sum_exp in He; lia).
    replace (Z.log2 (Z.abs (word_sum a b subtract)) + (Z.min (bits a 30 23) (bits b 30 23) - 150) + 127)
      with (sum_exp (Z.min (bits a 30 23) (bits b 30 23)) (word_sum a b subtract)) by (unfold sum_exp; lia).
    unfold word_sum in *. destruct (Z.ltb_spec (bits a 30 23) (bits b 30 23)) as [Hlt|Hge].
    + rewrite Z.min_l in * by lia. apply aligned_rounded; (done || lia).
    + rewrite Z.min_r in * by lia. apply aligned_rounded; (done || lia).
Qed.
