(* ===== verification/HwQueueFacts.v ===== *)
(** * The reorder buffer of the core is a queue

    rob.sv keeps its entries in a circular array and does, in one clock edge, a
    bus result, a branch result, an allocation and a commit, each computed from
    the state before the edge. Against a list of entries, oldest first, the
    four writes come out as four list operations in that order, provided the
    branch port names an entry in the queue, or none was allocated since a
    flush. *)

From S2P Require Import Prelude Words Ring HwPkg HwTables.

(** ** The specification *)

Module rob_queue.
Import rob_unit.

(** The oldest tag, the entries, and whether there was no allocation since the
    last reset or flush. *)
Record queue : Type := mkQueue { first : Z; items : list rob_entry_t; fresh : bool }.

Definition empty : queue := mkQueue 0 [] true.

(** Position of a tag in the queue. *)
Definition pos (q : queue) (tag : Z) : nat := Z.to_nat ((tag - first q) mod ROB_SIZE).

Definition find (q : queue) (tag : Z) : option rob_entry_t := items q !! pos q tag.

Definition is_full (q : queue) : bool := len (items q) =? ROB_SIZE.

Definition oldest_done (q : queue) : bool :=
  match items q with e :: _ => bool_decide (ro_state e = ROB_DONE) | [] => false end.

(** The four operations. [old] is the queue before the edge. *)
Definition complete (old : queue) (i : inputs) (l : list rob_entry_t) : list rob_entry_t :=
  match find old (cdb_tag (cdb_i i)) with
  | Some e =>
      if cdb_valid (cdb_i i) && bool_decide (ro_state e = ROB_IN_FLIGHT)
      then <[pos old (cdb_tag (cdb_i i)) := cdb_e e (cdb_value (cdb_i i))]> l else l
  | None => l
  end.

Definition resolve (old : queue) (i : inputs) (l : list rob_entry_t) : list rob_entry_t :=
  match find old (br_tag_i i) with
  | Some e =>
      if br_valid_i i && ro_is_branch e
      then <[pos old (br_tag_i i) := br_e e (br_taken_i i) (br_target_i i)]> l else l
  | None => l
  end.

Definition allocates (old : queue) (i : inputs) : bool := alloc_en_i i && negb (is_full old).

Definition allocate (old : queue) (i : inputs) (l : list rob_entry_t) : list rob_entry_t :=
  if allocates old i then l ++ [new_e (alloc_instr_i i)] else l.

Definition commits (old : queue) (i : inputs) : bool := commit_en_i i && oldest_done old.

Definition step (q : queue) (i : inputs) : queue :=
  if flush_i i then empty
  else
    let l := allocate q i (resolve q i (complete q i (items q))) in
    let f := fresh q && negb (allocates q i) in
    if commits q i then mkQueue ((first q + 1) mod ROB_SIZE) (List.tl l) f else mkQueue (first q) l f.

(** The tag of a valid result has four bits, and a valid branch result names an
    entry of the queue, or comes behind a flush from a branch that was flushed. *)
Definition wf_inputs (q : queue) (i : inputs) : Prop :=
  (cdb_valid (cdb_i i) = true -> 0 <= cdb_tag (cdb_i i) < ROB_SIZE) /\
  (br_valid_i i = true -> 0 <= br_tag_i i < ROB_SIZE /\
     (is_Some (find q (br_tag_i i)) \/ fresh q = true)).

(** What the other units see: the tag for the next entry when there is room,
    whether there is, the entry to commit, and the value of each tag that has
    one. *)
Record outputs : Type := mkOutputs {
  out_tag : Z;
  out_full : bool;
  out_commit : option rob_entry_t;
  out_lookup : list (option Z)
}.

Definition tags : list Z := seqZ 0 ROB_SIZE.

Definition queue_outputs (q : queue) : outputs :=
  mkOutputs ((first q + len (items q)) mod ROB_SIZE) (is_full q)
    (if oldest_done q then hd_error (items q) else None)
    (map (fun tag => e ← find q tag;
       if bool_decide (ro_state e = ROB_DONE) then Some (ro_result e) else None) tags).

Definition unit_outputs (r : state) : outputs :=
  mkOutputs (alloc_tag_o r) (full_o r)
    (if commit_valid_o r then Some (commit_entry_o r) else None)
    (map (fun tag => if lookup_done_o r tag then Some (lookup_val_o r tag) else None) tags).

End rob_queue.

(** ** The simulation *)

Section Simulation.
Import rob_unit rob_queue.

(** Slots outside the queue are idle. *)
Definition idle_from (h c : Z) (es : list rob_entry_t) : Prop :=
  forall k, c <= k < ROB_SIZE -> ro_state (at_ rob_entry_0 es ((h + k) mod ROB_SIZE)) = ROB_IDLE.

Record rob_sim (r : state) (q : queue) : Prop := {
  rs_ring : ring_ok ROB_SIZE (rob_unit.head r) (rob_unit.tail r) (count r) (entries r);
  rs_first : first q = rob_unit.head r;
  rs_items : items q = ring_view (rob_unit.head r) (count r) (entries r);
  rs_idle : idle_from (rob_unit.head r) (count r) (entries r);
  rs_fresh : fresh q = true -> entries r = entries rob_unit.reset
}.

Lemma reset_sim : rob_sim rob_unit.reset empty.
Proof.
  destruct (ring_empty ROB_SIZE rob_entry_0 ltac:(unfold ROB_SIZE; lia)) as [Hr Hv].
  constructor; cbn [rob_unit.reset rob_unit.head rob_unit.tail count entries first items fresh empty]; try done.
  intros k Hk. unfold at_. rewrite nth_lookup.
  destruct (replicate _ _ !! _) as [e|] eqn:E; [|done]. by apply lookup_replicate in E as [-> _].
Qed.

(** *** Tags and positions *)

Lemma tag_pos q tag : 0 <= tag < ROB_SIZE ->
  (first q + Z.of_nat (pos q tag)) mod ROB_SIZE = tag /\ (pos q tag < Z.to_nat ROB_SIZE)%nat.
Proof.
  intros Ht. unfold pos. pose proof (Z.mod_pos_bound (tag - first q) ROB_SIZE ltac:(unfold ROB_SIZE; lia)).
  rewrite Z2Nat.id by lia. split; [|lia]. rewrite Zplus_mod_idemp_r.
  replace (first q + (tag - first q)) with tag by lia. apply Z.mod_small, Ht.
Qed.

Lemma at_lookup {A} (d : A) l i : at_ d l i = default d (l !! Z.to_nat i).
Proof. unfold at_. by rewrite nth_lookup. Qed.

Lemma fresh_entry r q tag : rob_sim r q -> fresh q = true -> entry r tag = rob_entry_0.
Proof.
  intros Hs Hf. unfold entry. rewrite (rs_fresh _ _ Hs Hf), at_lookup.
  destruct (entries rob_unit.reset !! _) as [e|] eqn:E; [|done]. by apply lookup_replicate in E as [-> _].
Qed.

(** An array entry by its tag: the queue's, or an idle one. *)
Lemma entry_find r q tag : rob_sim r q -> 0 <= tag < ROB_SIZE ->
  match find q tag with
  | Some e => entry r tag = e /\ Z.of_nat (pos q tag) < count r
  | None => ro_state (entry r tag) = ROB_IDLE
  end.
Proof.
  intros [Hr Hf Hi Hidle _] Ht. destruct (tag_pos q tag Ht) as [Hp Hlt]. unfold find.
  pose proof (ring_view_lookup _ _ _ _ _ (pos q tag) Hr) as Hl. rewrite <- Hi, <- Hf, Hp in Hl.
  pose proof (ring_len _ _ _ _ _ Hr) as Hlen.
  destruct (decide (Z.of_nat (pos q tag) < count r)) as [Hc|Hc]; rewrite Hl.
  - destruct (lookup_lt_is_Some_2 (entries r) (Z.to_nat tag)) as [e He]; [lia|]. rewrite He.
    unfold entry. by rewrite at_lookup, He.
  - unfold entry. rewrite <- Hp at 1. rewrite Hf. apply Hidle. lia.
Qed.

(** *** The four writes *)

Lemma put_ring r q tag e es :
  0 <= tag < ROB_SIZE -> Z.of_nat (pos q tag) < count r -> first q = rob_unit.head r ->
  ring_ok ROB_SIZE (rob_unit.head r) (rob_unit.tail r) (count r) es ->
  idle_from (rob_unit.head r) (count r) es ->
  let es' := put es tag e in
  ring_ok ROB_SIZE (rob_unit.head r) (rob_unit.tail r) (count r) es' /\
  idle_from (rob_unit.head r) (count r) es' /\
  ring_view (rob_unit.head r) (count r) es' = <[pos q tag := e]> (ring_view (rob_unit.head r) (count r) es).
Proof.
  intros Ht Hc Hf Hr Hidle. destruct (tag_pos q tag Ht) as [Hp Hlt]. cbn zeta. unfold put.
  destruct (ring_update _ _ _ _ _ (Z.of_nat (pos q tag)) e Hr) as [Hr' Hv]; [lia|].
  rewrite <- Hf, Hp in Hr', Hv. rewrite Nat2Z.id in Hv. rewrite <- Hf. split; [done|]. split; [|done].
  intros k Hk. rewrite at_lookup, list_lookup_insert_ne, <- at_lookup; [by rewrite Hf; apply Hidle|].
  pose proof (ring_head _ _ _ _ _ Hr).
  pose proof (ring_index_ne ROB_SIZE (first q) (Z.of_nat (pos q tag)) k) as Hne. rewrite Hp in Hne.
  pose proof (ring_index_range ROB_SIZE (first q) k). unfold ROB_SIZE in *. lia.
Qed.

(** Ring and queue after some of the writes of an edge. *)
Record written (r : state) (es l : list rob_entry_t) : Prop := {
  wr_ring : ring_ok ROB_SIZE (rob_unit.head r) (rob_unit.tail r) (count r) es;
  wr_idle : idle_from (rob_unit.head r) (count r) es;
  wr_view : ring_view (rob_unit.head r) (count r) es = l
}.

Section Edge.
Context (r : state) (q : queue) (i : inputs).
Hypothesis Hs : rob_sim r q.
Hypothesis Hw : wf_inputs q i.

Lemma written_entries : written r (entries r) (items q).
Proof. destruct Hs. by constructor. Qed.

Lemma written_cdb es l : written r es l -> written r (write_cdb r i es) (complete q i l).
Proof.
  intros [Hr Hidle <-]. destruct Hw as (Hv & _). unfold write_cdb, complete.
  destruct (cdb_valid (cdb_i i)); [specialize (Hv eq_refl)|by destruct (find _ _); constructor].
  rename Hv into Ht. cbn [andb]. pose proof (entry_find r q _ Hs Ht) as He. destruct (find q (cdb_tag (cdb_i i))) as [e|].
  - destruct He as [-> Hc]. destruct (bool_decide _); [|by constructor].
    destruct (put_ring r q _ (cdb_e e (cdb_value (cdb_i i))) es Ht Hc (rs_first _ _ Hs) Hr Hidle) as (? & ? & ?).
    by constructor.
  - rewrite He, bool_decide_false by done. by constructor.
Qed.

Lemma written_branch es l : written r es l -> written r (write_branch r i es) (resolve q i l).
Proof.
  intros [Hr Hidle <-]. destruct Hw as (_ & Hb). unfold write_branch, resolve.
  destruct (br_valid_i i); [|by destruct (find _ _); constructor].
  destruct (Hb eq_refl) as [Ht Hin]. cbn [andb]. pose proof (entry_find r q _ Hs Ht) as He. destruct (find q (br_tag_i i)) as [e|] eqn:Hfind.
  - destruct He as [-> Hc]. destruct (ro_is_branch e); [|by constructor].
    destruct (put_ring r q _ (br_e e (br_taken_i i) (br_target_i i)) es Ht Hc (rs_first _ _ Hs) Hr Hidle)
      as (? & ? & ?). by constructor.
  - destruct Hin as [[? ?]|Hfr]; [done|].
    rewrite (fresh_entry r q _ Hs Hfr). by constructor.
Qed.

Lemma queue_full : full_o r = is_full q.
Proof.
  destruct Hs as [Hr _ Hi _ _]. unfold full_o, is_full. by rewrite Hi, (ring_view_length _ _ _ _ _ Hr).
Qed.

Lemma queue_commit : commit_valid_o r = oldest_done q /\ (oldest_done q = true -> hd_error (items q) = Some (commit_entry_o r)).
Proof.
  destruct Hs as [Hr _ Hi Hidle _]. unfold commit_valid_o, commit_entry_o, oldest_done, entry.
  pose proof Hr as [Hsz Hl Hh Hc _].
  destruct (Z.eq_dec (count r) 0) as [Hc0|Hc0].
  - assert (items q = []) as ->.
    { apply nil_length_inv. pose proof (ring_view_length _ _ _ _ _ Hr). rewrite Hi. lia. }
    split; [|done]. pose proof (Hidle 0 ltac:(unfold ROB_SIZE; lia)) as H0.
    rewrite Z.add_0_r, Z.mod_small in H0 by done. by rewrite H0.
  - destruct (ring_pop _ _ _ _ _ rob_entry_0 Hr) as (_ & e & He & Hv); [lia|].
    rewrite Hi, Hv, at_lookup, He. done.
Qed.

Lemma written_alloc es l :
  written r es l ->
  let a := do_alloc r i in
  let c' := count r + Z.b2z a in
  let es' := write_alloc r i es in
  ring_ok ROB_SIZE (rob_unit.head r) (if a then trunc 4 (rob_unit.tail r + 1) else rob_unit.tail r) c' es' /\
  idle_from (rob_unit.head r) c' es' /\ ring_view (rob_unit.head r) c' es' = allocate q i l.
Proof.
  intros [Hr Hidle <-]. cbn zeta. unfold write_alloc, allocate, allocates, do_alloc.
  rewrite queue_full. destruct (alloc_en_i i && negb (is_full q)) eqn:Ha; cbn [Z.b2z];
    [|by rewrite Z.add_0_r].
  apply andb_true_iff in Ha as [_ Hnf]. rewrite <- queue_full in Hnf. unfold full_o in Hnf.
  pose proof (ring_count _ _ _ _ _ Hr) as Hc. pose proof (ring_head _ _ _ _ _ Hr) as Hh.
  assert (count r < ROB_SIZE) as Hlt by lia.
  destruct (ring_push _ _ _ _ _ (new_e (alloc_instr_i i)) Hr Hlt) as [Hr' Hv].
  split; [exact Hr'|]. split; [|exact Hv]. intros k Hk. unfold put. rewrite at_lookup.
  rewrite list_lookup_insert_ne, <- at_lookup; [apply Hidle; lia|].
  rewrite (ring_tail _ _ _ _ _ Hr).
  pose proof (ring_index_ne ROB_SIZE (rob_unit.head r) (count r) k).
  pose proof (ring_index_range ROB_SIZE (rob_unit.head r) k).
  pose proof (ring_index_range ROB_SIZE (rob_unit.head r) (count r)). unfold ROB_SIZE in *. lia.
Qed.

(** Removing the head leaves an idle slot at the end of the free ones. *)
Lemma popped t c es :
  ring_ok ROB_SIZE (rob_unit.head r) t c es -> idle_from (rob_unit.head r) c es -> 0 < c ->
  let es' := put es (rob_unit.head r) (commit_e (entry r (rob_unit.head r))) in
  let h' := trunc 4 (rob_unit.head r + 1) in
  ring_ok ROB_SIZE h' t (c - 1) es' /\ idle_from h' (c - 1) es' /\
  ring_view h' (c - 1) es' = List.tl (ring_view (rob_unit.head r) c es).
Proof.
  intros Hr Hidle Hc. cbn zeta. unfold put.
  destruct (ring_pop _ _ _ _ _ (commit_e (entry r (rob_unit.head r))) Hr Hc) as (Hr' & x & _ & Hv).
  split; [exact Hr'|]. split; [|by rewrite Hv].
  pose proof (ring_head _ _ _ _ _ Hr) as Hh. pose proof (ring_len _ _ _ _ _ Hr) as Hl.
  intros k Hk. rewrite at_lookup. change (trunc 4) with (fun z => z mod ROB_SIZE). cbn beta.
  rewrite Zplus_mod_idemp_l. replace (rob_unit.head r + 1 + k) with (rob_unit.head r + (k + 1)) by lia.
  destruct (Z.eq_dec k (ROB_SIZE - 1)) as [->|Hne].
  - replace ((rob_unit.head r + (ROB_SIZE - 1 + 1)) mod ROB_SIZE) with (rob_unit.head r).
    { by rewrite list_lookup_insert_eq by lia. }
    apply (Zmod_unique _ _ 1); unfold ROB_SIZE in *; lia.
  - rewrite list_lookup_insert_ne, <- at_lookup; [apply Hidle; lia|].
    pose proof (ring_index_ne ROB_SIZE (rob_unit.head r) 0 (k + 1)) as Hi.
    rewrite Z.add_0_r, (Z.mod_small (rob_unit.head r)) in Hi by done.
    pose proof (ring_index_range ROB_SIZE (rob_unit.head r) (k + 1)). unfold ROB_SIZE in *. lia.
Qed.

Lemma oldest_count : oldest_done q = true -> 0 < count r.
Proof.
  intros H. pose proof (ring_view_length _ _ _ _ _ (rs_ring _ _ Hs)) as Hl.
  rewrite <- (rs_items _ _ Hs) in Hl. unfold oldest_done in H. destruct (items q); [done|]. cbn in Hl. lia.
Qed.

(** Without an allocation an edge leaves a flushed array as it is. *)
Lemma fresh_edge :
  fresh q = true -> allocates q i = false ->
  write_commit r i (write_alloc r i (write_branch r i (write_cdb r i (entries r)))) = entries rob_unit.reset.
Proof.
  intros Hf Ha. unfold write_commit, write_alloc, write_branch, write_cdb, do_commit, do_alloc,
    commit_valid_o, commit_entry_o.
  rewrite queue_full, !(fresh_entry r q _ Hs Hf). unfold allocates in Ha. rewrite Ha.
  cbn [rob_entry_0 ro_state ro_is_branch]. rewrite !bool_decide_false, !andb_false_r by done.
  apply (rs_fresh _ _ Hs Hf).
Qed.

Theorem next_sim : rob_sim (next r i) (step q i).
Proof.
  unfold next, step. destruct (flush_i i); [apply reset_sim|].
  destruct (written_alloc _ _ (written_branch _ _ (written_cdb _ _ written_entries))) as (Hr & Hidle & Hv).
  set (es := write_alloc r i _) in *. set (c := count r + Z.b2z (do_alloc r i)) in *.
  assert (Hcm : do_commit r i = commits q i) by (unfold do_commit, commits; by rewrite (proj1 queue_commit)).
  pose proof (ring_count _ _ _ _ _ Hr) as Hc. pose proof (rs_first _ _ Hs) as Hf.
  pose proof fresh_edge as Hfr. fold es in Hfr.
  assert (Hfr' : fresh q && negb (allocates q i) = true -> write_commit r i es = entries rob_unit.reset)
    by (intros [? ?%negb_true_iff]%andb_true_iff; by apply Hfr).
  clear Hfr. rewrite Hcm. unfold write_commit in *. rewrite Hcm in *.
  destruct (commits q i) eqn:Hcq; cbn [Z.b2z].
  - assert (0 < count r) by (apply oldest_count; by destruct (andb_prop _ _ Hcq)).
    assert (Hb : 0 <= Z.b2z (do_alloc r i)) by (destruct (do_alloc r i); cbn; lia).
    destruct (popped _ c es Hr Hidle ltac:(lia)) as (Hr' & Hidle' & Hv').
    rewrite (trunc_id 5 (c - 1)) by (unfold ROB_SIZE in *; lia).
    constructor; cbn [first items fresh rob_unit.head rob_unit.tail count entries]; try done.
    + by rewrite Hf.
    + by rewrite Hv', Hv.
  - rewrite Z.sub_0_r, (trunc_id 5 c) by (unfold ROB_SIZE in *; lia). by constructor.
Qed.

Lemma outputs_sim : unit_outputs r = queue_outputs q.
Proof.
  pose proof (rs_ring _ _ Hs) as Hr. pose proof (ring_view_length _ _ _ _ _ Hr) as Hl.
  rewrite <- (rs_items _ _ Hs) in Hl. unfold unit_outputs, queue_outputs. f_equal.
  - unfold alloc_tag_o. by rewrite (ring_tail _ _ _ _ _ Hr), Hl, (rs_first _ _ Hs).
  - apply queue_full.
  - destruct queue_commit as [-> Ho]. destruct (oldest_done q); [by rewrite Ho|done].
  - apply map_ext_in. intros tag Ht. apply list_elem_of_In, elem_of_seqZ in Ht.
    pose proof (entry_find r q tag Hs ltac:(lia)) as He. unfold lookup_done_o, lookup_val_o.
    destruct (find q tag) as [e|]; cbn; [by destruct He as [-> _]|by rewrite He].
Qed.

End Edge.

(** *** Sequences of clock edges *)

Fixpoint unit_run (r : state) (ins : list inputs) : list outputs :=
  match ins with
  | [] => []
  | i :: ins' => unit_outputs r :: unit_run (next r i) ins'
  end.

Fixpoint queue_run (q : queue) (ins : list inputs) : list outputs :=
  match ins with
  | [] => []
  | i :: ins' => queue_outputs q :: queue_run (step q i) ins'
  end.

Fixpoint wf_run (q : queue) (ins : list inputs) : Prop :=
  match ins with
  | [] => True
  | i :: ins' => wf_inputs q i /\ wf_run (step q i) ins'
  end.

#[global] Instance wf_inputs_dec q i : Decision (wf_inputs q i).
Proof. unfold wf_inputs. apply _. Defined.

#[global] Instance wf_run_dec q ins : Decision (wf_run q ins).
Proof. revert q. induction ins as [|i ins IH]; intros q; cbn [wf_run]; apply _. Defined.

Lemma run_sim r q ins : rob_sim r q -> wf_run q ins -> unit_run r ins = queue_run q ins.
Proof.
  revert r q. induction ins as [|i ins IH]; intros r q Hs Hw; [done|]. destruct Hw as [Hw Hws].
  cbn [unit_run queue_run]. rewrite (outputs_sim r q Hs). f_equal. apply IH; [by apply next_sim|done].
Qed.

End Simulation.

(** ** Entries in flight

    Whatever the ports carry: an entry in flight has no value yet, and an entry
    that is not in flight keeps the one it has until its slot is allocated
    again or everything is flushed. *)

Section InFlight.
Import rob_unit.

Record rob_values (r : state) : Prop := {
  rv_tail : 0 <= tail r;
  rv_value k e : entries r !! k = Some e -> ro_state e = ROB_IN_FLIGHT -> ro_result e = 0
}.

Definition values (es : list rob_entry_t) : Prop :=
  forall k e, es !! k = Some e -> ro_state e = ROB_IN_FLIGHT -> ro_result e = 0.

Lemma put_values es k e :
  (ro_state e = ROB_IN_FLIGHT -> ro_result e = 0) -> values es -> values (put es k e).
Proof.
  intros He Hes k' e' [(_ & <- & _)|[_ H]]%list_lookup_insert_Some; [exact He|by apply (Hes k')].
Qed.

Lemma reset_values : rob_values rob_unit.reset.
Proof. constructor; [done|]. intros k e [-> _]%lookup_replicate. done. Qed.

Lemma next_values r i : rob_values r -> rob_values (next r i).
Proof.
  intros [Ht Hv]. unfold next. destruct (flush_i i); [apply reset_values|]. constructor; cbn [tail entries].
  - destruct (do_alloc r i); [|done]. unfold trunc. apply Z.mod_pos_bound. lia.
  - change (values (write_commit r i (write_alloc r i (write_branch r i (write_cdb r i (entries r)))))).
    unfold write_commit, write_alloc, write_branch, write_cdb.
    repeat match goal with
    | |- values (if ?b then _ else _) => destruct b
    | |- values (put _ _ _) => apply put_values; [done|]
    end; exact Hv.
Qed.

(** The slot [k] holds the value [v], for good. *)
Definition settled (es : list rob_entry_t) (k : nat) (v : Z) : Prop :=
  exists e, es !! k = Some e /\ ro_result e = v /\ ro_state e <> ROB_IN_FLIGHT.

Lemma put_settled es k v tag e :
  (Z.to_nat tag = k -> ro_result e = v /\ ro_state e <> ROB_IN_FLIGHT) ->
  settled es k v -> settled (put es tag e) k v.
Proof.
  intros He (x & Hx & Hv & Hs). unfold put, settled. destruct (decide (Z.to_nat tag = k)) as [E|Hne].
  - exists e. rewrite E, list_lookup_insert_eq by (by eapply lookup_lt_Some). split; [done|by apply He].
  - exists x. by rewrite list_lookup_insert_ne.
Qed.

(** The entry a write starts from. *)
Lemma settled_entry r tag k v :
  settled (entries r) k v -> Z.to_nat tag = k ->
  ro_result (entry r tag) = v /\ ro_state (entry r tag) <> ROB_IN_FLIGHT.
Proof. intros (e & He & Hv) <-. unfold entry. by rewrite at_lookup, He. Qed.

Lemma next_settled r i k v :
  settled (entries r) k v -> flush_i i = false -> (do_alloc r i = true -> Z.to_nat (tail r) <> k) ->
  settled (entries (next r i)) k v.
Proof.
  intros Hs Hf Ha. unfold next. rewrite Hf. cbn [entries].
  unfold write_commit, write_alloc, write_branch, write_cdb.
  assert (He : forall tag, Z.to_nat tag = k ->
    ro_result (entry r tag) = v /\ ro_state (entry r tag) <> ROB_IN_FLIGHT)
    by (intros tag; by apply settled_entry).
  assert (H1 : settled (if cdb_valid (cdb_i i) && bool_decide (ro_state (entry r (cdb_tag (cdb_i i))) = ROB_IN_FLIGHT)
    then put (entries r) (cdb_tag (cdb_i i)) (cdb_e (entry r (cdb_tag (cdb_i i))) (cdb_value (cdb_i i)))
    else entries r) k v).
  { case_bool_decide as Hd; [|by rewrite andb_false_r]. rewrite andb_true_r.
    destruct (cdb_valid (cdb_i i)); [|done]. apply put_settled; [|done]. intros E. by destruct (He _ E). }
  destruct (do_commit r i), (do_alloc r i), (br_valid_i i && ro_is_branch (entry r (br_tag_i i)));
    repeat (apply put_settled; [intros E; try (by destruct (Ha eq_refl)); by destruct (He _ E)|]); exact H1.
Qed.

(** A branch result settles the entry it names with the value it had, whatever
    the bus brings in the same edge. *)
Lemma branch_settles r i :
  rob_values r -> br_valid_i i = true -> ro_is_branch (entry r (br_tag_i i)) = true ->
  ro_state (entry r (br_tag_i i)) = ROB_IN_FLIGHT -> flush_i i = false ->
  (do_alloc r i = true -> Z.to_nat (tail r) <> Z.to_nat (br_tag_i i)) ->
  settled (entries (next r i)) (Z.to_nat (br_tag_i i)) 0.
Proof.
  intros [_ Hv] Hb Hbr Hst Hf Ha. unfold next. rewrite Hf. cbn [entries].
  assert (Hex : exists e, entries r !! Z.to_nat (br_tag_i i) = Some e /\ entry r (br_tag_i i) = e).
  { unfold entry in *. rewrite at_lookup in *.
    destruct (entries r !! Z.to_nat (br_tag_i i)) as [e|]; [by exists e|discriminate Hst]. }
  destruct Hex as (e & He & E). rewrite E in Hbr, Hst.
  unfold write_commit, write_alloc, write_branch. rewrite Hb, E, Hbr. cbn [andb].
  assert (Hlt : (Z.to_nat (br_tag_i i) < length (write_cdb r i (entries r)))%nat).
  { unfold write_cdb, put. destruct (_ && _); rewrite ?length_insert; by eapply lookup_lt_Some. }
  assert (H1 : settled (put (write_cdb r i (entries r)) (br_tag_i i) (br_e e (br_taken_i i) (br_target_i i)))
    (Z.to_nat (br_tag_i i)) 0).
  { eexists. unfold put. rewrite list_lookup_insert_eq by done. split; [done|]. split; [|done].
    by apply (Hv (Z.to_nat (br_tag_i i)) e). }
  destruct (do_commit r i) eqn:Hc, (do_alloc r i); repeat first [exact H1|apply put_settled;
    [intros Et; try (by destruct (Ha eq_refl))|]].
  all: exfalso; unfold do_commit, commit_valid_o, commit_entry_o in Hc;
    apply andb_true_iff in Hc as [_ Hc%bool_decide_eq_true];
    unfold entry in Hc, E; rewrite at_lookup in Hc, E; rewrite Et, E, Hst in Hc; discriminate Hc.
Qed.

End InFlight.
