(* ===== verification/HwBroadcast.v ===== *)
(** * Every result of the core reaches the bus *)

From S2P Require Import Prelude Words HwPkg HwUnits HwTables HwStation HwControl HwCore.

(** * The common data bus is a fair round robin

    [arbiter] computes its grant with one subtraction on the doubled request
    vector. On the vectors of [NUM_FU] bits it is a search ([round_robin]) that
    starts behind the unit granted last, so a unit that keeps its request up
    waits for the others once at most. *)

(** ** The search *)

(** The units in the order of their priority, after a grant to unit [k]. *)
Definition order (k : nat) : list nat := map (fun i => (k + i) mod 7)%nat (seq 1 7).

Definition requests (reqs : list bool) (j : nat) : bool := nth j reqs false.

Definition round_robin (k : nat) (reqs : list bool) : option nat := find (requests reqs) (order k).

(** [valid_vec] of request bits. *)
Fixpoint vector (reqs : list bool) : Z :=
  match reqs with
  | [] => 0
  | b :: bs => Z.b2z b + 2 * vector bs
  end.

Definition valids (r : list cdb_t) : list bool := map cdb_valid r.

Lemma valid_vec_vector r : cdb.valid_vec r = vector (valids r).
Proof. induction r as [|x r IH]; [done|]. cbn. by rewrite IH. Qed.

(** ** The arbiter, on all vectors *)

Fixpoint all_vectors (n : nat) : list (list bool) :=
  match n with
  | O => [[]]
  | S k => map (cons false) (all_vectors k) ++ map (cons true) (all_vectors k)
  end.

Lemma all_vectors_complete v : In v (all_vectors (length v)).
Proof.
  induction v as [|b v IH]; cbn; [by left|].
  apply in_or_app. destruct b; [right|left]; by apply in_map.
Qed.

Definition grant_vector (o : option nat) : Z := match o with Some j => 2 ^ Z.of_nat j | None => 0 end.

Definition grant_ok (k : nat) (reqs : list bool) : bool :=
  arbiter.grant NUM_FU (vector reqs) (cdb.base (2 ^ Z.of_nat k)) =? grant_vector (round_robin k reqs).

Lemma grants_ok : forallb (fun reqs => forallb (fun k => grant_ok k reqs) (seq 0 7)) (all_vectors 7) = true.
Proof. by vm_compute. Qed.

Lemma arbiter_round_robin k reqs :
  (k < 7)%nat -> length reqs = 7%nat ->
  arbiter.grant NUM_FU (vector reqs) (cdb.base (2 ^ Z.of_nat k)) = grant_vector (round_robin k reqs).
Proof.
  intros Hk Hl. pose proof grants_ok as H. rewrite forallb_forall in H.
  specialize (H reqs). rewrite forallb_forall in H.
  apply Z.eqb_eq, H; [rewrite <- Hl; apply all_vectors_complete|apply in_seq; lia].
Qed.

Lemma grant_idx_pow j : (j < 7)%nat -> cdb.grant_idx (2 ^ Z.of_nat j) = Z.of_nat j.
Proof. intros H. do 7 (destruct j as [|j]; [reflexivity|]). lia. Qed.

(** ** Properties of the search *)

Lemma order_lt k j : In j (order k) -> (j < 7)%nat.
Proof. unfold order. intros (i & <- & _)%in_map_iff. apply Nat.mod_upper_bound. lia. Qed.

Lemma order_complete k j : (k < 7)%nat -> (j < 7)%nat -> In j (order k).
Proof. intros Hk Hj. do 7 (destruct k as [|k]; [cbn; lia|]). lia. Qed.

Lemma round_robin_some k reqs j :
  round_robin k reqs = Some j -> (j < 7)%nat /\ requests reqs j = true.
Proof. intros [Hin Hr]%find_some. split; [by apply (order_lt k)|done]. Qed.

Lemma round_robin_none k reqs j :
  (k < 7)%nat -> (j < 7)%nat -> round_robin k reqs = None -> requests reqs j = false.
Proof. intros Hk Hj H. apply (find_none _ _ H). by apply order_complete. Qed.

(** How many units are before [u] after a grant to [k]. *)
Definition before (k u : nat) : nat := ((u + 6 - k) mod 7)%nat.

(** A grant that passes over a request brings it closer. *)
Lemma round_robin_closer k u reqs j :
  (k < 7)%nat -> (u < 7)%nat -> requests reqs u = true -> round_robin k reqs = Some j -> j <> u ->
  (before j u < before k u)%nat.
Proof.
  intros Hk Hu Hr Hf Hne. unfold round_robin in Hf.
  do 7 (destruct k as [|k]; [
    do 7 (destruct u as [|u]; [
      cbn [order map seq find] in Hf; cbn in Hf;
      repeat match type of Hf with
      | context [requests reqs ?i] => destruct (requests reqs i) eqn:?; try congruence
      end; injection Hf as <-; try congruence; cbn; lia|]); lia|]); lia.
Qed.

(** ** The bus *)

Definition one_hot (s : cdb.state) : Prop := exists k, (k < 7)%nat /\ s = 2 ^ Z.of_nat k.

(** The results of the seven units in a cycle. *)
Definition units (r : list cdb_t) : Prop := length r = 7%nat.

Lemma cdb_grant k r :
  (k < 7)%nat -> units r ->
  cdb.fu_grant_o (2 ^ Z.of_nat k) r = grant_vector (round_robin k (valids r)).
Proof.
  intros Hk Hr. unfold cdb.fu_grant_o. rewrite valid_vec_vector. apply arbiter_round_robin; [done|].
  unfold valids. by rewrite length_map.
Qed.

Lemma requests_valids r j : requests (valids r) j = cdb_valid (nth j r cdb_0).
Proof. apply (map_nth cdb_valid r cdb_0 j). Qed.

(** A cycle of the bus, in terms of the search. *)
Lemma cdb_cycle k r :
  (k < 7)%nat -> units r ->
  match round_robin k (valids r) with
  | Some j =>
      cdb.cdb_o (2 ^ Z.of_nat k) r = nth j r cdb_0 /\ cdb.next (2 ^ Z.of_nat k) r = 2 ^ Z.of_nat j
  | None => cdb.cdb_o (2 ^ Z.of_nat k) r = cdb_0 /\ cdb.next (2 ^ Z.of_nat k) r = 2 ^ Z.of_nat k
  end.
Proof.
  intros Hk Hr. unfold cdb.cdb_o, cdb.next. rewrite cdb_grant by done.
  destruct (round_robin k (valids r)) as [j|] eqn:Hj; [|done]. cbn [grant_vector].
  destruct (round_robin_some _ _ _ Hj) as [Hlt _].
  assert (2 ^ Z.of_nat j =? 0 = false) as -> by (apply Z.eqb_neq, Z.pow_nonzero; lia).
  rewrite grant_idx_pow by done. unfold at_. by rewrite Nat2Z.id.
Qed.

Lemma next_one_hot s r : one_hot s -> units r -> one_hot (cdb.next s r).
Proof.
  intros (k & Hk & ->) Hr. pose proof (cdb_cycle k r Hk Hr) as H.
  destruct (round_robin k (valids r)) as [j|] eqn:Hj; destruct H as [_ ->]; [|by exists k].
  exists j. by destruct (round_robin_some _ _ _ Hj).
Qed.

Lemma reachable_one_hot pre : Forall units pre -> one_hot (foldl cdb.next cdb.reset pre).
Proof.
  intros H. assert (H0 : one_hot cdb.reset) by (exists 0%nat; split; [lia|done]).
  revert H0. generalize cdb.reset. induction H as [|r pre Hr _ IH]; intros s Hs; cbn; [done|].
  apply IH, next_one_hot; done.
Qed.

Lemma before_lt k u : (before k u < 7)%nat.
Proof. apply Nat.mod_upper_bound. lia. Qed.

(** * Every result of the core is broadcast

    A functional unit that has a result keeps it until the bus takes it, and
    the bus is a round robin: without a flush every result is broadcast within
    seven cycles, whatever instructions come in and whatever the memory
    returns. *)

Import tomasulo_core.

(** ** Runs of the core *)

(** What the fetch stage and the data memory give the core in a cycle. *)
Record cycle_in : Type := mkCycleIn {
  fetch_valid_i : bool;
  fetch_raw_i : Z;
  fetch_pc_i : Z;
  mem_rd_data_i : Z
}.

Definition edge (c : Core) (i : cycle_in) : Core :=
  next c (fetch_valid_i i) (fetch_raw_i i) (fetch_pc_i i) (mem_rd_data_i i).

Definition core_run (c : Core) (ins : list cycle_in) : Core := foldl edge c ins.

(** The result a unit presents, the grant it gets, the bus. *)
Definition result (c : Core) (i : cycle_in) (u : nat) : cdb_t := nth u (fu_results c (mem_rd_data_i i)) cdb_0.
Definition granted (c : Core) (i : cycle_in) (u : nat) : bool := fu_grant_w c (mem_rd_data_i i) (Z.of_nat u).
Definition bus (c : Core) (i : cycle_in) : cdb_t := cdb_w c (mem_rd_data_i i).

(** ** The invariant *)

(** The integer units have room in their latch for the result they compute. *)
Record bus_inv (c : Core) : Prop := {
  bi_alu : alu_int.valid_o (u_alu c) = true -> cdb_valid (alu_cdb c) = false;
  bi_br : branch_unit.valid_o (u_br c) = true -> cdb_valid (br_cdb c) = false;
  bi_hot : one_hot (u_cdb c)
}.

Lemma reset_bus_inv : bus_inv reset.
Proof. constructor; [done|done|]. exists 0%nat. split; [lia|done]. Qed.

(** A latch is free in the next cycle when its station may issue now. *)
Lemma latch_free l flush valid tag value grant :
  (negb (cdb_valid l) || grant) && negb valid = true ->
  cdb_valid (latch l flush valid tag value grant) = false.
Proof.
  unfold latch. intros [Hl Hv%negb_true_iff]%andb_true_iff. rewrite Hv. destruct flush, grant; try done.
  rewrite orb_false_r in Hl. by apply negb_true_iff in Hl.
Qed.

Lemma issue_needs_ready s r : reservation_station.issue_valid_o s r = true -> r = true.
Proof. unfold reservation_station.issue_valid_o. by intros [_ ?]%andb_true_iff. Qed.

Lemma edge_bus_inv c i : bus_inv c -> bus_inv (edge c i).
Proof.
  intros [Ha Hb Hh]. constructor.
  - cbn. unfold alu_int.next. destruct (reservation_station.issue_valid_o _ _) eqn:E; [|done].
    intros _. apply latch_free, (issue_needs_ready _ _ E).
  - cbn. unfold branch_unit.next. destruct (reservation_station.issue_valid_o (u_rs_br c) _) eqn:E; [|done].
    intros _. apply latch_free, (issue_needs_ready _ _ E).
  - by apply next_one_hot.
Qed.

Lemma run_bus_inv ins c : bus_inv c -> bus_inv (core_run c ins).
Proof. revert c. induction ins as [|i ins IH]; intros c Hc; [done|]. by apply IH, edge_bus_inv. Qed.

(** ** A result that is not granted stays *)

(** The load/store buffer presents a load before the stores it announces; a
    load stays. *)
Definition holds (c : Core) (u : nat) : Prop :=
  u = 5%nat -> load_store_buffer.load_pending (u_lsb c) = true.

(** The same broadcast, up to the data of a load, which the memory returns. *)
Definition same_result (u : nat) (r r' : cdb_t) : Prop :=
  cdb_tag r = cdb_tag r' /\ cdb_valid r = cdb_valid r' /\ (u <> 5%nat -> cdb_value r = cdb_value r').

Lemma same_result_refl u r : same_result u r r.
Proof. done. Qed.

Lemma same_result_trans u a b c : same_result u a b -> same_result u b c -> same_result u a c.
Proof.
  intros (? & ? & H1) (? & ? & H2). split; [congruence|]. split; [congruence|].
  intros Hu. by rewrite H1, H2.
Qed.

(** Each unit without a grant. *)
Lemma latch_keeps l valid tag value :
  (valid = true -> cdb_valid l = false) -> cdb_valid l = true ->
  latch l false valid tag value false = l.
Proof. unfold latch. intros H Hl. destruct valid; [|done]. by rewrite H in Hl. Qed.

Lemma two_stage_keeps s v tag r :
  cdb_valid (two_stage.cdb_o s) = true -> two_stage.next s false v tag r false = s.
Proof. unfold two_stage.next, two_stage.advance. cbn. by intros ->. Qed.

Lemma fp_mul_keeps s v tag a b :
  cdb_valid (fp_mul.cdb_o s) = true -> fp_mul.next s false v tag a b false = s.
Proof. unfold fp_mul.next, fp_mul.advance. cbn. by intros ->. Qed.

Lemma fp_div_keeps s v tag a b :
  cdb_valid (fp_div.cdb_o s) = true -> fp_div.next s false v tag a b false = s.
Proof. unfold fp_div.next. cbn. intros H%bool_decide_eq_true. by rewrite H. Qed.

Lemma load_keeps s v e b sc st :
  load_store_buffer.load_pending s = true ->
  let s' := load_store_buffer.next s false v e b sc st false in
  load_store_buffer.load_pending s' = true /\
  load_store_buffer.load_pending_tag s' = load_store_buffer.load_pending_tag s.
Proof.
  intros H. unfold load_store_buffer.next, load_store_buffer.issue_load. cbn. rewrite H.
  by rewrite andb_false_r.
Qed.

Lemma result_stays c i i' u :
  bus_inv c -> (u < 7)%nat -> flush_w c = false -> holds c u ->
  cdb_valid (result c i u) = true -> granted c i u = false ->
  same_result u (result c i u) (result (edge c i) i' u) /\ holds (edge c i) u.
Proof.
  intros [Ha Hb Hh] Hu Hfl Hld Hv Hg. unfold granted in Hg.
  assert (Hother : u <> 5%nat -> result (edge c i) i' u = result c i u ->
    same_result u (result c i u) (result (edge c i) i' u) /\ holds (edge c i) u).
  { intros H5 ->. split; [done|]. by intros ?. }
  destruct u as [|[|[|[|[|[|[|u]]]]]]]; [..|lia]; try (apply Hother; [done|]);
    unfold result, fu_results in *; cbn [nth] in *;
    match type of Hg with fu_grant_w _ _ ?z = _ => let z' := eval vm_compute in z in change z with z' in Hg end;
    unfold edge, next; cbn [alu_cdb br_cdb u_fp_add u_fp_mul u_fp_div u_lsb u_fp_cvt];
    rewrite ?Hfl, ?Hg.
  - by apply latch_keeps.
  - by apply latch_keeps.
  - by rewrite two_stage_keeps.
  - by rewrite fp_mul_keeps.
  - by rewrite fp_div_keeps.
  - specialize (Hld eq_refl). destruct (load_keeps (u_lsb c)
      (disp_valid_w c dispatch.T_LSB)
      (if disp_valid_w c dispatch.T_LSB then entry_w c (cdb_w c (mem_rd_data_i i)) else rs_entry_0)
      (cdb_w c (mem_rd_data_i i)) (store_commit_w c) (store_commit_tag_w c) Hld) as [Hp Ht].
    split; [|by intros _]. unfold same_result, load_store_buffer.cdb_o. by rewrite Hp, Ht, Hld.
  - by rewrite two_stage_keeps.
Qed.

(** ** Every result is broadcast *)

(** One cycle of the bus. *)
Lemma granted_pow c i j u :
  cdb.fu_grant_o (u_cdb c) (fu_results c (mem_rd_data_i i)) = 2 ^ Z.of_nat j ->
  granted c i u = bool_decide (u = j).
Proof.
  intros H. unfold granted, fu_grant_w. rewrite H, Z.pow2_bits_eqb by lia.
  destruct (decide (u = j)) as [->|Hne]; [by rewrite Z.eqb_refl, bool_decide_true|].
  rewrite bool_decide_false by done. apply Z.eqb_neq. lia.
Qed.

Lemma broadcast_within u n : (u < 7)%nat ->
  forall c ins k, (k < 7)%nat -> u_cdb c = 2 ^ Z.of_nat k -> (before k u < n)%nat -> length ins = n ->
  bus_inv c -> holds c u ->
  (forall m, (m < n)%nat -> flush_w (core_run c (take m ins)) = false) ->
  (exists i, ins !! 0%nat = Some i /\ cdb_valid (result c i u) = true) ->
  exists m i, ins !! m = Some i /\ granted (core_run c (take m ins)) i u = true /\
    bus (core_run c (take m ins)) i = result (core_run c (take m ins)) i u /\
    (forall i0, ins !! 0%nat = Some i0 ->
      same_result u (result c i0 u) (result (core_run c (take m ins)) i u)).
Proof.
  intros Hu. induction n as [|n IH]; intros c ins k Hk Hc Hb Hl Hinv Hh Hfl (i & Hi & Hv); [lia|].
  destruct ins as [|i' ins]; [done|]. injection Hi as ->.
  assert (Hr : units (fu_results c (mem_rd_data_i i))) by done.
  pose proof (cdb_cycle k _ Hk Hr) as Hcy. pose proof (cdb_grant k _ Hk Hr) as Hg. rewrite <- Hc in Hcy, Hg.
  destruct (round_robin k _) as [j|] eqn:Hj.
  - destruct Hcy as [Ho Hn]. destruct (decide (u = j)) as [<-|Hne].
    + exists 0%nat, i. cbn [take core_run foldl]. split; [done|].
      split; [by rewrite (granted_pow c i u) by done; apply bool_decide_true|].
      split; [exact Ho|]. by intros ? [= ->].
    + assert (Hng : granted c i u = false) by (rewrite (granted_pow c i j) by done; by apply bool_decide_false).
      pose proof (round_robin_closer k u _ j Hk Hu ltac:(by rewrite requests_valids) Hj ltac:(congruence)) as Hcl.
      destruct ins as [|i2 ins].
      { cbn in Hl. lia. }
      destruct (result_stays c i i2 u Hinv Hu (Hfl 0%nat ltac:(lia)) Hh Hv Hng) as [Hsame Hh'].
      destruct (IH (edge c i) (i2 :: ins) j) as (m & im & Him & Hgr & Hbus & Hsm).
      * by destruct (round_robin_some _ _ _ Hj).
      * exact Hn.
      * lia.
      * cbn in Hl |- *. lia.
      * by apply edge_bus_inv.
      * done.
      * intros m Hm. apply (Hfl (S m)). lia.
      * exists i2. split; [done|]. destruct Hsame as (_ & <- & _). done.
      * exists (S m), im. split; [done|]. split; [done|]. split; [done|].
        intros i0 [= <-]. eapply same_result_trans; [exact Hsame|by apply Hsm].
  - pose proof (round_robin_none k _ u Hk Hu Hj) as Hn. rewrite requests_valids in Hn.
    unfold result in Hv. congruence.
Qed.
