(* ===== verification/HwSequential.v ===== *)
(** * The instructions of the core, one after another

    The sequential machine the core is measured against: one instruction reads
    its operands, one of the functional units computes its result in one step,
    the result and the memory are written. Branches and jumps are not in it; a
    program without them runs its words in the order of their addresses, around
    the instruction memory. *)

From S2P Require Import Prelude Words HwPkg HwUnits HwTables HwStation HwControl HwCore.
From S2P Require Import HwUnitFacts.

Module hw_seq.
Import dispatch.

(** ** States *)

(** Both register files and the data memory, 32 bits a word. *)
Record state : Type := mk { xs : list Z; fs : list Z; mem : list Z }.

Definition read (s : state) (fp : bool) (r : Z) : Z := at_ 0 (if fp then fs s else xs s) r.

Record sized (s : state) : Prop := {
  sz_xs : len (xs s) = NUM_INT_REGS;
  sz_fs : len (fs s) = NUM_FP_REGS;
  sz_mem : len (mem s) = MEM_SIZE
}.

(** ** One instruction *)

(** The result of an operation that does not read memory. *)
Definition compute (o : opcode_e) (pc a b imm : Z) : Z :=
  match target_of o with
  | T_ALU => alu_int.result_next o pc a b imm
  | T_FP_ADD => fp_add.fp_add_core a b (opb o OP_FSUB_S)
  | T_FP_MUL => mul_word a b
  | T_FP_DIV => div_word a b
  | T_FP_CVT => fp_cvt.compute_result o a
  | T_BR | T_LSB => 0
  end.

Definition address (a imm : Z) : Z := trunc 32 (a + imm).

Definition load_word (m : list Z) (o : opcode_e) (addr : Z) : Z :=
  load_store_buffer.load_result o (bits addr 1 0) (at_ 0 m (data_mem.word_index addr)).

Definition store_word (m : list Z) (o : opcode_e) (addr v : Z) : list Z :=
  let i := data_mem.word_index addr in
  put m i (data_mem.merge (load_store_buffer.store_be o addr) (at_ 0 m i) (load_store_buffer.store_wdata o v)).

Section Instruction.
Context (s : state) (i : instr_t).

Definition op1 : Z := read s (in_rs1_fp i) (in_rs1 i).
Definition op2 : Z := read s (in_rs2_fp i) (in_rs2 i).

Definition result : Z :=
  if is_load_op (in_op i) then load_word (mem s) (in_op i) (address op1 (in_imm i))
  else compute (in_op i) (in_pc i) op1 op2 (in_imm i).

(** Whether the instruction writes a register of one of the files; integer
    register 0 is not written. *)
Definition writes (fp : bool) (r : Z) : bool :=
  in_rd_valid i && eqb (in_rd_fp i) fp && (in_rd i =? r) && (fp || negb (r =? 0)).

Definition write (fp : bool) (l : list Z) : list Z :=
  if writes fp (in_rd i) then put l (in_rd i) result else l.

Definition step : state :=
  mk (write false (xs s)) (write true (fs s))
    (if is_store_op (in_op i) then store_word (mem s) (in_op i) (address op1 (in_imm i)) op2
     else mem s).

End Instruction.

(** ** Runs *)

Section Run.
Context (s0 : state) (ins : nat -> instr_t).

Fixpoint run (n : nat) : state :=
  match n with
  | O => s0
  | S k => step (run k) (ins k)
  end.

End Run.

(** ** Programs without branches *)

(** The instruction fetched [k]-th when none redirects the fetch. *)
Definition fetched (imem : list Z) (k : nat) : instr_t :=
  let pc := trunc 32 (4 * Z.of_nat k) in decode.decode (at_ 0 imem (bits pc 11 2)) pc.

Definition branches (i : instr_t) : bool := is_branch_op (in_op i) || is_jump_op (in_op i).

Definition straight (imem : list Z) : bool :=
  forallb (fun w => negb (branches (decode.decode w 0))) imem.

(** Registers and memory at reset. *)
Definition initial (words : list Z) : state :=
  mk (regfile.int_regs regfile.reset) (regfile.fp_regs regfile.reset) (sim_compliance.load words).

(** ** Facts *)

Lemma read_write_eq s i fp r :
  sized s -> 0 <= in_rd i < 32 -> 0 <= r -> writes i fp r = true ->
  read (step s i) fp r = result s i.
Proof.
  intros [Hx Hf _] Hrd Hr Hw. pose proof Hw as Hw'. unfold writes in Hw'.
  rewrite !andb_true_iff in Hw'. destruct Hw' as [[[_ _] <-%Z.eqb_eq] _].
  unfold read, step, write. cbn. destruct fp; rewrite Hw, at_put; rewrite ?Z.eqb_refl;
    unfold NUM_INT_REGS, NUM_FP_REGS in *; try done; lia.
Qed.

Lemma read_write_ne s i fp r :
  sized s -> 0 <= in_rd i < 32 -> 0 <= r -> writes i fp r = false ->
  read (step s i) fp r = read s fp r.
Proof.
  intros [Hx Hf _] Hrd Hr Hw. unfold read, step, write. cbn.
  destruct fp; destruct (writes i _ (in_rd i)) eqn:Hw'; try done.
  all: rewrite at_put by (unfold NUM_INT_REGS, NUM_FP_REGS in *; lia).
  all: destruct (Z.eqb_spec r (in_rd i)) as [->|]; [congruence|done].
Qed.

Lemma step_sized s i : sized s -> sized (step s i).
Proof.
  intros [Hx Hf Hm]. constructor; unfold step, write, store_word; cbn [xs fs mem].
  - destruct (writes _ _ _); by rewrite ?length_put.
  - destruct (writes _ _ _); by rewrite ?length_put.
  - destruct (is_store_op _); by rewrite ?length_put.
Qed.

Lemma run_sized s0 ins n : sized s0 -> sized (run s0 ins n).
Proof. intros H. induction n; [done|]. by apply step_sized. Qed.

Lemma step_mem s i : is_store_op (in_op i) = false -> mem (step s i) = mem s.
Proof. intros H. unfold step. cbn. by rewrite H. Qed.

(** *** Decoded instructions *)

(** What the core relies on: register numbers of five bits, operands of an
    unused register 0, and destinations only where there is a result. *)
Record plain (i : instr_t) : Prop := {
  pl_branch : branches i = false;
  pl_rd : 0 <= in_rd i < 32;
  pl_rs1 : 0 <= in_rs1 i < 32;
  pl_rs2 : 0 <= in_rs2 i < 32
}.

Lemma decode_plain w pc :
  branches (decode.decode w 0) = false -> plain (decode.decode w pc).
Proof.
  pose proof (bits_range w 11 7 ltac:(lia)) as H1. pose proof (bits_range w 19 15 ltac:(lia)) as H2.
  pose proof (bits_range w 24 20 ltac:(lia)) as H3. change (2 ^ _) with 32 in *.
  intros Hb. unfold decode.decode in *.
  repeat match goal with
  | |- context [match ?x with _ => _ end] => destruct x
  end; (constructor; cbn [in_rd in_rs1 in_rs2]; [exact Hb|lia|lia|lia]).
Qed.

Lemma load_length words : length (sim_compliance.load words) = Z.to_nat MEM_SIZE.
Proof. unfold sim_compliance.load. rewrite length_take, length_app, length_replicate. lia. Qed.

Lemma straight_fetched imem k : straight imem = true -> plain (fetched imem k).
Proof.
  intros H. apply decode_plain. unfold at_. rewrite nth_lookup. unfold straight in H.
  rewrite forallb_forall in H. destruct (imem !! _) as [w|] eqn:E; cbn; [|done].
  apply negb_true_iff, (H w), list_elem_of_In, list_elem_of_lookup. by eexists.
Qed.

Lemma initial_sized words : sized (initial words).
Proof. constructor; cbn; [done|done|]. rewrite load_length. done. Qed.

End hw_seq.

(** ** Whole words *)

Lemma merge_all old v : is_u32 v -> data_mem.merge 15 old v = v.
Proof.
  intros Hv.
  change (cat (cat (cat (bits v 31 24) 8 (bits v (24 - 1) 16)) 8 (bits v (16 - 1) 8)) 8 (bits v (8 - 1) 0) = v).
  rewrite !cat_bits by lia. by apply bits_full.
Qed.
