(* ===== verification/HwFlow.v ===== *)
(** * Stations and units pass instructions on

    What a reservation station and a functional unit hold, as lists, and that a
    clock edge only moves things: what comes in and what was there is what
    leaves and what stays ([waiting_flow], [fu_flow]). A unit holds results,
    each under its tag, from the issue on. *)

From S2P Require Import Prelude Words HwPkg HwUnits HwTables HwStation HwControl HwCore.
From S2P Require Import HwUnitFacts HwSequential.

(** An element that is there when a signal is high. *)
Definition when {A} (b : bool) (x : A) : list A := if b then [x] else [].

Lemma elem_of_when {A} b (x y : A) : x ∈ when b y <-> b = true /\ x = y.
Proof.
  destruct b; cbn; rewrite ?list_elem_of_singleton; [naive_solver|].
  split; [by intros ?%not_elem_of_nil|naive_solver].
Qed.

Lemma put_nat {A} (l : list A) j x : put l (Z.of_nat j) x = <[j := x]> l.
Proof. unfold put. by rewrite Nat2Z.id. Qed.

Lemma length_when {A} b (x : A) : length (when b x) = if b then 1%nat else 0%nat.
Proof. by destruct b. Qed.

Lemma map_when {A B} (f : A -> B) b x : map f (when b x) = when b (f x).
Proof. by destruct b. Qed.

(** Both branches of every conditional in the goal. *)
Ltac split_ifs := repeat match goal with |- context [if ?b then _ else _] => destruct b end.

(** ** Stations *)

Section Stations.
Import reservation_station.

(** The entries of the busy slots. *)
Fixpoint occupied (bs : list bool) (es : list rs_entry_t) : list rs_entry_t :=
  match bs, es with
  | b :: bs', e :: es' => when b e ++ occupied bs' es'
  | _, _ => []
  end.

Definition waiting (s : state) : list rs_entry_t := occupied (busy s) (slots s).

Definition station_ok (s : state) : Prop := length (busy s) = length (slots s).

(** *** Slots *)

Lemma occupied_fill bs es i e :
  length bs = length es -> bs !! i = Some false ->
  occupied (<[i := true]> bs) (<[i := e]> es) ≡ₚ e :: occupied bs es.
Proof.
  revert es i. induction bs as [|b bs IH]; intros [|e' es] i Hl Hi; try done.
  destruct i as [|i]; cbn in *.
  - by injection Hi as ->.
  - rewrite IH by (done || lia). destruct b; cbn; [by rewrite Permutation_swap|done].
Qed.

Lemma occupied_clear bs es i e :
  bs !! i = Some true -> es !! i = Some e ->
  occupied bs es ≡ₚ e :: occupied (<[i := false]> bs) es.
Proof.
  revert es i. induction bs as [|b bs IH]; intros [|e' es] i Hi He; try done.
  destruct i as [|i]; cbn in *.
  - by injection Hi as ->; injection He as ->.
  - rewrite (IH es i Hi He). destruct b; cbn; [by rewrite Permutation_swap|done].
Qed.

Lemma occupied_capture bus bs es :
  length bs = length es ->
  occupied bs (zip_with (capture bus) bs es) = map (capture bus true) (occupied bs es).
Proof.
  revert es. induction bs as [|b bs IH]; intros [|e es] Hl; try done. cbn in *.
  rewrite map_app, map_when, <- IH by lia. by destruct b.
Qed.

Lemma occupied_in bs es i e : bs !! i = Some true -> es !! i = Some e -> e ∈ occupied bs es.
Proof. intros Hb He. rewrite (occupied_clear bs es i e Hb He). by left. Qed.

Lemma occupied_length bs es : (length (occupied bs es) <= length bs)%nat.
Proof.
  revert es. induction bs as [|b bs IH]; intros [|e es]; cbn; try lia.
  rewrite length_app. specialize (IH es). destruct b; cbn; lia.
Qed.

(** *** The priority chains *)

Lemma chain_first {A} (p : A -> bool) l i :
  existsb p l = true ->
  exists j x, chain p i l = i + Z.of_nat j /\ l !! j = Some x /\ p x = true.
Proof.
  revert i. induction l as [|x l IH]; intros i H; [done|]. cbn in H. apply orb_true_iff in H.
  assert (Hhere : p x = true -> exists j x', i = i + Z.of_nat j /\ (x :: l) !! j = Some x' /\ p x' = true).
  { intros Hx. exists 0%nat, x. split; [lia|done]. }
  destruct l as [|y l].
  - destruct H as [H|H]; [by apply Hhere|done].
  - change (chain p i (x :: y :: l)) with (if p x then i else chain p (i + 1) (y :: l)).
    destruct (p x) eqn:Hx; [by apply Hhere|]. destruct H as [H|H]; [done|].
    destruct (IH (i + 1) H) as (j & x' & -> & Hj & Hp). exists (S j), x'. split; [lia|done].
Qed.

Lemma ready_lookup s j :
  ready_vec s !! j = Some true ->
  exists e, busy s !! j = Some true /\ slots s !! j = Some e /\ rs1_ready e = true /\ rs2_ready e = true.
Proof.
  unfold ready_vec. rewrite lookup_zip_with. destruct (busy s !! j) as [b|]; [|done]. cbn.
  destruct (slots s !! j) as [e|]; [|done]. cbn. intros [= H].
  rewrite !andb_true_iff in H. destruct H as [[-> ?] ?]. by exists e.
Qed.

(** The entry a station issues is one of its own, with both operands. *)
Lemma issue_leaves s :
  existsb id (ready_vec s) = true ->
  exists j, issue_idx s = Z.of_nat j /\ busy s !! j = Some true /\
    slots s !! j = Some (issue_entry_o s) /\
    rs1_ready (issue_entry_o s) = true /\ rs2_ready (issue_entry_o s) = true.
Proof.
  intros H. destruct (chain_first _ _ 0 H) as (j & x & Hc & Hj & Hx). cbn in Hx. subst x.
  destruct (ready_lookup _ _ Hj) as (e & Hb & He & H1 & H2). exists j.
  assert (issue_entry_o s = e) as ->.
  { unfold issue_entry_o, issue_idx, at_. by rewrite Hc, Z.add_0_l, Nat2Z.id, nth_lookup, He. }
  done.
Qed.

Lemma issue_waiting s r :
  issue_valid_o s r = true -> issue_entry_o s ∈ waiting s /\
  rs1_ready (issue_entry_o s) = true /\ rs2_ready (issue_entry_o s) = true.
Proof.
  intros [H _]%andb_true_iff. destruct (issue_leaves s H) as (j & _ & Hb & He & ?).
  split; [by eapply occupied_in|done].
Qed.

Lemma free_slot s :
  full_o s = false -> exists j, dispatch_idx s = Z.of_nat j /\ busy s !! j = Some false.
Proof.
  intros H. assert (Hn : existsb negb (busy s) = true).
  { unfold full_o in H. induction (busy s) as [|[] l IH]; [done| |done]. by apply IH. }
  destruct (chain_first _ _ 0 Hn) as (j & x & Hc & Hj & Hx). exists j.
  split; [by rewrite <- (Z.add_0_l (Z.of_nat j))|]. by destruct x.
Qed.

Lemma captured_ready bus b e :
  rs1_ready e = true -> rs2_ready e = true -> capture bus b e = e.
Proof.
  destruct e. unfold capture. cbn. intros -> ->. by rewrite !andb_false_r.
Qed.

(** *** A clock edge *)

Section Edge.
Context (s : state) (v : bool) (d : rs_entry_t) (bus : cdb_t) (r : bool).
Hypothesis Hok : station_ok s.

Lemma next_station_ok : station_ok (next s false v d bus r).
Proof.
  unfold station_ok, next in *. cbn. split_ifs; rewrite ?length_put, ?length_zip_with; lia.
Qed.

Lemma next_busy_length : length (busy (next s false v d bus r)) = length (busy s).
Proof. unfold next. cbn. by split_ifs; rewrite ?length_put. Qed.

Lemma waiting_flow :
  when (issue_valid_o s r) (issue_entry_o s) ++ waiting (next s false v d bus r) ≡ₚ
  when (v && negb (full_o s)) d ++ map (capture bus true) (waiting s).
Proof.
  unfold waiting, station_ok in *. rewrite <- occupied_capture by done.
  assert (Hcl : length (busy s) = length (zip_with (capture bus) (busy s) (slots s)))
    by (rewrite length_zip_with; lia).
  set (c := zip_with _ _ _) in *.
  assert (Hd : forall busy1 slots1,
    busy1 = (if v && negb (full_o s) then put (busy s) (dispatch_idx s) true else busy s) ->
    slots1 = (if v && negb (full_o s) then put c (dispatch_idx s) d else c) ->
    occupied busy1 slots1 ≡ₚ when (v && negb (full_o s)) d ++ occupied (busy s) c /\
    forall j e, busy s !! j = Some true -> c !! j = Some e -> busy1 !! j = Some true /\ slots1 !! j = Some e).
  { intros busy1 slots1 -> ->. destruct (v && negb (full_o s)) eqn:E; [|done].
    apply andb_true_iff in E as [_ Hf%negb_true_iff].
    destruct (free_slot s Hf) as (k & -> & Hk). rewrite !put_nat.
    split; [by apply occupied_fill|]. intros j e Hj He.
    assert (k <> j) by congruence. by rewrite !list_lookup_insert_ne. }
  unfold next. fold c. cbn [busy slots]. destruct (Hd _ _ eq_refl eq_refl) as [Hp Hl]. rewrite <- Hp. clear Hp Hd.
  destruct (issue_valid_o s r) eqn:Hi; [|done]. cbn [when app].
  apply andb_true_iff in Hi as [Hi _]. destruct (issue_leaves s Hi) as (j & Hj & Hb & He & H1 & H2).
  rewrite Hj, put_nat.
  destruct (Hl j (issue_entry_o s) Hb) as [Hb1 He1].
  { unfold c. rewrite lookup_zip_with, Hb. cbn. rewrite He. cbn. by rewrite captured_ready. }
  symmetry. by apply occupied_clear.
Qed.

End Edge.

Lemma reset_waiting n : waiting (reset n) = [] /\ station_ok (reset n).
Proof.
  split; [|unfold station_ok; cbn; by rewrite !length_replicate].
  unfold waiting, reset. cbn. by induction (Z.to_nat n).
Qed.

(** A station that is not full has a free slot for each entry it lacks. *)
Lemma waiting_empty_full s : 0 < len (busy s) -> station_ok s -> waiting s = [] -> full_o s = false.
Proof.
  unfold waiting, full_o, station_ok. destruct (busy s) as [|[] bs], (slots s) as [|e es]; cbn; try done; lia.
Qed.

(** An entry with both operands is issued as soon as the unit takes it. *)
Lemma waiting_ready s e :
  e ∈ waiting s -> rs1_ready e = true -> rs2_ready e = true -> issue_valid_o s true = true.
Proof.
  unfold waiting, issue_valid_o, ready_vec. rewrite andb_true_r. generalize (slots s).
  induction (busy s) as [|b bs IH]; intros [|e' es]; cbn; try by intros ?%not_elem_of_nil.
  intros [[-> ->]%elem_of_when|H]%elem_of_app H1 H2; apply orb_true_iff.
  - left. by rewrite H1, H2.
  - right. by apply IH.
Qed.

End Stations.

(** ** Functional units *)

(** A unit between its station and the bus: [issue] is what the station hands
    it, if anything, [grant] the bus taking its result. [fu_contents] lists the
    results it will present, [fu_work] bounds the edges they still take. *)
Record func_unit (S : Type) : Type := FuncUnit {
  fu_target : dispatch.target;
  fu_out : S -> cdb_t;
  fu_ready : S -> bool -> bool;
  fu_next : S -> bool -> rs_entry_t -> bool -> S;
  fu_ok : S -> Prop;
  fu_contents : S -> list (Z * Z);
  fu_work : S -> nat
}.
Arguments FuncUnit {S}.
Arguments fu_target {S}.
Arguments fu_out {S}.
Arguments fu_ready {S}.
Arguments fu_next {S}.
Arguments fu_ok {S}.
Arguments fu_contents {S}.
Arguments fu_work {S}.

(** The result of a station entry. *)
Definition entry_result (e : rs_entry_t) : Z :=
  hw_seq.compute (rs_op e) (rs_pc e) (rs1_val e) (rs2_val e) (rs_imm e).

Definition tagged (c : cdb_t) : Z * Z := (cdb_tag c, cdb_value c).

(** What the core asks of a unit and gives it. *)
Record fu_protocol {S} (u : func_unit S) (s : S) (v : bool) (e : rs_entry_t) (g : bool) : Prop := {
  fp_ok : fu_ok u s;
  fp_issue : v = true -> fu_ready u s g = true /\ dispatch.target_of (rs_op e) = fu_target u;
  fp_grant : g = true -> cdb_valid (fu_out u s) = true
}.

(** No unit keeps an operation longer. *)
Definition fu_latency : nat := 9.

Definition moves {S} (u : func_unit S) (s : S) (g : bool) : bool :=
  g || (negb (cdb_valid (fu_out u s)) && negb (bool_decide (fu_contents u s = []))).

Class FuncUnitLaws {S} (u : func_unit S) : Prop := {
  fu_keeps s v e g : fu_protocol u s v e g -> fu_ok u (fu_next u s v e g);
  fu_flow s v e g : fu_protocol u s v e g ->
    when g (tagged (fu_out u s)) ++ fu_contents u (fu_next u s v e g) ≡ₚ
    when v (rs_rob_tag e, entry_result e) ++ fu_contents u s;
  fu_presents s : fu_ok u s -> cdb_valid (fu_out u s) = true -> fu_contents u s <> [];
  fu_idle s g : fu_ok u s -> fu_contents u s = [] -> fu_ready u s g = true;
  fu_progress s v e g : fu_protocol u s v e g ->
    (fu_work u (fu_next u s v e g) + (if moves u s g then 1 else 0) <=
     fu_work u s + (if v then fu_latency else 0))%nat
}.

Section Compute.
Context (e : rs_entry_t).
Import dispatch.

Lemma alu_entry : target_of (rs_op e) = T_ALU ->
  entry_result e = alu_int.result_next (rs_op e) (rs_pc e) (rs1_val e) (rs2_val e) (rs_imm e).
Proof. unfold entry_result, hw_seq.compute. by intros ->. Qed.

Lemma add_entry : target_of (rs_op e) = T_FP_ADD ->
  entry_result e = fp_add.fp_add_core (rs1_val e) (rs2_val e) (opb (rs_op e) OP_FSUB_S).
Proof. unfold entry_result, hw_seq.compute. by intros ->. Qed.

Lemma mul_entry : target_of (rs_op e) = T_FP_MUL -> entry_result e = mul_word (rs1_val e) (rs2_val e).
Proof. unfold entry_result, hw_seq.compute. by intros ->. Qed.

Lemma div_entry : target_of (rs_op e) = T_FP_DIV -> entry_result e = div_word (rs1_val e) (rs2_val e).
Proof. unfold entry_result, hw_seq.compute. by intros ->. Qed.

Lemma cvt_entry : target_of (rs_op e) = T_FP_CVT ->
  entry_result e = fp_cvt.compute_result (rs_op e) (rs1_val e).
Proof. unfold entry_result, hw_seq.compute. by intros ->. Qed.

End Compute.

(** *** The integer unit and its latch *)

Definition int_unit : func_unit (alu_int.state * cdb_t) :=
  FuncUnit dispatch.T_ALU snd
    (fun '(a, l) g => (negb (cdb_valid l) || g) && negb (alu_int.valid_o a))
    (fun '(a, l) v e g =>
       (alu_int.next a v (rs_op e) (rs_rob_tag e) (rs_pc e) (rs1_val e) (rs2_val e) (rs_imm e),
        tomasulo_core.latch l false (alu_int.valid_o a) (alu_int.tag_o a) (alu_int.result_o a) g))
    (fun '(a, l) => alu_int.valid_o a = true -> cdb_valid l = false)
    (fun '(a, l) => when (alu_int.valid_o a) (alu_int.tag_o a, alu_int.result_o a) ++
       when (cdb_valid l) (tagged l))
    (fun '(a, l) => (if alu_int.valid_o a then 2 else 0) + (if cdb_valid l then 1 else 0))%nat.

#[export] Instance int_unit_laws : FuncUnitLaws int_unit.
Proof.
  constructor.
  - intros [a l] v e g [Hok Hi Hg]. cbn in *. unfold alu_int.next. destruct v; [|done]. cbn.
    destruct (Hi eq_refl) as [[Hr Hv%negb_true_iff]%andb_true_iff _].
    unfold tomasulo_core.latch. rewrite Hv. destruct g; [done|].
    rewrite orb_false_r, negb_true_iff in Hr. by rewrite Hr.
  - intros [a l] v e g [Hok Hi Hg]. cbn in *. unfold alu_int.next, tomasulo_core.latch.
    destruct v; cbn.
    + destruct (Hi eq_refl) as [[Hr Hv%negb_true_iff]%andb_true_iff Ht]. rewrite Hv, (alu_entry e Ht). cbn.
      destruct g; [rewrite Hg by done; solve_Permutation|].
      rewrite orb_false_r, negb_true_iff in Hr. by rewrite Hr.
    + destruct (alu_int.valid_o a); cbn.
      * rewrite Hok in * by done. destruct g; [by discriminate Hg|done].
      * destruct g; [by rewrite Hg|done].
  - intros [a l] Hok. cbn. intros ->. by destruct (alu_int.valid_o a).
  - intros [a l] g Hok. cbn. by destruct (alu_int.valid_o a), (cdb_valid l).
  - intros [a l] v e g [Hok Hi Hg]. unfold moves, fu_latency. cbn in *. unfold alu_int.next, tomasulo_core.latch.
    destruct v; cbn.
    + destruct (Hi eq_refl) as [[Hr Hv%negb_true_iff]%andb_true_iff _]. rewrite Hv. cbn.
      destruct g; cbn; [lia|]. rewrite orb_false_r, negb_true_iff in Hr. rewrite Hr. cbn. lia.
    + destruct (alu_int.valid_o a); cbn.
      * rewrite Hok in * by done. destruct g; [by discriminate Hg|]. cbn. lia.
      * destruct g; cbn; [rewrite Hg by done; lia|]. destruct (cdb_valid l); cbn; lia.
Qed.

(** *** The pipelines *)

(** The pipeline of two stages, around a function of the entry. *)
Definition two_unit (t : dispatch.target) (f : rs_entry_t -> Z) : func_unit two_stage.state :=
  FuncUnit t two_stage.cdb_o two_stage.fu_ready_o
    (fun s v e g => two_stage.next s false v (rs_rob_tag e) (f e) g)
    (fun _ => True)
    (fun s => when (two_stage.s1_valid s) (two_stage.s1_tag s, two_stage.s1_result s) ++
       when (two_stage.s2_valid s) (two_stage.s2_tag s, two_stage.s2_result s))
    (fun s => (if two_stage.s1_valid s then 2 else 0) + (if two_stage.s2_valid s then 1 else 0))%nat.

Lemma two_unit_laws t f :
  (forall e, dispatch.target_of (rs_op e) = t -> entry_result e = f e) -> FuncUnitLaws (two_unit t f).
Proof.
  intros Hf. constructor.
  - done.
  - intros s v e g [_ Hi Hg]. cbn in *. unfold tagged, two_stage.next, two_stage.fu_ready_o, two_stage.advance in *.
    destruct (two_stage.s2_valid s) eqn:Hl, g; cbn in *; try (by discriminate Hg);
      destruct v; cbn; rewrite ?Hl; rewrite ?(Hf e) by (by apply Hi); try done; try (by destruct (Hi eq_refl));
      destruct (two_stage.s1_valid s); cbn; solve_Permutation.
  - intros s _. cbn. intros ->. by destruct (two_stage.s1_valid s).
  - intros s g _. cbn. unfold two_stage.fu_ready_o, two_stage.advance.
    by destruct (two_stage.s1_valid s), (two_stage.s2_valid s).
  - intros s v e g [_ Hi Hg]. unfold moves, fu_latency. cbn in *.
    unfold two_stage.next, two_stage.fu_ready_o, two_stage.advance in *.
    destruct (two_stage.s2_valid s) eqn:Hl, g; cbn in *; try (by discriminate Hg);
      destruct v; cbn; rewrite ?Hl; try (by destruct (Hi eq_refl));
      destruct (two_stage.s1_valid s); cbn; lia.
Qed.

Definition add_unit : func_unit two_stage.state :=
  two_unit dispatch.T_FP_ADD
    (fun e => fp_add.fp_add_core (rs1_val e) (rs2_val e) (opb (rs_op e) OP_FSUB_S)).
Definition cvt_unit : func_unit two_stage.state :=
  two_unit dispatch.T_FP_CVT (fun e => fp_cvt.compute_result (rs_op e) (rs1_val e)).

#[export] Instance add_unit_laws : FuncUnitLaws add_unit.
Proof. apply two_unit_laws, add_entry. Qed.

#[export] Instance cvt_unit_laws : FuncUnitLaws cvt_unit.
Proof. apply two_unit_laws, cvt_entry. Qed.

(** The contents of the four stages of a multiplication. *)
Definition mul_unit : func_unit fp_mul.state :=
  FuncUnit dispatch.T_FP_MUL fp_mul.cdb_o fp_mul.fu_ready_o
    (fun s v e g => fp_mul.next s false v (rs_rob_tag e) (rs1_val e) (rs2_val e) g)
    (fun _ => True)
    (fun s =>
       when (fp_mul.s1_valid s)
         (fp_mul.s1_tag s, fp_mul.c3_result (fp_mul.s1_zero s) (fp_mul.s1_sign s) (fp_mul.s1_exp s)
            (fp_mul.c2_product (fp_mul.s1_hh s) (fp_mul.s1_hl s) (fp_mul.s1_lh s) (fp_mul.s1_ll s))) ++
       when (fp_mul.s2_valid s)
         (fp_mul.s2_tag s,
          fp_mul.c3_result (fp_mul.s2_zero s) (fp_mul.s2_sign s) (fp_mul.s2_exp s) (fp_mul.s2_product s)) ++
       when (fp_mul.s3_valid s) (fp_mul.s3_tag s, fp_mul.s3_result s) ++
       when (fp_mul.s4_valid s) (fp_mul.s4_tag s, fp_mul.s4_result s))
    (fun s => (if fp_mul.s1_valid s then 4 else 0) + (if fp_mul.s2_valid s then 3 else 0) +
       (if fp_mul.s3_valid s then 2 else 0) + (if fp_mul.s4_valid s then 1 else 0))%nat.

Lemma mul_product a b :
  let ma := fp_mul.mant a in
  let mb := fp_mul.mant b in
  fp_mul.c3_result (fp_mul.c1_zero a b) (fp_mul.c1_sign a b) (fp_mul.c1_exp a b)
    (fp_mul.c2_product (trunc 24 (fp_mul.hi ma * fp_mul.hi mb)) (trunc 24 (fp_mul.hi ma * fp_mul.lo mb))
       (trunc 24 (fp_mul.lo ma * fp_mul.hi mb)) (trunc 24 (fp_mul.lo ma * fp_mul.lo mb))) = mul_word a b.
Proof.
  cbn zeta. rewrite split_product; [apply mul_result|..]; unfold fp_mul.mant; fold (mantissa a); fold (mantissa b);
    pose proof (mantissa_range a); pose proof (mantissa_range b); lia.
Qed.

#[export] Instance mul_unit_laws : FuncUnitLaws mul_unit.
Proof.
  constructor.
  - done.
  - intros s v e g [_ Hi Hg]. cbn in *. unfold tagged, fp_mul.next, fp_mul.fu_ready_o, fp_mul.advance in *.
    destruct (fp_mul.s4_valid s) eqn:Hl, g; cbn in *; try (by discriminate Hg);
      destruct v; cbn; rewrite ?Hl; rewrite ?mul_product, ?(mul_entry e) by (by apply Hi); try done; try (by destruct (Hi eq_refl));
      destruct (fp_mul.s1_valid s), (fp_mul.s2_valid s), (fp_mul.s3_valid s); cbn; solve_Permutation.
  - intros s _. cbn. intros ->.
    by destruct (fp_mul.s1_valid s), (fp_mul.s2_valid s), (fp_mul.s3_valid s).
  - intros s g _. cbn. unfold fp_mul.fu_ready_o, fp_mul.advance.
    by destruct (fp_mul.s1_valid s), (fp_mul.s2_valid s), (fp_mul.s3_valid s), (fp_mul.s4_valid s).
  - intros s v e g [_ Hi Hg]. unfold moves, fu_latency. cbn in *.
    unfold fp_mul.next, fp_mul.fu_ready_o, fp_mul.advance in *.
    destruct (fp_mul.s4_valid s) eqn:Hl, g; cbn in *; try (by discriminate Hg);
      destruct v; cbn; rewrite ?Hl; try (by destruct (Hi eq_refl));
      destruct (fp_mul.s1_valid s), (fp_mul.s2_valid s), (fp_mul.s3_valid s); cbn; lia.
Qed.

(** *** The divider *)

Definition div_wait : div_input := mkDivInput false 0 0 0 false.

(** The word a busy divider will present. *)
Definition div_pending (s : fp_div.state) : Z :=
  fp_div.c_result (foldl div_edge s (replicate (7 - Z.to_nat (fp_div.s_cnt s)) div_wait)).

Definition div_unit : func_unit fp_div.state :=
  FuncUnit dispatch.T_FP_DIV fp_div.cdb_o (fun s _ => fp_div.fu_ready_o s)
    (fun s v e g => fp_div.next s false v (rs_rob_tag e) (rs1_val e) (rs2_val e) g)
    (fun s => fp_div.st s = fp_div.DIVIDE -> 0 <= fp_div.s_cnt s <= 6)
    (fun s =>
       match fp_div.st s with
       | fp_div.IDLE => []
       | fp_div.DIVIDE => [(fp_div.s_tag s, div_pending s)]
       | fp_div.DONE => [(fp_div.s_tag s, fp_div.c_result s)]
       end)
    (fun s =>
       match fp_div.st s with
       | fp_div.IDLE => 0
       | fp_div.DIVIDE => 8 - Z.to_nat (fp_div.s_cnt s)
       | fp_div.DONE => 1
       end)%nat.

Lemma div_issue s i :
  fp_div.st s = fp_div.IDLE -> dv_valid i = true ->
  div_edge s i = fp_div.c_idle (dv_tag i) (dv_rs1 i) (dv_rs2 i).
Proof. intros Hs Hv. unfold div_edge, fp_div.next. by rewrite Hs, Hv. Qed.

Lemma div_start_out tag a b :
  fp_div.cdb_o (foldl div_edge (fp_div.c_idle tag a b) (replicate 7 div_wait)) = mkCdb tag (div_word a b) true.
Proof.
  pose proof (fp_div_run fp_div.reset (mkDivInput true tag a b false) (replicate 7 div_wait) eq_refl eq_refl eq_refl) as H.
  rewrite div_issue in H by done. exact H.
Qed.

Lemma div_out_result s t w v : fp_div.cdb_o s = mkCdb t w v -> fp_div.c_result s = w.
Proof. unfold fp_div.cdb_o. by intros [= _ <- _]. Qed.

Lemma div_start_pending tag a b : div_pending (fp_div.c_idle tag a b) = div_word a b.
Proof.
  unfold div_pending. replace (7 - Z.to_nat _)%nat with 7%nat; [apply (div_out_result _ _ _ _ (div_start_out tag a b))|].
  unfold fp_div.c_idle. by destruct (fp_div.div3_step _ _ _) as [[? ?] ?].
Qed.

(** A step of a division, whatever arrives. *)
Lemma div_advance s v tag a b g :
  fp_div.st s = fp_div.DIVIDE -> 0 <= fp_div.s_cnt s <= 6 ->
  let s' := fp_div.next s false v tag a b g in
  fp_div.s_tag s' = fp_div.s_tag s /\
  (if fp_div.s_cnt s =? 6 then fp_div.st s' = fp_div.DONE /\ fp_div.c_result s' = div_pending s
   else fp_div.st s' = fp_div.DIVIDE /\ fp_div.s_cnt s' = fp_div.s_cnt s + 1 /\
     div_pending s' = div_pending s).
Proof.
  intros Hs Hc. cbn zeta. assert (Hn : fp_div.next s false v tag a b g = div_edge s div_wait).
  { unfold div_edge, fp_div.next. by rewrite Hs. }
  rewrite Hn. unfold div_pending. destruct (Z.eqb_spec (fp_div.s_cnt s) 6) as [E|E].
  - replace (7 - Z.to_nat (fp_div.s_cnt s))%nat with 1%nat by lia. cbn [replicate foldl].
    assert (Hd : fp_div.s_tag (div_edge s div_wait) = fp_div.s_tag s /\
      fp_div.st (div_edge s div_wait) = fp_div.DONE).
    { unfold div_edge, fp_div.next. rewrite Hs. destruct (fp_div.div3_step _ _ _) as [[? ?] ?]. by rewrite E. }
    by destruct Hd as [-> ->].
  - replace (7 - Z.to_nat (fp_div.s_cnt s))%nat with (S (6 - Z.to_nat (fp_div.s_cnt s)))%nat by lia.
    cbn [replicate foldl].
    assert (Hc' : fp_div.s_tag (div_edge s div_wait) = fp_div.s_tag s /\
      fp_div.st (div_edge s div_wait) = fp_div.DIVIDE /\
      fp_div.s_cnt (div_edge s div_wait) = fp_div.s_cnt s + 1).
    { unfold div_edge, fp_div.next. rewrite Hs. destruct (fp_div.div3_step _ _ _) as [[? ?] ?].
      rewrite (proj2 (Z.eqb_neq _ _) E). cbn. rewrite trunc_id by lia. done. }
    destruct Hc' as (-> & -> & ->). split; [done|]. split; [done|]. split; [done|].
    do 3 f_equal. lia.
Qed.

#[local] Arguments fp_div.next : simpl never.

#[export] Instance div_unit_laws : FuncUnitLaws div_unit.
Proof.
  constructor.
  - intros s v e g [Hok Hi Hg]. cbn in *. unfold fp_div.fu_ready_o in Hi. destruct (fp_div.st s) eqn:Hs.
    + unfold fp_div.next. rewrite Hs. destruct v; [|congruence]. unfold fp_div.c_idle.
      destruct (fp_div.div3_step _ _ _) as [[? ?] ?]. cbn. lia.
    + destruct (div_advance s v (rs_rob_tag e) (rs1_val e) (rs2_val e) g Hs (Hok eq_refl)) as [_ H].
      specialize (Hok eq_refl). destruct (Z.eqb_spec (fp_div.s_cnt s) 6); [by destruct H as [-> _]|].
      destruct H as (_ & -> & _). lia.
    + unfold fp_div.next. rewrite Hs. destruct g; [done|]. by rewrite Hs.
  - intros s v e g [Hok Hi Hg]. cbn in *. unfold fp_div.fu_ready_o in Hi. destruct (fp_div.st s) eqn:Hs.
    + destruct g; [by discriminate Hg|]. unfold fp_div.next. rewrite Hs. destruct v; [|by rewrite Hs].
      rewrite (div_entry e) by (by apply Hi). rewrite <- (div_start_pending (rs_rob_tag e)).
      unfold fp_div.c_idle. by destruct (fp_div.div3_step _ _ _) as [[? ?] ?].
    + destruct g; [by discriminate Hg|]. destruct v; [by destruct (Hi eq_refl)|].
      destruct (div_advance s false (rs_rob_tag e) (rs1_val e) (rs2_val e) false Hs (Hok eq_refl)) as [-> H].
      destruct (fp_div.s_cnt s =? 6); [by destruct H as [-> ->]|by destruct H as (-> & _ & ->)].
    + destruct v; [by destruct (Hi eq_refl)|]. unfold fp_div.next. rewrite Hs. destruct g; [done|]. by rewrite Hs.
  - intros s _. cbn. by destruct (fp_div.st s).
  - intros s g _. cbn. unfold fp_div.fu_ready_o. by destruct (fp_div.st s).
  - intros s v e g [Hok Hi Hg]. unfold moves, fu_latency. cbn in *. unfold fp_div.fu_ready_o in Hi.
    destruct (fp_div.st s) eqn:Hs; cbn.
    + destruct g; [by discriminate Hg|]. unfold fp_div.next. rewrite Hs.
      destruct v; [|rewrite Hs; cbn; rewrite andb_false_r; lia].
      unfold fp_div.c_idle. destruct (fp_div.div3_step _ _ _) as [[? ?] ?]. cbn. rewrite andb_false_r. lia.
    + destruct g; [by discriminate Hg|]. destruct v; [by destruct (Hi eq_refl)|]. specialize (Hok eq_refl).
      destruct (div_advance s false (rs_rob_tag e) (rs1_val e) (rs2_val e) false Hs Hok) as [_ H]. change (bool_decide (fp_div.DIVIDE = fp_div.DONE)) with false. cbn.
      destruct (Z.eqb_spec (fp_div.s_cnt s) 6); [destruct H as [-> _]; lia|].
      destruct H as (-> & -> & _). lia.
    + destruct v; [by destruct (Hi eq_refl)|]. unfold fp_div.next. rewrite Hs. destruct g; cbn; [lia|].
      rewrite Hs. change (bool_decide (fp_div.DONE = fp_div.DONE)) with true. cbn. lia.
Qed.

(** ** A station and its unit *)

(** What the rest of the core sees of a station and the unit behind it. *)
Record lane : Type := Lane {
  ln_target : dispatch.target;
  ln_full : bool;
  ln_out : cdb_t;
  ln_waiting : list rs_entry_t;
  ln_contents : list (Z * Z);
  ln_work : nat
}.

(** The tags it owns. *)
Definition lane_tags (l : lane) : list Z := map rs_rob_tag (ln_waiting l) ++ map fst (ln_contents l).

(** Edges its instructions still need, when nothing holds them up. *)
Definition lane_work (l : lane) : nat := ((fu_latency + 1) * length (ln_waiting l) + ln_work l)%nat.

Definition is_ready (e : rs_entry_t) : bool := rs1_ready e && rs2_ready e.

Definition has_work (l : lane) : bool :=
  negb (bool_decide (ln_contents l = [])) || existsb is_ready (ln_waiting l).

(** A clock edge: [d] is dispatched to it if [v], its result is taken if [g]. *)
Record lane_step (l l' : lane) (v : bool) (d : rs_entry_t) (bus : cdb_t) (g : bool) : Prop := {
  ls_target : ln_target l' = ln_target l;
  ls_tags : when g (cdb_tag (ln_out l)) ++ lane_tags l' ≡ₚ when v (rs_rob_tag d) ++ lane_tags l;
  ls_waiting : forall e, e ∈ ln_waiting l' ->
    (v = true /\ e = d) \/ exists e0, e0 ∈ ln_waiting l /\ e = reservation_station.capture bus true e0;
  ls_contents : forall x, x ∈ ln_contents l' ->
    x ∈ ln_contents l \/
    exists e, e ∈ ln_waiting l /\ is_ready e = true /\ x = (rs_rob_tag e, entry_result e);
  ls_work : (lane_work l' + (if g || (negb (cdb_valid (ln_out l)) && has_work l) then 1 else 0) <=
    lane_work l + (if v then fu_latency + 1 else 0))%nat
}.

Record lane_ok (l : lane) : Prop := {
  lo_presents : cdb_valid (ln_out l) = true -> tagged (ln_out l) ∈ ln_contents l;
  lo_full : ln_waiting l = [] -> ln_full l = false
}.

Section Lane.
Import reservation_station.
Context {S : Type} (u : func_unit S) `{!FuncUnitLaws u}.

Definition lane_of (rs : state) (s : S) : lane :=
  Lane (fu_target u) (full_o rs) (fu_out u s) (waiting rs) (fu_contents u s) (fu_work u s).

(** The pair is as it should be. *)
Record pair_ok (rs : state) (s : S) : Prop := {
  pk_station : station_ok rs;
  pk_size : 0 < len (busy rs);
  pk_unit : fu_ok u s;
  pk_target : forall e, e ∈ waiting rs -> dispatch.target_of (rs_op e) = fu_target u
}.

Context (rs : state) (s : S).
Hypothesis Hok : pair_ok rs s.

Lemma pair_protocol e g :
  e = issue_entry_o rs -> (g = true -> cdb_valid (fu_out u s) = true) ->
  fu_protocol u s (issue_valid_o rs (fu_ready u s g)) e g.
Proof.
  intros -> Hg. constructor; [apply Hok| |done]. intros Hi. split.
  - by apply andb_true_iff in Hi as [_ ?].
  - apply Hok. by destruct (issue_waiting _ _ Hi).
Qed.

Lemma pair_lane_ok : lane_ok (lane_of rs s).
Proof.
  constructor; cbn.
  - intros Hv. pose proof (fu_flow s false rs_entry_0 true ltac:(by constructor; [apply Hok|..])) as H.
    cbn in H. rewrite <- H. by left.
  - intros Hw. apply waiting_empty_full; [apply Hok..|done].
Qed.

Context (v : bool) (d : rs_entry_t) (bus : cdb_t) (g : bool).
Hypothesis Hfull : v = true -> full_o rs = false /\ dispatch.target_of (rs_op d) = fu_target u.
Hypothesis Hgrant : g = true -> cdb_valid (fu_out u s) = true.

Let iv := issue_valid_o rs (fu_ready u s g).
Let ie := issue_entry_o rs.
Let rs' := next rs false v d bus (fu_ready u s g).
Let s' := fu_next u s iv ie g.

Lemma pair_waiting : when iv ie ++ waiting rs' ≡ₚ when v d ++ map (capture bus true) (waiting rs).
Proof.
  unfold iv, ie, rs'. rewrite waiting_flow by apply Hok. f_equiv.
  destruct v; [|done]. by destruct (Hfull eq_refl) as [-> _].
Qed.

Lemma capture_tag b e : rs_rob_tag (capture bus b e) = rs_rob_tag e.
Proof. done. Qed.

Lemma captured_tags l : map rs_rob_tag (map (capture bus true) l) = map rs_rob_tag l.
Proof. rewrite map_map. apply map_ext, capture_tag. Qed.

Lemma pair_waiting_in e : e ∈ waiting rs' ->
  (v = true /\ e = d) \/ exists e0, e0 ∈ waiting rs /\ e = capture bus true e0.
Proof.
  intros He. assert (He' : e ∈ when iv ie ++ waiting rs') by (apply elem_of_app; by right).
  rewrite pair_waiting in He'. apply elem_of_app in He' as [H%elem_of_when|H]; [by left|right].
  apply list_elem_of_fmap in H as (e0 & -> & H). by exists e0.
Qed.

Lemma pair_contents :
  when g (tagged (fu_out u s)) ++ fu_contents u s' ≡ₚ
  when iv (rs_rob_tag ie, entry_result ie) ++ fu_contents u s.
Proof. apply fu_flow, pair_protocol; done. Qed.

Lemma pair_issues :
  bool_decide (fu_contents u s = []) = true -> existsb is_ready (waiting rs) = true -> iv = true.
Proof.
  intros He%bool_decide_eq_true (e & Hin & Hr)%existsb_exists. unfold iv. rewrite fu_idle by (done || apply Hok).
  apply andb_true_iff in Hr as [? ?]. apply (waiting_ready _ e); [by apply list_elem_of_In|done|done].
Qed.

Lemma pair_work :
  (lane_work (lane_of rs' s') +
     (if g || (negb (cdb_valid (fu_out u s)) && has_work (lane_of rs s)) then 1 else 0) <=
   lane_work (lane_of rs s) + (if v then fu_latency + 1 else 0))%nat.
Proof.
  pose proof (Permutation_length pair_waiting) as Hw.
  rewrite !length_app, length_map, !length_when in Hw.
  pose proof (fu_progress s iv ie g (pair_protocol ie g eq_refl Hgrant)) as Hp. fold s' in Hp.
  pose proof pair_issues as Hi. unfold lane_work, has_work, moves, lane_of in *.
  cbn [ln_contents ln_waiting ln_work] in *.
  revert Hw Hp Hi. generalize (length (waiting rs')), (fu_work u s'), (length (waiting rs)), (fu_work u s).
  generalize (bool_decide (fu_contents u s = [])), (existsb is_ready (waiting rs)), iv, (cdb_valid (fu_out u s)).
  unfold fu_latency. intros [] [] [] [] n1 n2 n3 n4 H1 H2 Hi; destruct v, g; cbn in *; try lia;
    by discriminate (Hi eq_refl eq_refl).
Qed.

Lemma pair_step : lane_step (lane_of rs s) (lane_of rs' s') v d bus g.
Proof.
  pose proof pair_waiting as Hw. pose proof pair_contents as Hc. constructor; cbn.
  - done.
  - unfold lane_tags. cbn.
    apply (Permutation_map rs_rob_tag) in Hw. apply (Permutation_map fst) in Hc.
    rewrite !map_app, !map_when in *. rewrite captured_tags in Hw. cbn in Hc.
    apply (Permutation_app_inv_l (when iv (rs_rob_tag ie))).
    transitivity ((when iv (rs_rob_tag ie) ++ map rs_rob_tag (waiting rs')) ++
      (when g (cdb_tag (fu_out u s)) ++ map fst (fu_contents u s'))); [solve_Permutation|].
    rewrite Hw, Hc. solve_Permutation.
  - apply pair_waiting_in.
  - intros x Hx. assert (Hx' : x ∈ when g (tagged (fu_out u s)) ++ fu_contents u s')
      by (apply elem_of_app; by right).
    rewrite Hc in Hx'. apply elem_of_app in Hx' as [[Hi ->]%elem_of_when|H]; [right|by left].
    exists ie. destruct (issue_waiting _ _ Hi) as (? & H1 & H2). split; [done|]. split; [|done].
    unfold is_ready. by apply andb_true_iff.
  - apply pair_work.
Qed.

Lemma pair_step_ok : pair_ok rs' s'.
Proof.
  constructor.
  - apply next_station_ok, Hok.
  - unfold rs'. rewrite next_busy_length. apply Hok.
  - apply fu_keeps, pair_protocol; done.
  - intros e [[Hv ->]|(e0 & He & ->)]%pair_waiting_in; [by apply Hfull|].
    change (rs_op (capture bus true e0)) with (rs_op e0). by apply Hok.
Qed.

End Lane.
