(* ===== verification/HwInvariant.v ===== *)
(** * The units of the core while it runs a straight program

    The program is a sequence of instructions [ins], none of which branches.
    Its instruction [k] has tag [k mod 16]; [b] instructions have committed and
    [d] have been dispatched. This file says what the reorder buffer, the
    renaming tables and the register file hold then, and what a clock edge does
    to each ([rob_edge], [table_edge], [regfile_edge]); [operand_edge] is what
    dispatch reads. *)

From S2P Require Import Prelude Words Ring HwPkg HwTables HwStation HwControl HwCore.
From S2P Require Import HwSequential HwFlow.

(** ** Tags *)

(** The tag of an instruction. *)
Definition slot (k : nat) : Z := Z.of_nat k mod ROB_SIZE.

Lemma slot_range k : 0 <= slot k < ROB_SIZE.
Proof. apply Z.mod_pos_bound. unfold ROB_SIZE. lia. Qed.

Lemma slot_unique b j k :
  (b <= j < b + 16)%nat -> (b <= k < b + 16)%nat -> slot j = slot k -> j = k.
Proof.
  unfold slot. intros Hj Hk E. destruct (Nat.le_ge_cases j k).
  - pose proof (ring_index_inj ROB_SIZE (Z.of_nat j) (Z.of_nat k)). unfold ROB_SIZE in *. lia.
  - pose proof (ring_index_inj ROB_SIZE (Z.of_nat k) (Z.of_nat j)). unfold ROB_SIZE in *. lia.
Qed.

Lemma slot_S k : trunc 4 (slot k + 1) = slot (S k).
Proof.
  unfold slot, trunc. change (2 ^ 4) with ROB_SIZE. rewrite Zplus_mod_idemp_l. f_equal. lia.
Qed.

Lemma slot_in_window b t : 0 <= t < ROB_SIZE -> exists k, (b <= k < b + 16)%nat /\ slot k = t.
Proof.
  intros Ht. exists (b + Z.to_nat ((t - Z.of_nat b) mod ROB_SIZE))%nat.
  pose proof (Z.mod_pos_bound (t - Z.of_nat b) ROB_SIZE ltac:(unfold ROB_SIZE; lia)).
  split; [unfold ROB_SIZE in *; lia|]. unfold slot. rewrite Nat2Z.inj_add, Z2Nat.id by lia.
  rewrite Zplus_mod_idemp_r. replace (Z.of_nat b + (t - Z.of_nat b)) with t by lia. by apply Z.mod_small.
Qed.

Lemma slot_eqb b j k : (b <= j < b + 16)%nat -> (b <= k < b + 16)%nat -> (slot j =? slot k) = (j =? k)%nat.
Proof.
  intros Hj Hk. destruct (Nat.eqb_spec j k) as [->|Hne]; [apply Z.eqb_refl|].
  apply Z.eqb_neq. intros E. by apply Hne, (slot_unique b).
Qed.

(** Whether a broadcast is for an instruction. *)
Definition hits (bus : cdb_t) (k : nat) : bool := cdb_valid bus && (cdb_tag bus =? slot k).

Definition bump (n : nat) (b : bool) : nat := (n + if b then 1 else 0)%nat.

Section Straight.
Context (s0 : hw_seq.state) (ins : nat -> instr_t).
Hypothesis Hsized : hw_seq.sized s0.
Hypothesis Hplain : forall k, hw_seq.plain (ins k).

(** The state before instruction [k] and its result. *)
Definition before (k : nat) : hw_seq.state := hw_seq.run s0 ins k.
Definition res (k : nat) : Z := hw_seq.result (before k) (ins k).

Lemma before_sized k : hw_seq.sized (before k).
Proof. by apply hw_seq.run_sized. Qed.

(** A register keeps its value while nobody writes it, and has the result of
    its last writer. *)
Lemma read_settled fp r a d :
  (a <= d)%nat -> 0 <= r ->
  (forall j, (a <= j < d)%nat -> hw_seq.writes (ins j) fp r = false) ->
  hw_seq.read (before d) fp r = hw_seq.read (before a) fp r.
Proof.
  intros Hle Hr. induction Hle as [|d Hle IH]; intros Hw; [done|]. cbn.
  rewrite hw_seq.read_write_ne; [apply IH; intros; apply Hw; lia|apply before_sized|apply Hplain|done|apply Hw; lia].
Qed.

Lemma read_writer fp r k d :
  (k < d)%nat -> 0 <= r -> hw_seq.writes (ins k) fp r = true ->
  (forall j, (k < j < d)%nat -> hw_seq.writes (ins j) fp r = false) ->
  hw_seq.read (before d) fp r = res k.
Proof.
  intros Hk Hr Hw Hlast. rewrite (read_settled fp r (S k) d) by (try done; intros; apply Hlast; lia).
  apply hw_seq.read_write_eq; [apply before_sized|apply Hplain|done|done].
Qed.

(** ** The reorder buffer *)

Section Rob.
Import rob_unit.

Definition entry_of (i : instr_t) (e : rob_entry_t) : Prop :=
  ro_op e = in_op i /\ ro_rd e = in_rd i /\ ro_rd_fp e = in_rd_fp i /\ ro_rd_valid e = in_rd_valid i /\
  ro_is_branch e = false.

Definition in_flight (r : state) (k : nat) : Prop := ro_state (entry r (slot k)) = ROB_IN_FLIGHT.
Definition is_done (r : state) (k : nat) : Prop := ro_state (entry r (slot k)) = ROB_DONE.

Record rob_ok (b d : nat) (r : state) : Prop := {
  ro_len : len (entries r) = ROB_SIZE;
  ro_window : (b <= d <= b + 16)%nat;
  ro_head : head r = slot b;
  ro_tail : tail r = slot d;
  ro_count : count r = Z.of_nat d - Z.of_nat b;
  ro_entry k : (b <= k < d)%nat -> entry_of (ins k) (entry r (slot k));
  ro_value k : (b <= k < d)%nat -> in_flight r k \/ is_done r k /\ ro_result (entry r (slot k)) = res k;
  ro_idle k : (d <= k < b + 16)%nat -> ro_state (entry r (slot k)) = ROB_IDLE
}.

(** What is on the bus is a result of an instruction in flight. *)
Definition bus_ok (b d : nat) (r : state) (bus : cdb_t) : Prop :=
  cdb_valid bus = true ->
  exists k, (b <= k < d)%nat /\ in_flight r k /\ cdb_tag bus = slot k /\ cdb_value bus = res k.

(** The inputs of a clock edge: no flush, no branch, the next instruction when
    there is room, and whatever is done commits. *)
Record edge_ok (b d : nat) (r : state) (i : inputs) : Prop := {
  eg_rob : rob_ok b d r;
  eg_flush : flush_i i = false;
  eg_branch : br_valid_i i = false;
  eg_alloc : alloc_en_i i = true -> full_o r = false /\ alloc_instr_i i = ins d;
  eg_commit : commit_en_i i = commit_valid_o r;
  eg_bus : bus_ok b d r (cdb_i i)
}.

Lemma reset_rob_ok : rob_ok 0 0 reset.
Proof.
  constructor; try done; try lia. intros k Hk. unfold entry, at_. cbn [entries reset]. rewrite nth_lookup.
  destruct (_ !! _) as [e|] eqn:E; [|done]. by apply lookup_replicate in E as [-> _].
Qed.

(** The oldest entry commits when it is done; then the window is not empty. *)
Lemma commit_first b d r : rob_ok b d r ->
  commit_valid_o r = true <-> (b < d)%nat /\ is_done r b.
Proof.
  intros Hok. unfold commit_valid_o, commit_entry_o, is_done. rewrite (ro_head _ _ _ Hok), bool_decide_eq_true.
  split; [|by intros [_ ?]]. intros H. split; [|done]. pose proof (ro_window _ _ _ Hok).
  destruct (decide (b < d)%nat) as [|Hge]; [done|]. rewrite (ro_idle _ _ _ Hok b) in H by lia. done.
Qed.

Section Edge.
Context (b d : nat) (r : state) (i : inputs).
Hypothesis He : edge_ok b d r i.
#[clearbody] Let Hok : rob_ok b d r := eg_rob _ _ _ _ He.
#[clearbody] Let Hflush : flush_i i = false := eg_flush _ _ _ _ He.
#[clearbody] Let Hbr : br_valid_i i = false := eg_branch _ _ _ _ He.
#[clearbody] Let Halloc : alloc_en_i i = true -> full_o r = false /\ alloc_instr_i i = ins d := eg_alloc _ _ _ _ He.
#[clearbody] Let Hcommit : commit_en_i i = commit_valid_o r := eg_commit _ _ _ _ He.
#[clearbody] Let Hbus : bus_ok b d r (cdb_i i) := eg_bus _ _ _ _ He.

Let r' := next r i.
Let b' := bump b (commit_valid_o r).
Let d' := bump d (alloc_en_i i).

Lemma alloc_done : do_alloc r i = alloc_en_i i.
Proof. unfold do_alloc. pose proof Halloc as Ha. destruct (alloc_en_i i); [|done]. by destruct Ha as [-> _]. Qed.

Lemma commit_done : do_commit r i = commit_valid_o r.
Proof. unfold do_commit. rewrite Hcommit. by destruct (commit_valid_o r). Qed.

Lemma alloc_room : alloc_en_i i = true -> (d < b + 16)%nat.
Proof.
  intros Ha. destruct (Halloc Ha) as [Hf _]. unfold full_o in Hf. rewrite (ro_count _ _ _ Hok) in Hf.
  unfold ROB_SIZE in Hf. pose proof (ro_window _ _ _ Hok). lia.
Qed.

(** An entry after the edge, by the last write to it. *)
Lemma entry_next t : 0 <= t < ROB_SIZE ->
  entry r' t =
    if commit_valid_o r && (t =? slot b) then commit_e (entry r (slot b))
    else if alloc_en_i i && (t =? slot d) then new_e (ins d)
    else if cdb_valid (cdb_i i) && (t =? cdb_tag (cdb_i i)) then cdb_e (entry r t) (cdb_value (cdb_i i))
    else entry r t.
Proof.
  intros Ht. unfold r', next. rewrite Hflush. unfold entry at 1. cbn [entries].
  pose proof (ro_len _ _ _ Hok) as Hl. pose proof (slot_range b). pose proof (slot_range d).
  assert (Hw : write_branch r i (write_cdb r i (entries r)) = write_cdb r i (entries r))
    by (unfold write_branch; by rewrite Hbr).
  rewrite Hw. unfold write_commit, write_alloc. rewrite alloc_done, commit_done, (ro_head _ _ _ Hok), (ro_tail _ _ _ Hok).
  assert (Hc : len (write_cdb r i (entries r)) = ROB_SIZE /\
    at_ rob_entry_0 (write_cdb r i (entries r)) t =
      if cdb_valid (cdb_i i) && (t =? cdb_tag (cdb_i i)) then cdb_e (entry r t) (cdb_value (cdb_i i)) else entry r t).
  { unfold write_cdb. unfold bus_ok in Hbus. destruct (cdb_valid (cdb_i i)); [|done].
    destruct (Hbus eq_refl) as (k & _ & Hf & Htag & _). rewrite Htag. rewrite bool_decide_true by exact Hf. cbn [andb].
    pose proof (slot_range k). rewrite length_put, at_put by lia. split; [done|]. by destruct (Z.eqb_spec t (slot k)) as [->|]. }
  destruct Hc as [Hcl Hct].
  assert (Ha : alloc_en_i i = true -> alloc_instr_i i = ins d) by (intros Ha; by destruct (Halloc Ha)).
  destruct (commit_valid_o r), (alloc_en_i i); cbn [andb]; rewrite ?at_put by (rewrite ?length_put; lia);
    rewrite ?Hct, ?Ha by done; done.
Qed.

Lemma window_next : (b <= b' <= d)%nat /\ (b' <= d' <= b' + 16)%nat.
Proof.
  pose proof (ro_window _ _ _ Hok). pose proof (commit_first _ _ _ Hok) as Hc. pose proof alloc_room as Ha. unfold b', d', bump.
  destruct (commit_valid_o r); [assert (b < d)%nat by (by apply Hc)|];
    destruct (alloc_en_i i); try specialize (Ha eq_refl); lia.
Qed.

(** *** What becomes of each entry *)

Lemma entry_kept k : (b' <= k < d)%nat ->
  entry r' (slot k) =
    if hits (cdb_i i) k then cdb_e (entry r (slot k)) (res k) else entry r (slot k).
Proof.
  intros Hk. pose proof window_next. pose proof (ro_window _ _ _ Hok). rewrite entry_next by apply slot_range.
  assert (E1 : commit_valid_o r && (slot k =? slot b) = false).
  { unfold b', bump in Hk. destruct (commit_valid_o r); [|done]. rewrite (slot_eqb b) by lia. cbn. apply Nat.eqb_neq. lia. }
  assert (E2 : alloc_en_i i && (slot k =? slot d) = false).
  { pose proof alloc_room as Ha. destruct (alloc_en_i i); [|done]. specialize (Ha eq_refl).
    rewrite (slot_eqb b) by lia. cbn. apply Nat.eqb_neq. lia. }
  rewrite E1, E2. unfold hits. rewrite (Z.eqb_sym (cdb_tag _)).
  destruct (cdb_valid (cdb_i i)) eqn:Hv; [|done]. destruct (Z.eqb_spec (slot k) (cdb_tag (cdb_i i))) as [E|]; [|done].
  destruct (Hbus Hv) as (j & Hj & _ & Htag & ->). cbn [andb].
  assert (j = k) as ->; [|reflexivity]. apply (slot_unique b); [lia|lia|]. by rewrite E, <- Htag.
Qed.

Lemma entry_allocated : alloc_en_i i = true -> entry r' (slot d) = new_e (ins d).
Proof.
  intros Ha. rewrite entry_next by apply slot_range. rewrite Ha, Z.eqb_refl. cbn [andb].
  pose proof (alloc_room Ha). pose proof (commit_first _ _ _ Hok) as Hc.
  destruct (commit_valid_o r); [|done]. rewrite (slot_eqb b) by (assert (b < d)%nat by (by apply Hc); lia).
  assert (b < d)%nat by (by apply Hc). by rewrite (proj2 (Nat.eqb_neq d b)) by lia.
Qed.

Lemma in_flight_next k : (b' <= k < d')%nat ->
  in_flight r' k <-> (k = d \/ in_flight r k /\ hits (cdb_i i) k = false).
Proof.
  intros Hk. pose proof window_next as Hw. unfold in_flight.
  destruct (decide (k = d)) as [->|Hne].
  - rewrite entry_allocated; [cbn; naive_solver|]. unfold d', bump in Hk. destruct (alloc_en_i i); [done|lia].
  - rewrite entry_kept by (unfold d', bump in *; destruct (alloc_en_i i); lia).
    destruct (hits _ _).
    + split; [intros H; discriminate H|]. intros [E|[_ E]]; [destruct (Hne E)|discriminate E].
    + split; [intros H; right; split; [exact H|reflexivity]|]. intros [E|[H _]]; [destruct (Hne E)|exact H].
Qed.

Lemma rob_edge : rob_ok b' d' r'.
Proof.
  pose proof window_next as Hw. constructor.
  - unfold r', next. rewrite Hflush. cbn [entries]. unfold write_commit, write_alloc, write_branch, write_cdb.
    split_ifs; rewrite ?length_put; apply Hok.
  - lia.
  - unfold r', next, b', bump. rewrite Hflush. cbn [head]. rewrite commit_done, (ro_head _ _ _ Hok).
    destruct (commit_valid_o r); [rewrite slot_S|]; f_equal; lia.
  - unfold r', next, d', bump. rewrite Hflush. cbn [tail]. rewrite alloc_done, (ro_tail _ _ _ Hok).
    destruct (alloc_en_i i); [rewrite slot_S|]; f_equal; lia.
  - unfold r', next. rewrite Hflush. cbn [count]. rewrite commit_done, alloc_done, (ro_count _ _ _ Hok).
    unfold b', d', bump in *. rewrite trunc_id; destruct (commit_valid_o r), (alloc_en_i i); cbn [Z.b2z]; lia.
  - intros k Hk. destruct (decide (k = d)) as [->|Hne].
    + rewrite entry_allocated by (unfold d', bump in Hk; destruct (alloc_en_i i); [done|lia]).
      repeat split. apply (hw_seq.pl_branch _ (Hplain d)).
    + assert (Hkd : (b' <= k < d)%nat) by (unfold d', bump in Hk; destruct (alloc_en_i i); lia).
      rewrite entry_kept by done. pose proof (ro_entry _ _ _ Hok k ltac:(lia)). by destruct (hits _ _).
  - intros k Hk. unfold in_flight, is_done. destruct (decide (k = d)) as [->|Hne].
    + rewrite entry_allocated by (unfold d', bump in Hk; destruct (alloc_en_i i); [done|lia]). by left.
    + assert (Hkd : (b' <= k < d)%nat) by (unfold d', bump in Hk; destruct (alloc_en_i i); lia).
      rewrite entry_kept by done. destruct (hits _ _); [by right|]. apply (ro_value _ _ _ Hok). lia.
  - intros k Hk. rewrite entry_next by apply slot_range. pose proof (commit_first _ _ _ Hok) as Hc.
    pose proof (ro_window _ _ _ Hok). pose proof alloc_room as Hr.
    assert (Hbd : commit_valid_o r = true -> (b < d)%nat) by (intros H'; by apply Hc).
    assert (E2 : alloc_en_i i && (slot k =? slot d) = false).
    { unfold b', d', bump in *. destruct (alloc_en_i i); [|done]. specialize (Hr eq_refl).
      destruct (commit_valid_o r); [specialize (Hbd eq_refl)|];
        rewrite (slot_eqb d) by lia; apply Nat.eqb_neq; lia. }
    rewrite E2. unfold hits. clear E2.
    destruct (commit_valid_o r && (slot k =? slot b)) eqn:E1; [done|].
    assert (Hkb : (d <= k < b + 16)%nat).
    { unfold b', d', bump in *. destruct (commit_valid_o r); [|lia].
      destruct (decide (k = b + 16)%nat) as [->|]; [|lia].
      cbn in E1. apply Z.eqb_neq in E1. destruct E1. unfold slot. rewrite Nat2Z.inj_add.
      change (Z.of_nat 16) with (1 * ROB_SIZE). by rewrite Z_mod_plus_full. }
    destruct (cdb_valid (cdb_i i)) eqn:Hv; cbn [andb]; [|by apply (ro_idle _ _ _ Hok)].
    destruct (Hbus Hv) as (j & Hj & _ & -> & _). rewrite (slot_eqb b) by lia.
    rewrite (proj2 (Nat.eqb_neq k j)) by lia. by apply (ro_idle _ _ _ Hok).
Qed.

End Edge.
End Rob.

(** ** The renaming tables *)

Section Rat.
Import rat_table.

(** The last instruction in flight that writes a register. *)
Definition last_writer (fp : bool) (r : Z) (b d k : nat) : Prop :=
  (b <= k < d)%nat /\ hw_seq.writes (ins k) fp r = true /\
  forall j, (k < j < d)%nat -> hw_seq.writes (ins j) fp r = false.

Definition no_writer (fp : bool) (r : Z) (b d : nat) : Prop :=
  forall j, (b <= j < d)%nat -> hw_seq.writes (ins j) fp r = false.

Definition row_ok (fp : bool) (r : Z) (b d : nat) (valid : bool) (tag : Z) : Prop :=
  if valid then exists k, last_writer fp r b d k /\ tag = slot k else no_writer fp r b d.

Record table_ok (fp : bool) (b d : nat) (t : table) : Prop := {
  tb_valid : len (valid t) = 32;
  tb_tags : len (tags t) = 32;
  tb_row r : 0 <= r < 32 -> row_ok fp r b d (is_valid t r) (tag_of t r)
}.

Lemma table_0_ok fp : table_ok fp 0 0 table_0.
Proof.
  constructor; try done. intros r Hr. unfold is_valid, table_0, at_. cbn [valid]. rewrite nth_lookup.
  destruct (_ !! _) as [v|] eqn:E; [|intros j Hj; lia]. apply lookup_replicate in E as [-> _]. intros j Hj. lia.
Qed.

Lemma row_valid_tag fp r b d t : row_ok fp r b d true t -> exists k, (b <= k < d)%nat /\ t = slot k.
Proof. intros (k & (Hk & _) & ->). by exists k. Qed.

Lemma writes_dest i fp r :
  hw_seq.writes i fp r = true -> in_rd i = r /\ in_rd_valid i = true /\ in_rd_fp i = fp.
Proof.
  unfold hw_seq.writes. rewrite !andb_true_iff. intros [[[? H%eqb_prop] ?%Z.eqb_eq] _]. done.
Qed.

Section Edge.
Context (fp : bool) (b d : nat) (t : table) (commit alloc : bool) (p m : port) (me : bool).
Hypothesis Hok : table_ok fp b d t.
Hypothesis Hwin : (b <= d <= b + 16)%nat.
Hypothesis Hcommits : commit = true -> (b < d)%nat.
Hypothesis Hallocs : alloc = true -> (d < b + 16)%nat.
Hypothesis Hp : en p = commit && (in_rd_valid (ins b) && eqb (in_rd_fp (ins b)) fp).
Hypothesis Hpa : en p = true -> addr p = in_rd (ins b) /\ tag p = slot b.
Hypothesis Hm : me = alloc && hw_seq.writes (ins d) fp (in_rd (ins d)).
Hypothesis Hma : me = true -> addr m = in_rd (ins d) /\ tag m = slot d.

Let t1 := if en p && (is_valid t (addr p) && (tag_of t (addr p) =? tag p))
  then set_row t (addr p) false 0 else t.

(** Clearing the row of the instruction that commits, unless a younger one has
    taken it. *)
Lemma row_commit r : 0 <= r < 32 ->
  len (valid t1) = 32 /\ len (tags t1) = 32 /\
  row_ok fp r (bump b commit) d (is_valid t1 r) (tag_of t1 r) /\
  is_valid t1 r = is_valid t r && negb (en p && (addr p =? r) && (tag p =? tag_of t r)) /\
  (is_valid t1 r = true -> tag_of t1 r = tag_of t r).
Proof.
  intros Hr. destruct Hok as [Hv Ht Hrow]. pose proof (Hrow r Hr) as Hrr.
  assert (Hwb : en p = true -> 0 <= addr p < 32)
    by (intros He; destruct (Hpa He) as [-> _]; apply Hplain).
  assert (Hkeep : (row_ok fp r b d (is_valid t r) (tag_of t r) ->
      (is_valid t r = true -> commit = true -> tag_of t r <> slot b) ->
      row_ok fp r (bump b commit) d (is_valid t r) (tag_of t r))).
  { unfold row_ok. destruct (is_valid t r).
    - intros (k & (Hk & Hw & Hl) & E) Hne. exists k. split; [|done]. split; [|done].
      unfold bump. destruct commit; [|lia]. specialize (Hne eq_refl eq_refl). rewrite E in Hne.
      assert (k <> b) by (by intros ->). lia.
    - intros Hn _ j Hj. apply Hn. unfold bump in Hj. lia. }
  unfold t1. destruct (en p) eqn:He; cbn [andb].
  2:{ split; [done|]. split; [done|]. rewrite andb_true_r. split; [|done]. apply Hkeep; [done|].
      intros Hvr Hc E. rewrite Hvr in Hrr. destruct Hrr as (k & (Hk & Hw & _) & E').
      assert (k = b) as -> by (apply (slot_unique b); [lia|lia|congruence]).
      apply writes_dest in Hw as (_ & Hrv & Hrf). rewrite Hc, Hrv, Hrf in Hp. by destruct fp. }
  specialize (Hwb eq_refl). destruct (Hpa eq_refl) as [Ha Htg].
  assert (Hc : commit = true) by (by destruct commit).
  destruct (is_valid t (addr p)) eqn:Hva; cbn [andb].
  - pose proof (Hrow (addr p) Hwb) as Hra. rewrite Hva in Hra. destruct Hra as (k & (Hk & Hw & Hl) & Hek).
    destruct (Z.eqb_spec (tag_of t (addr p)) (tag p)) as [E|E].
    + assert (k = b) as -> by (apply (slot_unique b); [lia|lia|congruence]).
      unfold set_row, is_valid, tag_of. cbn [valid tags]. rewrite !length_put, !at_put by lia.
      split; [done|]. split; [done|]. rewrite (Z.eqb_sym (addr p)). destruct (Z.eqb_spec r (addr p)) as [->|Hne].
      * split; [|unfold is_valid, tag_of in Hva, E; by rewrite Hva, E, Z.eqb_refl].
        intros j Hj. apply Hl. unfold bump in Hj. rewrite Hc in Hj. lia.
      * cbn [andb negb]. rewrite andb_true_r. split; [|done]. apply Hkeep; [done|].
        intros Hvr _ E'. rewrite Hvr in Hrr. destruct Hrr as (k & (Hk' & Hw' & _) & Ek).
        assert (k = b) as -> by (apply (slot_unique b); [lia|lia|congruence]).
        apply Hne. by destruct (writes_dest _ _ _ Hw') as [<- _].
    + split; [done|]. split; [done|]. split.
      * apply Hkeep; [done|]. intros Hvr _ E'. rewrite Hvr in Hrr. destruct Hrr as (k' & (Hk' & Hw' & _) & Ek).
        assert (k' = b) as -> by (apply (slot_unique b); [lia|lia|congruence]).
        apply E. destruct (writes_dest _ _ _ Hw') as [Er _]. rewrite Ha, Er. congruence.
      * split; [|done]. destruct (Z.eqb_spec (addr p) r) as [<-|]; [|by rewrite andb_true_r].
        rewrite (Z.eqb_sym (tag p)), (proj2 (Z.eqb_neq _ _)) by done. by rewrite andb_true_r.
  - split; [done|]. split; [done|]. split; [|split; [|done]].
    + apply Hkeep; [done|]. intros Hvr _ E'. rewrite Hvr in Hrr. destruct Hrr as (k & (Hk & Hw & _) & Ek).
      assert (k = b) as -> by (apply (slot_unique b); [lia|lia|congruence]).
      destruct (writes_dest _ _ _ Hw) as [Er _]. congruence.
    + destruct (Z.eqb_spec (addr p) r) as [<-|]; [by rewrite Hva|by rewrite andb_true_r].
Qed.

Lemma table_edge : table_ok fp (bump b commit) (bump d alloc) (next_table t p m me).
Proof.
  unfold next_table. fold t1. destruct (row_commit 0 ltac:(lia)) as (Hv1 & Ht1 & _).
  assert (Hle : (bump b commit <= d)%nat) by (unfold bump; destruct commit; [specialize (Hcommits eq_refl)|]; lia).
  constructor.
  - destruct me; cbn; by rewrite ?length_put.
  - destruct me; cbn; by rewrite ?length_put.
  - intros r Hr. destruct (row_commit r Hr) as (_ & _ & Hrow & _).
    destruct me.
    + destruct (Hma eq_refl) as [Ha Htg]. pose proof (hw_seq.pl_rd _ (Hplain d)).
      destruct alloc; [|done]. cbn in Hm. unfold set_row, is_valid, tag_of. cbn [valid tags].
      rewrite !at_put by lia. destruct (Z.eqb_spec r (addr m)) as [->|Hne].
      * rewrite Htg. exists d. split; [|done]. rewrite Ha. repeat split; [lia|unfold bump; lia|done|].
        intros j Hj. unfold bump in Hj. lia.
      * revert Hrow. unfold is_valid, tag_of, row_ok, bump. destruct (at_ false (valid t1) r).
        -- intros (k & (Hk & Hw & Hl) & E). exists k. split; [|done]. repeat split; try lia; [done|].
           intros j Hj. destruct (decide (j = d)) as [->|]; [|apply Hl; lia].
           apply not_true_is_false. intros Hw'. apply writes_dest in Hw' as [? _]. congruence.
        -- intros Hn j Hj. destruct (decide (j = d)) as [->|]; [|apply Hn; unfold bump; lia].
           apply not_true_is_false. intros Hw'. apply writes_dest in Hw' as [? _]. congruence.
    + assert (Hd : alloc = true -> forall r', hw_seq.writes (ins d) fp r' = false).
      { intros Hal r'. apply not_true_is_false. intros Hw. destruct (writes_dest _ _ _ Hw) as [Er _].
        rewrite Hal, Er, Hw in Hm. done. }
      revert Hrow. unfold row_ok, bump. destruct (is_valid t1 r).
      * intros (k & (Hk & Hw & Hl) & E). exists k. split; [|done]. repeat split; try (destruct alloc; lia); [done|].
        intros j Hj. destruct (decide (j = d)) as [->|]; [apply Hd; destruct alloc; [done|lia]|].
        apply Hl. destruct alloc; lia.
      * intros Hn j Hj. destruct (decide (j = d)) as [->|]; [apply Hd; destruct alloc; [done|lia]|].
        apply Hn. destruct alloc; lia.
Qed.

(** What a lookup sees in a cycle: the table without what commits. *)
Lemma table_lookup r : 0 <= r < 32 ->
  row_ok fp r (bump b commit) d (lookup_valid_o t p r) (lookup_tag_o t r).
Proof.
  intros Hr. destruct (row_commit r Hr) as (_ & _ & Hrow & Hv & Ht). unfold lookup_valid_o, lookup_tag_o.
  rewrite <- Hv. destruct (is_valid t1 r); [|exact Hrow]. by rewrite Ht in Hrow.
Qed.

End Edge.
End Rat.


(** ** The registers *)

Section Regs.
Import regfile.

Record regs_ok (b : nat) (rf : state) : Prop := {
  rg_int : int_regs rf = hw_seq.xs (before b);
  rg_fp : fp_regs rf = hw_seq.fs (before b)
}.

Section Edge.
Context (b : nat) (rf : state) (commit : bool) (x f : port).
Hypothesis Hok : regs_ok b rf.
Hypothesis Hx : wr_en x = commit && (in_rd_valid (ins b) && negb (in_rd_fp (ins b))).
Hypothesis Hf : wr_en f = commit && (in_rd_valid (ins b) && in_rd_fp (ins b)).
Hypothesis Hxv : wr_en x = true -> wr_addr x = in_rd (ins b) /\ wr_val x = res b.
Hypothesis Hfv : wr_en f = true -> wr_addr f = in_rd (ins b) /\ wr_val f = res b.

Lemma regfile_edge : regs_ok (bump b commit) (next rf x f).
Proof.
  destruct Hok as [Hxs Hfs]. unfold next, bump. constructor; cbn [int_regs fp_regs]; rewrite ?Hxs, ?Hfs.
  - destruct commit; [|by rewrite Hx, Nat.add_0_r]. rewrite Nat.add_1_r. cbn. unfold hw_seq.write, hw_seq.writes.
    rewrite Z.eqb_refl, andb_true_r. fold (res b). destruct (wr_en x); cbn [andb] in *.
    + destruct (Hxv eq_refl) as [-> ->]. by destruct (in_rd_valid (ins b)), (in_rd_fp (ins b)).
    + by destruct (in_rd_valid (ins b)), (in_rd_fp (ins b)).
  - destruct commit; [|by rewrite Hf, Nat.add_0_r]. rewrite Nat.add_1_r. cbn. unfold hw_seq.write, hw_seq.writes.
    rewrite Z.eqb_refl, andb_true_r. fold (res b). destruct (wr_en f); cbn [andb] in *.
    + destruct (Hfv eq_refl) as [-> ->]. by destruct (in_rd_valid (ins b)), (in_rd_fp (ins b)).
    + by destruct (in_rd_valid (ins b)), (in_rd_fp (ins b)).
Qed.

(** A read sees the write of the same cycle. *)
Lemma regfile_read (fp : bool) r : 0 <= r < 32 ->
  (if fp then f_val_o rf f r else x_val_o rf x r) = hw_seq.read (before (bump b commit)) fp r.
Proof.
  intros Hr. pose proof regfile_edge as [Hx' Hf']. unfold hw_seq.read. rewrite <- Hx', <- Hf'.
  pose proof (before_sized b) as [Hlx Hlf _]. unfold NUM_INT_REGS, NUM_FP_REGS in *.
  pose proof (hw_seq.pl_rd _ (Hplain b)) as Hrd. destruct Hok as [Hxs Hfs].
  destruct fp; cbn [int_regs fp_regs next].
  - unfold f_val_o. destruct (wr_en f); cbn [andb]; [|done]. destruct (Hfv eq_refl) as [Ha _].
    rewrite at_put by (rewrite ?Hfs, ?Ha; lia). by rewrite (Z.eqb_sym r).
  - unfold x_val_o. destruct (wr_en x); cbn [andb]; [|done]. destruct (Hxv eq_refl) as [Ha _].
    destruct (wr_addr x =? 0); cbn [negb]; [by rewrite andb_false_r|].
    rewrite at_put by (rewrite ?Hxs, ?Ha; lia). by rewrite andb_true_r, (Z.eqb_sym r).
Qed.

End Edge.
End Regs.

(** ** Operands *)

(** An operand of instruction [k]: its value, or the tag of an instruction in
    flight that has it. *)
Definition waits (r : rob_unit.state) (b k : nat) (tag v : Z) : Prop :=
  exists j, (b <= j < k)%nat /\ in_flight r j /\ tag = slot j /\ res j = v.

Definition opnd_ok (r : rob_unit.state) (b k : nat) (ready : bool) (val tag v : Z) : Prop :=
  if ready then val = v else waits r b k tag v.

(** A station entry of instruction [k]. *)
Record entry_ok (r : rob_unit.state) (b k : nat) (e : rs_entry_t) : Prop := {
  en_op : rs_op e = in_op (ins k);
  en_tag : rs_rob_tag e = slot k;
  en_imm : rs_imm e = in_imm (ins k);
  en_pc : rs_pc e = in_pc (ins k);
  en_1 : opnd_ok r b k (rs1_ready e) (rs1_val e) (rs1_tag e) (hw_seq.op1 (before k) (ins k));
  en_2 : opnd_ok r b k (rs2_ready e) (rs2_val e) (rs2_tag e) (hw_seq.op2 (before k) (ins k))
}.

Section Operand.
Context (b d : nat) (r : rob_unit.state) (i : rob_unit.inputs).
Hypothesis He : edge_ok b d r i.
#[clearbody] Let Hok : rob_ok b d r := eg_rob _ _ _ _ He.

Let bus := rob_unit.cdb_i i.
Let b' := bump b (rob_unit.commit_valid_o r).
Let d' := bump d (rob_unit.alloc_en_i i).
Let r' := rob_unit.next r i.

(** Waiting for [j] survives the edge unless [j] is on the bus. *)
Lemma waits_next k tag v : (k <= d)%nat -> waits r b k tag v ->
  if cdb_valid bus && (tag =? cdb_tag bus) then cdb_value bus = v else waits r' b' k tag v.
Proof.
  intros Hk (j & Hj & Hf & -> & Hv). pose proof (window_next _ _ _ _ He) as Hw. fold b' d' in Hw.
  pose proof (ro_window _ _ _ Hok). destruct (cdb_valid bus && (slot j =? cdb_tag bus)) eqn:E.
  - apply andb_true_iff in E as [Hvb E%Z.eqb_eq]. destruct (eg_bus _ _ _ _ He Hvb) as (k' & Hk' & _ & Ht & Hv').
    unfold bus. rewrite Hv', <- Hv. assert (k' = j) as ->; [|reflexivity].
    apply (slot_unique b); [lia|lia|]. by rewrite E, <- Ht.
  - assert (Hjb : (b' <= j)%nat).
    { pose proof (commit_first _ _ _ Hok) as Hc. unfold b', bump. destruct (rob_unit.commit_valid_o r); [|lia].
      destruct (decide (j = b)) as [->|]; [|lia]. unfold in_flight in Hf. destruct (proj1 Hc eq_refl) as [_ Hd].
      unfold is_done in Hd. rewrite Hd in Hf. discriminate Hf. }
    exists j. split; [lia|]. split; [|done]. apply (in_flight_next b d r i He); [unfold d', bump in *; lia|].
    right. split; [done|]. unfold hits. fold bus. by rewrite Z.eqb_sym.
Qed.

Lemma capture_opnd k ready val tag v :
  (k <= d)%nat -> opnd_ok r b k ready val tag v ->
  let hit := cdb_valid bus && negb ready && (tag =? cdb_tag bus) in
  opnd_ok r' b' k (if hit then true else ready) (if hit then cdb_value bus else val) tag v.
Proof.
  intros Hk Ho. cbn zeta. destruct ready; cbn [negb]; [by rewrite andb_false_r|].
  rewrite andb_true_r. pose proof (waits_next k tag v Hk Ho) as H. by destruct (_ && _).
Qed.

(** An entry listens to the bus. *)
Lemma entry_listens k e : (k < d)%nat ->
  entry_ok r b k e -> entry_ok r' b' k (reservation_station.capture bus true e).
Proof.
  intros Hk [H1 H2 H3 H4 H5 H6]. constructor; try done; (apply capture_opnd; [lia|done]).
Qed.

(** What dispatch reads for a register of the next instruction. *)
Lemma operand_edge fp rs (valid : bool) tag regval :
  0 <= rs < 32 ->
  row_ok fp rs b' d valid tag -> regval = hw_seq.read (before b') fp rs ->
  let o := dispatch.operand valid tag regval (rob_unit.lookup_done_o r tag) (rob_unit.lookup_val_o r tag) bus in
  opnd_ok r' b' d (fst o) (snd o) tag (hw_seq.read (before d) fp rs).
Proof.
  intros Hrs Hrow ->. pose proof (window_next _ _ _ _ He) as Hw. fold b' d' in Hw.
  pose proof (ro_window _ _ _ Hok). unfold dispatch.operand, row_ok in *. destruct valid; cbn [negb].
  2:{ cbn. symmetry. apply read_settled; [lia|lia|done]. }
  destruct Hrow as (k & (Hk & Hwr & Hlast) & ->). pose proof (read_writer fp rs k d ltac:(lia) ltac:(lia) Hwr Hlast) as Hread.
  unfold rob_unit.lookup_done_o, rob_unit.lookup_val_o.
  destruct (ro_value _ _ _ Hok k ltac:(lia)) as [Hf|[Hd Hres]].
  - unfold in_flight in Hf. rewrite Hf. rewrite bool_decide_false by done.
    pose proof (waits_next d (slot k) (res k) (le_n d)) as Hwait.
    assert (Hwk : waits r b d (slot k) (res k)) by (exists k; split; [lia|done]).
    specialize (Hwait Hwk). rewrite (Z.eqb_sym (cdb_tag bus)), Hread. by destruct (_ && _).
  - unfold is_done in Hd. rewrite Hd. rewrite bool_decide_true by done. cbn. by rewrite Hres, Hread.
Qed.

End Operand.

End Straight.
