(* ===== verification/HwAccess.v ===== *)
(** * The load/store buffer of the core is a list

    Accesses in the order of dispatch, each with whether its store has been
    announced; loads leave from the front to wait for the bus, stores when they
    commit. [accesses_next] is the clock edge on that list, [access_flow] what
    happens to the tags. Section [Accesses] is the buffer beside the sequential
    machine: the memory a load reads is the memory it should see. *)

From Stdlib Require Import Sorting.Sorted.
From S2P Require Import Prelude Words Ring HwPkg HwTables HwStation HwControl HwCore.
From S2P Require Import HwSequential HwFlow HwInvariant.

Import load_store_buffer.

(** ** The list *)

Abbreviation access := (rs_entry_t * bool)%type.

Definition slots_of (s : state) : list access := zip (entries s) (store_notified s).

Definition accesses (s : state) : list access := ring_view (head s) (count s) (slots_of s).

Definition slot_at (s : state) (k : Z) : Z := (head s + k) mod LSB_SIZE.

Record lsb_ok (s : state) : Prop := {
  lk_ring : ring_ok LSB_SIZE (head s) (tail s) (count s) (slots_of s);
  lk_entries : len (entries s) = LSB_SIZE;
  lk_notified : len (store_notified s) = LSB_SIZE;
  lk_valid_len : len (valid s) = LSB_SIZE;
  lk_valid : forall k, 0 <= k < LSB_SIZE -> at_ false (valid s) (slot_at s k) = (k <? count s)
}.

Lemma reset_lsb_ok : lsb_ok reset /\ accesses reset = [].
Proof.
  split; [|done]. constructor; try done.
  intros k Hk. unfold slot_at, at_. cbn. rewrite nth_lookup.
  assert (k <? 0 = false) as -> by lia. destruct (_ !! _) as [b|] eqn:E; [|done].
  by apply (lookup_replicate 8) in E as [-> _].
Qed.

(** ** Reading it *)

Section Read.
Context (s : state).
Hypothesis Hok : lsb_ok s.

Lemma lookup_at {A} (d : A) l i x : l !! Z.to_nat i = Some x -> at_ d l i = x.
Proof. unfold at_. rewrite nth_lookup. by intros ->. Qed.

Lemma access_slot_range k : 0 <= slot_at s k < LSB_SIZE.
Proof. apply Z.mod_pos_bound. unfold LSB_SIZE. lia. Qed.

Lemma slots_lookup i : 0 <= i < LSB_SIZE ->
  slots_of s !! Z.to_nat i = Some (at_ rs_entry_0 (entries s) i, at_ false (store_notified s) i).
Proof.
  intros Hi. destruct Hok as [_ He Hn _ _]. unfold slots_of, at_. rewrite lookup_zip_with, !nth_lookup.
  destruct (lookup_lt_is_Some_2 (entries s) (Z.to_nat i)) as [e ->]; [lia|].
  destruct (lookup_lt_is_Some_2 (store_notified s) (Z.to_nat i)) as [n ->]; [lia|]. done.
Qed.

Lemma accesses_length : len (accesses s) = count s.
Proof. eapply ring_view_length, Hok. Qed.

Lemma accesses_lookup k :
  accesses s !! k =
    if decide (Z.of_nat k < count s)
    then Some (at_ rs_entry_0 (entries s) (slot_at s (Z.of_nat k)),
               at_ false (store_notified s) (slot_at s (Z.of_nat k)))
    else None.
Proof.
  unfold accesses. rewrite (ring_view_lookup _ _ _ _ _ _ (lk_ring _ Hok)).
  destruct (decide _); [|done]. apply slots_lookup, access_slot_range.
Qed.

Lemma head_slot : slot_at s 0 = head s.
Proof. unfold slot_at. rewrite Z.add_0_r. apply Z.mod_small, (ring_head _ _ _ _ _ (lk_ring _ Hok)). Qed.

(** The head is the first access. *)
Lemma head_access :
  match accesses s with
  | [] => head_valid s = false
  | (e, _) :: _ => head_valid s = true /\ head_entry s = e
  end.
Proof.
  pose proof (lk_valid _ Hok 0 ltac:(unfold LSB_SIZE; lia)) as Hv. rewrite head_slot in Hv.
  unfold head_valid. rewrite Hv. pose proof (accesses_lookup 0) as Hl.
  change (Z.of_nat 0) with 0 in Hl. rewrite head_slot in Hl.
  pose proof accesses_length as Hlen. destruct (accesses s) as [|[e n] l]; cbn [length lookup list_lookup] in Hlen, Hl.
  - lia.
  - rewrite decide_True in Hl by lia. injection Hl as He _. split; [lia|]. unfold head_entry. by rewrite He.
Qed.

Lemma full_count : full s = (len (accesses s) =? LSB_SIZE).
Proof. unfold full. by rewrite accesses_length. Qed.

(** *** The store announced next *)

Definition announces (a : access) : bool :=
  is_store_op (rs_op (fst a)) && rs1_ready (fst a) && rs2_ready (fst a) && negb (snd a).

Lemma store_ready_lookup i : 0 <= i < LSB_SIZE ->
  store_ready_vec s !! Z.to_nat i =
    Some (store_ready (at_ rs_entry_0 (entries s) i) (at_ false (valid s) i) (at_ false (store_notified s) i)).
Proof.
  intros Hi. destruct Hok as [_ He Hn Hv _]. unfold store_ready_vec, at_.
  rewrite !lookup_zip_with, !nth_lookup.
  destruct (lookup_lt_is_Some_2 (entries s) (Z.to_nat i)) as [e ->]; [lia|].
  destruct (lookup_lt_is_Some_2 (store_notified s) (Z.to_nat i)) as [n ->]; [lia|].
  destruct (lookup_lt_is_Some_2 (valid s) (Z.to_nat i)) as [v ->]; [lia|]. done.
Qed.

(** Every slot is at some position. *)
Lemma slot_position i : 0 <= i < LSB_SIZE -> exists k, 0 <= k < LSB_SIZE /\ slot_at s k = i.
Proof.
  intros Hi. exists ((i - head s) mod LSB_SIZE). split; [apply Z.mod_pos_bound; unfold LSB_SIZE; lia|].
  unfold slot_at. rewrite Zplus_mod_idemp_r. replace (head s + (i - head s)) with i by lia.
  by apply Z.mod_small.
Qed.

Lemma announced :
  any_store_ready s = true ->
  exists k e, store_notify_idx s = slot_at s (Z.of_nat k) /\ Z.of_nat k < count s /\
    accesses s !! k = Some (e, false) /\ at_ rs_entry_0 (entries s) (store_notify_idx s) = e /\
    announces (e, false) = true.
Proof.
  intros H. destruct (chain_first _ _ 0 H) as (j & x & Hc & Hj & Hx). cbn in Hx. subst x.
  unfold store_notify_idx. rewrite Hc, Z.add_0_l. destruct Hok as [_ He Hn Hv Hval].
  assert (Hlt : Z.of_nat j < LSB_SIZE).
  { apply lookup_lt_Some in Hj. unfold store_ready_vec in Hj. rewrite !length_zip_with in Hj. lia. }
  pose proof (store_ready_lookup (Z.of_nat j) ltac:(lia)) as Hl. rewrite Nat2Z.id, Hj in Hl.
  injection Hl as Hl. symmetry in Hl. unfold store_ready in Hl. rewrite !andb_true_iff, negb_true_iff in Hl.
  destruct Hl as [[[[Hvj Hst] H1] H2] Hnot].
  destruct (slot_position (Z.of_nat j) ltac:(lia)) as (k & Hk & Hkj).
  rewrite <- Hkj, Hval in Hvj by done. exists (Z.to_nat k), (at_ rs_entry_0 (entries s) (Z.of_nat j)).
  rewrite Z2Nat.id, Hkj by lia. split; [done|]. split; [lia|].
  rewrite accesses_lookup, decide_True by lia. rewrite Z2Nat.id, Hkj, Hnot by lia.
  split; [done|]. split; [done|]. unfold announces. cbn. by rewrite Hst, H1, H2.
Qed.

Lemma announces_ready k a :
  accesses s !! k = Some a -> announces a = true -> any_store_ready s = true.
Proof.
  rewrite accesses_lookup. destruct (decide _) as [Hk|]; [|done]. intros [= <-] Ha. unfold announces in Ha. cbn in Ha.
  rewrite !andb_true_iff in Ha. destruct Ha as [[[H1 H2] H3] H4].
  apply existsb_exists. exists true. split; [|done].
  apply list_elem_of_In, list_elem_of_lookup. exists (Z.to_nat (slot_at s (Z.of_nat k))).
  rewrite store_ready_lookup by apply access_slot_range. unfold store_ready.
  pose proof (ring_count _ _ _ _ _ (lk_ring _ Hok)). rewrite (lk_valid _ Hok) by lia.
  rewrite H1, H2, H3, H4. assert (Z.of_nat k <? count s = true) as -> by lia. done.
Qed.

End Read.

(** ** A clock edge *)

Definition listen (bus : cdb_t) (a : access) : access :=
  (reservation_station.capture bus true (fst a), snd a).

Definition announces_now (s : state) (g : bool) : bool := negb (load_pending s) && any_store_ready s && g.

Definition notify_pos (s : state) : nat := Z.to_nat ((store_notify_idx s - head s) mod LSB_SIZE).

Definition announce (s : state) (g : bool) (l : list access) : list access :=
  if announces_now s g then alter (fun a => (fst a, true)) (notify_pos s) l else l.

Section Edge.
Context (s : state) (push : bool) (d : rs_entry_t) (bus : cdb_t) (sc : bool) (st : Z) (g : bool).
Hypothesis Hok : lsb_ok s.
Hypothesis Hroom : push = true -> full s = false.

Let s' := next s false push d bus sc st g.
Let pop := do_pop s sc st.

(** The slots after listening and announcing, before anything moves. *)
Let notified0 :=
  if announces_now s g then put (store_notified s) (store_notify_idx s) true else store_notified s.
Let slots0 : list access := zip (zip_with (reservation_station.capture bus) (valid s) (entries s)) notified0.

Lemma slots0_ring : ring_ok LSB_SIZE (head s) (tail s) (count s) slots0.
Proof.
  destruct (lk_ring _ Hok) as [Hs Hl Hh Hc Ht]. constructor; try done.
  destruct Hok as [_ He Hn Hv _]. unfold slots0, notified0. rewrite !length_zip_with.
  destruct (announces_now s g); rewrite ?length_put; lia.
Qed.

Lemma notify_pos_slot k : 0 <= k < LSB_SIZE -> store_notify_idx s = slot_at s k -> notify_pos s = Z.to_nat k.
Proof.
  intros Hk E. unfold notify_pos, slot_at in *. rewrite E. rewrite Zminus_mod_idemp_l.
  replace (head s + k - head s) with k by lia. by rewrite Z.mod_small.
Qed.

Lemma slots0_lookup k : 0 <= k < count s ->
  slots0 !! Z.to_nat (slot_at s k) =
    listen bus <$> announce s g (accesses s) !! Z.to_nat k.
Proof.
  intros Hk. pose proof (ring_count _ _ _ _ _ (lk_ring _ Hok)) as Hc.
  pose proof (access_slot_range s k) as Hr. pose proof Hok as [_ He Hn Hv Hval].
  unfold slots0. rewrite lookup_zip_with, lookup_zip_with.
  assert (Hvk : valid s !! Z.to_nat (slot_at s k) = Some true).
  { destruct (lookup_lt_is_Some_2 (valid s) (Z.to_nat (slot_at s k))) as [v Hlv]; [lia|].
    pose proof (Hval k ltac:(lia)) as Hx. rewrite (lookup_at _ _ _ _ Hlv) in Hx. rewrite Hlv, Hx. f_equal. lia. }
  rewrite Hvk. destruct (lookup_lt_is_Some_2 (entries s) (Z.to_nat (slot_at s k))) as [e Hle]; [lia|].
  destruct (lookup_lt_is_Some_2 (store_notified s) (Z.to_nat (slot_at s k))) as [n Hln]; [lia|].
  rewrite Hle. cbn [mbind option_bind].
  assert (Ha : accesses s !! Z.to_nat k = Some (e, n)).
  { rewrite (accesses_lookup _ Hok), Z2Nat.id, decide_True by lia.
    by rewrite (lookup_at _ _ _ _ Hle), (lookup_at _ _ _ _ Hln). }
  unfold announce, notified0. destruct (announces_now s g) eqn:Han; [|by rewrite Hln, Ha].
  unfold announces_now in Han. rewrite !andb_true_iff in Han. destruct Han as [[_ Hany] _].
  destruct (announced s Hok Hany) as (j & e' & Hj & Hjc & _). unfold put. rewrite Hj.
  rewrite (notify_pos_slot (Z.of_nat j)), Nat2Z.id by (done || lia).
  destruct (decide (k = Z.of_nat j)) as [->|Hne].
  - rewrite list_lookup_insert_eq by lia. rewrite Nat2Z.id in *. by rewrite list_lookup_alter_eq, Ha.
  - rewrite list_lookup_insert_ne; [rewrite list_lookup_alter_ne by lia; by rewrite Hln, Ha|].
    pose proof (ring_index_ne LSB_SIZE (head s) (Z.of_nat j) k) as Hx.
    pose proof (access_slot_range s (Z.of_nat j)). pose proof (ring_head _ _ _ _ _ (lk_ring _ Hok)).
    unfold slot_at, LSB_SIZE in *. lia.
Qed.

Lemma slots0_view : ring_view (head s) (count s) slots0 = map (listen bus) (announce s g (accesses s)).
Proof.
  apply list_eq. intros k. rewrite (ring_view_lookup _ _ _ _ _ _ slots0_ring).
  rewrite list_lookup_fmap. destruct (decide _) as [Hk|Hk].
  - pose proof (slots0_lookup (Z.of_nat k) ltac:(lia)) as H. rewrite Nat2Z.id in H. exact H.
  - pose proof (accesses_length s Hok). symmetry. apply fmap_None, lookup_ge_None. unfold announce.
    destruct (announces_now s g); rewrite ?length_alter; lia.
Qed.

(** A popped access is there. *)
Lemma ring_pop_head : pop = true -> 0 < count s.
Proof.
  intros H. pose proof (lk_valid _ Hok 0 ltac:(unfold LSB_SIZE; lia)) as Hv. rewrite (head_slot _ Hok) in Hv.
  assert (head_valid s = true) as Hh.
  { unfold pop, do_pop, issue_load, commit_store in H. by destruct (head_valid s). }
  unfold head_valid in Hh. rewrite Hv in Hh. by apply Z.ltb_lt in Hh.
Qed.

(** The three groups of writes, on the slots. *)
Let entry0 := at_ rs_entry_0 (zip_with (reservation_station.capture bus) (valid s) (entries s)) (head s).
Let slots1 := if pop then put slots0 (head s) (entry0, false) else slots0.
Let slots2 := if push then put slots1 (tail s) (d, false) else slots1.

Lemma zip_put {A B} (l : list A) (k : list B) i x y :
  zip (put l i x) (put k i y) = put (zip l k) i (x, y).
Proof. unfold put. symmetry. apply insert_zip_with. Qed.

Lemma put_id {A} (dflt : A) l i : 0 <= i -> put l i (at_ dflt l i) = l.
Proof.
  intros Hi. unfold put, at_. rewrite nth_lookup. destruct (l !! Z.to_nat i) as [x|] eqn:E.
  - by apply list_insert_id.
  - apply list_insert_ge. by apply lookup_ge_None.
Qed.

Lemma next_slots : slots_of s' = slots2.
Proof.
  pose proof (ring_head _ _ _ _ _ (lk_ring _ Hok)) as Hh.
  unfold slots_of, s', slots2, slots1, next. cbn [entries store_notified]. fold pop notified0.
  assert (Hp : push && negb (full s) = push) by (destruct push; [rewrite Hroom by done|]; done).
  rewrite Hp. fold (announces_now s g). fold notified0.
  destruct push; [rewrite zip_put|]; f_equal; destruct pop; try done;
    rewrite <- (put_id rs_entry_0 (zip_with _ _ _) (head s)) at 1 by lia; by rewrite zip_put.
Qed.

Let head1 := if pop then trunc 3 (head s + 1) else head s.
Let count1 := count s - Z.b2z pop.

Lemma popped_slots :
  ring_ok LSB_SIZE head1 (tail s) count1 slots1 /\
  ring_view head1 count1 slots1 =
    if pop then List.tl (map (listen bus) (announce s g (accesses s)))
    else map (listen bus) (announce s g (accesses s)).
Proof.
  rewrite <- slots0_view. unfold head1, count1, slots1. pose proof slots0_ring as Hr. pose proof ring_pop_head as Hp.
  destruct pop; cbn [Z.b2z]; [|by rewrite Z.sub_0_r].
  destruct (ring_pop _ _ _ _ _ (entry0, false) Hr (Hp eq_refl)) as (Hr' & x & _ & Hv).
  split; [exact Hr'|]. by rewrite Hv.
Qed.

Lemma room : push = true -> count s < LSB_SIZE.
Proof.
  intros Hp. specialize (Hroom Hp). unfold full in Hroom.
  pose proof (ring_count _ _ _ _ _ (lk_ring _ Hok)). lia.
Qed.

Lemma pushed_slots :
  let tail2 := if push then trunc 3 (tail s + 1) else tail s in
  let count2 := count1 + Z.b2z push in
  ring_ok LSB_SIZE head1 tail2 count2 slots2 /\
  ring_view head1 count2 slots2 = ring_view head1 count1 slots1 ++ when push (d, false).
Proof.
  cbn zeta. destruct popped_slots as [Hr _]. unfold slots2. pose proof room as Hm.
  destruct push; cbn [Z.b2z when]; [|by rewrite Z.add_0_r, app_nil_r].
  apply (ring_push _ _ _ _ _ (d, false) Hr). unfold count1. specialize (Hm eq_refl). destruct pop; cbn; lia.
Qed.

Lemma next_count : count s' = count1 + Z.b2z push.
Proof.
  destruct pushed_slots as [Hr _]. pose proof (ring_count _ _ _ _ _ Hr) as Hc. unfold s', next. cbn [count].
  fold pop. replace (push && negb (full s)) with push by (destruct push; [by rewrite Hroom|done]).
  unfold LSB_SIZE, count1 in *. rewrite trunc_id by lia. lia.
Qed.

Lemma next_tail : tail s' = if push then trunc 3 (tail s + 1) else tail s.
Proof.
  unfold s', next. cbn [tail]. replace (push && negb (full s)) with push by (destruct push; [by rewrite Hroom|done]).
  done.
Qed.

(** The list of accesses after a clock edge. *)
Lemma accesses_next :
  accesses s' =
    (if pop then List.tl (map (listen bus) (announce s g (accesses s)))
     else map (listen bus) (announce s g (accesses s))) ++ when push (d, false).
Proof.
  unfold accesses at 1. change (head s') with head1. rewrite next_count, next_slots.
  destruct pushed_slots as [_ ->]. by destruct popped_slots as [_ ->].
Qed.

(** Valid bits after a pop and after a push. *)
Lemma popped_valid k : 0 <= k < LSB_SIZE ->
  at_ false (if pop then put (valid s) (head s) false else valid s) ((head1 + k) mod LSB_SIZE) = (k <? count1).
Proof.
  intros Hk. pose proof Hok as [Hr _ _ Hl Hv]. pose proof (ring_head _ _ _ _ _ Hr). pose proof (ring_count _ _ _ _ _ Hr).
  unfold head1, count1. destruct pop; cbn [Z.b2z]; [|rewrite Z.sub_0_r; by apply Hv].
  pose proof (ring_index_range LSB_SIZE (trunc 3 (head s + 1)) k ltac:(unfold LSB_SIZE; lia)) as Hrange.
  rewrite at_put by lia. unfold trunc. change (2 ^ 3) with LSB_SIZE. rewrite Zplus_mod_idemp_l.
  replace (head s + 1 + k) with (head s + (k + 1)) by lia.
  destruct (Z.eq_dec k (LSB_SIZE - 1)) as [->|Hne].
  - replace ((head s + (LSB_SIZE - 1 + 1)) mod LSB_SIZE) with (head s)
      by (apply (Zmod_unique _ _ 1); unfold LSB_SIZE in *; lia).
    rewrite Z.eqb_refl. symmetry. apply Z.ltb_ge. lia.
  - pose proof (Hv (k + 1) ltac:(lia)) as Hvk. unfold slot_at in Hvk. rewrite Hvk.
    pose proof (ring_index_ne LSB_SIZE (head s) 0 (k + 1)) as Hi. rewrite Z.add_0_r, (Z.mod_small (head s)) in Hi by lia.
    rewrite (proj2 (Z.eqb_neq _ _)) by lia. apply Bool.eq_iff_eq_true. rewrite !Z.ltb_lt. lia.
Qed.

Lemma next_lsb_ok : lsb_ok s'.
Proof.
  destruct pushed_slots as [Hr _]. pose proof Hok as [_ He Hn Hl Hv].
  assert (Hpush : push && negb (full s) = push) by (destruct push; [by rewrite Hroom|done]).
  constructor.
  - change (head s') with head1. by rewrite next_count, next_tail, next_slots.
  - unfold s', next. cbn [entries]. rewrite Hpush. destruct push; rewrite ?length_put, length_zip_with; lia.
  - unfold s', next. cbn [store_notified]. rewrite Hpush. split_ifs; rewrite ?length_put; lia.
  - unfold s', next. cbn [valid]. rewrite Hpush. split_ifs; rewrite ?length_put; lia.
  - intros k Hk. unfold slot_at. change (head s') with head1. rewrite next_count.
    unfold s', next. cbn [valid]. rewrite Hpush. fold pop.
    destruct popped_slots as [Hr1 _]. pose proof (ring_head _ _ _ _ _ Hr1). pose proof (ring_count _ _ _ _ _ Hr1).
    pose proof (ring_index_range LSB_SIZE head1 k ltac:(unfold LSB_SIZE; lia)).
    pose proof room as Hm. destruct push; cbn [Z.b2z]; [|rewrite Z.add_0_r; by apply popped_valid].
    specialize (Hm eq_refl). assert (count1 < LSB_SIZE) by (unfold count1; destruct pop; cbn; lia).
    rewrite at_put; [|rewrite (ring_tail _ _ _ _ _ Hr1)|lia].
    + rewrite popped_valid, (ring_tail _ _ _ _ _ Hr1) by done.
      destruct (Z.eq_dec k count1) as [->|Hne]; [rewrite Z.eqb_refl; symmetry; apply Z.ltb_lt; lia|].
      pose proof (ring_index_ne LSB_SIZE head1 k count1).
      rewrite (proj2 (Z.eqb_neq _ _)) by lia. apply Bool.eq_iff_eq_true. rewrite !Z.ltb_lt. lia.
    + pose proof (ring_index_range LSB_SIZE head1 count1 ltac:(unfold LSB_SIZE; lia)).
      destruct pop; rewrite ?length_put; lia.
Qed.

End Edge.

(** ** Tags *)

Definition unfinished (a : access) : bool := negb (snd a).

Definition open_accesses (l : list access) : list access := List.filter unfinished l.

Definition access_tags (l : list access) : list Z := map (fun a => rs_rob_tag (fst a)) (open_accesses l).

(** The tags that wait for this buffer: of the load on its way, and of the
    accesses that have not been announced. *)
Definition lsb_tags (s : state) : list Z :=
  when (load_pending s) (load_pending_tag s) ++ access_tags (accesses s).

Definition lsb_work (s : state) : nat :=
  ((if load_pending s then 1 else 0) + 2 * length (access_tags (accesses s)))%nat.

Definition head_load_ready (l : list access) : bool :=
  match l with (e, _) :: _ => is_load_op (rs_op e) && is_ready e | [] => false end.

(** Only stores are announced, with both operands. *)
Definition announced_ok (l : list access) : Prop :=
  forall a, a ∈ l -> snd a = true -> is_store_op (rs_op (fst a)) = true /\ is_ready (fst a) = true.

Lemma access_tags_listen bus l : access_tags (map (listen bus) l) = access_tags l.
Proof. unfold access_tags, open_accesses. induction l as [|[e []] l IH]; cbn in *; [done|exact IH|by f_equal]. Qed.

Lemma access_tags_alter l k e :
  l !! k = Some (e, false) ->
  access_tags l ≡ₚ rs_rob_tag e :: access_tags (alter (fun a => (fst a, true)) k l).
Proof.
  unfold access_tags, open_accesses. revert k. induction l as [|[e' n] l IH]; intros [|k] H; try done.
  - by injection H as -> ->.
  - cbn in H |- *. destruct n; cbn; rewrite (IH k H); [done|apply Permutation_swap].
Qed.

Lemma issue_load_list s : lsb_ok s -> issue_load s = negb (load_pending s) && head_load_ready (accesses s).
Proof.
  intros Hok. pose proof (head_access s Hok) as H. unfold issue_load, head_is_load, head_ready, head_load_ready.
  destruct (accesses s) as [|[e n] l]; [by rewrite H, andb_false_r|].
  destruct H as [-> ->]. unfold is_ready. cbn. by rewrite !andb_assoc.
Qed.

Section Flow.
Context (s : state) (push : bool) (d : rs_entry_t) (bus : cdb_t) (sc : bool) (st : Z) (g : bool).
Hypothesis Hok : lsb_ok s.
Hypothesis Hroom : push = true -> full s = false.
Hypothesis Hann : announced_ok (accesses s).
(** The bus takes what is there, and a store commits after its announcement. *)
Hypothesis Hgrant : g = true -> load_pending s || any_store_ready s = true.
Hypothesis Hcommit : commit_store s sc st = true -> exists e l, accesses s = (e, true) :: l.

Let s' := next s false push d bus sc st g.
Let out_tag := cdb_tag (cdb_o s 0).
Let after := announce s g (accesses s).

Lemma announce_flow :
  load_pending s = false ->
  when g out_tag ++ access_tags after ≡ₚ access_tags (accesses s).
Proof.
  intros Hp. assert (Hany : g = true -> any_store_ready s = true)
    by (intros Hg; specialize (Hgrant Hg); by rewrite Hp in Hgrant).
  unfold after, announce, announces_now, out_tag, cdb_o. rewrite Hp. cbn.
  destruct g; [|by rewrite andb_false_r]. rewrite (Hany eq_refl).
  destruct (announced s Hok (Hany eq_refl)) as (k & e & Hk & Hc & Ha & He & _). cbn. rewrite He.
  pose proof (ring_count _ _ _ _ _ (lk_ring _ Hok)).
  rewrite (notify_pos_slot s (Z.of_nat k)), Nat2Z.id by (done || lia). symmetry. by apply access_tags_alter.
Qed.

(** Announcing does not change the first access when that is a load, nor one
    announced before. *)
Lemma announce_head e n l :
  accesses s = (e, n) :: l -> n = true \/ is_load_op (rs_op e) = true ->
  exists l', after = (e, n) :: l'.
Proof.
  intros Hl Hn. unfold after, announce. destruct (announces_now s g) eqn:Ha; [|by exists l].
  unfold announces_now in Ha. rewrite !andb_true_iff in Ha. destruct Ha as [[_ Hany] _].
  destruct (announced s Hok Hany) as (k & e' & Hk & Hc & Hlk & _ & Hst).
  pose proof (ring_count _ _ _ _ _ (lk_ring _ Hok)).
  rewrite (notify_pos_slot s (Z.of_nat k)), Nat2Z.id by (done || lia). rewrite Hl in *.
  destruct k as [|k]; [|by eexists]. injection Hlk as -> ->. destruct Hn as [?|Hn]; [done|].
  unfold announces in Hst. cbn in Hst. by destruct (rs_op e').
Qed.

Lemma next_tags :
  access_tags (accesses s') =
    access_tags (if do_pop s sc st then List.tl after else after) ++ when push (rs_rob_tag d).
Proof.
  unfold s'. rewrite accesses_next by done. fold after.
  rewrite <- (access_tags_listen bus (if do_pop s sc st then List.tl after else after)).
  assert (Hm : (if do_pop s sc st then List.tl (map (listen bus) after) else map (listen bus) after) =
    map (listen bus) (if do_pop s sc st then List.tl after else after))
    by (destruct (do_pop s sc st); by destruct after).
  rewrite Hm. unfold access_tags, open_accesses. rewrite List.filter_app, map_app. f_equal. by destruct push.
Qed.

(** What a pop does to the tags: an issued load moves on, a store was done. *)
Lemma pop_tags :
  access_tags after ≡ₚ
    when (issue_load s) (rs_rob_tag (head_entry s)) ++
    access_tags (if do_pop s sc st then List.tl after else after).
Proof.
  pose proof announce_head as Hah. unfold do_pop. destruct (issue_load s) eqn:Hi; cbn [orb when].
  - rewrite issue_load_list in Hi by done. apply andb_true_iff in Hi as [_ Hi].
    clearbody after. pose proof (head_access s Hok) as Hh. unfold head_load_ready in Hi.
    destruct (accesses s) as [|[e n] l] eqn:Hl; [done|]. destruct Hh as [_ ->].
    apply andb_true_iff in Hi as [Hld _].
    destruct (Hah e n l eq_refl (or_intror Hld)) as [l' ->].
    destruct n; [|done]. destruct (Hann (e, true)) as [Hs _]; [by left|done|].
    cbn in Hs. by destruct (rs_op e).
  - destruct (commit_store s sc st); [|done]. destruct (Hcommit eq_refl) as (e & l & Hl).
    by destruct (Hah e true l Hl (or_introl eq_refl)) as [l' ->].
Qed.

Lemma pending_next :
  load_pending s' = if issue_load s then true else load_pending s && negb g.
Proof. done. Qed.

Lemma access_flow : when g out_tag ++ lsb_tags s' ≡ₚ when push (rs_rob_tag d) ++ lsb_tags s.
Proof.
  unfold lsb_tags. rewrite next_tags. pose proof pop_tags as Hp. pose proof announce_flow as Hf.
  unfold s'. cbn [next load_pending load_pending_tag].
  set (rest := access_tags (if do_pop s sc st then _ else _)) in *.
  destruct (load_pending s) eqn:Hlp.
  - assert (Hi : issue_load s = false) by (rewrite issue_load_list by done; by rewrite Hlp).
    rewrite Hi in *. cbn [when app andb] in *. rewrite <- Hp.
    assert (Ha : after = accesses s) by (unfold after, announce, announces_now; by rewrite Hlp).
    rewrite Ha. unfold out_tag, cdb_o. rewrite Hlp. cbn [cdb_tag]. destruct g, push; cbn; solve_Permutation.
  - rewrite <- (Hf eq_refl), Hp. cbn [andb when app].
    destruct (issue_load s); cbn [when]; solve_Permutation.
Qed.

Lemma access_work :
  (lsb_work s' +
     (if g || (negb (load_pending s || any_store_ready s) && head_load_ready (accesses s)) then 1 else 0) <=
   lsb_work s + (if push then 2 else 0))%nat.
Proof.
  unfold lsb_work. rewrite next_tags, pending_next. pose proof (Permutation_length pop_tags) as Hp.
  pose proof announce_flow as Hf. rewrite !length_app, !length_when in *.
  pose proof (issue_load_list s Hok) as Hi. 
  set (rest := length (access_tags (if do_pop s sc st then _ else _))) in *. clearbody rest.
  destruct (load_pending s) eqn:Hlp; cbn [negb andb orb] in *.
  - rewrite Hi in *. assert (Ha : after = accesses s) by (unfold after, announce, announces_now; by rewrite Hlp).
    rewrite Ha in Hp. destruct g, push; cbn in *; lia.
  - specialize (Hf eq_refl). apply Permutation_length in Hf. rewrite length_app, length_when in Hf. rewrite Hi in *.
    destruct g, push, (any_store_ready s), (head_load_ready (accesses s)); cbn in *; lia.
Qed.

Lemma next_announced_ok : announced_ok (accesses s').
Proof.
  assert (Hafter : announced_ok after).
  { unfold after, announce. destruct (announces_now s g) eqn:Ha; [|done].
    unfold announces_now in Ha. rewrite !andb_true_iff in Ha. destruct Ha as [[_ Hany] _].
    destruct (announced s Hok Hany) as (k & e & Hk & Hc & Hlk & _ & Hst).
    pose proof (ring_count _ _ _ _ _ (lk_ring _ Hok)).
    rewrite (notify_pos_slot s (Z.of_nat k)), Nat2Z.id by (done || lia).
    intros a [j Hj]%list_elem_of_lookup Hn. destruct (decide (j = k)) as [->|Hne].
    - rewrite list_lookup_alter_eq, Hlk in Hj. injection Hj as <-. unfold announces in Hst. cbn in *.
      rewrite !andb_true_iff in Hst. unfold is_ready. destruct Hst as [[[-> ->] ->] _]. done.
    - rewrite list_lookup_alter_ne in Hj by done. apply Hann; [|done]. by eapply list_elem_of_lookup_2. }
  intros a Ha Hn. unfold s' in Ha. rewrite accesses_next in Ha by done. fold after in Ha.
  apply elem_of_app in Ha as [Ha|[_ ->]%elem_of_when]; [|done].
  assert (Ha' : a ∈ map (listen bus) after).
  { destruct (do_pop s sc st); [|done]. destruct (map (listen bus) after); [done|by right]. }
  apply list_elem_of_fmap in Ha' as (a0 & -> & Ha0). destruct (Hafter a0 Ha0 Hn) as [H1 H2].
  split; [done|]. unfold is_ready in *. cbn. apply andb_true_iff in H2 as [-> ->]. by rewrite !andb_false_r.
Qed.

End Flow.

(** ** The load/store buffer *)

Section Accesses.
Context (s0 : hw_seq.state) (ins : nat -> instr_t).
Hypothesis Hsized : hw_seq.sized s0.
Hypothesis Hplain : forall k, hw_seq.plain (ins k).

Notation before := (before s0 ins).
Notation res := (res s0 ins).
Notation entry_ok := (entry_ok s0 ins).
Notation rob_ok := (rob_ok s0 ins).
Notation edge_ok := (edge_ok s0 ins).

Import load_store_buffer.

Definition loads (k : nat) : bool := is_load_op (in_op (ins k)).
Definition stores (k : nat) : bool := is_store_op (in_op (ins k)).

(** The load on its way to the bus: memory was read as the load should see
    it. *)
Definition pending_ok (b d : nat) (s : state) (rd_data : Z) : Prop :=
  load_pending s = true ->
  exists k, (b <= k < d)%nat /\ loads k = true /\ load_pending_tag s = slot k /\
    load_pending_op s = in_op (ins k) /\
    load_pending_addr_r s = hw_seq.address (hw_seq.op1 (before k) (ins k)) (in_imm (ins k)) /\
    load_pending_byte_sel s = bits (load_pending_addr_r s) 1 0 /\
    (forall j, (b <= j < k)%nat -> stores j = false) /\
    rd_data = at_ 0 (hw_seq.mem (before k)) (data_mem.word_index (load_pending_addr_r s)).

(** The accesses are instructions [ks] in order, with every store in flight. *)
Record accesses_are (r : rob_unit.state) (b d : nat) (ks : list nat) (l : list (rs_entry_t * bool)) : Prop := {
  aa_entries : Forall2 (fun k a => entry_ok r b k (fst a)) ks l;
  aa_sorted : StronglySorted lt ks;
  aa_window k : k ∈ ks -> (b <= k < d)%nat /\ loads k || stores k = true;
  aa_stores k : (b <= k < d)%nat -> stores k = true -> k ∈ ks
}.

Record lsb_inv (b d : nat) (r : rob_unit.state) (s : state) (rd_data : Z) : Prop := {
  li_ok : lsb_ok s;
  li_announced : announced_ok (accesses s);
  li_list : exists ks, accesses_are r b d ks (accesses s);
  li_pending : pending_ok b d s rd_data
}.

Lemma mem_settled a d :
  (a <= d)%nat -> (forall j, (a <= j < d)%nat -> stores j = false) ->
  hw_seq.mem (before d) = hw_seq.mem (before a).
Proof.
  intros Hle. induction Hle as [|d Hle IH]; intros Hs; [done|].
  transitivity (hw_seq.mem (before d)); [apply hw_seq.step_mem, Hs; lia|]. apply IH. intros. apply Hs. lia.
Qed.

Lemma reset_lsb_inv rd : lsb_inv 0 0 rob_unit.reset reset rd.
Proof.
  destruct reset_lsb_ok as [Hok Ha]. constructor; [done| | |done].
  - rewrite Ha. by intros a ?%not_elem_of_nil.
  - exists []. rewrite Ha. constructor; [constructor|constructor|by intros k ?%not_elem_of_nil|lia].
Qed.

Section Edge.
Context (b d : nat) (r : rob_unit.state) (i : rob_unit.inputs).
Context (s : state) (rd_data : Z).
Hypothesis He : edge_ok b d r i.
Hypothesis Hs : lsb_inv b d r s rd_data.

Let commit := rob_unit.commit_valid_o r.
Let bus := rob_unit.cdb_i i.
Let sc := commit && stores b.
Let b' := bump b commit.
Let d' := bump d (rob_unit.alloc_en_i i).
Let r' := rob_unit.next r i.
(** What the buffer owns is in flight. *)
Hypothesis Hown : forall k, (b <= k < d)%nat -> slot k ∈ lsb_tags s -> in_flight r k.

#[clearbody] Let Hok : lsb_ok s := li_ok _ _ _ _ _ Hs.
#[clearbody] Let Hann : announced_ok (accesses s) := li_announced _ _ _ _ _ Hs.

Lemma accesses_tag ks k a j :
  accesses_are r b d ks (accesses s) -> ks !! j = Some k -> accesses s !! j = Some a ->
  entry_ok r b k (fst a) /\ (snd a = false -> in_flight r k).
Proof.
  intros Ha Hk Hj. pose proof (Forall2_lookup_lr _ _ _ _ _ _ (aa_entries _ _ _ _ _ Ha) Hk Hj) as Hen.
  split; [done|]. intros Hn. apply Hown.
  - apply (aa_window _ _ _ _ _ Ha). by eapply list_elem_of_lookup_2.
  - rewrite <- (en_tag _ _ _ _ _ _ Hen). unfold lsb_tags. apply elem_of_app. right.
    unfold access_tags, open_accesses. apply list_elem_of_In, in_map_iff. exists a. split; [done|].
    apply filter_In. split; [|unfold unfinished; by rewrite Hn].
    apply list_elem_of_In. by eapply list_elem_of_lookup_2.
Qed.

Lemma done_not_in_flight k : is_done r k -> ~ in_flight r k.
Proof. unfold is_done, in_flight. intros -> H. discriminate H. Qed.

(** A store that commits is the first access and was announced; nothing else
    that commits is in the buffer. *)
Lemma commit_access ks :
  accesses_are r b d ks (accesses s) -> commit = true ->
  if stores b
  then exists e l ks', ks = b :: ks' /\ accesses s = (e, true) :: l /\ entry_ok r b b e /\
    is_ready e = true /\ commit_store s sc (slot b) = true
  else b ∉ ks.
Proof.
  intros Ha Hc. destruct (proj1 (commit_first _ _ _ _ _ (eg_rob _ _ _ _ _ _ He)) Hc) as [Hbd Hdone].
  assert (Hfin : forall j a, ks !! j = Some b -> accesses s !! j = Some a -> snd a = true).
  { intros j a Hk Hj. destruct (accesses_tag _ _ _ _ Ha Hk Hj) as [_ Hf].
    destruct (snd a); [done|]. by destruct (done_not_in_flight _ Hdone (Hf eq_refl)). }
  destruct (stores b) eqn:Hst.
  - pose proof (aa_stores _ _ _ _ _ Ha b ltac:(lia) Hst) as Hin. pose proof (aa_sorted _ _ _ _ _ Ha) as Hsort.
    pose proof (aa_entries _ _ _ _ _ Ha) as Hall. pose proof (aa_window _ _ _ _ _ Ha) as Hwin.
    destruct ks as [|k ks']; [by apply not_elem_of_nil in Hin|].
    assert (k = b) as ->.
    { apply elem_of_cons in Hin as [->|Hin]; [done|]. apply StronglySorted_inv in Hsort as [_ Hlt].
      rewrite Forall_forall in Hlt. specialize (Hlt b Hin). destruct (Hwin k) as [? _]; [by left|]. lia. }
    inversion Hall as [|? [e n] ? l Hen _ E1 E2]. subst. symmetry in E2. exists e, l, ks'.
    pose proof (Hfin 0%nat (e, n) eq_refl ltac:(by rewrite E2)) as Hn. cbn in Hn. subst n.
    split; [done|]. split; [done|]. split; [done|].
    destruct (Hann (e, true)) as [Hse Hr]; [rewrite E2; by left|done|]. split; [done|].
    pose proof (head_access s Hok) as Hh. rewrite E2 in Hh. destruct Hh as [Hv Hhe].
    unfold commit_store, head_is_store. rewrite Hv, Hhe. cbn in Hse, Hen. rewrite Hse, (en_tag _ _ _ _ _ _ Hen).
    unfold sc. by rewrite Hc, Z.eqb_refl.
  - intros [j Hj]%list_elem_of_lookup. pose proof (aa_entries _ _ _ _ _ Ha) as Hall.
    destruct (Forall2_lookup_l _ _ _ _ _ Hall Hj) as (a & Hja & Hen).
    destruct (Hann a) as [Hse _]; [by eapply list_elem_of_lookup_2|by eapply Hfin|].
    unfold stores in Hst. rewrite <- (en_op _ _ _ _ _ _ Hen) in Hst. rewrite Hst in Hse. discriminate Hse.
Qed.

Lemma commit_store_commits : commit_store s sc (slot b) = true -> commit = true /\ stores b = true.
Proof. unfold commit_store, sc. intros H. by destruct commit, (stores b); rewrite ?andb_false_r in H. Qed.

Lemma committed_announced :
  commit_store s sc (slot b) = true -> exists e l, accesses s = (e, true) :: l.
Proof.
  intros Hcs. destruct (commit_store_commits Hcs) as [Hc Hst]. destruct (li_list _ _ _ _ _ Hs) as [ks Ha].
  pose proof (commit_access ks Ha Hc) as H. rewrite Hst in H. destruct H as (e & l & _ & _ & H & _). by exists e, l.
Qed.

(** The load that leaves is the first access, in flight, behind no store. *)
Lemma issued_load ks :
  accesses_are r b d ks (accesses s) -> issue_load s = true ->
  exists k e l ks', ks = k :: ks' /\ accesses s = (e, false) :: l /\ head_entry s = e /\ entry_ok r b k e /\
    is_ready e = true /\ loads k = true /\ (b' <= k < d)%nat /\ in_flight r k /\
    (forall j, (b <= j < k)%nat -> stores j = false).
Proof.
  intros Ha Hi. rewrite issue_load_list in Hi by done. apply andb_true_iff in Hi as [_ Hi].
  pose proof (head_access s Hok) as Hh. pose proof (aa_entries _ _ _ _ _ Ha) as Hall.
  pose proof (accesses_tag ks) as Htag. pose proof (aa_window _ _ _ _ _ Ha) as Hwin.
  pose proof (aa_sorted _ _ _ _ _ Ha) as Hsort. pose proof (aa_stores _ _ _ _ _ Ha) as Hsto.
  destruct ks as [|k ks'].
  { apply Forall2_nil_inv_l in Hall. rewrite Hall in Hi. discriminate Hi. }
  inversion Hall as [|? [e n] ? l Hen _ E1 E2]. subst. rewrite <- E2 in Hi, Hh. cbn in Hi.
  apply andb_true_iff in Hi as [Hld Hrd]. cbn in Hen.
  assert (Hn : n = false).
  { destruct n; [|done]. destruct (Hann (e, true)) as [Hse _]; [rewrite <- E2; by left|done|].
    cbn in Hse. by destruct (rs_op e). }
  subst n. destruct (Htag k (e, false) 0%nat Ha eq_refl ltac:(by rewrite <- E2)) as [_ Hf].
  specialize (Hf eq_refl). destruct (Hwin k) as [Hk _]; [by left|].
  exists k, e, l, ks'. split; [done|]. split; [done|]. split; [by apply Hh|]. split; [done|]. split; [done|].
  split; [unfold loads; by rewrite <- (en_op _ _ _ _ _ _ Hen)|]. split; [|split; [done|]].
  - unfold b', bump. destruct commit eqn:Hc; [|lia].
    destruct (proj1 (commit_first _ _ _ _ _ (eg_rob _ _ _ _ _ _ He)) Hc) as [_ Hdone].
    destruct (decide (k = b)) as [->|]; [by destruct (done_not_in_flight _ Hdone)|lia].
  - intros j Hj. apply not_true_is_false. intros Hst.
    pose proof (Hsto j ltac:(lia) Hst) as Hin. apply elem_of_cons in Hin as [->|Hin]; [lia|].
    apply StronglySorted_inv in Hsort as [_ Hlt]. rewrite Forall_forall in Hlt. specialize (Hlt j Hin). lia.
Qed.

(** The memory is the one after what committed. *)
Lemma memory_edge m : m = hw_seq.mem (before b) ->
  let w := mem_wr_o s sc (slot b) in
  (if wr_en w then put m (data_mem.word_index (wr_addr w))
      (data_mem.merge (wr_be w) (at_ 0 m (data_mem.word_index (wr_addr w))) (wr_data w)) else m) =
  hw_seq.mem (before b').
Proof.
  intros Hmem. cbn zeta. unfold mem_wr_o. cbn [wr_en wr_be wr_addr wr_data]. rewrite Hmem. destruct (li_list _ _ _ _ _ Hs) as [ks Ha].
  pose proof (commit_access ks Ha) as Hca. pose proof commit_store_commits as Hcsc. unfold b', bump. destruct commit eqn:Hc.
  - rewrite Nat.add_1_r. change (before (S b)) with (hw_seq.step (before b) (ins b)).
    unfold hw_seq.step. cbn [hw_seq.mem]. fold (stores b). pose proof (Hca eq_refl) as H. destruct (stores b) eqn:Hst.
    + destruct H as (e & l & ks' & _ & Hl & Hen & Hr & ->). pose proof (head_access s Hok) as Hh. rewrite Hl in Hh.
      destruct Hh as [_ Hh]. unfold is_ready in Hr. apply andb_true_iff in Hr as [Hr1 Hr2].
      pose proof (en_1 _ _ _ _ _ _ Hen) as H1. pose proof (en_2 _ _ _ _ _ _ Hen) as H2. rewrite Hr1 in H1. rewrite Hr2 in H2.
      cbn in H1, H2. unfold head_addr. rewrite Hh, H1, H2, (en_op _ _ _ _ _ _ Hen), (en_imm _ _ _ _ _ _ Hen). done.
    + destruct (commit_store s sc (slot b)) eqn:Hcs; [|done]. by destruct (Hcsc eq_refl) as [_ ?].
  - rewrite Nat.add_0_r. destruct (commit_store s sc (slot b)) eqn:Hcs; [|done].
    by destruct (Hcsc eq_refl) as [? _].
Qed.

(** *** What it puts on the bus *)

Lemma lsb_result :
  cdb_valid (cdb_o s rd_data) = true ->
  exists k, (b <= k < d)%nat /\ in_flight r k /\ cdb_tag (cdb_o s rd_data) = slot k /\ cdb_value (cdb_o s rd_data) = res k.
Proof.
  unfold cdb_o. cbn. destruct (load_pending s) eqn:Hlp; cbn.
  - intros _. destruct (li_pending _ _ _ _ _ Hs Hlp) as (k & Hk & Hld & Ht & Ho & Had & Hsel & Hns & Hrd).
    exists k. split; [done|]. split; [apply Hown; [done|]; unfold lsb_tags; rewrite Hlp, Ht; by left|].
    split; [done|]. unfold HwInvariant.res, hw_seq.result, hw_seq.load_word. fold (loads k). rewrite Hld, Ho, Hsel, Hrd, Had. done.
  - intros Hany. destruct (announced s Hok Hany) as (j & e & _ & _ & Hj & -> & Hann').
    destruct (li_list _ _ _ _ _ Hs) as [ks Ha].
    destruct (Forall2_lookup_r _ _ _ _ _ (aa_entries _ _ _ _ _ Ha) Hj) as (k & Hk & Hen).
    destruct (accesses_tag ks k _ j Ha Hk Hj) as [_ Hf]. exists k.
    split; [apply (aa_window _ _ _ _ _ Ha); by eapply list_elem_of_lookup_2|]. split; [by apply Hf|].
    split; [apply (en_tag _ _ _ _ _ _ Hen)|]. unfold announces in Hann'. cbn in Hann', Hen.
    rewrite !andb_true_iff in Hann'. destruct Hann' as [[[Hst _] _] _]. rewrite (en_op _ _ _ _ _ _ Hen) in Hst.
    unfold HwInvariant.res, hw_seq.result, hw_seq.compute. by destruct (in_op (ins k)).
Qed.

(** *** What enters and leaves *)

(** What is dispatched to it and what the bus and the memory do. *)
Context (push : bool) (de : rs_entry_t) (g : bool) (m : list Z).
Let s' := next s false push de bus sc (slot b) g.

Hypothesis Hpush : push = true ->
  full s = false /\ rob_unit.alloc_en_i i = true /\ entry_ok r' b' d de /\ loads d || stores d = true.
Hypothesis Hnopush : rob_unit.alloc_en_i i = true -> stores d = true -> push = true.
Hypothesis Hmem : m = hw_seq.mem (before b).

(** The instructions in the buffer after the edge. *)
Definition next_accesses (ks : list nat) : list nat :=
  (if do_pop s sc (slot b) then List.tl ks else ks) ++ when push d.

(** A pop takes the oldest, and who stays is younger than what committed. *)
Lemma kept_accesses ks :
  accesses_are r b d ks (accesses s) ->
  (if do_pop s sc (slot b) then exists k ks', ks = k :: ks' /\ (stores k = true -> k = b /\ commit = true) else True) /\
  (forall k, k ∈ (if do_pop s sc (slot b) then List.tl ks else ks) -> (b' <= k < d)%nat).
Proof.
  intros Ha. pose proof (commit_access ks Ha) as Hca. pose proof (issued_load ks Ha) as Hil.
  pose proof commit_store_commits as Hcsc. pose proof (aa_window _ _ _ _ _ Ha) as Hwin. pose proof (aa_sorted _ _ _ _ _ Ha) as Hsort.
  assert (Htl : forall k ks', ks = k :: ks' -> (b <= k)%nat -> forall j, j ∈ ks' -> (b' <= j < d)%nat).
  { intros k ks' -> Hbk j Hj. apply StronglySorted_inv in Hsort as [_ Hlt]. rewrite Forall_forall in Hlt.
    specialize (Hlt j Hj). destruct (Hwin j) as [? _]; [by right|]. unfold b', bump. destruct commit; lia. }
  unfold do_pop. destruct (issue_load s) eqn:Hi; cbn [orb].
  - destruct (Hil eq_refl) as (k & e & l & ks' & -> & _ & _ & _ & _ & Hld & Hk & _ & Hns).
    split; [|apply (Htl k ks' eq_refl); unfold b', bump in Hk; lia]. exists k, ks'. split; [done|].
    unfold stores, loads in *. intros Hst. by destruct (in_op (ins k)).
  - destruct (commit_store s sc (slot b)) eqn:Hcs.
    + destruct (Hcsc eq_refl) as [Hc Hst]. pose proof (Hca Hc) as H. rewrite Hst in H.
      destruct H as (e & l & ks' & -> & _). split; [by exists b, ks'|]. by apply (Htl b ks').
    + split; [done|]. intros k Hk. destruct (Hwin k Hk) as [Hbk _]. unfold b', bump.
      destruct commit eqn:Hc; [|lia]. pose proof (Hca eq_refl) as H.
      destruct (stores b).
      * destruct H as (e & l & ks' & _ & _ & _ & _ & H). congruence.
      * destruct (decide (k = b)) as [->|]; [done|lia].
Qed.

Lemma announce_entry l j a : announce s g l !! j = Some a -> exists a0, l !! j = Some a0 /\ fst a = fst a0.
Proof.
  unfold announce. destruct (announces_now s g); [|by exists a].
  destruct (decide (j = notify_pos s)) as [->|Hne].
  - rewrite list_lookup_alter_eq. intros (a0 & H & ->)%fmap_Some. by exists a0.
  - rewrite list_lookup_alter_ne by done. by exists a.
Qed.

Lemma Forall2_tl {A B} (P : A -> B -> Prop) l k : Forall2 P l k -> Forall2 P (List.tl l) (List.tl k).
Proof. by intros []. Qed.

Lemma next_list ks :
  accesses_are r b d ks (accesses s) -> accesses_are r' b' d' (next_accesses ks) (accesses s').
Proof.
  intros Ha. pose proof (window_next _ _ _ _ _ _ He) as Hw. fold commit b' d' in Hw.
  destruct (kept_accesses ks Ha) as [Hpop Hkept]. destruct Ha as [Hall Hsort Hwin Hsto].
  assert (Hall' : Forall2 (fun k a => entry_ok r' b' k (fst a)) ks (map (listen bus) (announce s g (accesses s)))).
  { apply Forall2_same_length_lookup. split.
    - rewrite length_map. unfold announce. destruct (announces_now s g); rewrite ?length_alter; by eapply Forall2_length.
    - intros j k a Hk Hj. rewrite list_lookup_fmap in Hj. apply fmap_Some in Hj as (a1 & Hj & ->).
      destruct (announce_entry _ _ _ Hj) as (a0 & Hj0 & Hfst). cbn. rewrite Hfst.
      apply (entry_listens _ _ _ _ _ _ He); [apply Hwin; by eapply list_elem_of_lookup_2|].
      by apply (Forall2_lookup_lr _ _ _ _ _ _ Hall Hk Hj0). }
  assert (Hpd : push = true -> (d < d')%nat).
  { intros Hp. destruct (Hpush Hp) as (_ & Hal & _). unfold d', bump. rewrite Hal. lia. }
  constructor.
  - unfold s', next_accesses. rewrite accesses_next by (try done; intros Hp; apply (Hpush Hp)). fold bus.
    apply Forall2_app.
    + destruct (do_pop s sc (slot b)); [|done]. by apply Forall2_tl.
    + destruct push; [|done]. constructor; [|done]. by apply Hpush.
  - unfold next_accesses. assert (Hst : StronglySorted lt (if do_pop s sc (slot b) then List.tl ks else ks)).
    { destruct (do_pop s sc (slot b)); [|done]. destruct ks; [done|]. by apply StronglySorted_inv in Hsort as []. }
    revert Hst Hkept. generalize (if do_pop s sc (slot b) then List.tl ks else ks). intros l Hst Hk.
    induction l as [|k l IH]; cbn.
    + destruct push; repeat constructor.
    + apply StronglySorted_inv in Hst as [Hst Hlt]. constructor; [apply IH; [done|intros; apply Hk; by right]|].
      apply Forall_app. split; [done|]. destruct push; repeat constructor. destruct (Hk k ltac:(by left)); lia.
  - intros k [Hk|[Hp ->]%elem_of_when]%elem_of_app.
    + specialize (Hkept k Hk). split; [unfold d', bump; lia|]. apply Hwin.
      destruct (do_pop s sc (slot b)); [|done]. destruct ks; [done|by right].
    + destruct (Hpush Hp) as (_ & _ & _ & Hm). specialize (Hpd Hp). split; [lia|done].
  - intros k Hk Hst. apply elem_of_app. destruct (decide (k = d)) as [->|Hne].
    + right. assert (Hal : rob_unit.alloc_en_i i = true).
      { unfold d', bump in Hk. destruct (rob_unit.alloc_en_i i); [done|lia]. }
      rewrite (Hnopush Hal Hst). by left.
    + left. assert (Hkd : (b <= k < d)%nat) by (unfold d', bump in Hk; destruct (rob_unit.alloc_en_i i); lia).
      pose proof (Hsto k Hkd Hst) as Hin. destruct (do_pop s sc (slot b)); [|done].
      destruct Hpop as (k0 & ks' & -> & Hb). apply elem_of_cons in Hin as [->|Hin]; [|done].
      destruct (Hb Hst) as [-> Hc]. unfold b', bump in Hk. rewrite Hc in Hk. lia.
Qed.

Lemma next_pending : pending_ok b' d' s' (at_ 0 m (data_mem.word_index (mem_rd_addr_o s))).
Proof.
  pose proof (window_next _ _ _ _ _ _ He) as Hw. fold commit b' d' in Hw. unfold pending_ok, s'.
  cbn [next load_pending load_pending_tag load_pending_op load_pending_addr_r load_pending_byte_sel].
  destruct (li_list _ _ _ _ _ Hs) as [ks Ha]. pose proof (issued_load ks Ha) as Hil.
  destruct (issue_load s) eqn:Hi; intros Hp.
  - destruct (Hil eq_refl) as (k & e & l & ks' & _ & _ & Hh & Hen & Hr & Hld & Hk & _ & Hns).
    assert (Hlp : load_pending s = false).
    { rewrite issue_load_list in Hi by done. apply andb_true_iff in Hi as [Hi _]. by apply negb_true_iff in Hi. }
    assert (Haddr : head_addr s = hw_seq.address (hw_seq.op1 (before k) (ins k)) (in_imm (ins k))).
    { unfold head_addr, hw_seq.address. rewrite Hh, (en_imm _ _ _ _ _ _ Hen). f_equal. f_equal.
      unfold is_ready in Hr. apply andb_true_iff in Hr as [Hr _]. pose proof (en_1 _ _ _ _ _ _ Hen) as H1.
      by rewrite Hr in H1. }
    exists k. split; [unfold d', bump; lia|]. split; [done|]. rewrite Hh.
    split; [apply (en_tag _ _ _ _ _ _ Hen)|]. split; [apply (en_op _ _ _ _ _ _ Hen)|]. split; [done|].
    split; [done|]. split; [intros j Hj; apply Hns; lia|].
    unfold mem_rd_addr_o. rewrite Hlp, Hmem. f_equal. symmetry. apply mem_settled; [lia|done].
  - apply andb_true_iff in Hp as [Hlp _].
    destruct (li_pending _ _ _ _ _ Hs Hlp) as (k & Hk & Hld & Ht & Ho & Had & Hsel & Hns & Hrd).
    assert (Hf : in_flight r k).
    { apply Hown; [done|]. unfold lsb_tags. rewrite Hlp, Ht. by left. }
    assert (Hbk : (b' <= k)%nat).
    { unfold b', bump. destruct commit eqn:Hc; [|lia].
      destruct (proj1 (commit_first _ _ _ _ _ (eg_rob _ _ _ _ _ _ He)) Hc) as [_ Hdone].
      destruct (decide (k = b)) as [->|]; [by destruct (done_not_in_flight _ Hdone)|lia]. }
    exists k. split; [unfold d', bump; lia|]. split; [done|]. split; [done|]. split; [done|]. split; [done|]. split; [done|].
    split; [intros j Hj; apply Hns; lia|].
    unfold mem_rd_addr_o. rewrite Hlp, Hmem. f_equal. symmetry. apply mem_settled; [lia|done].
Qed.

(** The buffer after the edge, when the memory is read. *)
Lemma lsb_edge : lsb_inv b' d' r' s' (at_ 0 m (data_mem.word_index (mem_rd_addr_o s))).
Proof.
  destruct (li_list _ _ _ _ _ Hs) as [ks Ha]. constructor.
  - apply next_lsb_ok; [done|]. intros Hp. apply (Hpush Hp).
  - apply next_announced_ok; try done. intros Hp. apply (Hpush Hp).
  - exists (next_accesses ks). by apply next_list.
  - apply next_pending.
Qed.

End Edge.
End Accesses.
