(* ===== verification/HwStraight.v ===== *)
(** * The core runs straight programs in order

    [core_inv] puts the units of HwInvariant, the lanes of HwFlow and the
    accesses of HwAccess together: every tag in flight has one owner, every
    operand is the value of the sequential machine or waits for its writer.
    [core_edge] is a clock edge, [core_countdown] counts down to the next
    commit. [sys_inv] adds the memories and the fetch stage; [straight_run] is
    the result. *)

From Stdlib Require Import Sorting.Sorted.
From S2P Require Import Prelude Words Ring HwPkg HwUnits HwTables HwStation HwControl HwCore.
From S2P Require Import HwBroadcast HwSequential HwFlow HwAccess HwInvariant.

(** Whether one of the first numbers has a property. *)
Lemma existsb_seq_S (p : nat -> bool) n : existsb p (seq 0 (S n)) = existsb p (seq 0 n) || p n.
Proof. rewrite seq_S, existsb_app. cbn. by rewrite orb_false_r. Qed.

(** ** The queue of fetched instructions *)

Definition iq_slot (k : nat) : Z := Z.of_nat k mod IQ_DEPTH.

Lemma iq_slot_S k : trunc 3 (iq_slot k + 1) = iq_slot (S k).
Proof. unfold iq_slot, trunc. change (2 ^ 3) with IQ_DEPTH. rewrite Zplus_mod_idemp_l. f_equal. lia. Qed.

Section Fetched.
Context (ins : nat -> instr_t).
Import instr_queue.

(** Instructions [d .. f - 1] wait. *)
Record iq_ok (d f : nat) (q : state) : Prop := {
  iq_len : len (entries q) = IQ_DEPTH;
  iq_window : (d <= f <= d + 8)%nat;
  iq_head : head q = iq_slot d;
  iq_tail : tail q = iq_slot f;
  iq_count : count q = Z.of_nat f - Z.of_nat d;
  iq_entry k : (d <= k < f)%nat -> at_ instr_0 (entries q) (iq_slot k) = ins k
}.

Lemma reset_iq_ok : iq_ok 0 0 reset.
Proof. constructor; try done; lia. Qed.

Lemma iq_slot_range k : 0 <= iq_slot k < IQ_DEPTH.
Proof. apply Z.mod_pos_bound. unfold IQ_DEPTH. lia. Qed.

Lemma iq_front d f q : iq_ok d f q -> valid_o q = true -> (d < f)%nat /\ instr_o q = ins d.
Proof.
  intros Hq Hv. unfold valid_o in Hv. rewrite (iq_count _ _ _ Hq) in Hv. pose proof (iq_window _ _ _ Hq).
  assert (d < f)%nat by lia. split; [done|]. unfold instr_o. rewrite (iq_head _ _ _ Hq). apply (iq_entry _ _ _ Hq). lia.
Qed.

Lemma iq_full_at d f q : iq_ok d f q -> full_o q = (f =? d + 8)%nat.
Proof.
  intros Hq. unfold full_o. rewrite (iq_count _ _ _ Hq). unfold IQ_DEPTH.
  destruct (Nat.eqb_spec f (d + 8)); [apply Z.eqb_eq|apply Z.eqb_neq]; lia.
Qed.

Lemma iq_edge d f q push i pop :
  iq_ok d f q -> (push = true -> full_o q = false /\ i = ins f) -> (pop = true -> valid_o q = true) ->
  iq_ok (bump d pop) (bump f push) (next q false push i pop).
Proof.
  intros Hq Hpush Hpop. pose proof (iq_window _ _ _ Hq) as Hw. pose proof (iq_full_at _ _ _ Hq) as Hfull.
  assert (Hp : push && negb (full_o q) = push) by (destruct push; [by destruct (Hpush eq_refl) as [-> _]|done]).
  assert (Hv : pop && valid_o q = pop) by (destruct pop; [by rewrite Hpop|done]).
  assert (Hd : pop = true -> (d < f)%nat) by (intros H; by apply (iq_front d f q Hq), Hpop).
  assert (Hf : push = true -> (f < d + 8)%nat).
  { intros H. destruct (Hpush H) as [H1 _]. rewrite Hfull in H1. apply Nat.eqb_neq in H1. lia. }
  unfold next. constructor; cbn [entries head tail count]; rewrite ?Hp, ?Hv; unfold bump.
  - destruct push; rewrite ?length_put; apply Hq.
  - destruct push, pop; try specialize (Hd eq_refl); try specialize (Hf eq_refl); lia.
  - rewrite (iq_head _ _ _ Hq). destruct pop; [rewrite iq_slot_S|]; f_equal; lia.
  - rewrite (iq_tail _ _ _ Hq). destruct push; [rewrite iq_slot_S|]; f_equal; lia.
  - rewrite (iq_count _ _ _ Hq). destruct push, pop; cbn [Z.b2z]; try specialize (Hd eq_refl); try specialize (Hf eq_refl);
      rewrite trunc_id by lia; lia.
  - intros k Hk. destruct push; [|apply (iq_entry _ _ _ Hq); destruct pop; lia]. specialize (Hf eq_refl).
    rewrite (iq_tail _ _ _ Hq). pose proof (iq_slot_range f). pose proof (iq_slot_range k).
    rewrite at_put by (rewrite ?(iq_len _ _ _ Hq); lia). destruct (Z.eqb_spec (iq_slot k) (iq_slot f)) as [E|E].
    + assert (k = f) as ->; [|by destruct (Hpush eq_refl)]. unfold iq_slot in E.
      pose proof (ring_index_inj IQ_DEPTH (Z.of_nat k) (Z.of_nat f)). unfold IQ_DEPTH in *. lia.
    + apply (iq_entry _ _ _ Hq). destruct (decide (k = f)) as [->|]; [done|]. destruct pop; lia.
Qed.

End Fetched.

(** ** The bus *)

(** The units in the order of their requests: the bus takes the result of one
    of them, or of none when none has any. *)
Lemma bus_cases (c : tomasulo_core.Core) rd :
  one_hot (tomasulo_core.u_cdb c) ->
  (exists u, (u < 7)%nat /\ tomasulo_core.cdb_w c rd = nth u (tomasulo_core.fu_results c rd) cdb_0 /\
     cdb_valid (nth u (tomasulo_core.fu_results c rd) cdb_0) = true /\
     forall j, (j < 7)%nat -> tomasulo_core.fu_grant_w c rd (Z.of_nat j) = (j =? u)%nat) \/
  (tomasulo_core.cdb_w c rd = cdb_0 /\
   (forall j, (j < 7)%nat -> cdb_valid (nth j (tomasulo_core.fu_results c rd) cdb_0) = false) /\
   forall j, (j < 7)%nat -> tomasulo_core.fu_grant_w c rd (Z.of_nat j) = false).
Proof.
  intros (k & Hk & Hc). unfold tomasulo_core.cdb_w, tomasulo_core.fu_grant_w. rewrite Hc.
  set (r := tomasulo_core.fu_results c rd). assert (Hr : units r) by done.
  pose proof (cdb_cycle k r Hk Hr) as Hcy. pose proof (cdb_grant k r Hk Hr) as Hg. rewrite Hg. clear Hg.
  destruct (round_robin k (valids r)) as [u|] eqn:Hu; destruct Hcy as [-> _].
  - left. destruct (round_robin_some _ _ _ Hu) as [Hlt Hv]. exists u. split; [done|]. split; [done|].
    rewrite requests_valids in Hv. split; [done|]. intros j Hj. cbn [grant_vector].
    rewrite Z.pow2_bits_eqb by lia. destruct (Nat.eqb_spec j u) as [->|]; [apply Z.eqb_refl|apply Z.eqb_neq; lia].
  - right. split; [done|]. split.
    + intros j Hj. rewrite <- requests_valids. by apply (round_robin_none k).
    + intros j Hj. apply Z.testbit_0_l.
Qed.

(** ** Owners of tags *)

Section Tags.
Context (s0 : hw_seq.state) (ins : nat -> instr_t).

(** Each tag has one owner, which is there as long as the instruction is in
    flight. *)
Record tags_ok (b d : nat) (r : rob_unit.state) (tags : list Z) : Prop := {
  tg_one : NoDup tags;
  tg_window t : t ∈ tags -> exists k, (b <= k < d)%nat /\ t = slot k;
  tg_in_flight k : (b <= k < d)%nat -> slot k ∈ tags <-> in_flight r k
}.

Lemma tags_edge b d r i tags tags' :
  edge_ok s0 ins b d r i -> tags_ok b d r tags ->
  when (cdb_valid (rob_unit.cdb_i i)) (cdb_tag (rob_unit.cdb_i i)) ++ tags' ≡ₚ
    when (rob_unit.alloc_en_i i) (slot d) ++ tags ->
  tags_ok (bump b (rob_unit.commit_valid_o r)) (bump d (rob_unit.alloc_en_i i)) (rob_unit.next r i) tags'.
Proof.
  intros He [Hone Hwin Hfl] Hp. pose proof (window_next _ _ _ _ _ _ He) as Hw.
  pose proof (ro_window _ _ _ _ _ (eg_rob _ _ _ _ _ _ He)) as Hbd. pose proof (alloc_room _ _ _ _ _ _ He) as Hroom.
  pose proof (commit_first _ _ _ _ _ (eg_rob _ _ _ _ _ _ He)) as Hcf. pose proof (eg_bus _ _ _ _ _ _ He) as Hbus.
  pose proof (in_flight_next _ _ _ _ _ _ He) as Hnext.
  set (b' := bump b _) in *. set (d' := bump d _) in *.
  assert (Hd' : (d' <= b + 16)%nat) by (unfold d', bump; destruct (rob_unit.alloc_en_i i); [specialize (Hroom eq_refl)|]; lia).
  assert (Hnd : NoDup (when (rob_unit.alloc_en_i i) (slot d) ++ tags)).
  { apply NoDup_app. split; [destruct (rob_unit.alloc_en_i i); [apply NoDup_singleton|constructor]|]. split; [|done].
    intros t [Ha ->]%elem_of_when Hin. destruct (Hwin _ Hin) as (k & Hk & E). specialize (Hroom Ha).
    apply (slot_unique b) in E; lia. }
  rewrite <- Hp in Hnd. apply NoDup_app in Hnd as (_ & Hdis & Hnd).
  assert (Hin : forall k, (b' <= k < d')%nat -> slot k ∈ tags' <->
    ((k = d \/ slot k ∈ tags) /\ hits (rob_unit.cdb_i i) k = false)).
  { intros k Hk. assert (Ht : slot k ∈ when (cdb_valid (rob_unit.cdb_i i)) (cdb_tag (rob_unit.cdb_i i)) ++ tags' <->
      (k = d \/ slot k ∈ tags)).
    { rewrite Hp, elem_of_app, elem_of_when. split; intros [H|H]; [|by right| |by right].
      - left. destruct H as [Ha E]. specialize (Hroom Ha). apply (slot_unique b) in E; lia.
      - left. subst k. split; [|done]. unfold d', bump in Hk. destruct (rob_unit.alloc_en_i i); [done|lia]. }
    rewrite <- Ht, elem_of_app, elem_of_when. unfold hits. split.
    - intros H. split; [by right|]. destruct (cdb_valid (rob_unit.cdb_i i)) eqn:Hv; [|done]. cbn.
      apply Z.eqb_neq. intros E. apply (Hdis (slot k)); [|done]. rewrite <- E. by left.
    - intros [[[Hv E]|H] Hh]; [|done]. rewrite Hv, E, Z.eqb_refl in Hh. discriminate Hh. }
  constructor.
  - done.
  - intros t Ht. assert (Ht' : t ∈ when (rob_unit.alloc_en_i i) (slot d) ++ tags)
      by (rewrite <- Hp; apply elem_of_app; by right).
    apply elem_of_app in Ht' as [[Ha ->]%elem_of_when|Hold].
    + exists d. split; [|done]. unfold d', bump. rewrite Ha. lia.
    + destruct (Hwin t Hold) as (k & Hk & ->). exists k. split; [|done]. unfold b', d', bump.
      destruct (rob_unit.commit_valid_o r); [|lia]. destruct (decide (k = b)) as [->|]; [|lia].
      apply Hfl in Hold; [|lia]. destruct (proj1 Hcf eq_refl) as [_ Hd]. by destruct (done_not_in_flight _ _ Hd).
  - intros k Hk. rewrite Hin, Hnext by done. split.
    + intros [[->|H] Hh]; [by left|]. destruct (decide (k = d)) as [->|]; [by left|]. right. split; [|done].
      apply Hfl; [|done]. unfold d', bump in Hk. destruct (rob_unit.alloc_en_i i); lia.
    + intros [->|[H Hh]].
      * split; [by left|]. unfold hits. destruct (cdb_valid (rob_unit.cdb_i i)) eqn:Hv; [|done]. cbn.
        apply Z.eqb_neq. intros E. destruct (Hbus Hv) as (j & Hj & _ & Hjt & _). rewrite Hjt in E.
        assert (Ha : rob_unit.alloc_en_i i = true) by (unfold d', bump in Hk; destruct (rob_unit.alloc_en_i i); [done|lia]).
        specialize (Hroom Ha). apply (slot_unique b) in E; lia.
      * split; [|done]. destruct (decide (k = d)) as [->|]; [by left|right]. apply Hfl; [|done].
        unfold d', bump in Hk. destruct (rob_unit.alloc_en_i i); lia.
Qed.

End Tags.

(** ** The whole core *)

Section Core.
Context (s0 : hw_seq.state) (ins : nat -> instr_t).
Hypothesis Hsized : hw_seq.sized s0.
Hypothesis Hplain : forall k, hw_seq.plain (ins k).

Notation before := (before s0 ins).
Notation res := (res s0 ins).
Notation entry_ok := (entry_ok s0 ins).
Notation rob_ok := (rob_ok s0 ins).
Notation edge_ok := (edge_ok s0 ins).

Import tomasulo_core.

(** The five stations that such a program uses, with their units. *)
Definition lanes (c : Core) : list lane :=
  [lane_of int_unit (u_rs_alu c) (u_alu c, alu_cdb c);
   lane_of add_unit (u_rs_fp_add c) (u_fp_add c);
   lane_of mul_unit (u_rs_fp_mul c) (u_fp_mul c);
   lane_of div_unit (u_rs_fp_div c) (u_fp_div c);
   lane_of cvt_unit (u_rs_fp_cvt c) (u_fp_cvt c)].

(** Their numbers on the bus. *)
Definition lane_fus : list nat := [0; 2; 3; 4; 6]%nat.

Definition owned (c : Core) : list Z := concat (map lane_tags (lanes c)) ++ lsb_tags (u_lsb c).

(** Nothing is in the branch unit. *)
Record no_branch (c : Core) : Prop := {
  nb_station : station_ok (u_rs_br c);
  nb_waiting : waiting (u_rs_br c) = [];
  nb_unit : branch_unit.valid_o (u_br c) = false;
  nb_latch : cdb_valid (br_cdb c) = false
}.

Record pairs_ok (c : Core) : Prop := {
  po_alu : pair_ok int_unit (u_rs_alu c) (u_alu c, alu_cdb c);
  po_add : pair_ok add_unit (u_rs_fp_add c) (u_fp_add c);
  po_mul : pair_ok mul_unit (u_rs_fp_mul c) (u_fp_mul c);
  po_div : pair_ok div_unit (u_rs_fp_div c) (u_fp_div c);
  po_cvt : pair_ok cvt_unit (u_rs_fp_cvt c) (u_fp_cvt c)
}.

(** What the stations and units hold. *)
Record lane_inv (b d : nat) (r : rob_unit.state) (l : lane) : Prop := {
  la_waiting e : e ∈ ln_waiting l -> exists k, (b <= k < d)%nat /\ entry_ok r b k e;
  la_contents x : x ∈ ln_contents l -> exists k, (b <= k < d)%nat /\ x = (slot k, res k)
}.

(** [b] instructions committed, [d] dispatched, [f] fetched; [m] is the memory
    and [rd] the word it returns. *)
Record core_inv (b d f : nat) (c : Core) (m : list Z) (rd : Z) : Prop := {
  ci_iq : iq_ok ins d f (u_iq c);
  ci_rob : rob_ok b d (u_rob c);
  ci_head : rob_head_reg c = slot b;
  ci_x : table_ok ins false b d (rat_table.x (u_rat c));
  ci_f : table_ok ins true b d (rat_table.f (u_rat c));
  ci_regs : regs_ok s0 ins b (u_rf c);
  ci_pairs : pairs_ok c;
  ci_lanes l : l ∈ lanes c -> lane_inv b d (u_rob c) l;
  ci_lsb : lsb_inv s0 ins b d (u_rob c) (u_lsb c) rd;
  ci_mem : m = hw_seq.mem (before b);
  ci_tags : tags_ok b d (u_rob c) (owned c);
  ci_branch : no_branch c;
  ci_bus : one_hot (u_cdb c)
}.

Section Edge.
Context (b d f : nat) (c : Core) (m : list Z) (rd : Z).
Hypothesis Hinv : core_inv b d f c m rd.

Let commit := rob_unit.commit_valid_o (u_rob c).
Let bus := cdb_w c rd.
Let i := rob_inputs c bus.
Let r := u_rob c.
Let r' := rob_unit.next r i.
Let b' := bump b commit.
Let d' := bump d (iq_pop_w c).

(** *** What the units put on the bus *)

Lemma core_lane_ok l : l ∈ lanes c -> lane_ok l.
Proof.
  intros Hl. destruct (ci_pairs _ _ _ _ _ _ Hinv) as [H1 H2 H3 H4 H5].
  unfold lanes in Hl. rewrite !elem_of_cons in Hl.
  destruct Hl as [->|[->|[->|[->|[->|Hl]]]]]; [..|by apply not_elem_of_nil in Hl]; by apply pair_lane_ok; [apply _|].
Qed.

Lemma owned_in_flight k : (b <= k < d)%nat -> slot k ∈ owned c -> in_flight r k.
Proof. intros Hk Ht. by apply (tg_in_flight _ _ _ _ (ci_tags _ _ _ _ _ _ Hinv)). Qed.

Lemma lane_owned l t : l ∈ lanes c -> t ∈ lane_tags l -> t ∈ owned c.
Proof.
  intros Hl Ht. unfold owned. apply elem_of_app. left. apply list_elem_of_In, in_concat.
  exists (lane_tags l). split; [apply in_map|]; by apply list_elem_of_In.
Qed.

Lemma lsb_owned t : t ∈ lsb_tags (u_lsb c) -> t ∈ owned c.
Proof. intros Ht. apply elem_of_app. by right. Qed.

Definition bus_result (x : cdb_t) : Prop :=
  exists k, (b <= k < d)%nat /\ in_flight r k /\ cdb_tag x = slot k /\ cdb_value x = res k.

Lemma lane_result l : l ∈ lanes c -> cdb_valid (ln_out l) = true -> bus_result (ln_out l).
Proof.
  intros Hl Hv. pose proof (lo_presents _ (core_lane_ok l Hl) Hv) as Hin.
  destruct (la_contents _ _ _ _ (ci_lanes _ _ _ _ _ _ Hinv l Hl) _ Hin) as (k & Hk & E).
  unfold tagged in E. injection E as Et Ev. exists k. split; [done|]. split; [|done]. apply owned_in_flight; [done|].
  apply (lane_owned l); [done|]. unfold lane_tags. apply elem_of_app. right.
  apply list_elem_of_In, in_map_iff. exists (tagged (ln_out l)). split; [by rewrite <- Et|]. by apply list_elem_of_In.
Qed.

Lemma unit_result u : (u < 7)%nat -> cdb_valid (nth u (fu_results c rd) cdb_0) = true ->
  bus_result (nth u (fu_results c rd) cdb_0).
Proof.
  intros Hu Hv.
  assert (Hlane : forall n l, lanes c !! n = Some l -> nth u (fu_results c rd) cdb_0 = ln_out l ->
    bus_result (nth u (fu_results c rd) cdb_0)).
  { intros n l Hn E. rewrite E in *. apply lane_result; [by eapply list_elem_of_lookup_2|done]. }
  destruct u as [|[|[|[|[|[|[|u]]]]]]].
  - by eapply (Hlane 0%nat).
  - cbn in Hv. pose proof (nb_latch _ (ci_branch _ _ _ _ _ _ Hinv)). congruence.
  - by eapply (Hlane 1%nat).
  - by eapply (Hlane 2%nat).
  - by eapply (Hlane 3%nat).
  - apply (lsb_result s0 ins b d r (u_lsb c) rd); [apply Hinv| |done].
    intros k Hk Ht. by apply owned_in_flight, lsb_owned.
  - by eapply (Hlane 4%nat).
  - lia.
Qed.

Lemma core_bus_ok : bus_ok s0 ins b d r bus.
Proof.
  intros Hv. destruct (bus_cases c rd (ci_bus _ _ _ _ _ _ Hinv)) as [(u & Hu & E & Hvu & _)|(E & _)]; unfold bus in *.
  - rewrite E. by apply unit_result.
  - rewrite E in Hv. discriminate Hv.
Qed.

(** *** Commit and dispatch *)

Lemma head_entry_of : commit = true ->
  entry_of (ins b) (rob_unit.entry r (slot b)) /\ ro_result (rob_unit.entry r (slot b)) = res b.
Proof.
  intros Hc. pose proof (ci_rob _ _ _ _ _ _ Hinv) as Hr.
  destruct (proj1 (commit_first _ _ _ _ _ Hr) Hc) as [Hlt Hd].
  split; [apply (ro_entry _ _ _ _ _ Hr); lia|].
  destruct (ro_value _ _ _ _ _ Hr b ltac:(lia)) as [Hf|[_ ?]]; [|done]. by destruct (done_not_in_flight _ _ Hd).
Qed.

Lemma commit_entry : rob_commit_entry_w c = rob_unit.entry r (slot b).
Proof. unfold rob_commit_entry_w, rob_unit.commit_entry_o. by rewrite (ro_head _ _ _ _ _ (ci_rob _ _ _ _ _ _ Hinv)). Qed.

Lemma no_flush : flush_w c = false.
Proof.
  unfold flush_w, commit_unit.flush_o. change (rob_commit_valid_w c) with commit. pose proof head_entry_of as Hh.
  rewrite commit_entry. destruct commit; [|done]. destruct (Hh eq_refl) as [(_ & _ & _ & _ & ->) _]. done.
Qed.

Lemma popped_word : iq_pop_w c = true ->
  (d < f)%nat /\ iq_instr_w c = ins d /\ rob_unit.full_o r = false /\
  target_full c (dispatch.target_of (in_op (ins d))) = false.
Proof.
  unfold iq_pop_w, dispatch.fire. rewrite !andb_true_iff, !negb_true_iff. intros [[Hv Hf] Ht].
  destruct (iq_front _ _ _ _ (ci_iq _ _ _ _ _ _ Hinv) Hv) as [Hlt E]. unfold iq_instr_w in *. rewrite E in *. done.
Qed.

Lemma core_edge_ok : edge_ok b d r i.
Proof.
  constructor; cbn.
  - apply Hinv.
  - apply no_flush.
  - apply (nb_unit _ (ci_branch _ _ _ _ _ _ Hinv)).
  - intros Hp. rewrite Hp. by destruct (popped_word Hp) as (_ & -> & -> & _).
  - done.
  - apply core_bus_ok.
Qed.

(** The register write ports. *)
Lemma x_port :
  regfile.wr_en (x_wr_w c) = commit && (in_rd_valid (ins b) && negb (in_rd_fp (ins b))) /\
  (regfile.wr_en (x_wr_w c) = true -> regfile.wr_addr (x_wr_w c) = in_rd (ins b) /\ regfile.wr_val (x_wr_w c) = res b).
Proof.
  pose proof head_entry_of as Hh. unfold x_wr_w, x_wr_en_w, commit_unit.x_wr_en_o. cbn [regfile.wr_en regfile.wr_addr regfile.wr_val].
  change (rob_commit_valid_w c) with commit. rewrite commit_entry.
  destruct commit; [|done]. destruct (Hh eq_refl) as [(_ & -> & -> & -> & _) ->]. cbn.
  split; [done|]. intros ->. done.
Qed.

Lemma f_port :
  regfile.wr_en (f_wr_w c) = commit && (in_rd_valid (ins b) && in_rd_fp (ins b)) /\
  (regfile.wr_en (f_wr_w c) = true -> regfile.wr_addr (f_wr_w c) = in_rd (ins b) /\ regfile.wr_val (f_wr_w c) = res b).
Proof.
  pose proof head_entry_of as Hh. unfold f_wr_w, f_wr_en_w, commit_unit.f_wr_en_o. cbn [regfile.wr_en regfile.wr_addr regfile.wr_val].
  change (rob_commit_valid_w c) with commit. rewrite commit_entry.
  destruct commit; [|done]. destruct (Hh eq_refl) as [(_ & -> & -> & -> & _) ->]. cbn.
  split; [done|]. intros ->. done.
Qed.

(** The ports of the renaming tables, for either register file. *)
Definition commit_port (fp : bool) : rat_table.port := if fp then f_commit_w c else x_commit_w c.
Definition map_port (fp : bool) : rat_table.port := if fp then f_map_w c else x_map_w c.
Definition map_enable (fp : bool) : bool :=
  if fp then rat_table.en (f_map_w c) else rat_table.en (x_map_w c) && negb (rat_table.addr (x_map_w c) =? 0).

Lemma rat_commit fp :
  rat_table.en (commit_port fp) = commit && (in_rd_valid (ins b) && eqb (in_rd_fp (ins b)) fp) /\
  (rat_table.en (commit_port fp) = true ->
   rat_table.addr (commit_port fp) = in_rd (ins b) /\ rat_table.tag (commit_port fp) = slot b).
Proof.
  destruct x_port as [Hx Hxv], f_port as [Hf Hfv]. pose proof (ci_head _ _ _ _ _ _ Hinv) as Hh. destruct fp.
  - cbn in Hf, Hfv |- *. rewrite Hf in Hfv |- *. split; [f_equal; f_equal; by destruct (in_rd_fp (ins b))|].
    intros E. destruct (Hfv E) as [Ha _]. by rewrite E in Ha |- *.
  - cbn in Hx, Hxv |- *. rewrite Hx in Hxv |- *. split; [f_equal; f_equal; by destruct (in_rd_fp (ins b))|].
    intros E. destruct (Hxv E) as [Ha _]. by rewrite E in Ha |- *.
Qed.

Lemma rat_map fp :
  map_enable fp = iq_pop_w c && hw_seq.writes (ins d) fp (in_rd (ins d)) /\
  (map_enable fp = true ->
   rat_table.addr (map_port fp) = in_rd (ins d) /\ rat_table.tag (map_port fp) = slot d).
Proof.
  pose proof popped_word as Hp. pose proof (ro_tail _ _ _ _ _ (ci_rob _ _ _ _ _ _ Hinv)) as Ht.
  unfold map_enable, map_port, f_map_w, x_map_w, map_w, dispatch.f_map_en, dispatch.x_map_en, hw_seq.writes,
    rob_unit.alloc_tag_o. rewrite Z.eqb_refl, !andb_true_r.
  destruct (iq_pop_w c); [|by destruct fp]. destruct (Hp eq_refl) as (_ & -> & _). rewrite Ht.
  destruct fp; cbn; destruct (in_rd_valid (ins d)), (in_rd_fp (ins d)), (in_rd (ins d) =? 0) eqn:E; cbn; rewrite ?E; done.
Qed.

(** *** Dispatched entries *)

Lemma core_operand rs (fp : bool) : iq_pop_w c = true -> 0 <= rs < 32 ->
  let '(o, tag) := operand_w c bus rs fp in
  opnd_ok s0 ins r' b' d (fst o) (snd o) tag (hw_seq.read (before d) fp rs).
Proof.
  intros Hp Hrs. destruct (rat_commit fp) as [Hce Hca]. destruct (rat_map fp) as [Hme Hma].
  pose proof (window_next _ _ _ _ _ _ core_edge_ok) as Hw. pose proof (ro_window _ _ _ _ _ (ci_rob _ _ _ _ _ _ Hinv)) as Hbd.
  pose proof (alloc_room _ _ _ _ _ _ core_edge_ok Hp) as Hroom.
  assert (Hcl : commit = true -> (b < d)%nat)
    by (intros Hc; by apply (commit_first _ _ _ _ _ (ci_rob _ _ _ _ _ _ Hinv))).
  assert (Hrow : forall t, table_ok ins fp b d t ->
    row_ok ins fp rs b' d (rat_table.lookup_valid_o t (commit_port fp) rs) (rat_table.lookup_tag_o t rs)).
  { intros t Ht. by apply (table_lookup ins Hplain fp b d t commit (iq_pop_w c) (commit_port fp) (map_enable fp)). }
  pose proof (regfile_read s0 ins Hsized Hplain b (u_rf c) commit (x_wr_w c) (f_wr_w c) (ci_regs _ _ _ _ _ _ Hinv)
    (proj1 x_port) (proj1 f_port) (proj2 x_port) (proj2 f_port) fp rs Hrs) as Hread.
  unfold operand_w. destruct fp.
  - apply (operand_edge s0 ins Hsized Hplain b d r i core_edge_ok true rs); [done|apply Hrow, Hinv|exact Hread].
  - apply (operand_edge s0 ins Hsized Hplain b d r i core_edge_ok false rs); [done|apply Hrow, Hinv|exact Hread].
Qed.

Lemma core_entry : iq_pop_w c = true -> entry_ok r' b' d (entry_w c bus).
Proof.
  intros Hp. destruct (popped_word Hp) as (_ & Hi & _). pose proof (Hplain d) as [_ _ H1 H2].
  pose proof (core_operand (in_rs1 (ins d)) (in_rs1_fp (ins d)) Hp H1) as Ho1.
  pose proof (core_operand (in_rs2 (ins d)) (in_rs2_fp (ins d)) Hp H2) as Ho2.
  unfold entry_w. rewrite Hi.
  destruct (operand_w c bus (in_rs1 (ins d)) (in_rs1_fp (ins d))) as [[r1 v1] t1].
  destruct (operand_w c bus (in_rs2 (ins d)) (in_rs2_fp (ins d))) as [[r2 v2] t2].
  constructor; try done. apply (ro_tail _ _ _ _ _ (ci_rob _ _ _ _ _ _ Hinv)).
Qed.

(** *** The stations and units move *)

Context (fv : bool) (raw pc : Z).
Let c' := next c fv raw pc rd.

(** What a station is handed. *)
Definition handed (t : dispatch.target) : rs_entry_t :=
  if disp_valid_w c t then entry_w c bus else rs_entry_0.

Lemma dispatched t : disp_valid_w c t = true ->
  iq_pop_w c = true /\ dispatch.target_of (in_op (ins d)) = t /\ handed t = entry_w c bus.
Proof.
  intros Hv. unfold handed. rewrite Hv. unfold disp_valid_w in Hv.
  apply andb_true_iff in Hv as [Hp Ht%bool_decide_eq_true]. destruct (popped_word Hp) as (_ & Hi & _).
  by rewrite Hi in Ht.
Qed.

Lemma handed_room t : disp_valid_w c t = true ->
  target_full c t = false /\ dispatch.target_of (rs_op (handed t)) = t.
Proof.
  intros Hv. destruct (dispatched t Hv) as (Hp & Ht & ->). destruct (popped_word Hp) as (_ & _ & _ & Hf).
  rewrite Ht in Hf. split; [done|]. by rewrite (en_op _ _ _ _ _ _ (core_entry Hp)).
Qed.

Lemma granted_valid u : (u < 7)%nat -> fu_grant_w c rd (Z.of_nat u) = true ->
  cdb_valid (nth u (fu_results c rd) cdb_0) = true.
Proof.
  intros Hu Hg. destruct (bus_cases c rd (ci_bus _ _ _ _ _ _ Hinv)) as [(u' & _ & _ & Hv & Hgr)|(_ & _ & Hgr)].
  - rewrite Hgr in Hg by done. by apply Nat.eqb_eq in Hg as ->.
  - by rewrite Hgr in Hg.
Qed.

Definition steps (n fu : nat) : Prop :=
  exists l l', lanes c !! n = Some l /\ lanes c' !! n = Some l' /\
    ln_out l = nth fu (fu_results c rd) cdb_0 /\
    lane_step l l' (disp_valid_w c (ln_target l)) (handed (ln_target l)) bus (fu_grant_w c rd (Z.of_nat fu)).

Ltac lane_move H u fu :=
  eexists _, _; split; [reflexivity|]; split; [reflexivity|]; split; [reflexivity|];
  unfold c', next; cbn [u_rs_alu u_rs_fp_add u_rs_fp_mul u_rs_fp_div u_rs_fp_cvt u_alu alu_cdb u_fp_add u_fp_mul
    u_fp_div u_fp_cvt]; unfold next_rs; rewrite no_flush;
  exact (pair_step u _ _ H (disp_valid_w c (fu_target u)) (handed (fu_target u)) bus (fu_grant_w c rd (Z.of_nat fu))
    (handed_room (fu_target u)) (granted_valid fu ltac:(lia))).

Lemma lanes_step : steps 0 0 /\ steps 1 2 /\ steps 2 3 /\ steps 3 4 /\ steps 4 6.
Proof.
  destruct (ci_pairs _ _ _ _ _ _ Hinv) as [H1 H2 H3 H4 H5].
  split; [lane_move H1 int_unit 0%nat|]. split; [lane_move H2 add_unit 2%nat|].
  split; [lane_move H3 mul_unit 3%nat|]. split; [lane_move H4 div_unit 4%nat|lane_move H5 cvt_unit 6%nat].
Qed.

Lemma pairs_edge : pairs_ok c'.
Proof.
  destruct (ci_pairs _ _ _ _ _ _ Hinv) as [H1 H2 H3 H4 H5].
  constructor; unfold c', next; cbn [u_rs_alu u_rs_fp_add u_rs_fp_mul u_rs_fp_div u_rs_fp_cvt u_alu alu_cdb u_fp_add
    u_fp_mul u_fp_div u_fp_cvt]; unfold next_rs; rewrite no_flush.
  - exact (pair_step_ok int_unit _ _ H1 _ (handed dispatch.T_ALU) bus (fu_grant_w c rd 0)
      (handed_room dispatch.T_ALU) (granted_valid 0 ltac:(lia))).
  - exact (pair_step_ok add_unit _ _ H2 _ (handed dispatch.T_FP_ADD) bus (fu_grant_w c rd 2)
      (handed_room dispatch.T_FP_ADD) (granted_valid 2 ltac:(lia))).
  - exact (pair_step_ok mul_unit _ _ H3 _ (handed dispatch.T_FP_MUL) bus (fu_grant_w c rd 3)
      (handed_room dispatch.T_FP_MUL) (granted_valid 3 ltac:(lia))).
  - exact (pair_step_ok div_unit _ _ H4 _ (handed dispatch.T_FP_DIV) bus (fu_grant_w c rd 4)
      (handed_room dispatch.T_FP_DIV) (granted_valid 4 ltac:(lia))).
  - exact (pair_step_ok cvt_unit _ _ H5 _ (handed dispatch.T_FP_CVT) bus (fu_grant_w c rd 6)
      (handed_room dispatch.T_FP_CVT) (granted_valid 6 ltac:(lia))).
Qed.

(** The same for a lane by its number. *)
Lemma lane_moves l' : l' ∈ lanes c' ->
  exists l fu, l ∈ lanes c /\
    lane_step l l' (disp_valid_w c (ln_target l)) (handed (ln_target l)) bus (fu_grant_w c rd (Z.of_nat fu)).
Proof.
  intros [n Hn]%list_elem_of_lookup. destruct lanes_step as (S1 & S2 & S3 & S4 & S5).
  assert (Hs : forall fu, steps n fu -> exists l fu, l ∈ lanes c /\
    lane_step l l' (disp_valid_w c (ln_target l)) (handed (ln_target l)) bus (fu_grant_w c rd (Z.of_nat fu))).
  { intros fu (l & l'' & Hl & Hl' & _ & Hst). rewrite Hn in Hl'. injection Hl' as <-.
    exists l, fu. split; [by eapply list_elem_of_lookup_2|done]. }
  destruct n as [|[|[|[|[|n]]]]]; [by eapply Hs..|]. discriminate Hn.
Qed.

Lemma lane_target l e : l ∈ lanes c -> e ∈ ln_waiting l ->
  dispatch.target_of (rs_op e) = ln_target l /\ ln_target l <> dispatch.T_LSB.
Proof.
  intros Hl He. destruct (ci_pairs _ _ _ _ _ _ Hinv) as [H1 H2 H3 H4 H5].
  unfold lanes in Hl. rewrite !elem_of_cons in Hl.
  destruct Hl as [->|[->|[->|[->|[->|Hl]]]]]; [..|by apply not_elem_of_nil in Hl];
    (split; [by eapply pk_target|done]).
Qed.

(** A ready entry has the result of its instruction. *)
Lemma entry_result_ok k e :
  entry_ok r b k e -> is_ready e = true -> dispatch.target_of (rs_op e) <> dispatch.T_LSB ->
  entry_result e = res k.
Proof.
  intros [Ho _ Him Hpc H1 H2] [R1 R2]%andb_true_iff Ht. rewrite R1 in H1. rewrite R2 in H2. cbn in H1, H2.
  unfold entry_result, HwInvariant.res, hw_seq.result. rewrite Ho, Him, Hpc, H1, H2 in *.
  destruct (is_load_op (in_op (ins k))) eqn:Hl; [|done]. by destruct (in_op (ins k)).
Qed.

(** What is owned now is not what commits now. *)
Lemma owned_stays k : (b <= k < d)%nat -> slot k ∈ owned c -> (b' <= k < d)%nat.
Proof.
  intros Hk Ht. pose proof (owned_in_flight k Hk Ht) as Hf.
  pose proof (commit_first _ _ _ _ _ (ci_rob _ _ _ _ _ _ Hinv)) as Hcf. unfold b', bump.
  change (rob_unit.commit_valid_o (u_rob c)) with commit in Hcf. destruct commit; [|lia].
  destruct (decide (k = b)) as [->|]; [|lia]. destruct (proj1 Hcf eq_refl) as [_ Hd].
  by destruct (done_not_in_flight _ _ Hd).
Qed.

Lemma waiting_owned l k e : l ∈ lanes c -> e ∈ ln_waiting l -> entry_ok r b k e -> slot k ∈ owned c.
Proof.
  intros Hl He Hen. apply (lane_owned l); [done|]. unfold lane_tags. apply elem_of_app. left.
  rewrite <- (en_tag _ _ _ _ _ _ Hen). apply list_elem_of_In, in_map. by apply list_elem_of_In.
Qed.

Lemma contents_owned l k v : l ∈ lanes c -> (slot k, v) ∈ ln_contents l -> slot k ∈ owned c.
Proof.
  intros Hl Hx. apply (lane_owned l); [done|]. unfold lane_tags. apply elem_of_app. right.
  change (slot k) with (fst (slot k, v)). apply list_elem_of_In, in_map. by apply list_elem_of_In.
Qed.

Lemma lane_edge l' : l' ∈ lanes c' -> lane_inv b' d' r' l'.
Proof.
  intros Hl'. destruct (lane_moves l' Hl') as (l & fu & Hl & [_ _ Hw Hc _]).
  pose proof (ci_lanes _ _ _ _ _ _ Hinv l Hl) as [Hlw Hlc]. constructor.
  - intros e He. destruct (Hw e He) as [[Hv ->]|(e0 & He0 & ->)].
    + destruct (dispatched _ Hv) as (Hp & _ & ->). exists d. pose proof (window_next _ _ _ _ _ _ core_edge_ok) as Hwn.
      split; [|by apply core_entry]. unfold d', bump. rewrite Hp. change (bump b _) with b' in Hwn. lia.
    + destruct (Hlw e0 He0) as (k & Hk & Hen). exists k.
      pose proof (owned_stays k Hk (waiting_owned l k e0 Hl He0 Hen)).
      split; [unfold d', bump; lia|]. apply (entry_listens s0 ins b d r i core_edge_ok); [lia|done].
  - intros x Hx. assert (Hxk : exists k, (b' <= k < d)%nat /\ x = (slot k, res k)).
    { destruct (Hc x Hx) as [Hold|(e & He & Hr & ->)].
      - destruct (Hlc x Hold) as (k & Hk & ->). exists k. split; [|done].
        by apply owned_stays, (contents_owned l k (res k)).
      - destruct (Hlw e He) as (k & Hk & Hen). exists k. destruct (lane_target l e Hl He) as [Ht1 Ht2].
        split; [by apply owned_stays, (waiting_owned l k e)|]. rewrite (en_tag _ _ _ _ _ _ Hen).
        f_equal. apply entry_result_ok; [done|done|]. by rewrite Ht1. }
    destruct Hxk as (k & Hk & ->). exists k. split; [unfold d', bump; lia|done].
Qed.

(** *** Tags *)

Let grant (u : nat) : bool := fu_grant_w c rd (Z.of_nat u).
Let out_tag (u : nat) : Z := cdb_tag (nth u (fu_results c rd) cdb_0).

(** The bus takes one result. *)
Lemma bus_taken :
  when (cdb_valid bus) (cdb_tag bus) ≡ₚ
    when (grant 0) (out_tag 0) ++ when (grant 2) (out_tag 2) ++ when (grant 3) (out_tag 3) ++
    when (grant 4) (out_tag 4) ++ when (grant 6) (out_tag 6) ++ when (grant 5) (out_tag 5).
Proof.
  unfold grant, out_tag, bus. pose proof (nb_latch _ (ci_branch _ _ _ _ _ _ Hinv)) as Hbr.
  destruct (bus_cases c rd (ci_bus _ _ _ _ _ _ Hinv)) as [(u & Hu & -> & Hv & Hg)|(-> & _ & Hg)];
    rewrite !Hg by lia; [|done].
  rewrite Hv. destruct u as [|[|[|[|[|[|[|u]]]]]]]; try done; try lia. cbn in Hv. congruence.
Qed.

(** A dispatched instruction goes to one station. *)
Lemma dispatch_taken :
  when (iq_pop_w c) (slot d) ≡ₚ
    when (disp_valid_w c dispatch.T_ALU) (slot d) ++ when (disp_valid_w c dispatch.T_FP_ADD) (slot d) ++
    when (disp_valid_w c dispatch.T_FP_MUL) (slot d) ++ when (disp_valid_w c dispatch.T_FP_DIV) (slot d) ++
    when (disp_valid_w c dispatch.T_FP_CVT) (slot d) ++ when (disp_valid_w c dispatch.T_LSB) (slot d).
Proof.
  unfold disp_valid_w. pose proof popped_word as Hp. destruct (iq_pop_w c); [|done].
  destruct (Hp eq_refl) as (_ & -> & _). pose proof (hw_seq.pl_branch _ (Hplain d)) as Hb.
  destruct (dispatch.target_of (in_op (ins d))) eqn:E; try done.
  unfold hw_seq.branches in Hb. by destruct (in_op (ins d)).
Qed.

Lemma handed_tag t :
  when (disp_valid_w c t) (rs_rob_tag (handed t)) = when (disp_valid_w c t) (slot d).
Proof.
  destruct (disp_valid_w c t) eqn:Hv; [|done]. destruct (dispatched t Hv) as (Hp & _ & ->).
  by rewrite (en_tag _ _ _ _ _ _ (core_entry Hp)).
Qed.

(** *** The load/store buffer moves *)

Let sc := store_commit_w c.

Lemma store_commit_stores : store_commit_w c = commit && stores ins b.
Proof.
  unfold store_commit_w, commit_unit.store_commit_o. change (rob_commit_valid_w c) with commit.
  pose proof head_entry_of as Hh. rewrite commit_entry. destruct commit; [|done].
  destruct (Hh eq_refl) as [(-> & _) _]. done.
Qed.

Lemma access_room : disp_valid_w c dispatch.T_LSB = true -> load_store_buffer.full (u_lsb c) = false.
Proof. intros Hv. destruct (handed_room _ Hv) as [Hf _]. by apply negb_false_iff, negb_true_iff in Hf. Qed.

Lemma lsb_granted : grant 5 = true ->
  load_store_buffer.load_pending (u_lsb c) || load_store_buffer.any_store_ready (u_lsb c) = true.
Proof. intros Hg. exact (granted_valid 5 ltac:(lia) Hg). Qed.

Lemma lsb_own k : (b <= k < d)%nat -> slot k ∈ lsb_tags (u_lsb c) -> in_flight r k.
Proof. intros Hk Ht. by apply owned_in_flight, lsb_owned. Qed.

Lemma lsb_committed :
  load_store_buffer.commit_store (u_lsb c) (store_commit_w c) (store_commit_tag_w c) = true ->
  exists e l, accesses (u_lsb c) = (e, true) :: l.
Proof.
  unfold store_commit_tag_w. rewrite (ci_head _ _ _ _ _ _ Hinv), store_commit_stores.
  apply (committed_announced s0 ins b d r i (u_lsb c) rd core_edge_ok (ci_lsb _ _ _ _ _ _ Hinv) lsb_own).
Qed.

Lemma u_lsb_next :
  u_lsb c' = load_store_buffer.next (u_lsb c) false (disp_valid_w c dispatch.T_LSB) (handed dispatch.T_LSB) bus
    (store_commit_w c) (store_commit_tag_w c) (grant 5).
Proof. unfold c', next. cbn [u_lsb]. by rewrite no_flush. Qed.

Lemma lsb_flow :
  when (grant 5) (out_tag 5) ++ lsb_tags (u_lsb c') ≡ₚ
  when (disp_valid_w c dispatch.T_LSB) (slot d) ++ lsb_tags (u_lsb c).
Proof.
  rewrite <- handed_tag, u_lsb_next.
  exact (access_flow (u_lsb c) _ (handed dispatch.T_LSB) bus _ _ (grant 5)
    (li_ok _ _ _ _ _ _ _ (ci_lsb _ _ _ _ _ _ Hinv)) access_room
    (li_announced _ _ _ _ _ _ _ (ci_lsb _ _ _ _ _ _ Hinv)) lsb_granted lsb_committed).
Qed.

(** What is dispatched enters, what is on the bus leaves. *)
Lemma core_flow :
  when (cdb_valid bus) (cdb_tag bus) ++ owned c' ≡ₚ when (iq_pop_w c) (slot d) ++ owned c.
Proof.
  destruct lanes_step as (S1 & S2 & S3 & S4 & S5).
  assert (Hl : forall n fu, steps n fu -> exists l l', lanes c !! n = Some l /\ lanes c' !! n = Some l' /\
    when (grant fu) (out_tag fu) ++ lane_tags l' ≡ₚ when (disp_valid_w c (ln_target l)) (slot d) ++ lane_tags l).
  { intros n fu (l & l' & H1 & H2 & Ho & Hst). exists l, l'. split; [done|]. split; [done|].
    pose proof (ls_tags _ _ _ _ _ _ Hst) as Ht. rewrite handed_tag, Ho in Ht. exact Ht. }
  apply Hl in S1 as (l1 & l1' & [= <-] & [= <-] & F1), S2 as (l2 & l2' & [= <-] & [= <-] & F2),
    S3 as (l3 & l3' & [= <-] & [= <-] & F3), S4 as (l4 & l4' & [= <-] & [= <-] & F4),
    S5 as (l5 & l5' & [= <-] & [= <-] & F5). clear Hl.
  pose proof lsb_flow as F6. unfold owned, lanes. cbn [map concat ln_target lane_of fu_target] in *.
  rewrite bus_taken, dispatch_taken. revert F1 F2 F3 F4 F5 F6.
  generalize (when (grant 0) (out_tag 0)), (when (grant 2) (out_tag 2)), (when (grant 3) (out_tag 3)),
    (when (grant 4) (out_tag 4)), (when (grant 6) (out_tag 6)), (when (grant 5) (out_tag 5)).
  intros g1 g2 g3 g4 g5 g6 F1 F2 F3 F4 F5 F6.
  etransitivity; [|etransitivity].
  2: exact (Permutation_app F1 (Permutation_app F2 (Permutation_app F3 (Permutation_app F4 (Permutation_app F5 F6))))).
  - solve_Permutation.
  - solve_Permutation.
Qed.

(** *** The core after the edge *)

Lemma no_branch_edge : no_branch c'.
Proof.
  destruct (ci_branch _ _ _ _ _ _ Hinv) as [Hok Hw Hu Hl].
  assert (Hv : disp_valid_w c dispatch.T_BR = false).
  { apply not_true_is_false. intros Hv. destruct (dispatched _ Hv) as (_ & Ht & _).
    pose proof (hw_seq.pl_branch _ (Hplain d)) as Hb. unfold hw_seq.branches in Hb. by destruct (in_op (ins d)). }
  pose proof (waiting_flow (u_rs_br c) (disp_valid_w c dispatch.T_BR) (handed dispatch.T_BR) bus
    (br_fu_ready c (fu_grant_w c rd 1)) Hok) as Hf.
  rewrite Hv, Hw in Hf. cbn in Hf. apply Permutation_nil_r, app_eq_nil in Hf as [Hi Hw'].
  assert (Hiv : reservation_station.issue_valid_o (u_rs_br c) (br_fu_ready c (fu_grant_w c rd 1)) = false)
    by (by destruct (reservation_station.issue_valid_o _ _)).
  constructor; unfold c', next; cbn [u_rs_br u_br br_cdb]; unfold next_rs; rewrite ?no_flush, ?Hv, ?Hiv.
  - by apply next_station_ok.
  - exact Hw'.
  - done.
  - unfold latch. rewrite Hu. by destruct (fu_grant_w c rd 1).
Qed.

Lemma table_next fp t :
  table_ok ins fp b d t ->
  table_ok ins fp b' d' (rat_table.next_table t (commit_port fp) (map_port fp) (map_enable fp)).
Proof.
  intros Ht. destruct (rat_commit fp) as [Hce Hca]. destruct (rat_map fp) as [Hme Hma].
  apply (table_edge ins Hplain fp b d t commit (iq_pop_w c)); try done.
  - apply (ro_window _ _ _ _ _ (ci_rob _ _ _ _ _ _ Hinv)).
  - intros Hc. by apply (commit_first _ _ _ _ _ (ci_rob _ _ _ _ _ _ Hinv)).
  - apply (alloc_room _ _ _ _ _ _ core_edge_ok).
Qed.

Hypothesis Hfetch : fv && negb (instr_queue.full_o (u_iq c)) = true -> decode.decode raw pc = ins f.

Let m' := data_mem.mem (data_mem.next (data_mem.mk m rd) (mem_rd_addr_o c) (mem_wr_o c)).
Let rd' := data_mem.rd_data_o (data_mem.next (data_mem.mk m rd) (mem_rd_addr_o c) (mem_wr_o c)).

Lemma lsb_dispatch : disp_valid_w c dispatch.T_LSB = true ->
  load_store_buffer.full (u_lsb c) = false /\ rob_unit.alloc_en_i i = true /\
  entry_ok r' b' d (handed dispatch.T_LSB) /\ loads ins d || stores ins d = true.
Proof.
  intros Hv. destruct (dispatched _ Hv) as (Hp & Ht & ->). split; [by apply access_room|]. split; [done|].
  split; [by apply core_entry|]. unfold loads, stores. by destruct (in_op (ins d)).
Qed.

Lemma store_dispatch : rob_unit.alloc_en_i i = true -> stores ins d = true -> disp_valid_w c dispatch.T_LSB = true.
Proof.
  intros Hp Hst. change (rob_unit.alloc_en_i i) with (iq_pop_w c) in Hp. destruct (popped_word Hp) as (_ & Hi & _).
  unfold disp_valid_w. rewrite Hp, Hi. unfold stores in Hst. by destruct (in_op (ins d)).
Qed.

Lemma core_edge : core_inv b' d' (bump f (fv && negb (instr_queue.full_o (u_iq c)))) c' m' rd'.
Proof.
  pose proof (rob_edge s0 ins Hplain b d r i core_edge_ok) as Hrob.
  destruct (lsb_edge s0 ins b d r i (u_lsb c) rd core_edge_ok (ci_lsb _ _ _ _ _ _ Hinv) lsb_own
    (disp_valid_w c dispatch.T_LSB) (handed dispatch.T_LSB) (grant 5) m lsb_dispatch store_dispatch
    (ci_mem _ _ _ _ _ _ Hinv)) as [L1 L2 L3 L4].
  pose proof (memory_edge s0 ins b d r i (u_lsb c) rd core_edge_ok (ci_lsb _ _ _ _ _ _ Hinv) lsb_own m
    (ci_mem _ _ _ _ _ _ Hinv)) as Hmem.
  assert (Hlsb : u_lsb c' = load_store_buffer.next (u_lsb c) false (disp_valid_w c dispatch.T_LSB)
    (handed dispatch.T_LSB) bus (commit && stores ins b) (slot b) (grant 5)).
  { rewrite u_lsb_next, store_commit_stores. unfold store_commit_tag_w. by rewrite (ci_head _ _ _ _ _ _ Hinv). }
  constructor.
  - unfold c', next. cbn [u_iq]. rewrite no_flush. apply iq_edge; [apply Hinv| |].
    + intros Hp. split; [|by apply Hfetch]. apply andb_true_iff in Hp as [_ Hp]. by apply negb_true_iff in Hp.
    + unfold iq_pop_w, dispatch.fire. intros [[Hp _]%andb_true_iff _]%andb_true_iff. done.
  - exact Hrob.
  - unfold c', next. cbn [rob_head_reg]. rewrite no_flush. change (commit_en_w c) with commit.
    change (rob_commit_valid_w c) with commit. rewrite (ci_head _ _ _ _ _ _ Hinv). unfold b', bump.
    destruct commit; cbn [andb]; [rewrite slot_S|]; f_equal; lia.
  - unfold c', next, rat_table.next. cbn [u_rat]. rewrite no_flush. cbn [rat_table.x]. apply (table_next false), Hinv.
  - unfold c', next, rat_table.next. cbn [u_rat]. rewrite no_flush. cbn [rat_table.f]. apply (table_next true), Hinv.
  - unfold c', next. cbn [u_rf]. destruct x_port as [X1 X2], f_port as [F1 F2].
    apply (regfile_edge s0 ins b (u_rf c) commit (x_wr_w c) (f_wr_w c)); try done. apply Hinv.
  - apply pairs_edge.
  - apply lane_edge.
  - rewrite Hlsb. constructor; [exact L1|exact L2|exact L3|exact L4].
  - unfold m'. cbn [data_mem.next data_mem.mem]. unfold mem_wr_o. rewrite store_commit_stores.
    unfold store_commit_tag_w. rewrite (ci_head _ _ _ _ _ _ Hinv). exact Hmem.
  - apply (tags_edge s0 ins b d r i (owned c)); [apply core_edge_ok|apply Hinv|apply core_flow].
  - apply no_branch_edge.
  - unfold c', next. cbn [u_cdb]. apply next_one_hot; [apply Hinv|done].
Qed.

(** *** Progress *)

Definition core_work (x : Core) : nat := (list_sum (map lane_work (lanes x)) + lsb_work (u_lsb x))%nat.

(** Something is taken by the bus, or will be soon. *)
Definition advances : bool :=
  cdb_valid bus || existsb has_work (lanes c) || head_load_ready (accesses (u_lsb c)).

Lemma bus_silent : cdb_valid bus = false ->
  forall u, (u < 7)%nat -> cdb_valid (nth u (fu_results c rd) cdb_0) = false /\ grant u = false.
Proof.
  intros Hb u Hu. unfold bus, grant in *.
  destruct (bus_cases c rd (ci_bus _ _ _ _ _ _ Hinv)) as [(u' & _ & E & Hv & _)|(_ & Hv & Hg)].
  - rewrite E, Hv in Hb. discriminate Hb.
  - split; [by apply Hv|by apply Hg].
Qed.

Definition lane_at (x : Core) (n : nat) : lane := nth n (lanes x) (Lane dispatch.T_ALU false cdb_0 [] [] 0).

Lemma lane_works n fu : steps n fu ->
  let l := lane_at c n in
  let l' := lane_at c' n in
    (lane_work l' + (if grant fu || (negb (cdb_valid bus) && has_work l) then 1 else 0) <=
     lane_work l + (if disp_valid_w c (ln_target l) then fu_latency + 1 else 0))%nat.
Proof.
  intros (l & l' & H1 & H2 & Ho & Hst). cbn zeta. unfold lane_at. rewrite !nth_lookup, H1, H2. cbn [default from_option id].
  pose proof (ls_work _ _ _ _ _ _ Hst) as Hw. change (fu_grant_w c rd (Z.of_nat fu)) with (grant fu) in Hw.
  assert (Hout : cdb_valid bus = false -> cdb_valid (ln_out l) = false).
  { intros Hb. rewrite Ho. destruct (decide (fu < 7)%nat) as [Hlt|Hge]; [by apply bus_silent|].
    by rewrite nth_overflow by (cbn; lia). }
  destruct (cdb_valid bus); cbn [negb andb] in *.
  - destruct (grant fu); cbn [orb] in *; [exact Hw|]. destruct (_ && has_work l); lia.
  - by rewrite Hout in Hw.
Qed.

Lemma lsb_works :
  (lsb_work (u_lsb c') +
     (if grant 5 || (negb (cdb_valid bus) && head_load_ready (accesses (u_lsb c))) then 1 else 0) <=
   lsb_work (u_lsb c) + (if disp_valid_w c dispatch.T_LSB then 2 else 0))%nat.
Proof.
  rewrite u_lsb_next.
  pose proof (access_work (u_lsb c) _ (handed dispatch.T_LSB) bus _ _ (grant 5)
    (li_ok _ _ _ _ _ _ _ (ci_lsb _ _ _ _ _ _ Hinv)) access_room
    (li_announced _ _ _ _ _ _ _ (ci_lsb _ _ _ _ _ _ Hinv)) lsb_granted lsb_committed) as Hw.
  destruct (cdb_valid bus) eqn:Hb; cbn [negb andb].
  - destruct (grant 5); cbn [orb] in *; [exact Hw|]. destruct (_ && head_load_ready _); lia.
  - destruct (bus_silent Hb 5 ltac:(lia)) as [Hv _].
    change (load_store_buffer.load_pending (u_lsb c) || load_store_buffer.any_store_ready (u_lsb c) = false) in Hv.
    by rewrite Hv in Hw.
Qed.

Definition nb (x : bool) : nat := if x then 1%nat else 0%nat.

Lemma if_times (x : bool) n : (if x then n else 0%nat) = (n * nb x)%nat.
Proof. destruct x; cbn; lia. Qed.

Lemma nb_or x y : (nb y <= nb (x || y))%nat.
Proof. by destruct x, y; cbn; lia. Qed.

Lemma nb_or6 x1 x2 x3 x4 x5 x6 :
  (nb ((x1 || (x2 || (x3 || (x4 || (x5 || false))))) || x6) <= nb x1 + nb x2 + nb x3 + nb x4 + nb x5 + nb x6)%nat.
Proof. destruct x1, x2, x3, x4, x5, x6; cbn; lia. Qed.

(** The work of the core goes down when something advances, and up by what is
    dispatched. *)
Lemma core_works :
  (core_work c' + (if advances then 1 else 0) <= core_work c + (if iq_pop_w c then fu_latency + 1 else 0))%nat.
Proof.
  destruct lanes_step as (S1 & S2 & S3 & S4 & S5).
  apply lane_works in S1, S2, S3, S4, S5. cbn zeta in S1, S2, S3, S4, S5.
  cbn [lane_at lanes nth] in S1, S2, S3, S4, S5. pose proof lsb_works as F6. pose proof (Permutation_length bus_taken) as Hb.
  pose proof (Permutation_length dispatch_taken) as Hd. rewrite !length_app, !length_when in Hb, Hd.
  unfold core_work, advances. unfold lanes. cbn [map list_sum fold_right existsb ln_target lane_of fu_target int_unit add_unit mul_unit div_unit cvt_unit two_unit] in S1, S2, S3, S4, S5 |- *.
  rewrite !if_times in *. unfold fu_latency in *. destruct (cdb_valid bus); cbn [negb andb orb] in *.
  - rewrite orb_false_r in S1, S2, S3, S4, S5, F6. change (nb true) with 1%nat in *. lia.
  - assert (G : forall g x n k, (n + 1 * nb (g || x) <= k -> n + nb x <= k)%nat)
      by (intros g x n k; pose proof (nb_or g x); lia).
    apply G in S1, S2, S3, S4, S5, F6.
    match goal with |- context [nb ((?x1 || (?x2 || (?x3 || (?x4 || (?x5 || false))))) || ?x6)] =>
      pose proof (nb_or6 x1 x2 x3 x4 x5 x6) end. lia.
Qed.

(** The operands of the oldest instruction cannot wait. *)
Lemma oldest_completes e : entry_ok r b b e -> is_ready e = true.
Proof.
  intros [_ _ _ _ H1 H2]. unfold is_ready.
  assert (Hw : forall tag v, ~ waits s0 ins r b b tag v) by (intros tag v (j & Hj & _); lia).
  destruct (rs1_ready e); [|by destruct (Hw _ _ H1)]. destruct (rs2_ready e); [|by destruct (Hw _ _ H2)]. done.
Qed.

Lemma oldest_entry l e : l ∈ lanes c -> e ∈ ln_waiting l -> rs_rob_tag e = slot b -> (b < d)%nat -> is_ready e = true.
Proof.
  intros Hl He Ht Hbd. destruct (la_waiting _ _ _ _ (ci_lanes _ _ _ _ _ _ Hinv l Hl) e He) as (k & Hk & Hen).
  pose proof (ro_window _ _ _ _ _ (ci_rob _ _ _ _ _ _ Hinv)). rewrite (en_tag _ _ _ _ _ _ Hen) in Ht.
  assert (k = b) as -> by (apply (slot_unique b); [lia|lia|done]). by apply oldest_completes.
Qed.

(** The oldest access, when it is the oldest instruction: a load that can leave
    or a store to announce. *)
Lemma oldest_access a : (b < d)%nat -> a ∈ accesses (u_lsb c) -> snd a = false -> rs_rob_tag (fst a) = slot b ->
  load_store_buffer.any_store_ready (u_lsb c) = true \/ head_load_ready (accesses (u_lsb c)) = true.
Proof.
  intros Hbd [j Hj]%list_elem_of_lookup Hn Ht. pose proof (ci_lsb _ _ _ _ _ _ Hinv) as [Hok Hann [ks Ha] _].
  pose proof (ro_window _ _ _ _ _ (ci_rob _ _ _ _ _ _ Hinv)).
  destruct (Forall2_lookup_r _ _ _ _ _ (aa_entries _ _ _ _ _ _ _ Ha) Hj) as (k & Hk & Hen).
  destruct (aa_window _ _ _ _ _ _ _ Ha k ltac:(by eapply list_elem_of_lookup_2)) as [Hkw Hm].
  rewrite (en_tag _ _ _ _ _ _ Hen) in Ht. assert (k = b) as -> by (apply (slot_unique b); [lia|lia|done]).
  pose proof (oldest_completes _ Hen) as Hr. pose proof (en_op _ _ _ _ _ _ Hen) as Hop.
  destruct (stores ins b) eqn:Hst.
  - left. apply (announces_ready _ Hok j a Hj). unfold announces, is_ready in *. apply andb_true_iff in Hr as [-> ->].
    unfold stores in Hst. by rewrite Hop, Hst, Hn.
  - right. rewrite orb_false_r in Hm. destruct j as [|j].
    + destruct (accesses (u_lsb c)) as [|[e n] l]; [done|]. injection Hj as <-. unfold head_load_ready.
      cbn in Hop, Hr. rewrite Hop, Hr. unfold loads in Hm. by rewrite Hm.
    + destruct ks as [|k0 ks]; [done|]. pose proof (aa_sorted _ _ _ _ _ _ _ Ha) as Hs.
      destruct (aa_window _ _ _ _ _ _ _ Ha k0 ltac:(by left)) as [Hk0 _].
      apply StronglySorted_inv in Hs as [_ Hlt]. rewrite Forall_forall in Hlt. cbn in Hk.
      specialize (Hlt b ltac:(by eapply list_elem_of_lookup_2)). lia.
Qed.

(** When nothing advances, every lane is empty but for instructions that wait
    for an operand. *)
Lemma idle_lane l : advances = false -> l ∈ lanes c ->
  ln_contents l = [] /\ forall e, e ∈ ln_waiting l -> is_ready e = false.
Proof.
  intros Ha Hl. unfold advances in Ha. apply orb_false_iff in Ha as [[_ Hlw]%orb_false_iff _].
  assert (Hw : has_work l = false).
  { apply not_true_is_false. intros Hw. assert (existsb has_work (lanes c) = true); [|congruence].
    apply existsb_exists. exists l. split; [by apply list_elem_of_In|done]. }
  unfold has_work in Hw. apply orb_false_iff in Hw as [Hc0%negb_false_iff%bool_decide_eq_true Hr]. split; [done|].
  intros e He. apply not_true_is_false. intros Hr'. assert (existsb is_ready (ln_waiting l) = true); [|congruence].
  apply existsb_exists. exists e. split; [by apply list_elem_of_In|done].
Qed.

(** The oldest instruction is not among them. *)
Lemma oldest_not_owned : (b < d)%nat -> advances = false -> slot b ∉ owned c.
Proof.
  intros Hbd Ha Hf. pose proof Ha as Ha'. unfold advances in Ha'. rewrite !orb_false_iff in Ha'.
  destruct Ha' as [[Hbus _] Hhl]. destruct (bus_silent Hbus 5 ltac:(lia)) as [H5 _].
  change (load_store_buffer.load_pending (u_lsb c) || load_store_buffer.any_store_ready (u_lsb c) = false) in H5.
  apply orb_false_iff in H5 as [Hpend Hany]. unfold owned in Hf. apply elem_of_app in Hf as [Hf|Hf].
  - apply list_elem_of_In, in_concat in Hf as (ts & Hts & Hin). apply in_map_iff in Hts as (l & <- & Hl).
    apply list_elem_of_In in Hl, Hin. destruct (idle_lane l Ha Hl) as [Hcon Hnr]. unfold lane_tags in Hin.
    rewrite Hcon, app_nil_r in Hin. apply list_elem_of_In, in_map_iff in Hin as (e & He & Hin).
    apply list_elem_of_In in Hin. pose proof (oldest_entry l e Hl Hin He ltac:(lia)) as Hr. by rewrite Hnr in Hr.
  - unfold lsb_tags in Hf. rewrite Hpend in Hf. cbn in Hf. unfold access_tags, open_accesses in Hf.
    apply list_elem_of_In, in_map_iff in Hf as (a & Hat & Hin). apply filter_In in Hin as [Hin Hun].
    unfold unfinished in Hun. apply negb_true_iff in Hun. apply list_elem_of_In in Hin.
    destruct (oldest_access a ltac:(lia) Hin Hun Hat); congruence.
Qed.

Lemma stalled_empty : commit = false -> advances = false -> b = d.
Proof.
  intros Hc Ha. pose proof (ci_rob _ _ _ _ _ _ Hinv) as Hrob. pose proof (ro_window _ _ _ _ _ Hrob) as Hwin.
  destruct (decide (b = d)) as [|Hne]; [done|exfalso].
  destruct (ro_value _ _ _ _ _ Hrob b ltac:(lia)) as [Hf|[Hd _]].
  - apply (tg_in_flight _ _ _ _ (ci_tags _ _ _ _ _ _ Hinv)) in Hf; [|lia]. by apply oldest_not_owned in Hf; [|lia|].
  - assert (commit = true); [|congruence]. apply (commit_first _ _ _ _ _ Hrob). split; [lia|done].
Qed.

(** An empty core takes every instruction. *)
Lemma empty_room : b = d -> target_full c (dispatch.target_of (in_op (ins d))) = false.
Proof.
  intros Hbd. assert (Hnone : forall t, t ∉ owned c).
  { intros t Ht. destruct (tg_window _ _ _ _ (ci_tags _ _ _ _ _ _ Hinv) t Ht) as (k & Hk & _). lia. }
  assert (Hlf : forall l, l ∈ lanes c -> ln_full l = false).
  { intros l Hl. apply (lo_full _ (core_lane_ok l Hl)). destruct (ln_waiting l) as [|e w] eqn:E; [done|exfalso].
    apply (Hnone (rs_rob_tag e)), (lane_owned l); [done|]. unfold lane_tags. rewrite E. by left. }
  destruct (dispatch.target_of (in_op (ins d))) eqn:E; cbn [target_full].
  - apply (Hlf (lane_of int_unit (u_rs_alu c) (u_alu c, alu_cdb c))). by left.
  - exfalso. pose proof (hw_seq.pl_branch _ (Hplain d)) as Hb. unfold hw_seq.branches in Hb. by destruct (in_op (ins d)).
  - apply (Hlf (lane_of add_unit (u_rs_fp_add c) (u_fp_add c))). by right; left.
  - apply (Hlf (lane_of mul_unit (u_rs_fp_mul c) (u_fp_mul c))). by right; right; left.
  - apply (Hlf (lane_of div_unit (u_rs_fp_div c) (u_fp_div c))). by right; right; right; left.
  - unfold load_store_buffer.fu_ready_o. rewrite negb_involutive, full_count by apply Hinv.
    pose proof (ci_lsb _ _ _ _ _ _ Hinv) as [_ _ [ks Ha] _]. pose proof (aa_entries _ _ _ _ _ _ _ Ha) as Hall.
    destruct ks as [|k ks]; [by apply Forall2_nil_inv_l in Hall as ->|].
    destruct (aa_window _ _ _ _ _ _ _ Ha k ltac:(by left)) as [? _]. lia.
  - apply (Hlf (lane_of cvt_unit (u_rs_fp_cvt c) (u_fp_cvt c))). by right; right; right; right; left.
Qed.

(** When nothing commits and nothing is dispatched, something advances, unless
    the core is empty. *)
Lemma stalled :
  commit = false -> iq_pop_w c = false -> advances = false -> b = d /\ d = f.
Proof.
  intros Hc Hp Ha. pose proof (stalled_empty Hc Ha) as Hbd. split; [done|].
  destruct (decide (d = f)) as [|Hne]; [done|exfalso]. pose proof (ci_iq _ _ _ _ _ _ Hinv) as Hq.
  assert (Hv : instr_queue.valid_o (u_iq c) = true).
  { unfold instr_queue.valid_o. rewrite (iq_count _ _ _ _ Hq). pose proof (iq_window _ _ _ _ Hq).
    apply negb_true_iff, Z.eqb_neq. lia. }
  destruct (iq_front _ _ _ _ Hq Hv) as [_ Hi]. pose proof (ci_rob _ _ _ _ _ _ Hinv) as Hrob.
  assert (Hrf : rob_unit.full_o (u_rob c) = false).
  { unfold rob_unit.full_o. rewrite (ro_count _ _ _ _ _ Hrob). unfold ROB_SIZE. apply Z.eqb_neq. lia. }
  unfold iq_pop_w, dispatch.fire, iq_instr_w in Hp. rewrite Hv, Hi, Hrf, (empty_room Hbd) in Hp. discriminate Hp.
Qed.

(** Cycles until the next commit, at most: instructions that can still be
    dispatched, work of those that were, and the fetch of the first. *)
Definition countdown (b d f : nat) (fetching : bool) (x : Core) : nat :=
  (12 * (b + 16 - d) + core_work x + nb (bool_decide (d = f)) + nb (negb fetching))%nat.

Lemma core_countdown (fetching : bool) :
  (fetching = true -> fv = true \/ instr_queue.full_o (u_iq c) = true) ->
  (countdown b' d' (bump f (fv && negb (instr_queue.full_o (u_iq c)))) true c' + 1 <=
   countdown b d f fetching c + (if commit then 13 else 0))%nat.
Proof.
  intros Hfet. pose proof core_works as Hw. pose proof stalled as Hst.
  pose proof (window_next _ _ _ _ _ _ core_edge_ok) as Hwn. change (bump b _) with b' in Hwn. change (bump d _) with d' in Hwn.
  pose proof (ro_window _ _ _ _ _ (ci_rob _ _ _ _ _ _ Hinv)) as Hwin.
  pose proof (iq_window _ _ _ _ (ci_iq _ _ _ _ _ _ Hinv)) as Hiw. pose proof (iq_full_at _ _ _ _ (ci_iq _ _ _ _ _ _ Hinv)) as Hfull.
  pose proof (alloc_room _ _ _ _ _ _ core_edge_ok) as Hroom. change (rob_unit.alloc_en_i i) with (iq_pop_w c) in Hroom.
  unfold countdown, fu_latency in *. revert Hw Hst. generalize (core_work c'), (core_work c). intros w' w Hw Hst.
  unfold b', d', bump in *. set (push := fv && negb (instr_queue.full_o (u_iq c))) in *.
  assert (Hnb : forall x, (nb x <= 1)%nat) by (by intros []; cbn; lia).
  pose proof (Hnb (bool_decide ((d + (if iq_pop_w c then 1 else 0))%nat = (f + (if push then 1 else 0))%nat))) as Hn1.
  pose proof (Hnb (bool_decide (d = f))) as Hn2. pose proof (Hnb (negb fetching)) as Hn3. change (nb (negb true)) with 0%nat.
  destruct (iq_pop_w c) eqn:Hp.
  { specialize (Hroom eq_refl). destruct commit, advances; lia. }
  assert (Hmono : (nb (bool_decide ((d + 0)%nat = (f + (if push then 1 else 0))%nat)) <= nb (bool_decide (d = f)))%nat).
  { destruct (decide (d = f)) as [->|Hne]; [rewrite (bool_decide_true (f = f)) by done; apply Hnb|].
    rewrite !bool_decide_false; [lia|done|destruct push; lia]. }
  destruct commit eqn:Hc; [destruct advances; lia|].
  destruct advances eqn:Had; [lia|]. destruct (Hst eq_refl eq_refl eq_refl) as [_ ->].
  rewrite (bool_decide_true (f = f)) in * by done. cbn [nb] in *. destruct fetching; cbn [negb nb] in *; [|lia].
  assert (Hpu : push = true).
  { unfold push. rewrite Hfull in *. destruct (Nat.eqb_spec f (f + 8)); [lia|]. cbn. rewrite andb_true_r.
    by destruct (Hfet eq_refl). }
  rewrite Hpu. rewrite bool_decide_false by lia. cbn [nb]. lia.
Qed.

End Edge.
End Core.

(** ** The core with its memories and its fetch stage *)

Section System.
Context (words : list Z).
Let imem := sim_compliance.load words.
Hypothesis Hstraight : hw_seq.straight imem = true.

Let s0 := hw_seq.initial words.
Let ins := hw_seq.fetched imem.

Import sim_compliance.

Lemma ins_plain k : hw_seq.plain (ins k).
Proof. by apply hw_seq.straight_fetched. Qed.

Definition halts (i : instr_t) : bool := opb (in_op i) OP_HALT.

(** The fetch stage is one instruction ahead of the queue, from the second
    cycle on. *)
Definition fetch_ok (f : nat) (s : System) : Prop :=
  if fetch_valid s
  then fetch_pc_d s = trunc 32 (4 * Z.of_nat f) /\ fetch_pc s = trunc 32 (4 * Z.of_nat (S f))
  else f = 0%nat /\ fetch_pc s = 0 /\ fetch_pc_d s = 0.

Record sys_inv (b d f : nat) (s : System) : Prop := {
  si_core : core_inv s0 ins b d f (core s) (data_mem.mem (dmem s)) (mem_rd_data s);
  si_imem : sim_compliance.imem s = imem;
  si_fetch : fetch_ok f s;
  si_halted : halted s = existsb (fun k => halts (ins k)) (seq 0 b)
}.

Lemma reset_sys_inv : sys_inv 0 0 0 (reset words).
Proof.
  assert (Hsta : forall S (u : func_unit S) n x, 0 < n -> fu_ok u x ->
    pair_ok u (reservation_station.reset n) x).
  { intros S u n x Hn Hx. destruct (reset_waiting n) as [Hw Hok]. constructor; [done| |done|].
    - cbn. rewrite length_replicate. lia.
    - rewrite Hw. by intros e ?%not_elem_of_nil. }
  constructor; [|done|done|done]. constructor.
  - apply reset_iq_ok.
  - apply reset_rob_ok.
  - done.
  - apply table_0_ok.
  - apply table_0_ok.
  - by constructor.
  - constructor; (apply Hsta; [done|]); by cbn.
  - intros l Hl. unfold lanes in Hl. rewrite !elem_of_cons in Hl.
    assert (Hn : ln_waiting l = [] /\ ln_contents l = []).
    { destruct Hl as [->|[->|[->|[->|[->|Hl]]]]]; [split; reflexivity..|]. by destruct (not_elem_of_nil _ Hl). }
    destruct Hn as [Hw Hc]. constructor; rewrite ?Hw, ?Hc; by intros e ?%not_elem_of_nil.
  - apply reset_lsb_inv.
  - done.
  - constructor; [apply NoDup_nil_2|by intros t ?%not_elem_of_nil|lia].
  - by constructor.
  - exists 0%nat. split; [lia|done].
Qed.

(** Whether an instruction commits in a cycle, and how many did in a run. *)
Definition commits_now (s : System) : bool := tomasulo_core.rob_commit_valid_w (core s).

Fixpoint committed (n : nat) (s : System) : nat :=
  match n with
  | O => O
  | S k => bump (committed k (next s)) (commits_now s)
  end.

Definition sys_countdown (b d f : nat) (s : System) : nat := countdown b d f (fetch_valid s) (core s).

(** *** A clock edge *)

Section Edge.
Context (b d f : nat) (s : System).
Hypothesis Hinv : sys_inv b d f s.

Let Hplain : forall k, hw_seq.plain (ins k) := ins_plain.
Let Hcore : core_inv s0 ins b d f (core s) (data_mem.mem (dmem s)) (mem_rd_data s) := si_core _ _ _ _ Hinv.

(** The word that goes into the queue. *)
Definition pushed : bool := fetch_fires s && negb (instr_queue.full_o (tomasulo_core.u_iq (core s))).

Lemma pushed_fires : pushed = fetch_fires s.
Proof.
  unfold pushed, fetch_fires, iq_full, tomasulo_core.iq_full_o. by rewrite <- andb_assoc, andb_diag.
Qed.

Lemma pushed_instr : pushed = true -> decode.decode (instr_raw s) (fetch_pc_d s) = ins f.
Proof.
  rewrite pushed_fires. unfold fetch_fires. intros [Hv _]%andb_true_iff.
  pose proof (si_fetch _ _ _ _ Hinv) as Hf. unfold fetch_ok in Hf. rewrite Hv in Hf. destruct Hf as [Hd _].
  unfold instr_raw, ins, hw_seq.fetched. by rewrite (si_imem _ _ _ _ Hinv), Hd.
Qed.

Lemma sys_no_flush : tomasulo_core.flush_w (core s) = false.
Proof. by eapply no_flush. Qed.

Lemma fetch_next : fetch_ok (bump f pushed) (next s).
Proof.
  unfold fetch_ok, next. cbn [fetch_valid fetch_pc fetch_pc_d]. rewrite sys_no_flush, pushed_fires.
  change (tomasulo_core.iq_full_o (core s)) with (iq_full s).
  pose proof (si_fetch _ _ _ _ Hinv) as Hf. unfold fetch_ok in Hf. unfold fetch_fires, bump.
  destruct (fetch_valid s); cbn [andb].
  - destruct Hf as [Hd Hpc]. destruct (iq_full s); cbn [negb]; rewrite ?Nat.add_0_r, ?Nat.add_1_r; [done|].
    split; [done|]. rewrite Hpc. unfold trunc. rewrite Zplus_mod_idemp_l. f_equal. lia.
  - destruct Hf as (Hf0 & Hpc & Hd). rewrite Hpc, Hd. assert (iq_full s = false) as ->; [|by rewrite Hf0].
    unfold iq_full, tomasulo_core.iq_full_o. rewrite (iq_full_at ins d f _ (ci_iq _ _ _ _ _ _ _ _ Hcore)).
    apply Nat.eqb_neq. lia.
Qed.

Lemma halted_next :
  halted (next s) = existsb (fun k => halts (ins k)) (seq 0 (bump b (commits_now s))).
Proof.
  unfold next. cbn [halted]. rewrite (si_halted _ _ _ _ Hinv).
  unfold tomasulo_core.halted_o, tomasulo_core.commit_en_w, bump.
  change (tomasulo_core.rob_commit_valid_w (core s)) with (commits_now s).
  pose proof (head_entry_of _ _ _ _ _ _ _ _ Hcore) as Hhe. rewrite (commit_entry _ _ _ _ _ _ _ _ Hcore).
  change (rob_unit.commit_valid_o (tomasulo_core.u_rob (core s))) with (commits_now s) in Hhe.
  destruct (commits_now s); cbn [andb]; [|by rewrite orb_false_r, Nat.add_0_r].
  destruct (Hhe eq_refl) as [(Ho & _) _]. rewrite Ho, Nat.add_1_r, existsb_seq_S. unfold halts. reflexivity.
Qed.

Lemma sys_edge :
  let b' := bump b (commits_now s) in
  exists d' f', sys_inv b' d' f' (next s) /\
    (sys_countdown b' d' f' (next s) + 1 <= sys_countdown b d f s + (if commits_now s then 13 else 0))%nat.
Proof.
  cbn zeta. assert (Hsized : hw_seq.sized s0) by apply hw_seq.initial_sized.
  pose proof (core_edge s0 ins Hsized Hplain b d f _ _ _ Hcore _ _ _ pushed_instr) as Hedge.
  pose proof (core_countdown s0 ins Hsized Hplain b d f _ _ _ Hcore _ _ _ pushed_instr (fetch_valid s)) as Hcount.
  exists (bump d (tomasulo_core.iq_pop_w (core s))), (bump f pushed). split.
  - constructor; [exact Hedge|by apply Hinv|apply fetch_next|apply halted_next].
  - unfold sys_countdown. assert (fetch_valid (next s) = true) as ->
      by (unfold next; cbn [fetch_valid]; by rewrite sys_no_flush).
    apply Hcount. intros Hv. unfold fetch_fires. rewrite Hv. unfold iq_full, tomasulo_core.iq_full_o.
    destruct (instr_queue.full_o _); [by right|by left].
Qed.

End Edge.

(** After any number of cycles. *)
Lemma run_inv n : forall b d f s, sys_inv b d f s ->
  exists d' f', sys_inv (b + committed n s)%nat d' f' (run n s) /\
    (n <= sys_countdown b d f s + 13 * committed n s)%nat.
Proof.
  induction n as [|n IH]; intros b d f s Hi; cbn [committed run].
  - exists d, f. rewrite Nat.add_0_r. split; [done|lia].
  - destruct (sys_edge b d f s Hi) as (d1 & f1 & Hi1 & Hc1). destruct (IH _ _ _ _ Hi1) as (d2 & f2 & Hi2 & Hc2).
    exists d2, f2. unfold bump in *. split.
    + replace (b + (committed n (next s) + _))%nat with (b + (if commits_now s then 1 else 0) + committed n (next s))%nat by lia.
      done.
    + destruct (commits_now s); lia.
Qed.

(** What the reorder buffer gets in every cycle: results with a tag of its
    own, and nothing from the branch unit. *)
Lemma straight_ports n :
  let s := run n (reset words) in
  let x := tomasulo_core.cdb_w (core s) (mem_rd_data s) in
  (cdb_valid x = true -> 0 <= cdb_tag x < ROB_SIZE) /\
  branch_unit.valid_o (tomasulo_core.u_br (core s)) = false.
Proof.
  cbn zeta. destruct (run_inv n 0 0 0 (reset words) reset_sys_inv) as (d & f & [Hc _ _ _] & _). split.
  - intros Hv. destruct (core_bus_ok s0 ins _ _ _ _ _ _ Hc Hv) as (k & _ & _ & -> & _).
    unfold slot. apply Z.mod_pos_bound. unfold ROB_SIZE. lia.
  - apply (nb_unit _ (ci_branch _ _ _ _ _ _ _ _ Hc)).
Qed.

(** The registers, the memory and the halt flag of the core are those of the
    sequential machine after the instructions that committed, of which there
    is one every 13 cycles at least. *)
Lemma straight_run n :
  let s := run n (reset words) in
  let k := committed n (reset words) in
  let t := hw_seq.run s0 ins k in
  regfile.int_regs (tomasulo_core.u_rf (core s)) = hw_seq.xs t /\
  regfile.fp_regs (tomasulo_core.u_rf (core s)) = hw_seq.fs t /\
  data_mem.mem (dmem s) = hw_seq.mem t /\
  halted s = existsb (fun j => halts (ins j)) (seq 0 k) /\
  (n <= 13 * k + 194)%nat.
Proof.
  cbn zeta. destruct (run_inv n 0 0 0 (reset words) reset_sys_inv) as (d & f & [Hc _ _ Hh] & Hn).
  split; [apply (rg_int _ _ _ _ (ci_regs _ _ _ _ _ _ _ _ Hc))|].
  split; [apply (rg_fp _ _ _ _ (ci_regs _ _ _ _ _ _ _ _ Hc))|].
  split; [apply (ci_mem _ _ _ _ _ _ _ _ Hc)|]. split; [exact Hh|].
  change (sys_countdown 0 0 0 (reset words)) with 194%nat in Hn. lia.
Qed.

End System.
