(* ===== verification/HwPrograms.v ===== *)
(** * Runs of the core: recorded traces and test programs *)

From S2P Require Import Prelude Words Float32 Config Instruction Text Assembler ISA Programs HwPkg.
From S2P Require Import HwTables HwStation HwControl HwCore HwDecode.

(** * Recorded traces of the hardware core

    sim_compliance.sv prints a line for every dispatch, fetch, broadcast and
    commit of a cycle. Here are this print-out of the model, and two runs that
    the repository keeps: the images sim_compliance/build/<test>.board.hex,
    without the three words the board loader appends, and the lines of
    <test>.log. An unknown word in a log (an instruction fetched past the
    image) is 0. *)

(** [$display] of the testbench: dispatch, fetch, broadcast, commit. *)
Inductive event : Type :=
| D (op pc tag raw_iq_imm rs1 : Z)
| F (raw pc_d fetch_pc : Z)
| C (tag val : Z)
| R (op pc : Z).

#[global] Instance event_eq_dec : EqDecision event.
Proof. solve_decision. Defined.

Section Log.
Import tomasulo_core sim_compliance.

Definition events (s : System) : list event :=
  let c := core s in
  let i := iq_instr_w c in
  let bus := cdb_w c (mem_rd_data s) in
  let e := rob_commit_entry_w c in
  (if iq_pop_w c
   then [D (opcode_code (in_op i)) (in_pc i) (rob_unit.alloc_tag_o (u_rob c)) (in_imm i) (in_rs1 i)]
   else []) ++
  (if fetch_fires s then [F (instr_raw s) (fetch_pc_d s) (fetch_pc s)] else []) ++
  (if cdb_valid bus then [C (cdb_tag bus) (cdb_value bus)] else []) ++
  (if commit_en_w c then [R (opcode_code (ro_op e)) (ro_pc e)] else []).

(** The testbench prints at the end of each cycle until it sees [halted]. *)
Fixpoint log (n : nat) (cycle_cnt : Z) (s : System) : list (Z * event) :=
  match n with
  | O => []
  | S k =>
      map (pair cycle_cnt) (events s) ++ (if halted s then [] else log k (cycle_cnt + 1) (next s))
  end.

End Log.

(** ** I-ENDIANESS-01 *)

Definition i_endianess_01 : list Z :=
  [0x5400813; 0x6000893; 0x82083; 0x85103; 0x285183; 0xFFF84203; 0x84283; 0x184303; 0x284383; 0x384403;
   0x18A023; 0x28A223; 0x38A423; 0x48A623; 0x58A823; 0x68AA23; 0x78AC23; 0x88AE23; 0x73; 0x0; 0x89ABCDEF;
   0x1234567; 0x0; 0x0] ++
  replicate 8 0xFFFFFFFF ++
  replicate 988 0x0 ++
  [0x53494730].

Definition i_endianess_01_log : list (Z * event) := [
  (1, F 88082451 0 4); (2, D 8 0 0 84 0); (2, F 100665491 4 8); (3, D 8 4 1 96 0); (3, F 532611 8 12);
  (4, D 14 8 2 0 16); (4, F 545027 12 16); (5, D 40 12 3 0 16); (5, F 2642307 16 20); (5, C 0 84);
  (6, D 40 16 4 2 16); (6, F 4294459907 20 24); (6, R 8 0); (7, D 38 20 5 4294967295 16);
  (7, F 541315 24 28); (7, C 2 19088743); (8, D 38 24 6 0 16); (8, F 1590019 28 32); (8, C 1 96);
  (9, D 38 28 7 1 16); (9, F 2638723 32 36); (9, C 3 17767); (9, R 8 4); (10, D 38 32 8 2 16);
  (10, F 3687427 36 40); (10, R 14 8); (11, D 38 36 9 3 16); (11, F 1613859 40 44); (11, C 4 291);
  (11, R 40 12); (12, D 15 40 10 0 17); (12, F 2662947 44 48); (12, R 40 16); (13, D 15 44 11 4 17);
  (13, F 3712035 48 52); (13, C 5 137); (14, D 15 48 12 8 17); (14, F 4761123 52 56); (14, C 10 0);
  (14, R 38 20); (15, D 15 52 13 12 17); (15, F 5810211 56 60); (15, C 6 103); (16, D 15 56 14 16 17);
  (16, F 6859299 60 64); (16, C 11 0); (16, R 38 24); (17, D 15 60 15 20 17); (17, F 7908387 64 68);
  (17, C 7 69); (18, F 8957475 68 72); (18, C 12 0); (18, R 38 28); (19, D 15 64 0 24 17);
  (19, F 115 72 76); (19, C 8 35); (20, F 0 76 80); (20, C 13 0); (20, R 38 32); (21, D 15 68 1 28 17);
  (21, F 2309737967 80 84); (21, C 9 1); (22, D 63 72 2 0 0); (22, F 19088743 84 88); (22, C 14 0);
  (22, R 38 36); (23, D 62 76 3 0 0); (23, F 0 88 92); (23, C 15 0); (23, R 15 40);
  (24, D 20 80 4 4294688922 0); (24, F 0 92 96); (24, C 0 0); (24, R 15 44); (25, D 62 84 5 0 0);
  (25, F 4294967295 96 100); (25, C 2 0); (25, R 15 48); (26, D 62 88 6 0 0); (26, F 4294967295 100 104);
  (26, C 1 0); (26, R 15 52); (27, D 62 92 7 0 0); (27, F 4294967295 104 108); (27, C 3 0); (27, R 15 56);
  (28, D 62 96 8 0 0); (28, F 4294967295 108 112); (28, C 4 84); (28, R 15 60); (29, D 62 100 9 0 0);
  (29, F 4294967295 112 116); (29, C 5 0); (29, R 15 64); (30, D 62 104 10 0 0);
  (30, F 4294967295 116 120); (30, R 15 68); (31, D 62 108 11 0 0); (31, F 4294967295 120 124);
  (31, C 8 0); (31, R 63 72); (32, D 62 112 12 0 0); (32, F 4294967295 124 128); (32, R 62 76)].

(** ** I-DELAY_SLOTS-01 *)

Definition i_delay_slots_01 : list Z :=
  [0x10000093; 0x11111137; 0x11110113; 0x80006F; 0x113; 0x20A023; 0x10400093; 0x22222137; 0x22210113;
   0x217; 0x1020213; 0x20067; 0x113; 0x20A023; 0x10800093; 0x500293; 0x600313; 0x33333137; 0x33310113;
   0x528463; 0x113; 0x20A023; 0x10C00093; 0x500293; 0x600313; 0x44444137; 0x44410113; 0x629463; 0x113;
   0x20A023; 0x11000093; 0x500293; 0x600313; 0x55555137; 0x55510113; 0x62C463; 0x113; 0x20A023; 0x11400093;
   0x500293; 0x600313; 0x66666137; 0x66610113; 0x62E463; 0x113; 0x20A023; 0x11800093; 0x500293; 0x600313;
   0x77777137; 0x77710113; 0x535463; 0x113; 0x20A023; 0x11C00093; 0x500293; 0x600313; 0x88889137;
   0x88810113; 0x537463; 0x113; 0x20A023; 0x73; 0x0] ++
  replicate 8 0xFFFFFFFF ++
  replicate 948 0x0 ++
  [0x53494730].

Definition i_delay_slots_01_log : list (Z * event) := [
  (1, F 268435603 0 4); (2, D 8 0 0 256 0); (2, F 286331191 4 8); (3, D 22 4 1 286330880 0);
  (3, F 286327059 8 12); (4, D 8 8 2 273 2); (4, F 8388719 12 16); (5, D 20 12 3 8 0); (5, F 275 16 20);
  (5, C 0 256); (6, D 8 16 4 0 0); (6, F 2138147 20 24); (6, R 8 0); (7, D 15 20 5 0 1);
  (7, F 272629907 24 28); (7, C 1 286330880); (8, D 8 24 6 260 0); (8, F 572662071 28 32); (8, C 3 16);
  (8, R 22 4); (9, D 22 28 7 572661760 0); (9, F 572588307 32 36); (9, C 4 0); (10, D 8 32 8 546 2);
  (10, F 535 36 40); (10, C 5 0); (11, D 31 36 9 0 0); (11, F 16908819 40 44); (11, C 2 286331153);
  (12, D 8 40 10 16 4); (12, F 131175 44 48); (12, R 8 8); (13, D 21 44 11 0 4); (13, F 275 48 52);
  (13, C 6 260); (13, R 20 12); (15, F 2138147 20 24); (15, C 7 572661760); (16, D 15 20 0 0 1);
  (16, F 272629907 24 28); (17, D 8 24 1 260 0); (17, F 572662071 28 32); (17, C 0 0);
  (18, D 22 28 2 572661760 0); (18, F 572588307 32 36); (18, R 15 20); (19, D 8 32 3 546 2);
  (19, F 535 36 40); (20, D 31 36 4 0 0); (20, F 16908819 40 44); (20, C 1 260); (21, D 8 40 5 16 4);
  (21, F 131175 44 48); (21, R 8 24); (22, D 21 44 6 0 4); (22, F 275 48 52); (22, C 2 572661760);
  (23, D 8 48 7 0 0); (23, F 2138147 52 56); (23, R 22 28); (24, D 15 52 8 0 1); (24, F 276824211 56 60);
  (24, C 4 36); (25, D 8 56 9 264 0); (25, F 5243539 60 64); (26, D 8 60 10 5 0); (26, F 6292243 64 68);
  (26, C 3 572662306); (27, D 8 64 11 6 0); (27, F 858992951 68 72); (27, R 8 32);
  (28, D 22 68 12 858992640 0); (28, F 858849555 72 76); (28, C 9 264); (28, R 31 36);
  (29, D 8 72 13 819 2); (29, F 5407843 76 80); (30, D 16 76 14 8 5); (30, F 275 80 84); (30, C 11 6);
  (31, D 8 80 15 0 0); (31, F 2138147 84 88); (32, D 15 84 0 0 1); (32, F 281018515 88 92); (32, C 5 52);
  (33, D 8 88 1 268 0); (33, F 5243539 92 96); (33, R 8 40); (34, D 8 92 2 5 0); (34, F 6292243 96 100);
  (34, C 15 0); (35, D 8 96 3 6 0); (35, F 1145323831 100 104); (35, C 6 48); (35, R 21 44);
  (37, F 2138147 52 56); (38, D 15 52 0 0 1); (38, F 276824211 56 60); (39, D 8 56 1 264 0);
  (39, F 5243539 60 64); (39, C 0 0); (40, D 8 60 2 5 0); (40, F 6292243 64 68); (40, R 15 52);
  (41, D 8 64 3 6 0); (41, F 858992951 68 72); (42, D 22 68 4 858992640 0); (42, F 858849555 72 76);
  (42, C 1 264); (43, D 8 72 5 819 2); (43, F 5407843 76 80); (43, R 8 56); (44, D 16 76 6 8 5);
  (44, F 275 80 84); (44, C 3 6); (45, D 8 80 7 0 0); (45, F 2138147 84 88); (46, D 15 84 8 0 1);
  (46, F 281018515 88 92); (46, C 2 5); (47, D 8 88 9 268 0); (47, F 5243539 92 96); (47, R 8 60);
  (48, D 8 92 10 5 0); (48, F 6292243 96 100); (48, C 7 0); (48, R 8 64); (49, D 8 96 11 6 0);
  (49, F 1145323831 100 104); (49, C 6 84); (50, D 22 100 12 1145323520 0); (50, F 1145110803 104 108);
  (50, C 8 0); (51, D 8 104 13 1092 2); (51, F 6460515 108 112); (51, C 9 268); (52, D 17 108 14 8 5);
  (52, F 275 112 116); (53, D 8 112 15 0 0); (53, F 2138147 116 120); (53, C 11 6); (54, D 15 116 0 0 1);
  (54, F 285212819 120 124); (55, D 8 120 1 272 0); (55, F 5243539 124 128); (55, C 4 858992640);
  (56, D 8 124 2 5 0); (56, F 6292243 128 132); (56, R 22 68); (57, F 1431654711 132 136); (57, C 15 0);
  (58, D 8 128 3 6 0); (58, F 1431372051 136 140); (58, C 0 0); (59, F 6472803 140 144);
  (59, C 5 858993459); (60, D 22 132 4 1431654400 0); (60, F 275 144 148); (60, R 8 72);
  (61, F 2138147 148 152); (61, C 3 6); (61, R 16 76); (63, F 2138147 84 88); (63, C 4 1431654400);
  (64, D 15 84 0 0 1); (64, F 281018515 88 92); (65, D 8 88 1 268 0); (65, F 5243539 92 96); (65, C 0 0);
  (66, D 8 92 2 5 0); (66, F 6292243 96 100); (66, R 15 84); (67, D 8 96 3 6 0);
  (67, F 1145323831 100 104); (68, D 22 100 4 1145323520 0); (68, F 1145110803 104 108); (68, C 1 268);
  (69, D 8 104 5 1092 2); (69, F 6460515 108 112); (69, R 8 88); (70, D 17 108 6 8 5); (70, F 275 112 116);
  (70, C 3 6); (71, D 8 112 7 0 0); (71, F 2138147 116 120); (72, D 15 116 8 0 1);
  (72, F 285212819 120 124); (72, C 2 5); (73, D 8 120 9 272 0); (73, F 5243539 124 128); (73, R 8 92);
  (74, D 8 124 10 5 0); (74, F 6292243 128 132); (74, C 7 0); (74, R 8 96); (75, D 8 128 11 6 0);
  (75, F 1431654711 132 136); (75, C 6 116); (76, D 22 132 12 1431654400 0); (76, F 1431372051 136 140);
  (76, C 8 0); (77, D 8 136 13 1365 2); (77, F 6472803 140 144); (77, C 9 272); (78, D 18 140 14 8 5);
  (78, F 275 144 148); (79, D 8 144 15 0 0); (79, F 2138147 148 152); (79, C 11 6); (80, D 15 148 0 0 1);
  (80, F 289407123 152 156); (81, D 8 152 1 276 0); (81, F 5243539 156 160); (81, C 4 1145323520);
  (82, D 8 156 2 5 0); (82, F 6292243 160 164); (82, R 22 100); (83, F 1717985591 164 168); (83, C 15 0);
  (84, D 8 160 3 6 0); (84, F 1717633299 168 172); (84, C 0 0); (85, F 6480995 172 176);
  (85, C 5 1145324612); (86, D 22 164 4 1717985280 0); (86, F 275 176 180); (86, R 8 104);
  (87, F 2138147 180 184); (87, C 3 6); (87, R 17 108); (89, F 2138147 116 120); (89, C 4 1717985280);
  (90, D 15 116 0 0 1); (90, F 285212819 120 124); (91, D 8 120 1 272 0); (91, F 5243539 124 128);
  (91, C 0 0); (92, D 8 124 2 5 0); (92, F 6292243 128 132); (92, R 15 116); (93, D 8 128 3 6 0);
  (93, F 1431654711 132 136); (94, D 22 132 4 1431654400 0); (94, F 1431372051 136 140); (94, C 1 272);
  (95, D 8 136 5 1365 2); (95, F 6472803 140 144); (95, R 8 120); (96, D 18 140 6 8 5);
  (96, F 275 144 148); (96, C 3 6); (97, D 8 144 7 0 0); (97, F 2138147 148 152); (98, D 15 148 8 0 1);
  (98, F 289407123 152 156); (98, C 2 5); (99, D 8 152 9 276 0); (99, F 5243539 156 160); (99, R 8 124);
  (100, D 8 156 10 5 0); (100, F 6292243 160 164); (100, C 7 0); (100, R 8 128); (101, D 8 160 11 6 0);
  (101, F 1717985591 164 168); (101, C 6 148); (102, D 22 164 12 1717985280 0);
  (102, F 1717633299 168 172); (102, C 8 0); (103, D 8 168 13 1638 2); (103, F 6480995 172 176);
  (103, C 9 276); (104, D 43 172 14 8 5); (104, F 275 176 180); (105, D 8 176 15 0 0);
  (105, F 2138147 180 184); (105, C 11 6); (106, D 15 180 0 0 1); (106, F 293601427 184 188);
  (107, D 8 184 1 280 0); (107, F 5243539 188 192); (107, C 4 1431654400); (108, D 8 188 2 5 0);
  (108, F 6292243 192 196); (108, R 22 132); (109, F 2004316471 196 200); (109, C 15 0);
  (110, D 8 192 3 6 0); (110, F 2003894547 200 204); (110, C 0 0); (111, F 5461091 204 208);
  (111, C 5 1431655765); (112, D 22 196 4 2004316160 0); (112, F 275 208 212); (112, R 8 136);
  (113, F 2138147 212 216); (113, C 3 6); (113, R 18 140); (115, F 2138147 148 152); (115, C 4 2004316160);
  (116, D 15 148 0 0 1); (116, F 289407123 152 156); (117, D 8 152 1 276 0); (117, F 5243539 156 160);
  (117, C 0 0); (118, D 8 156 2 5 0); (118, F 6292243 160 164); (118, R 15 148); (119, D 8 160 3 6 0);
  (119, F 1717985591 164 168); (120, D 22 164 4 1717985280 0); (120, F 1717633299 168 172); (120, C 1 276);
  (121, D 8 168 5 1638 2); (121, F 6480995 172 176); (121, R 8 152); (122, D 43 172 6 8 5);
  (122, F 275 176 180); (122, C 3 6); (123, D 8 176 7 0 0); (123, F 2138147 180 184);
  (124, D 15 180 8 0 1); (124, F 293601427 184 188); (124, C 2 5); (125, D 8 184 9 280 0);
  (125, F 5243539 188 192); (125, R 8 156); (126, D 8 188 10 5 0); (126, F 6292243 192 196); (126, C 7 0);
  (126, R 8 160); (127, D 8 192 11 6 0); (127, F 2004316471 196 200); (127, C 6 180);
  (128, D 22 196 12 2004316160 0); (128, F 2003894547 200 204); (128, C 8 0); (129, D 8 200 13 1911 2);
  (129, F 5461091 204 208); (129, C 9 280); (130, D 19 204 14 8 6); (130, F 275 208 212);
  (131, D 8 208 15 0 0); (131, F 2138147 212 216); (131, C 11 6); (132, D 15 212 0 0 1);
  (132, F 297795731 216 220); (133, D 8 216 1 284 0); (133, F 5243539 220 224); (133, C 4 1717985280);
  (134, D 8 220 2 5 0); (134, F 6292243 224 228); (134, R 22 164); (135, F 2290651447 228 232);
  (135, C 15 0); (136, D 8 224 3 6 0); (136, F 2290155795 232 236); (136, C 0 0); (137, F 5469283 236 240);
  (137, C 5 1717986918); (138, D 22 228 4 2290651136 0); (138, F 275 240 244); (138, R 8 168);
  (139, F 2138147 244 248); (139, C 3 6); (139, R 43 172); (141, F 2138147 180 184); (141, C 4 2290651136);
  (142, D 15 180 0 0 1); (142, F 293601427 184 188); (143, D 8 184 1 280 0); (143, F 5243539 188 192);
  (143, C 0 0); (144, D 8 188 2 5 0); (144, F 6292243 192 196); (144, R 15 180); (145, D 8 192 3 6 0);
  (145, F 2004316471 196 200); (146, D 22 196 4 2004316160 0); (146, F 2003894547 200 204); (146, C 1 280);
  (147, D 8 200 5 1911 2); (147, F 5461091 204 208); (147, R 8 184); (148, D 19 204 6 8 6);
  (148, F 275 208 212); (148, C 3 6); (149, D 8 208 7 0 0); (149, F 2138147 212 216);
  (150, D 15 212 8 0 1); (150, F 297795731 216 220); (150, C 2 5); (151, D 8 216 9 284 0);
  (151, F 5243539 220 224); (151, R 8 188); (152, D 8 220 10 5 0); (152, F 6292243 224 228); (152, C 7 0);
  (152, R 8 192); (153, D 8 224 11 6 0); (153, F 2290651447 228 232); (153, C 6 212);
  (154, D 22 228 12 2290651136 0); (154, F 2290155795 232 236); (154, C 8 0);
  (155, D 8 232 13 4294965384 2); (155, F 5469283 236 240); (155, C 9 284); (156, D 44 236 14 8 6);
  (156, F 275 240 244); (157, D 8 240 15 0 0); (157, F 2138147 244 248); (157, C 11 6);
  (158, D 15 244 0 0 1); (158, F 115 248 252); (159, D 63 248 1 0 0); (159, F 0 252 256);
  (159, C 4 2004316160); (160, D 62 252 2 0 0); (160, F 4294967295 256 260); (160, R 22 196);
  (161, F 4294967295 260 264); (161, C 15 0); (162, D 62 256 3 0 0); (162, F 4294967295 264 268);
  (162, C 0 0); (163, F 4294967295 268 272); (163, C 5 2004318071); (164, D 62 260 4 0 0);
  (164, F 4294967295 272 276); (164, R 8 200); (165, F 4294967295 276 280); (165, C 3 0); (165, R 19 204);
  (167, F 2138147 212 216); (167, C 4 0); (168, D 15 212 0 0 1); (168, F 297795731 216 220);
  (169, D 8 216 1 284 0); (169, F 5243539 220 224); (169, C 0 0); (170, D 8 220 2 5 0);
  (170, F 6292243 224 228); (170, R 15 212); (171, D 8 224 3 6 0); (171, F 2290651447 228 232);
  (172, D 22 228 4 2290651136 0); (172, F 2290155795 232 236); (172, C 1 284);
  (173, D 8 232 5 4294965384 2); (173, F 5469283 236 240); (173, R 8 216); (174, D 44 236 6 8 6);
  (174, F 275 240 244); (174, C 3 6); (175, D 8 240 7 0 0); (175, F 2138147 244 248);
  (176, D 15 244 8 0 1); (176, F 115 248 252); (176, C 2 5); (177, D 63 248 9 0 0); (177, F 0 252 256);
  (177, R 8 220); (178, D 62 252 10 0 0); (178, F 4294967295 256 260); (178, C 7 0); (178, R 8 224);
  (179, D 62 256 11 0 0); (179, F 4294967295 260 264); (179, C 6 244); (180, D 62 260 12 0 0);
  (180, F 4294967295 264 268); (180, C 8 0); (181, D 62 264 13 0 0); (181, F 4294967295 268 272);
  (181, C 9 0); (182, D 62 268 14 0 0); (182, F 4294967295 272 276); (183, F 4294967295 276 280);
  (183, C 11 0); (184, D 62 272 15 0 0); (184, F 4294967295 280 284); (185, F 4294967295 284 288);
  (185, C 14 0); (186, D 62 276 0 0 0); (186, F 0 288 292); (187, F 0 292 296); (187, C 15 0);
  (188, D 62 280 1 0 0); (188, F 0 296 300); (189, F 0 300 304); (189, C 0 0); (190, D 62 284 2 0 0);
  (190, F 0 304 308); (191, F 0 308 312); (191, C 1 0); (192, D 62 288 3 0 0); (192, F 0 312 316);
  (193, F 0 316 320); (193, C 2 0); (194, F 0 320 324); (195, C 3 0); (197, C 4 2290651136);
  (198, R 22 228); (199, D 62 292 4 0 0); (199, C 10 0); (200, F 0 324 328); (201, C 5 2290649224);
  (202, R 8 232); (203, D 62 296 5 0 0); (203, C 4 0); (203, R 44 236); (205, F 2138147 244 248);
  (205, C 12 0); (206, D 15 244 0 0 1); (206, F 115 248 252); (207, D 63 248 1 0 0); (207, F 0 252 256);
  (207, C 0 0); (208, D 62 252 2 0 0); (208, F 4294967295 256 260); (208, R 15 244); (209, D 62 256 3 0 0);
  (209, F 4294967295 260 264); (210, D 62 260 4 0 0); (210, F 4294967295 264 268); (210, C 1 0);
  (211, D 62 264 5 0 0); (211, F 4294967295 268 272); (211, R 63 248); (212, D 62 268 6 0 0);
  (212, F 4294967295 272 276); (212, C 3 0)].

(** * Programs on the hardware core

    Assembled programs, encoded and loaded into the testbench: the tests of
    sim/test_sim, and three programs on which the core and the simulator
    differ. *)

Section Runs.
Import tomasulo_core sim_compliance.

(** The image of an assembly text; empty when it does not assemble. *)
Definition image (raw : list string) : list Z :=
  match parse_program raw with
  | Ok program => map encode program
  | Stop _ => []
  end.

(** Run until HALT commits, with the cycles that takes. *)
Fixpoint run_to_halt (fuel : nat) (k : Z) (s : System) : option (Z * System) :=
  if halted s then Some (k, s)
  else match fuel with
       | O => None
       | S fuel' => run_to_halt fuel' (k + 1) (next s)
       end.

Definition int_regs (s : System) : list Z := regfile.int_regs (u_rf (core s)).
Definition fp_regs (s : System) : list Z := regfile.fp_regs (u_rf (core s)).
Definition mem_word (s : System) (i : nat) : Z := at_ 0 (data_mem.mem (dmem s)) (Z.of_nat i).

(** The core halts with the registers, and with the memory words, of a
    recorded result; its memory also holds the image. *)
Definition core_ends (fuel : nat) (raw : list string) (f : Final) : bool :=
  match run_to_halt fuel 0 (reset (image raw)) with
  | Some (_, s) =>
      bool_decide (int_regs s = fin_int f) && bool_decide (fp_regs s = fin_fp f) &&
      forallb (fun x : nat * Z => mem_word s (fst x) =? snd x) (fin_mem f)
  | None => false
  end.

(** The integer and floating-point registers the core halts with. *)
Definition core_regs (fuel : nat) (raw : list string) : option (list Z * list Z) :=
  s ← snd <$> run_to_halt fuel 0 (reset (image raw)); Some (int_regs s, fp_regs s).

(** Those the simulator ends with. *)
Definition sim_regs `{FE : FPEnv} (raw : list string) : option (list Z * list Z) :=
  match main raw with
  | Ok (Some f) => Some (fin_int f, fin_fp f)
  | _ => None
  end.

Lemma run_plus m n s : run (m + n) s = run n (run m s).
Proof. revert s. induction m as [|m IH]; intros s; [done|apply IH]. Qed.

(** A run that comes back to a state [p] cycles later repeats. *)
Lemma run_periodic n0 p s :
  (0 < p)%nat -> run (n0 + p) s = run n0 s ->
  forall n, exists k, (k < n0 + p)%nat /\ run n s = run k s.
Proof.
  intros H0 Hp n. induction n as [n IH] using lt_wf_ind.
  destruct (decide (n < n0 + p)%nat) as [Hlt|Hge]; [by exists n|].
  destruct (IH (n - p)%nat) as (k & Hk & Hrun); [lia|]. exists k. split; [done|].
  rewrite <- Hrun. replace n with ((n0 + p) + (n - n0 - p))%nat at 1 by lia.
  rewrite run_plus, Hp, <- run_plus. f_equal. lia.
Qed.

(** Then it never halts when it does not halt before. *)
Fixpoint no_halt (n : nat) (s : System) : bool :=
  match n with
  | O => true
  | S k => negb (halted s) && no_halt k (next s)
  end.

Lemma no_halt_run n s k : no_halt n s = true -> (k < n)%nat -> halted (run k s) = false.
Proof.
  revert s k. induction n as [|n IH]; intros s [|k] H Hk; try lia;
    cbn in H; apply andb_true_iff in H as [Hs H].
  - by apply negb_true_iff.
  - cbn [run]. apply IH; [exact H|lia].
Qed.

Lemma never_halts n0 p s :
  (0 < p)%nat -> run (n0 + p) s = run n0 s -> no_halt (n0 + p) s = true ->
  forall n, halted (run n s) = false.
Proof.
  intros H0 Hp Hn n. destruct (run_periodic n0 p s H0 Hp n) as (k & Hk & ->).
  by apply (no_halt_run (n0 + p)).
Qed.

End Runs.

(** ** Programs on which the core and the simulator differ *)

(** 6 / 3. *)
Definition divide_asm : list string := ["ADDI x1, x0, 6";
  "ADDI x2, x0, 3";
  "FCVT.S.W f1, x1";
  "FCVT.S.W f2, x2";
  "FDIV.S f3, f1, f2";
  "HALT"].

(** A branch that waits for a load behind a chain of divisions, in a full
    reorder buffer; the load wakes a conversion, an addition and the branch in
    the same cycle. *)
Definition late_branch_asm : list string := ["ADDI x1, x0, 1";
  "FCVT.S.W f1, x1";
  "FDIV.S f2, f0, f1";
  "FDIV.S f2, f2, f1";
  "FDIV.S f2, f2, f1";
  "FDIV.S f2, f2, f1";
  "FCVT.W.S x4, f2";
  "LW x5, 1024(x4)";
  "BNE x5, x5, 8      # not taken; ahead of it in the arbiter are";
  "ADD x6, x5, x5     # this addition";
  "FCVT.S.W f5, x5    # and this conversion";
  "ADDI x7, x0, 1";
  "ADDI x8, x0, 1";
  "ADDI x9, x0, 1";
  "ADDI x10, x0, 1";
  "ADDI x11, x0, 1";
  "ADDI x12, x0, 1";
  "ADDI x13, x0, 1";
  "ADDI x14, x0, 1";
  "ADDI x15, x0, 1";
  "ADDI x16, x0, 1";
  "FDIV.S f8, f0, f1";
  "FDIV.S f9, f0, f1";
  "ADDI x20, x0, 7";
  "ADDI x21, x0, 7    # takes over the tag of the branch";
  "ADDI x22, x0, 7";
  "HALT"].

Definition late_branch_regs (x21 : Z) : list Z :=
  regs ([(1%nat, 1); (20%nat, 7); (21%nat, x21); (22%nat, 7)] ++
    map (fun r => (r, 1)) [7; 8; 9; 10; 11; 12; 13; 14; 15; 16]%nat).

(** A store behind HALT. *)
Definition behind_halt_asm : list string := ["ADDI x1, x0, 1";
  "HALT";
  "SW x1, 64(x0)"].

(** Memory word [w] when the core has halted, and [n] cycles later. *)
Definition core_word (fuel n : nat) (raw : list string) (w : nat) : option (Z * Z) :=
  s ← snd <$> run_to_halt fuel 0 (sim_compliance.reset (image raw));
  Some (mem_word s w, mem_word (sim_compliance.run n s) w).
