(* ===== verification/HwAgreement.v ===== *)
(** * The core and the simulator agree

    Two implementations of one instruction set: the C++ simulator, which
    Refinement shows to implement [ISA], and the core, which HwStraight shows to
    implement [hw_seq]. Here [hw_seq] on encoded instructions is [ISA], for
    integer operations, loads and stores without branches. *)

From S2P Require Import Prelude Words HwPkg HwUnits HwTables HwStation HwControl HwCore.
From S2P Require Import HwDecode HwUnitFacts HwSequential HwInvariant HwStraight HwPrograms.
From S2P Require Import Config Float32 Instruction RegisterFile InstructionQueue Simulator.
From S2P Require Import SeqFacts Coherence Refinement Programs ISA.

(** ** The programs *)

(** Operations that the core computes as the simulator does: those of the
    integer unit, and all loads and stores. *)
Definition agreed_op (o : Opcode) : bool :=
  alu_op o && negb (op_eqb o HALT) || is_load o || is_store o.

Definition agreed (i : Instruction) : bool := encodable i && agreed_op (op i).

(** The last instruction. *)
Definition halt_instr : Instruction := mkInstruction HALT (-1) (-1) (-1) 0 false false false 0.

(** The data memory starts with the words of the program in the core and with
    zeros in the simulator: accesses are behind the program, in the memory. *)
Definition behind (n : Z) (i : Instruction) (a : Arch) : bool :=
  negb (is_load (op i) || is_store (op i)) ||
  ((n <=? eff_addr i a / 4) && (eff_addr i a / 4 <? MEM_SIZE)).

Definition data_behind `{FE : FPEnv} (p : list Instruction) : bool :=
  forallb (fun k =>
      match stamp p !! k with
      | Some i => behind (len p) i (steps (stamp p) k arch_init)
      | None => true
      end) (seq 0 (length p)).

(** ** One instruction *)

(** A register operand, or none. *)
Definition operand_ok (r : Z) (fp : bool) : Prop := 0 <= r < 32 \/ (r = -1 /\ fp = false).

Lemma format_operands i : format_ok i = true ->
  operand_ok (rd i) (rd_fp i) /\ operand_ok (rs1 i) (rs1_fp i) /\ operand_ok (rs2 i) (rs2_fp i).
Proof.
  unfold format_ok, operand_ok. destruct (op i); intros H; try discriminate H;
    repeat (apply andb_true_iff in H as [H ?]);
    repeat match goal with
    | H : (_ && _) = true |- _ => apply andb_true_iff in H as [? ?]
    | H : eqb _ _ = true |- _ => apply eqb_prop in H
    | H : (_ <=? _) = true |- _ => apply Z.leb_le in H
    | H : (_ <? _) = true |- _ => apply Z.ltb_lt in H
    | H : (_ =? _) = true |- _ => apply Z.eqb_eq in H
    end; split_and!; first [left; lia|by right].
Qed.

(** What the simulator asks of an instruction. *)
Lemma encodable_wf i : encodable i = true -> wf_instr i = true /\ named i = true.
Proof.
  unfold encodable. intros [Hf Hm]%andb_true_iff. destruct (format_operands i Hf) as (H1 & H2 & H3).
  unfold operand_ok in *. split; [|apply named_regs; lia]. unfold wf_instr. revert Hf Hm.
  unfold format_ok, imm_fits. destruct (op i); try done; cbn [is_store is_branch is_load is_jump op_eqb];
    rewrite ?andb_true_iff, ?Z.eqb_eq, ?Z.leb_le, ?Z.ltb_lt, ?eqb_true_iff;
    intros Hf' Hm'; split_and!; destruct_and?; first [done|lia|by apply Z.eqb_eq|by apply negb_true_iff].
Qed.

(** The registers of the two machines, and the memory from word [n] on. *)
Record same (n : Z) (h : hw_seq.state) (a : Arch) : Prop := {
  sm_sized : hw_seq.sized h;
  sm_regs : forall r fp, 0 <= r < 32 -> hw_seq.read h fp r = read_reg a r fp;
  sm_mem : forall w, n <= w < MEM_SIZE -> at_ 0 (hw_seq.mem h) w = am a w
}.

Lemma word_index_eff a b : a / 4 < MEM_SIZE -> a = b -> 0 <= a -> data_mem.word_index b = a / 4.
Proof.
  intros Ha <- H0. unfold data_mem.word_index, bits. change (2 ^ 2) with 4. change (2 ^ (11 - 2 + 1)) with MEM_SIZE.
  apply Z.mod_small. split; [apply Z.div_pos; lia|done].
Qed.

Section Step.
Context `{FE : FPEnv}.
Context (n : Z) (h : hw_seq.state) (a : Arch) (i : Instruction).
Hypothesis Hn : 0 <= n.
Hypothesis Hsame : same n h a.
Hypothesis Hok : arch_ok a.
Hypothesis Hi : agreed i = true.
Hypothesis Hbehind : behind n i a = true.

Let j : instr_t := hw_instr i (pc i).

Lemma agreed_format : format_ok i = true /\ agreed_op (op i) = true.
Proof. unfold agreed, encodable in Hi. rewrite !andb_true_iff in Hi. tauto. Qed.

Lemma agreed_ops : is_load_op (hw_op (op i)) = is_load (op i) /\ is_store_op (hw_op (op i)) = is_store (op i) /\
  is_branch (op i) = false /\ is_jump (op i) = false.
Proof. destruct agreed_format as [_ Ho]. revert Ho. by destruct (op i). Qed.

Lemma operand_read r fp : operand_ok r fp -> hw_seq.read h fp (hw_reg r) = read_reg a r fp.
Proof.
  intros [Hr|[-> ->]].
  - unfold hw_reg. rewrite Z.max_l by lia. by apply (sm_regs _ _ _ Hsame).
  - by apply (sm_regs _ _ _ Hsame 0 false).
Qed.

Lemma op1_read : hw_seq.op1 h j = read_reg a (rs1 i) (rs1_fp i).
Proof. apply operand_read. by destruct (format_operands i (proj1 agreed_format)) as (_ & ? & _). Qed.

Lemma op2_read : hw_seq.op2 h j = read_reg a (rs2 i) (rs2_fp i).
Proof. apply operand_read. by destruct (format_operands i (proj1 agreed_format)) as (_ & _ & ?). Qed.

Lemma access_base : is_load (op i) || is_store (op i) = true -> rs1_fp i = false.
Proof.
  destruct agreed_format as [Hf _]. unfold format_ok in Hf. destruct (op i); intros H; try discriminate H;
    rewrite !andb_true_iff in Hf; by destruct (rs1_fp i), (rs2_fp i), (rd_fp i); cbn in Hf; intuition.
Qed.

(** Both machines access the same word. *)
Lemma access_word : is_load (op i) || is_store (op i) = true ->
  data_mem.word_index (hw_seq.address (hw_seq.op1 h j) (in_imm j)) = eff_addr i a / 4 /\
  n <= eff_addr i a / 4 < MEM_SIZE.
Proof.
  intros Ha. unfold behind in Hbehind. rewrite Ha in Hbehind. cbn [negb orb] in Hbehind.
  apply andb_true_iff in Hbehind as [H1%Z.leb_le H2%Z.ltb_lt]. split; [|done].
  apply word_index_eff; [done| |].
  - rewrite op1_read, (access_base Ha). unfold hw_seq.address, eff_addr. cbn [j hw_instr in_imm].
    assert (hw_imm (op i) (imm i) = u32 (imm i)) as -> by (revert Ha; by destruct (op i)).
    by rewrite trunc_add_u32.
  - unfold eff_addr. apply Z.mod_pos_bound. lia.
Qed.

Lemma result_same : is_store (op i) = false -> hw_seq.result h j = dest_value i (result i a).
Proof.
  intros Hst. destruct agreed_ops as (Hl & Hs & Hb & Hj). unfold hw_seq.result, dest_value, result.
  change (in_op j) with (hw_op (op i)). rewrite Hl, Hst, Hj. destruct (is_load (op i)) eqn:Hld.
  - destruct access_word as [Hw Hr]; [by rewrite Hld|]. unfold hw_seq.load_word. rewrite Hw.
    rewrite (sm_mem _ _ _ Hsame) by done. unfold load_word. rewrite (proj2 (Z.ltb_lt _ _)) by lia.
    revert Hld. by destruct (op i).
  - destruct agreed_format as [_ Ho]. unfold agreed_op in Ho. rewrite Hld, Hst, !orb_false_r in Ho.
    apply andb_true_iff in Ho as [Ho _]. unfold hw_seq.compute.
    assert (dispatch.target_of (hw_op (op i)) = dispatch.T_ALU) as -> by (revert Ho; by destruct (op i)).
    rewrite op1_read, op2_read. apply alu_int_is_alu; [done|by apply read_reg_u32..].
Qed.

Lemma writes_same r fp : 0 <= r < 32 ->
  hw_seq.writes j fp r =
  bool_decide (r = rd i /\ fp = rd_fp i /\ 0 <= rd i /\ (rd_fp i = true \/ rd i <> 0)).
Proof.
  intros Hr. unfold hw_seq.writes. cbn [j hw_instr in_rd_valid in_rd_fp in_rd]. unfold hw_reg.
  apply eq_true_iff_eq. rewrite bool_decide_eq_true, !andb_true_iff, orb_true_iff, negb_true_iff, eqb_true_iff.
  rewrite Z.leb_le, Z.eqb_eq, Z.eqb_neq. split.
  - intros [[[H1 H2] H3] H4]. rewrite Z.max_l in H3 by done. subst. naive_solver.
  - intros (H1 & H2 & H3 & H4). rewrite Z.max_l by done. subst. naive_solver.
Qed.

Lemma step_same : same n (hw_seq.step h j) (exec i a).
Proof.
  destruct agreed_ops as (Hl & Hs & _ & _).
  destruct (format_operands i (proj1 agreed_format)) as (Hrd & _).
  assert (Hrj : 0 <= in_rd j < 32) by (cbn [j hw_instr in_rd]; unfold hw_reg; destruct Hrd; lia).
  constructor.
  - apply hw_seq.step_sized, Hsame.
  - intros r fp Hr. unfold exec. rewrite read_reg_exec, <- writes_same by done.
    destruct (hw_seq.writes j fp r) eqn:Hw.
    + rewrite hw_seq.read_write_eq by first [done|lia|apply Hsame]. apply result_same.
      unfold hw_seq.writes in Hw. rewrite !andb_true_iff in Hw. destruct Hw as [[[Hv _] _] _].
      cbn [j hw_instr in_rd_valid] in Hv. destruct agreed_format as [Hf _]. revert Hf Hv. unfold format_ok.
      destruct (op i); try done; rewrite !andb_true_iff, !Z.eqb_eq; intros; lia.
    + rewrite hw_seq.read_write_ne by first [done|lia|apply Hsame]. by apply (sm_regs _ _ _ Hsame).
  - intros w Hw. unfold exec. rewrite am_exec. unfold hw_seq.step. cbn [hw_seq.mem].
    change (in_op j) with (hw_op (op i)). rewrite Hs.
    destruct (is_store (op i)) eqn:Hst; cbn [andb]; [|by apply (sm_mem _ _ _ Hsame)].
    destruct access_word as [Hwi Hr]; [by rewrite Hst, orb_true_r|].
    unfold hw_seq.store_word. rewrite Hwi, op2_read.
    assert (load_store_buffer.store_be (hw_op (op i)) (hw_seq.address (hw_seq.op1 h j) (in_imm j)) = 15) as ->
      by (revert Hst; by destruct (op i)).
    assert (forall v, load_store_buffer.store_wdata (hw_op (op i)) v = v) as -> by (revert Hst; by destruct (op i)).
    rewrite merge_all by (by apply read_reg_u32). pose proof (hw_seq.sz_mem _ (sm_sized _ _ _ Hsame)) as Hlen.
    change HwPkg.MEM_SIZE with MEM_SIZE in Hlen. rewrite at_put by lia.
    rewrite (proj2 (Z.ltb_lt (eff_addr i a / 4) MEM_SIZE)) by lia.
    cbn [andb]. destruct (w =? _); [done|]. by apply (sm_mem _ _ _ Hsame).
Qed.

End Step.

(** ** Until the core halts *)

Lemma committed_S n s :
  committed (S n) s = (committed n s + (if commits_now (sim_compliance.run n s) then 1 else 0))%nat.
Proof.
  revert s. induction n as [|n IH]; intros s; [done|].
  change (committed (S (S n)) s) with (bump (committed (S n) (sim_compliance.next s)) (commits_now s)).
  rewrite IH. cbn [committed sim_compliance.run]. unfold bump. lia.
Qed.

(** [run_to_halt] finds the first cycle in which the core has halted. *)
Lemma run_to_halt_first fuel k s :
  sim_compliance.halted (sim_compliance.run fuel s) = true ->
  exists n, run_to_halt fuel k s = Some (k + Z.of_nat n, sim_compliance.run n s) /\ (n <= fuel)%nat /\
    sim_compliance.halted (sim_compliance.run n s) = true /\
    (forall m, (m < n)%nat -> sim_compliance.halted (sim_compliance.run m s) = false).
Proof.
  revert k s. induction fuel as [|fuel IH]; intros k s Hf; cbn [run_to_halt];
    destruct (sim_compliance.halted s) eqn:Hs;
    try (exists 0%nat; rewrite Z.add_0_r; split_and!; [done|lia|done|lia]); [cbn in Hf; congruence|].
  destruct (IH (k + 1) (sim_compliance.next s) Hf) as (n & Hr & Hn & Hh & Hm). exists (S n).
  split_and!; [rewrite Hr; f_equal; f_equal; lia|lia|done|]. intros [|m] Hlt; [done|]. apply (Hm m). lia.
Qed.

(** ** Programs *)

Lemma map_lookup_Some {A B} (f : A -> B) l k x : l !! k = Some x -> map f l !! k = Some (f x).
Proof. intros H. pose proof (list_lookup_fmap f l k) as E. by rewrite H in E. Qed.

Section Program.
Context `{FE : FPEnv}.
Context (body : list Instruction).

Let p : list Instruction := body ++ [halt_instr].
Let words : list Z := map encode p.

Hypothesis Hbody : Forall (fun i => agreed i = true) body.
Hypothesis Hfits : len p <= MEM_SIZE.
Hypothesis Hdata : data_behind p = true.

Lemma p_lookup k i : p !! k = Some i -> encodable i = true /\ is_branch (op i) || is_jump (op i) = false.
Proof.
  unfold p. intros [Hk|[_ Hk]]%lookup_app_Some.
  - pose proof (Forall_lookup_1 _ _ _ _ Hbody Hk) as Ha. unfold agreed in Ha. apply andb_true_iff in Ha as [He Ho].
    split; [done|]. revert Ho. by destruct (op i).
  - by apply list_lookup_singleton_Some in Hk as [_ <-].
Qed.

Lemma load_at k i : p !! k = Some i -> at_ 0 (sim_compliance.load words) (Z.of_nat k) = encode i.
Proof.
  intros Hk. pose proof (lookup_lt_Some _ _ _ Hk) as Hlt. unfold at_, sim_compliance.load.
  rewrite Nat2Z.id, nth_lookup. change HwPkg.MEM_SIZE with MEM_SIZE. unfold words.
  rewrite lookup_take_lt by (unfold MEM_SIZE in *; lia). rewrite lookup_app_l by (rewrite length_map; lia).
  by rewrite (map_lookup_Some encode p k i Hk).
Qed.

(** The [k]-th word fetched is the [k]-th instruction. *)
Lemma fetched_instr k i : stamp p !! k = Some i ->
  hw_seq.fetched (sim_compliance.load words) k = hw_instr i (pc i).
Proof.
  rewrite stamp_lookup. destruct (p !! k) as [i0|] eqn:Hk; [|done]. cbn. intros [= <-].
  pose proof (lookup_lt_Some _ _ _ Hk) as Hlt. destruct (p_lookup k i0 Hk) as [He _].
  unfold hw_seq.fetched. 
  assert (trunc 32 (4 * Z.of_nat k) = 4 * Z.of_nat k) as -> by (apply trunc_id; unfold MEM_SIZE in *; lia).
  assert (bits (4 * Z.of_nat k) 11 2 = Z.of_nat k) as ->.
  { change (data_mem.word_index (4 * Z.of_nat k) = Z.of_nat k).
    rewrite (word_index_eff (4 * Z.of_nat k)) by (try done; rewrite ?(Z.mul_comm 4), ?Z.div_mul; unfold MEM_SIZE in *; lia).
    rewrite Z.mul_comm. by apply Z.div_mul. }
  rewrite (load_at k i0 Hk), decode_encode by done.
  unfold hw_instr. cbn [set_pc op rd rs1 rs2 imm rd_fp rs1_fp rs2_fp pc]. f_equal.
  unfold u32. rewrite Z.mod_small; unfold MEM_SIZE in *; lia.
Qed.

Lemma words_straight : hw_seq.straight (sim_compliance.load words) = true.
Proof.
  unfold hw_seq.straight, sim_compliance.load. apply forallb_forall. intros w Hw.
  apply list_elem_of_In, elem_of_take in Hw as (k & Hw & _). apply negb_true_iff.
  apply lookup_app_Some in Hw as [Hw|[_ Hw]]; [|by apply lookup_replicate in Hw as [-> _]].
  unfold words in Hw. apply (list_lookup_fmap_Some encode p k w) in Hw as (i & -> & Hi). destruct (p_lookup k i Hi) as [He Hb].
  rewrite decode_encode by done. revert Hb. unfold hw_seq.branches. cbn [hw_instr in_op]. by destruct (op i).
Qed.

(** ** Runs *)

Let a_at (k : nat) : Arch := steps (stamp p) k arch_init.
Let s0 : hw_seq.state := hw_seq.initial words.
Let ins : nat -> instr_t := hw_seq.fetched (sim_compliance.load words).

Lemma body_lookup k : (k < length body)%nat ->
  exists i, stamp p !! k = Some i /\ agreed i = true /\ pc i = 4 * Z.of_nat k /\ behind (len p) i (a_at k) = true.
Proof.
  intros Hk. destruct (lookup_lt_is_Some_2 body k Hk) as [i Hi].
  exists (set_pc i (u32 (Z.of_nat k * 4))).
  assert (Hp : stamp p !! k = Some (set_pc i (u32 (Z.of_nat k * 4)))).
  { rewrite stamp_lookup. unfold p. by rewrite lookup_app_l, Hi. }
  assert (Hlen : length p = S (length body)) by (unfold p; rewrite length_app; cbn; lia).
  split_and!; [done|exact (Forall_lookup_1 _ _ _ _ Hbody Hi)| |].
  - cbn. unfold u32. rewrite Z.mod_small; unfold MEM_SIZE in *; lia.
  - pose proof Hdata as H. unfold data_behind in H. rewrite forallb_forall in H. specialize (H k).
    rewrite Hp in H. apply H, in_seq. lia.
Qed.

Lemma initial_same : same (len p) s0 arch_init.
Proof.
  constructor.
  - apply hw_seq.initial_sized.
  - intros r fp Hr. change (hw_seq.read s0 fp r) with (at_ 0 (if fp then hw_seq.fs s0 else hw_seq.xs s0) r).
    assert (at_ 0 (if fp then hw_seq.fs s0 else hw_seq.xs s0) r = 0) as ->.
    { unfold at_. rewrite nth_lookup. by destruct fp; cbn; destruct (_ !! _) eqn:E; cbn; [apply (lookup_replicate 32) in E as [-> _]| | apply (lookup_replicate 32) in E as [-> _]|]. }
    unfold read_reg. cbn. by repeat case_match.
  - intros w Hw. cbn. unfold at_, sim_compliance.load. rewrite nth_lookup. change HwPkg.MEM_SIZE with MEM_SIZE.
    unfold words. rewrite lookup_take_lt by (unfold MEM_SIZE in *; lia).
    rewrite lookup_app_r by (rewrite length_map; lia). rewrite lookup_replicate_2; [done|].
    rewrite length_map. unfold MEM_SIZE in *. lia.
Qed.

Lemma run_same k : (k <= length body)%nat ->
  same (len p) (hw_seq.run s0 ins k) (a_at k) /\ apc (a_at k) = 4 * Z.of_nat k.
Proof.
  induction k as [|k IH]; intros Hk; [split; [apply initial_same|done]|].
  destruct IH as [Hs Hpc]; [lia|]. destruct (body_lookup k ltac:(lia)) as (i & Hi & Ha & Hip & Hb).
  assert (Hstep : a_at (S k) = exec i (a_at k)).
  { unfold a_at. cbn [steps]. unfold step, fetch. fold (a_at k). rewrite Hpc, Z.mul_comm, Z.div_mul, Nat2Z.id, Hi by done. done. }
  rewrite Hstep. split.
  - cbn [hw_seq.run]. unfold ins at 2. rewrite (fetched_instr k i Hi).
    apply step_same; [lia|done|by apply steps_ok, arch_init_ok|done|done].
  - unfold exec, exec_with. cbn [apc set_apc]. destruct (agreed_ops i Ha) as (_ & _ & -> & ->).
    cbn [orb]. rewrite Hip. assert (length p = S (length body)) by (unfold p; rewrite length_app; cbn; lia).
    rewrite Z.mod_small; unfold MEM_SIZE in *; lia.
Qed.

Lemma halt_at : stamp p !! length body = Some (set_pc halt_instr (u32 (Z.of_nat (length body) * 4))).
Proof. rewrite stamp_lookup. unfold p. by rewrite lookup_app_r, Nat.sub_diag. Qed.

Lemma run_stops_at m k : (k + m = length body)%nat -> run (stamp p) m (a_at k) = Some (a_at (length body)).
Proof.
  revert k. induction m as [|m IH]; intros k Hk; destruct (run_same k ltac:(lia)) as [_ Hpc];
    cbn [run]; unfold fetch; rewrite Hpc, Z.mul_comm, Z.div_mul, Nat2Z.id by done.
  - replace k with (length body) by lia. by rewrite halt_at.
  - destruct (body_lookup k ltac:(lia)) as (i & Hi & Ha & _). rewrite Hi.
    assert (op_eqb (op i) HALT = false) as ->
      by (destruct (agreed_format i Ha) as [_ Ho]; revert Ho; by destruct (op i)).
    rewrite <- (IH (S k)) by lia. f_equal. unfold a_at. cbn [steps]. unfold step, fetch. fold (a_at k).
    by rewrite Hpc, Z.mul_comm, Z.div_mul, Nat2Z.id, Hi.
Qed.

Lemma program_wf : wf_source p /\ run (stamp p) (length body) arch_init = Some (a_at (length body)).
Proof.
  assert (Hall : Forall (fun i => wf_instr i = true /\ named i = true) p).
  { apply Forall_lookup. intros k i Hk. by apply encodable_wf, (p_lookup k). }
  split; [|by apply (run_stops_at _ 0)]. apply Forall_and in Hall as [H1 H2].
  split; [split; [done|unfold MEM_SIZE in *; lia]|done].
Qed.

(** Nothing before the last instruction halts the core. *)
Lemma halts_last k : (k <= S (length body))%nat ->
  existsb (fun j => halts (ins j)) (seq 0 k) = (k =? S (length body))%nat.
Proof.
  assert (Hins : forall j, (j <= length body)%nat -> halts (ins j) = (j =? length body)%nat).
  { intros j Hj. destruct (decide (j = length body)) as [->|Hne].
    - unfold ins. rewrite (fetched_instr _ _ halt_at), Nat.eqb_refl. done.
    - destruct (body_lookup j ltac:(lia)) as (i & Hi & Ha & _). unfold ins. rewrite (fetched_instr j i Hi).
      rewrite (proj2 (Nat.eqb_neq _ _) Hne). destruct (agreed_format i Ha) as [_ Ho]. revert Ho.
      unfold halts. cbn [hw_instr in_op]. by destruct (op i). }
  induction k as [|k IH]; intros Hk; [done|]. rewrite existsb_seq_S, IH, Hins by lia.
  apply eq_true_iff_eq. rewrite orb_true_iff, !Nat.eqb_eq. lia.
Qed.

Lemma halts_when k : (S (length body) <= k)%nat -> existsb (fun j => halts (ins j)) (seq 0 k) = true.
Proof.
  intros Hk. pose proof (halts_last (S (length body)) ltac:(lia)) as H. rewrite Nat.eqb_refl in H.
  apply existsb_exists in H as (j & Hj%in_seq & Hh). apply existsb_exists. exists j. split; [apply in_seq; lia|done].
Qed.

(** HALT changes nothing. *)
Lemma halt_same : same (len p) (hw_seq.run s0 ins (S (length body))) (a_at (length body)).
Proof.
  destruct (run_same (length body) ltac:(lia)) as [[Hs Hr Hm] _]. cbn [hw_seq.run]. unfold ins at 2.
  rewrite (fetched_instr _ _ halt_at).
  constructor; [apply hw_seq.step_sized, Hs|exact Hr|exact Hm].
Qed.

(** The core halts when exactly the instructions of the program committed. *)
Lemma core_halts : exists n,
  run_to_halt (13 * length body + 195) 0 (sim_compliance.reset words) =
    Some (Z.of_nat n, sim_compliance.run n (sim_compliance.reset words)) /\
  committed n (sim_compliance.reset words) = S (length body).
Proof.
  pose proof (straight_run words words_straight) as Hrun. cbn zeta in Hrun. fold ins in Hrun.
  set (s := sim_compliance.reset words) in *.
  assert (Hhalted : forall n, sim_compliance.halted (sim_compliance.run n s) =
    existsb (fun j => halts (ins j)) (seq 0 (committed n s))) by (intros n; apply Hrun).
  destruct (run_to_halt_first (13 * length body + 195) 0 s) as (n & Hr & _ & Hn & Hfirst).
  { rewrite Hhalted. apply halts_when. destruct (Hrun (13 * length body + 195)%nat) as (_ & _ & _ & _ & ?). lia. }
  exists n. split; [by rewrite Hr|]. rewrite Hhalted in Hn. destruct n as [|n]; [discriminate Hn|].
  specialize (Hfirst n ltac:(lia)). rewrite Hhalted in Hfirst. rewrite committed_S in *.
  assert (committed n s <= length body)%nat.
  { apply Nat.nlt_ge. intros Hlt. rewrite halts_when in Hfirst by lia. discriminate Hfirst. }
  assert (Hle : (committed n s + (if commits_now (sim_compliance.run n s) then 1 else 0) <= S (length body))%nat)
    by (destruct (commits_now _); lia).
  rewrite halts_last in Hn by done. by apply Nat.eqb_eq.
Qed.

Lemma core_agrees : forwarding_safe (stamp p) ->
  exists s n c, simulate p = Ok s /\
    run_to_halt (13 * length body + 195) 0 (sim_compliance.reset words) = Some (n, c) /\
    (forall r, 0 <= r < 32 ->
      read_bits (rf s) r false = Ok (at_ 0 (int_regs c) r) /\
      read_bits (rf s) r true = Ok (at_ 0 (fp_regs c) r)) /\
    (forall w, (length p <= w < Z.to_nat MEM_SIZE)%nat -> mem s !! w = Some (mem_word c w)).
Proof.
  intros Hsafe. destruct program_wf as [Hwf Hrun]. destruct core_halts as (n & Hn & Hk).
  destruct (simulate_halts p (length body) (a_at (length body)) Hwf Hsafe Hrun) as (s & Hs & _ & (Hrf & _ & Hmem) & _).
  { assert (length p = S (length body)) by (unfold p; rewrite length_app; cbn; lia).
    unfold MEM_SIZE, MAX_CYCLES in *. lia. }
  destruct (straight_run words words_straight n) as (Hx & Hf & Hm & _). fold s0 ins in Hx, Hf, Hm.
  rewrite Hk in Hx, Hf, Hm. destruct halt_same as [_ Hregs Hmems].
  generalize dependent (hw_seq.run s0 ins (S (length body))). intros t Hx Hf Hm Hregs Hmems.
  exists s, (Z.of_nat n), (sim_compliance.run n (sim_compliance.reset words)). split; [done|]. split; [done|].
  split.
  - intros r Hr. unfold int_regs, fp_regs. rewrite Hx, Hf.
    rewrite !Hrf by done.
    split; f_equal; symmetry; [apply (Hregs r false)|apply (Hregs r true)]; done.
  - intros w Hw. unfold mem_word. rewrite Hm, Hmems by (unfold MEM_SIZE in *; lia).
    rewrite <- Hmem by (unfold MEM_SIZE in *; lia). by rewrite Nat2Z.id.
Qed.

End Program.
