(* ===== verification/HwBoard.v ===== *)
(** * cpu.sv: the core on the board

    The top level of the DE1-SoC board: it copies one of the programs of a ROM
    into both memories, lets the core run and shows the cycle count, then words
    of the data memory. Module [cpu] is the model; after it come the loader
    ([boots]), the run, which is that of the testbench ([mirrors_run]), and the
    review of the memory ([review_shows]). *)

From S2P Require Import Prelude Words HwPkg HwUnits HwTables HwStation HwControl HwCore HwSequential.

Module cpu.

Definition NUM_PROGRAMS : Z := 44.
Definition META_BEGIN_WORD : Z := MEM_SIZE - 3.
Definition META_END_WORD : Z := MEM_SIZE - 2.
Definition META_COUNT_WORD : Z := MEM_SIZE - 1.
Definition LAST_WORD : Z := MEM_SIZE - 1.

(** [KEY\[0\]], low while pressed, and the ten switches of a clock cycle. *)
Record inputs : Type := mkInputs { KEY0 : bool; SW : Z }.

(** ** Helper functions *)

(** The seven segments, the first in bit 0, low when lit. *)
Definition hex_digit (n : Z) : Z :=
  match n with
  | 0x0 => 0x40
  | 0x1 => 0x79
  | 0x2 => 0x24
  | 0x3 => 0x30
  | 0x4 => 0x19
  | 0x5 => 0x12
  | 0x6 => 0x02
  | 0x7 => 0x78
  | 0x8 => 0x00
  | 0x9 => 0x10
  | 0xA => 0x08
  | 0xB => 0x03
  | 0xC => 0x46
  | 0xD => 0x21
  | 0xE => 0x06
  | 0xF => 0x0E
  | _ => 0x7F
  end.

Definition word_to_byte_addr (word_idx : Z) : Z := cat word_idx 2 0.

Definition clamp_program_sel (raw_sel : Z) : Z := if raw_sel <? NUM_PROGRAMS then raw_sel else 0.

(** ** The loader *)

Record loader : Type := mkLoader {
  active_program : Z;
  loading : bool;
  load_req_word : Z;
  load_data_word : Z;
  load_data_valid : bool;
  sig_begin_word : Z;
  sig_end_word : Z;
  sig_word_count : Z
}.

Definition load_wr_en (l : loader) : bool := loading l && load_data_valid l.

(** [{active_program, load_req_word}] *)
Definition lib_word_addr (l : loader) : Z := cat (active_program l) 10 (load_req_word l).

Definition next_loader (l : loader) (rst_n : bool) (sw lib_word_data : Z) : loader :=
  if negb rst_n then mkLoader (clamp_program_sel (bits sw 5 0)) true 0 0 false 0 0 0
  else if loading l then
    let meta at_word old :=
      if load_data_valid l && (load_data_word l =? at_word) then bits lib_word_data 9 0 else old in
    let sig_begin := meta META_BEGIN_WORD (sig_begin_word l) in
    let sig_end := meta META_END_WORD (sig_end_word l) in
    let sig_count := meta META_COUNT_WORD (sig_word_count l) in
    if negb (load_data_valid l) then
      mkLoader (active_program l) true 1 0 true sig_begin sig_end sig_count
    else if load_data_word l =? LAST_WORD then
      mkLoader (active_program l) false 0 0 false sig_begin sig_end sig_count
    else
      mkLoader (active_program l) true
        (if negb (load_req_word l =? LAST_WORD) then trunc 10 (load_req_word l + 1) else load_req_word l)
        (load_req_word l) true sig_begin sig_end sig_count
  else l.

(** ** The board *)

Record state : Type := mk {
  rst_sync_ff1 : bool;
  rst_n_q : bool;
  lib_word_data : Z;
  u_load : loader;
  u_imem : instr_mem.state;
  u_dmem : data_mem.state;
  fetch_pc : Z;
  fetch_pc_d : Z;
  fetch_valid : bool;
  u_core : tomasulo_core.Core;
  halted : bool;
  cycle_count : Z;
  review_data_word : Z
}.

Section Wires.
Context (s : state) (i : inputs).

(** The reset is asserted by the key at once, and released by the clock. *)
Definition rst_n : bool := rst_n_q s && KEY0 i.
Definition core_rst_n : bool := rst_n && negb (loading (u_load s)).

Definition iq_full : bool := tomasulo_core.iq_full_o (u_core s).
Definition imem_read_pc : Z := if iq_full then fetch_pc_d s else fetch_pc s.

Definition review_mode : bool := halted s && Z.testbit (SW i) 9.
Definition review_index_sw : Z := bits (SW i) 5 0.
Definition review_active_entry : bool :=
  review_mode && (review_index_sw <? sig_word_count (u_load s)).
Definition review_word_idx : Z := trunc 10 (sig_begin_word (u_load s) + review_index_sw).
Definition review_addr : Z := word_to_byte_addr review_word_idx.

Definition mem_rd_addr_mux : Z :=
  if loading (u_load s) then 0
  else if review_active_entry then review_addr else tomasulo_core.mem_rd_addr_o (u_core s).

Definition dmem_wr : load_store_buffer.write_port :=
  if load_wr_en (u_load s)
  then load_store_buffer.mkWrite true 15 (word_to_byte_addr (load_data_word (u_load s))) (lib_word_data s)
  else tomasulo_core.mem_wr_o (u_core s).

(** *** Displays *)

Definition hex_display_value : Z :=
  if loading (u_load s) then bits (lib_word_data s) 23 0
  else if review_mode && review_active_entry then
    (if Z.testbit (SW i) 8 then bits (review_data_word s) 31 8 else bits (review_data_word s) 23 0)
  else if review_mode && negb review_active_entry then cat 0xEE 16 (sig_word_count (u_load s))
  else bits (cycle_count s) 23 0.

(** [HEX0] to [HEX5]. *)
Definition HEX (k : Z) : Z := hex_digit (bits hex_display_value (4 * k + 3) (4 * k)).

Definition LEDR (k : Z) : bool :=
  if k =? 9 then halted s
  else if k =? 8 then loading (u_load s)
  else if k =? 7 then review_mode
  else if k =? 6 then review_active_entry
  else Z.testbit (if review_mode then bits (SW i) 5 0 else active_program (u_load s)) k.

End Wires.

Section Clock.

(** The contents of main_rom1. *)
Context (rom : Z -> Z).

Definition next (s : state) (i : inputs) : state :=
  let rst := core_rst_n s i in
  let full := iq_full s in
  let flush := tomasulo_core.flush_w (u_core s) in
  let redirect_pc := tomasulo_core.redirect_pc_o (u_core s) in
  let halted_core := tomasulo_core.halted_o (u_core s) in
  mk (KEY0 i)
     (KEY0 i && rst_sync_ff1 s)
     (rom (lib_word_addr (u_load s)))
     (next_loader (u_load s) (rst_n s i) (SW i) (lib_word_data s))
     (instr_mem.next (u_imem s) (imem_read_pc s) (load_wr_en (u_load s)) (load_data_word (u_load s))
        (lib_word_data s))
     (data_mem.next (u_dmem s) (mem_rd_addr_mux s i) (dmem_wr s))
     (if negb rst then 0 else if flush then redirect_pc
      else if negb full then trunc 32 (fetch_pc s + 4) else fetch_pc s)
     (if negb rst then 0 else if flush then redirect_pc
      else if negb full then fetch_pc s else fetch_pc_d s)
     (if negb rst then false else if flush then false else true)
     (if negb rst then tomasulo_core.reset
      else tomasulo_core.next (u_core s) (fetch_valid s && negb full) (instr_mem.instr_o (u_imem s))
             (fetch_pc_d s) (data_mem.rd_data_o (u_dmem s)))
     (if negb rst then false else if halted_core then true else halted s)
     (if negb rst then 0
      else if negb (halted s || halted_core) then trunc 32 (cycle_count s + 1) else cycle_count s)
     (if negb rst then 0
      else if review_mode s i && review_active_entry s i then data_mem.rd_data_o (u_dmem s)
      else review_data_word s).

Definition run (s : state) (ins : list inputs) : state := foldl next s ins.

End Clock.

End cpu.

(** ** The loader copies a program *)

Import cpu.

Section Board.
Context (rom : Z -> Z).
Hypothesis Hrom : forall a, is_u32 (rom a).

Notation next := (cpu.next rom).
Notation run := (cpu.run rom).

(** Program [p] of the library, word by word. *)
Definition program_word (p k : Z) : Z := rom (cat p 10 k).
Definition program (p : Z) : list Z := map (fun k => program_word p (Z.of_nat k)) (seq 0 1024).

(** The core is held in reset. *)
Record held (s : state) : Prop := {
  hd_core : u_core s = tomasulo_core.reset;
  hd_fetch : fetch_pc s = 0 /\ fetch_pc_d s = 0 /\ fetch_valid s = false;
  hd_halted : halted s = false;
  hd_count : cycle_count s = 0
}.

Record memories (s : state) : Prop := {
  mm_imem : len (instr_mem.mem (u_imem s)) = MEM_SIZE;
  mm_dmem : len (data_mem.mem (u_dmem s)) = MEM_SIZE
}.

Lemma next_memories s i : memories s -> memories (next s i).
Proof.
  intros [H1 H2]. constructor; cbn.
  - destruct (load_wr_en _); by rewrite ?length_put.
  - destruct (load_store_buffer.wr_en _); by rewrite ?length_put.
Qed.

Lemma reset_held s i : core_rst_n s i = false -> held (next s i).
Proof. intros H. unfold cpu.next. rewrite H. by constructor. Qed.

(** Word [k] is on its way from the ROM into the memories. *)
Record booting (p : Z) (k : nat) (s : state) : Prop := {
  bt_reset : rst_sync_ff1 s = true /\ rst_n_q s = true;
  bt_active : active_program (u_load s) = p;
  bt_loading : load_wr_en (u_load s) = true;
  bt_data : load_data_word (u_load s) = Z.of_nat k;
  bt_req : load_req_word (u_load s) = Z.min (Z.of_nat k + 1) LAST_WORD;
  bt_word : lib_word_data s = program_word p (Z.of_nat k);
  bt_begin : META_BEGIN_WORD < Z.of_nat k -> sig_begin_word (u_load s) = bits (program_word p META_BEGIN_WORD) 9 0;
  bt_imem : forall j, (j < k)%nat -> at_ 0 (instr_mem.mem (u_imem s)) (Z.of_nat j) = program_word p (Z.of_nat j);
  bt_dmem : forall j, (j < k)%nat -> at_ 0 (data_mem.mem (u_dmem s)) (Z.of_nat j) = program_word p (Z.of_nat j)
}.

Lemma word_index_word w : 0 <= w < MEM_SIZE -> data_mem.word_index (word_to_byte_addr w) = w.
Proof.
  intros Hw. unfold data_mem.word_index, word_to_byte_addr. rewrite bits_cat_high by lia. by apply bits_full.
Qed.

Lemma at_put_word (l : list Z) k j x : len l = MEM_SIZE -> 0 <= k < MEM_SIZE -> 0 <= j ->
  at_ 0 (put l k x) j = if j =? k then x else at_ 0 l j.
Proof. intros Hl Hk Hj. by rewrite at_put by lia. Qed.

Lemma boot_writes p k s i : memories s -> booting p k s -> (k < 1024)%nat ->
  instr_mem.mem (u_imem (next s i)) = put (instr_mem.mem (u_imem s)) (Z.of_nat k) (program_word p (Z.of_nat k)) /\
  data_mem.mem (u_dmem (next s i)) = put (data_mem.mem (u_dmem s)) (Z.of_nat k) (program_word p (Z.of_nat k)).
Proof.
  intros Hm Hb Hk. unfold cpu.next. cbn [u_imem u_dmem]. unfold instr_mem.next, data_mem.next, dmem_wr.
  cbn [instr_mem.mem data_mem.mem]. rewrite (bt_loading _ _ _ Hb), (bt_data _ _ _ Hb), (bt_word _ _ _ Hb).
  cbn [load_store_buffer.wr_en load_store_buffer.wr_addr load_store_buffer.wr_be load_store_buffer.wr_data].
  rewrite word_index_word by (unfold MEM_SIZE; lia). rewrite merge_all by apply Hrom. done.
Qed.

Lemma loading_of p k s : booting p k s -> loading (u_load s) = true /\ load_data_valid (u_load s) = true.
Proof. intros Hb. by apply andb_true_iff, (bt_loading p k s). Qed.

Lemma boot_step p k s i : memories s -> booting p k s -> KEY0 i = true -> (k < 1023)%nat ->
  booting p (S k) (next s i).
Proof.
  intros Hm Hb Hi Hk. destruct (boot_writes p k s i Hm Hb ltac:(lia)) as [Hw1 Hw2].
  destruct (bt_reset _ _ _ Hb) as [Hff Hrst]. destruct (loading_of _ _ _ Hb) as [Hl Hv].
  pose proof (bt_data _ _ _ Hb) as Hd. pose proof (bt_req _ _ _ Hb) as Hr. unfold LAST_WORD, MEM_SIZE in *.
  assert (Hload : u_load (next s i) = mkLoader p true (Z.min (Z.of_nat (S k) + 1) (1024 - 1)) (Z.of_nat (S k)) true
    (sig_begin_word (u_load (next s i))) (sig_end_word (u_load (next s i))) (sig_word_count (u_load (next s i)))).
  { unfold cpu.next. cbn [u_load]. unfold next_loader, rst_n, LAST_WORD, MEM_SIZE. rewrite Hrst, Hi, Hl, Hv, Hd, Hr, (bt_active _ _ _ Hb).
    cbn [andb negb]. rewrite (proj2 (Z.eqb_neq (Z.of_nat k) (1024 - 1))) by lia. cbn [sig_begin_word sig_end_word sig_word_count].
    destruct (Z.eqb_spec (Z.min (Z.of_nat k + 1) (1024 - 1)) (1024 - 1)); cbn [negb]; f_equal; try lia.
    rewrite trunc_id by lia. lia. }
  constructor; rewrite ?Hw1, ?Hw2.
  - cbn. by rewrite Hi, Hff.
  - by rewrite Hload.
  - by rewrite Hload.
  - by rewrite Hload.
  - by rewrite Hload.
  - unfold cpu.next. cbn [lib_word_data]. unfold lib_word_addr, program_word.
    rewrite (bt_active _ _ _ Hb), Hr. do 2 f_equal. lia.
  - intros Hlt. unfold cpu.next. cbn [u_load]. unfold next_loader, rst_n, LAST_WORD. rewrite Hrst, Hi, Hl, Hv, Hd.
    cbn [andb negb]. unfold MEM_SIZE. rewrite (proj2 (Z.eqb_neq (Z.of_nat k) (1024 - 1))) by lia. cbn [sig_begin_word].
    rewrite (bt_word _ _ _ Hb). destruct (Z.eqb_spec (Z.of_nat k) META_BEGIN_WORD) as [->|]; [done|].
    apply (bt_begin _ _ _ Hb). lia.
  - intros j Hj. rewrite at_put_word by (try apply Hm; unfold MEM_SIZE; lia).
    destruct (Z.eqb_spec (Z.of_nat j) (Z.of_nat k)) as [->|]; [done|]. apply (bt_imem _ _ _ Hb). lia.
  - intros j Hj. rewrite at_put_word by (try apply Hm; unfold MEM_SIZE; lia).
    destruct (Z.eqb_spec (Z.of_nat j) (Z.of_nat k)) as [->|]; [done|]. apply (bt_dmem _ _ _ Hb). lia.
Qed.

(** The program is in both memories and the core starts. *)
Record ready (p : Z) (s : state) : Prop := {
  rd_reset : rst_sync_ff1 s = true /\ rst_n_q s = true;
  rd_loading : loading (u_load s) = false;
  rd_active : active_program (u_load s) = p;
  rd_begin : sig_begin_word (u_load s) = bits (program_word p META_BEGIN_WORD) 9 0;
  rd_count : sig_word_count (u_load s) = bits (program_word p META_COUNT_WORD) 9 0;
  rd_held : held s;
  rd_imem : instr_mem.mem (u_imem s) = program p;
  rd_dmem : data_mem.mem (u_dmem s) = program p
}.

(** A memory of 1024 words is known by its words. *)
Lemma memory_words p l : len l = MEM_SIZE ->
  (forall j, (j < 1024)%nat -> at_ 0 l (Z.of_nat j) = program_word p (Z.of_nat j)) -> l = program p.
Proof.
  intros Hl Hw. unfold MEM_SIZE in Hl. apply list_eq_same_length with 1024%nat; [|lia|].
  { unfold program. by rewrite length_map, length_seq. }
  intros j x y Hj Hx Hy. specialize (Hw j Hj). unfold at_ in Hw. rewrite Nat2Z.id, nth_lookup, Hx in Hw.
  cbn in Hw. rewrite Hw. unfold program in Hy.
  apply (list_lookup_fmap_Some (fun k => program_word p (Z.of_nat k))) in Hy as (k & -> & Hk).
  apply lookup_seq in Hk as [-> _]. done.
Qed.

Lemma boot_last p s i : memories s -> booting p 1023 s -> KEY0 i = true -> ready p (next s i).
Proof.
  intros Hm Hb Hi. destruct (boot_writes p 1023 s i Hm Hb ltac:(lia)) as [Hw1 Hw2].
  destruct (bt_reset _ _ _ Hb) as [Hff Hrst]. destruct (loading_of _ _ _ Hb) as [Hl Hv].
  pose proof (bt_data _ _ _ Hb) as Hd. pose proof (next_memories s i Hm) as [Hm1 Hm2].
  assert (Hload : u_load (next s i) = mkLoader p false 0 0 false (bits (program_word p META_BEGIN_WORD) 9 0)
    (sig_end_word (u_load s)) (bits (program_word p META_COUNT_WORD) 9 0)).
  { unfold cpu.next. cbn [u_load]. unfold next_loader, rst_n. rewrite Hrst, Hi, Hl, Hv, Hd, (bt_active _ _ _ Hb), (bt_word _ _ _ Hb).
    rewrite (bt_begin _ _ _ Hb) by done. reflexivity. }
  constructor; rewrite ?Hload; try done.
  - cbn. by rewrite Hi, Hff.
  - apply reset_held. unfold core_rst_n. by rewrite Hl, andb_false_r.
  - apply memory_words; [done|]. intros j Hj. rewrite Hw1, at_put_word by (try apply Hm; unfold MEM_SIZE; lia).
    destruct (Z.eqb_spec (Z.of_nat j) (Z.of_nat 1023)) as [->|]; [done|]. apply (bt_imem _ _ _ Hb). lia.
  - apply memory_words; [done|]. intros j Hj. rewrite Hw2, at_put_word by (try apply Hm; unfold MEM_SIZE; lia).
    destruct (Z.eqb_spec (Z.of_nat j) (Z.of_nat 1023)) as [->|]; [done|]. apply (bt_dmem _ _ _ Hb). lia.
Qed.

Lemma boot_run p n ins k s : memories s -> booting p k s -> Forall (fun i => KEY0 i = true) ins ->
  length ins = n -> (k + n <= 1023)%nat -> memories (run s ins) /\ booting p (k + n) (run s ins).
Proof.
  revert k s ins. induction n as [|n IH]; intros k s ins Hm Hb Hk Hn Hle.
  - apply length_zero_iff_nil in Hn as ->. by rewrite Nat.add_0_r.
  - destruct ins as [|i ins]; [done|]. apply Forall_cons in Hk as [Hi Hk]. injection Hn as Hn.
    destruct (IH (S k) (next s i) ins) as [? Hb']; try done; [by apply next_memories|apply boot_step; try done; lia|lia|].
    split; [done|]. by replace (k + S n)%nat with (S k + n)%nat by lia.
Qed.

Lemma run_cons s i ins : run s (i :: ins) = run (next s i) ins.
Proof. done. Qed.

Lemma run_app s l l' : run s (l ++ l') = run (run s l) l'.
Proof. apply foldl_app. Qed.

Lemma reset_loader s i : rst_n s i = false ->
  u_load (next s i) = mkLoader (clamp_program_sel (bits (SW i) 5 0)) true 0 0 false 0 0 0.
Proof. intros H. unfold cpu.next. cbn [u_load]. unfold next_loader. by rewrite H. Qed.

Lemma key_up s i : KEY0 i = true ->
  rst_sync_ff1 (next s i) = true /\ rst_n_q (next s i) = rst_sync_ff1 s.
Proof. intros H. unfold cpu.next. cbn [rst_sync_ff1 rst_n_q]. by rewrite H. Qed.

(** The switches are read in the second cycle after the key is released; a
    number that no program has selects the first. *)
Lemma boot_start s i1 i2 i3 : rst_sync_ff1 s = false -> rst_n_q s = false ->
  KEY0 i1 = true -> KEY0 i2 = true -> KEY0 i3 = true ->
  booting (clamp_program_sel (bits (SW i2) 5 0)) 0 (next (next (next s i1) i2) i3).
Proof.
  intros H1 H2 K1 K2 K3. destruct (key_up s i1 K1) as [F1 R1]. rewrite H1 in R1.
  generalize dependent (next s i1). clear s H1 H2. intros s F1 R1. destruct (key_up s i2 K2) as [F2 R2]. rewrite F1 in R2.
  assert (Hl : u_load (next s i2) = mkLoader (clamp_program_sel (bits (SW i2) 5 0)) true 0 0 false 0 0 0)
    by (apply reset_loader; unfold rst_n; by rewrite R1).
  generalize dependent (next s i2). clear s F1 R1. intros s F2 R2 Hl. destruct (key_up s i3 K3) as [F3 R3].
  assert (Hl3 : u_load (next s i3) = mkLoader (clamp_program_sel (bits (SW i2) 5 0)) true 1 0 true 0 0 0).
  { unfold cpu.next. cbn [u_load]. unfold next_loader, rst_n. rewrite R2, K3, Hl. reflexivity. }
  constructor; rewrite ?Hl3; try done; try lia; [by rewrite R3|].
  unfold cpu.next. cbn [lib_word_data]. by rewrite Hl.
Qed.

(** 1027 cycles after the key was released, however the board was left. *)
Lemma boots s press release sel : memories s -> KEY0 press = false ->
  Forall (fun i => KEY0 i = true) release -> length release = 1027%nat -> release !! 1%nat = Some sel ->
  ready (clamp_program_sel (bits (SW sel) 5 0)) (run s (press :: release)).
Proof.
  intros Hm Hp Hr Hlen Hsel. destruct release as [|i1 [|i2 [|i3 release]]]; try done. injection Hsel as ->.
  rewrite !Forall_cons in Hr. destruct Hr as (K1 & K2 & K3 & Hr). cbn in Hlen.
  assert (H0 : rst_sync_ff1 (next s press) = false /\ rst_n_q (next s press) = false)
    by (unfold cpu.next; cbn [rst_sync_ff1 rst_n_q]; by rewrite Hp).
  pose proof (boot_start (next s press) i1 sel i3 (proj1 H0) (proj2 H0) K1 K2 K3) as Hb.
  assert (Hm1 : memories (next (next (next (next s press) i1) sel) i3)) by auto using next_memories.
  destruct release as [|last init _] using rev_ind; [discriminate Hlen|].
  rewrite length_app in Hlen. cbn in Hlen. apply Forall_app in Hr as [Hr Hlast].
  destruct (boot_run _ 1023 init 0 _ Hm1 Hb Hr) as [Hm2 Hb2]; [lia|lia|].
  rewrite !run_cons, run_app, run_cons. apply boot_last; [done|done|]. by apply Forall_inv in Hlast.
Qed.

(** ** Then the board is the testbench *)

(** What is not fetched does not matter. *)
Lemma next_not_fetched c raw pc raw' pc' rd :
  tomasulo_core.next c false raw pc rd = tomasulo_core.next c false raw' pc' rd.
Proof. unfold tomasulo_core.next, instr_queue.next. cbn [andb]. reflexivity. Qed.

(** Nor does the word the memory returns when no load waits for it. *)
Lemma results_no_load c rd rd' : load_store_buffer.load_pending (tomasulo_core.u_lsb c) = false ->
  tomasulo_core.fu_results c rd = tomasulo_core.fu_results c rd'.
Proof. intros H. unfold tomasulo_core.fu_results, load_store_buffer.cdb_o. by rewrite H. Qed.

Lemma next_no_load c fv raw pc rd rd' : load_store_buffer.load_pending (tomasulo_core.u_lsb c) = false ->
  tomasulo_core.next c fv raw pc rd = tomasulo_core.next c fv raw pc rd'.
Proof.
  intros H. unfold tomasulo_core.next, tomasulo_core.cdb_w, tomasulo_core.fu_grant_w.
  by rewrite (results_no_load c rd rd' H).
Qed.

Record mirrors (t : sim_compliance.System) (s : state) : Prop := {
  mr_reset : rst_sync_ff1 s = true /\ rst_n_q s = true;
  mr_loading : loading (u_load s) = false;
  mr_core : u_core s = sim_compliance.core t;
  mr_fetch : fetch_pc s = sim_compliance.fetch_pc t /\ fetch_pc_d s = sim_compliance.fetch_pc_d t /\
    fetch_valid s = sim_compliance.fetch_valid t;
  mr_imem : instr_mem.mem (u_imem s) = sim_compliance.imem t;
  mr_instr : fetch_valid s = true -> instr_mem.instr_o (u_imem s) = sim_compliance.instr_raw t;
  mr_dmem : data_mem.mem (u_dmem s) = data_mem.mem (sim_compliance.dmem t);
  mr_data : data_mem.rd_data_o (u_dmem s) = sim_compliance.mem_rd_data t \/
    load_store_buffer.load_pending (tomasulo_core.u_lsb (u_core s)) = false;
  mr_halted : halted s = sim_compliance.halted t
}.

Lemma load_full words : length words = 1024%nat -> sim_compliance.load words = words.
Proof. intros H. unfold sim_compliance.load. change (Z.to_nat MEM_SIZE) with 1024%nat. rewrite <- H. apply take_app_length. Qed.

Lemma ready_mirrors p s : ready p s -> mirrors (sim_compliance.reset (program p)) s.
Proof.
  intros [Hr Hl _ _ _ [Hc (Hf & Hfd & Hv) Hh _] Hi Hd].
  assert (Hload : sim_compliance.load (program p) = program p)
    by (apply load_full; unfold program; by rewrite length_map, length_seq).
  constructor; cbn [sim_compliance.reset sim_compliance.core sim_compliance.fetch_pc sim_compliance.fetch_pc_d
    sim_compliance.fetch_valid sim_compliance.imem sim_compliance.dmem sim_compliance.halted data_mem.mem];
    rewrite ?Hload; try done.
  - congruence.
  - right. by rewrite Hc.
Qed.

Section Step.
Context (t : sim_compliance.System) (s : state) (i : inputs).
Hypothesis Hm : mirrors t s.
Hypothesis Hkey : KEY0 i = true.
Hypothesis Hreview : halted s = false \/ Z.testbit (SW i) 9 = false.

Lemma running : core_rst_n s i = true.
Proof. unfold core_rst_n, rst_n. destruct (mr_reset _ _ Hm) as [_ ->]. by rewrite Hkey, (mr_loading _ _ Hm). Qed.

Lemma not_reviewing : review_active_entry s i = false.
Proof. unfold review_active_entry, review_mode. destruct Hreview as [->| ->]; [done|by rewrite andb_false_r]. Qed.

Lemma not_writing : load_wr_en (u_load s) = false.
Proof. unfold load_wr_en. by rewrite (mr_loading _ _ Hm). Qed.

Lemma same_dmem : u_dmem (next s i) = data_mem.next (u_dmem s) (tomasulo_core.mem_rd_addr_o (sim_compliance.core t))
  (tomasulo_core.mem_wr_o (sim_compliance.core t)).
Proof.
  unfold cpu.next. cbn [u_dmem]. unfold mem_rd_addr_mux, dmem_wr.
  by rewrite not_reviewing, not_writing, (mr_loading _ _ Hm), (mr_core _ _ Hm).
Qed.

Lemma same_core : u_core (next s i) = sim_compliance.core (sim_compliance.next t).
Proof.
  unfold cpu.next, sim_compliance.next. cbn [u_core sim_compliance.core]. rewrite running. cbn [negb].
  destruct (mr_fetch _ _ Hm) as (_ & Hfd & Hv). unfold sim_compliance.fetch_fires, sim_compliance.iq_full, iq_full.
  pose proof (mr_instr _ _ Hm) as Hinstr. rewrite <- (mr_core _ _ Hm), <- Hfd, <- Hv.
  transitivity (tomasulo_core.next (u_core s) (fetch_valid s && negb (tomasulo_core.iq_full_o (u_core s)))
    (instr_mem.instr_o (u_imem s)) (fetch_pc_d s) (sim_compliance.mem_rd_data t)).
  - destruct (mr_data _ _ Hm) as [->|H]; [done|by apply next_no_load].
  - destruct (fetch_valid s); [by rewrite (Hinstr eq_refl)|apply next_not_fetched].
Qed.

Lemma same_load : u_load (next s i) = u_load s.
Proof.
  unfold cpu.next. cbn [u_load]. unfold next_loader, rst_n. destruct (mr_reset _ _ Hm) as [_ ->].
  by rewrite Hkey, (mr_loading _ _ Hm).
Qed.

Lemma mirrors_step : mirrors (sim_compliance.next t) (next s i).
Proof.
  destruct (mr_reset _ _ Hm) as [Hff Hrst]. destruct (mr_fetch _ _ Hm) as (Hf & Hfd & Hv).
  pose proof (mr_core _ _ Hm) as Hc. pose proof running as Hrun.
  constructor; rewrite ?same_dmem, ?same_core.
  - cbn. by rewrite Hkey, Hff.
  - rewrite same_load. apply (mr_loading _ _ Hm).
  - done.
  - unfold cpu.next, sim_compliance.next. cbn [fetch_pc fetch_pc_d fetch_valid sim_compliance.fetch_pc
      sim_compliance.fetch_pc_d sim_compliance.fetch_valid].
    rewrite Hrun. unfold iq_full, sim_compliance.iq_full. rewrite Hc, Hf, Hfd. cbn [negb].
    destruct (tomasulo_core.flush_w _); [done|]. by destruct (tomasulo_core.iq_full_o _).
  - unfold cpu.next. cbn [u_imem]. unfold instr_mem.next. rewrite not_writing. apply (mr_imem _ _ Hm).
  - unfold cpu.next, sim_compliance.next, sim_compliance.instr_raw. cbn [fetch_valid u_imem sim_compliance.imem sim_compliance.fetch_pc_d].
    rewrite Hrun. unfold instr_mem.next, imem_read_pc, iq_full, sim_compliance.iq_full. cbn [instr_mem.instr_o negb].
    rewrite Hc, Hf, Hfd, (mr_imem _ _ Hm). destruct (tomasulo_core.flush_w _); [done|]. intros _.
    by destruct (tomasulo_core.iq_full_o _).
  - unfold data_mem.next. cbn [data_mem.mem]. by rewrite (mr_dmem _ _ Hm).
  - left. unfold data_mem.next, sim_compliance.mem_rd_data, sim_compliance.next. cbn [data_mem.rd_data_o sim_compliance.dmem data_mem.next].
    by rewrite (mr_dmem _ _ Hm).
  - unfold cpu.next, sim_compliance.next. cbn [halted sim_compliance.halted]. rewrite Hrun, Hc, (mr_halted _ _ Hm). cbn [negb].
    destruct (tomasulo_core.halted_o _); [by rewrite orb_true_r|by rewrite orb_false_r].
Qed.

End Step.

(** Until the core halts, whatever the switches; the count is that of the
    cycles before HALT commits. *)
Lemma mirrors_run ins : forall t s k,
  mirrors t s -> Forall (fun i => KEY0 i = true) ins ->
  (forall m, (m < length ins)%nat -> sim_compliance.halted (sim_compliance.run m t) = false) ->
  cycle_count s = trunc 32 (k - Z.b2z (sim_compliance.halted t)) ->
  let t' := sim_compliance.run (length ins) t in
  mirrors t' (run s ins) /\ u_load (run s ins) = u_load s /\
  cycle_count (run s ins) = trunc 32 (k + len ins - Z.b2z (sim_compliance.halted t')).
Proof.
  induction ins as [|i ins IH]; intros t s k Hm Hk Hh Hc.
  { split_and!; [done..|]. cbn. rewrite Hc. f_equal. lia. }
  apply Forall_cons in Hk as [Hi Hk]. pose proof (Hh 0%nat ltac:(cbn; lia)) as H0. cbn in H0.
  assert (Hns : halted s = false) by by rewrite (mr_halted _ _ Hm).
  destruct (IH (sim_compliance.next t) (next s i) (k + 1)) as (Hm' & Hl' & Hc').
  - by apply mirrors_step; [| |left].
  - done.
  - intros m Hlt. apply (Hh (S m)). cbn. lia.
  - unfold cpu.next, sim_compliance.next. cbn [cycle_count sim_compliance.halted].
    rewrite (running t s i Hm Hi), Hns, H0, (mr_core _ _ Hm). cbn [negb orb].
    rewrite H0 in Hc. cbn [Z.b2z] in Hc. rewrite Z.sub_0_r in Hc. rewrite Hc.
    destruct (tomasulo_core.halted_o _); cbn [negb Z.b2z].
    + f_equal. lia.
    + unfold trunc. rewrite Zplus_mod_idemp_l. f_equal. lia.
  - rewrite run_cons. split; [done|].
    rewrite Hl', (same_load t s i Hm Hi). split; [done|]. cbn [length]. rewrite Hc'. f_equal. cbn. lia.
Qed.

(** ** Reviewing the memory *)

(** The window of a word that switch 8 selects. *)
Definition word_window (sw w : Z) : Z := if Z.testbit sw 8 then bits w 31 8 else bits w 23 0.

Lemma review_shows s i : rst_n_q s = true -> rst_sync_ff1 s = true -> loading (u_load s) = false ->
  halted s = true -> KEY0 i = true -> review_active_entry s i = true ->
  hex_display_value (run s [i; i]) i =
  word_window (SW i) (at_ 0 (data_mem.mem (u_dmem s)) (trunc 10 (sig_begin_word (u_load s) + bits (SW i) 5 0))).
Proof.
  intros Hr Hff Hl Hh Hi Ha.
  assert (Hmode : Z.testbit (SW i) 9 = true).
  { revert Ha. unfold review_active_entry, review_mode. rewrite Hh. cbn [andb]. by destruct (Z.testbit (SW i) 9). }
  assert (Hstep : forall s', rst_n_q s' = true -> rst_sync_ff1 s' = true -> u_load s' = u_load s -> halted s' = true ->
    rst_n_q (next s' i) = true /\ rst_sync_ff1 (next s' i) = true /\ u_load (next s' i) = u_load s /\ halted (next s' i) = true /\
    core_rst_n s' i = true /\ review_active_entry s' i = true /\ review_mode s' i = true).
  { intros s' H1 H2 H3 H4. assert (Hrst : core_rst_n s' i = true) by (unfold core_rst_n, rst_n; by rewrite H1, H3, Hi, Hl).
    unfold cpu.next. cbn [rst_n_q rst_sync_ff1 u_load halted]. rewrite Hrst, Hi, H2, H4. unfold next_loader, rst_n. rewrite H1, Hi, H3, Hl.
    split_and!; try done; [by destruct (tomasulo_core.halted_o _)| |].
    - revert Ha. unfold review_active_entry, review_mode. by rewrite H3, H4, Hh.
    - unfold review_mode. by rewrite H4, Hmode. }
  destruct (Hstep s Hr Hff eq_refl Hh) as (Hr1 & Hff1 & Hl1 & Hh1 & Hc0 & Ha0 & Hm0).
  destruct (Hstep (next s i) Hr1 Hff1 Hl1 Hh1) as (Hr2 & Hff2 & Hl2 & Hh2 & Hc1 & Ha1 & Hm1).
  destruct (Hstep (next (next s i) i) Hr2 Hff2 Hl2 Hh2) as (_ & _ & _ & _ & _ & Ha2 & Hm2).
  rewrite !run_cons. change (run ?x []) with x. unfold hex_display_value. rewrite Hl2, Hl, Hm2, Ha2. cbn [andb].
  assert (Hw : review_data_word (next (next s i) i) =
    at_ 0 (data_mem.mem (u_dmem s)) (trunc 10 (sig_begin_word (u_load s) + bits (SW i) 5 0))); [|by rewrite Hw].
  unfold cpu.next at 1. cbn [review_data_word]. rewrite Hc1, Hm1, Ha1. cbn [negb andb].
  unfold cpu.next. cbn [u_dmem]. unfold data_mem.next. cbn [data_mem.rd_data_o]. unfold mem_rd_addr_mux. rewrite Hl, Ha0.
  unfold review_addr, review_word_idx, review_index_sw. rewrite word_index_word; [done|]. apply trunc_range. lia.
Qed.

(** *** From the key to the display *)

Lemma board_run s press release sel go : memories s -> KEY0 press = false ->
  Forall (fun i => KEY0 i = true) release -> length release = 1027%nat -> release !! 1%nat = Some sel ->
  let p := clamp_program_sel (bits (SW sel) 5 0) in
  let t m := sim_compliance.run m (sim_compliance.reset (program p)) in
  let b := run s ((press :: release) ++ go) in
  Forall (fun i => KEY0 i = true) go ->
  (forall m, (m < length go)%nat -> sim_compliance.halted (t m) = false) ->
  u_core b = sim_compliance.core (t (length go)) /\
  data_mem.mem (u_dmem b) = data_mem.mem (sim_compliance.dmem (t (length go))) /\
  halted b = sim_compliance.halted (t (length go)) /\
  cycle_count b = trunc 32 (len go - Z.b2z (halted b)) /\
  (forall view, halted b = true -> KEY0 view = true -> Z.testbit (SW view) 9 = true ->
    bits (SW view) 5 0 < bits (program_word p META_COUNT_WORD) 9 0 ->
    hex_display_value (run b [view; view]) view =
    word_window (SW view) (at_ 0 (data_mem.mem (u_dmem b))
      (trunc 10 (bits (program_word p META_BEGIN_WORD) 9 0 + bits (SW view) 5 0)))).
Proof.
  intros Hm Hp Hr Hlen Hsel p t b Hgo Hrun. pose proof (boots s press release sel Hm Hp Hr Hlen Hsel) as Hready.
  fold p in Hready. destruct (mirrors_run go _ _ 0 (ready_mirrors _ _ Hready) Hgo Hrun) as (Hmir & Hload & Hc).
  { rewrite (hd_count _ (rd_held _ _ Hready)). done. }
  assert (Hb : b = run (run s (press :: release)) go) by apply run_app.
  rewrite <- Hb in *. destruct (mr_reset _ _ Hmir) as [Hff Hrst]. pose proof (mr_halted _ _ Hmir) as Hh.
  split; [apply Hmir|]. split; [apply Hmir|]. split; [done|]. split; [by rewrite Hc, Hh|].
  intros view Hhalt Hv Hmode Hidx. rewrite review_shows by (try done; try apply Hmir; unfold review_active_entry, review_mode, review_index_sw;
    rewrite Hload, (rd_count _ _ Hready), Hhalt, Hmode; by apply Z.ltb_lt).
  by rewrite Hload, (rd_begin _ _ Hready).
Qed.

End Board.
