(* ===== verification/HwProperties.v ===== *)
(** * Properties of the hardware core

    The decoder, the units, the bus and the reorder buffer of hardware/; what a
    jump writes; the whole core against its sequential machine and the
    simulator; the board around it; at the end the recorded runs. *)

From Stdlib Require Import SpecFloat.
From S2P Require Import Prelude Words Config Float32 Instruction ISA Programs.
From S2P Require Import HwPkg HwUnits HwTables HwStation HwControl HwCore.
From S2P Require Import HwDecode HwUnitFacts HwFloatFacts.
From S2P Require Import HwBroadcast HwQueueFacts HwSequential HwStraight HwPrograms HwAgreement HwBoard.
From S2P Require Import RegisterFile InstructionQueue Simulator Coherence.

(** ** Instructions *)

(** C16. Decoding the encoding of an instruction gives its operation, its
    registers and register files, and its sign-extended immediate, for all 32
    operations with an encoding of their own. *)
Theorem decode_encoded i p :
  encodable i = true -> decode.decode (encode i) p = hw_instr i p.
Proof. apply decode_encode. Qed.

Definition sample_branch : Instruction := mkInstruction BNE (-1) 5 6 (-8) false false false 0.

Lemma decode_encoded_witness :
  encodable sample_branch = true /\ decode.decode 0xFE629CE3 16 = hw_instr sample_branch 16.
Proof. split; [reflexivity|]. apply (decode_encoded sample_branch 16). reflexivity. Defined.

(** C18. The integer unit and the branch unit compute what the simulator's
    instruction set defines, for every operation of theirs that it has, all
    operands, immediates and addresses. *)
Theorem integer_units_equivalent `{FE : FPEnv} o x y im p :
  is_u32 x -> is_u32 y ->
  (alu_op o = true -> alu_int.result_next (hw_op o) p x y (hw_imm o im) = alu o x y im p) /\
  (is_branch o || is_jump o = true ->
   branch_unit.target_next (hw_op o) x y (hw_imm o im) p = alu o x y im p).
Proof.
  intros Hx Hy. split; intros Ho; [by apply alu_int_is_alu|by apply branch_unit_is_alu].
Qed.

Lemma integer_units_equivalent_witness :
  alu_int.result_next OP_SRA 0 0xF0000000 4 0 = 0xFF000000 /\
  branch_unit.target_next OP_BLT 0xFFFFFFFF 0 8 100 = 108.
Proof.
  pose proof (integer_units_equivalent (FE := x86_fp) SRA 0xF0000000 4 0 0 ltac:(by unfold is_u32) ltac:(by unfold is_u32)) as [Ha _].
  pose proof (integer_units_equivalent (FE := x86_fp) BLT 0xFFFFFFFF 0 8 100 ltac:(by unfold is_u32) ltac:(by unfold is_u32)) as [_ Hb].
  split; [exact (Ha eq_refl)|exact (Hb eq_refl)].
Defined.

(** ** Floating point *)

Definition normal (a : Z) : Prop := 1 <= bits a 30 23 <= 254.

(** The rounded word [r] is the truncated one or the next. *)
Definition within_one_word (r w : Z) : Prop := r = w \/ r = w + 1.

Lemma round_up_within r w b : r = w + Z.b2z b -> within_one_word r w.
Proof. unfold within_one_word. destruct b; cbn; lia. Qed.

(** C21. The floating-point units truncate where the simulator rounds to
    nearest. On normal operands with a normal result, sums and differences
    differ by one unit in the last place at most and are 0 together; so are
    products, which leave the pipeline after four moves however long the bus
    stalls it; so are conversions of integers; conversions to integers agree
    wherever C++ defines them. A quotient, though, is wrong in all but its first
    bit: the fraction of every nonzero one is 0 or 2. *)
Theorem float_units_accuracy `{FE : FPEnv} :
  (forall a b subtract, normal a -> normal b ->
   let w := fp_add.fp_add_core a b subtract in
   let r := float_to_bits (fp_arith (add_op subtract) (bits_to_float a) (bits_to_float b)) in
   (word_sum a b subtract = 0 -> w = 0 /\ r = 0) /\
   (word_sum a b subtract <> 0 -> 1 <= word_sum_exp a b subtract <= 254 -> within_one_word r w)) /\
  (forall s i ins, fi_valid i = true -> fp_mul.advance s (fi_grant i) = true ->
   mul_moves (mul_edge s i) ins = 3%nat ->
   normal (fi_rs1 i) -> normal (fi_rs2 i) -> 1 <= mul_exp (fi_rs1 i) (fi_rs2 i) <= 254 ->
   exists w, fp_mul.cdb_o (foldl mul_edge (mul_edge s i) ins) = mkCdb (fi_tag i) w true /\
     within_one_word (float_to_bits (fp_arith FMul (bits_to_float (fi_rs1 i)) (bits_to_float (fi_rs2 i)))) w) /\
  (forall z, - 2 ^ 31 <= z < 2 ^ 31 -> within_one_word (float_to_bits (i2f z)) (fp_cvt.int_to_fp (u32 z))) /\
  (forall a, f2i_defined (bits_to_float a) = true -> fp_cvt.fp_to_int a = u32 (f2i (bits_to_float a))) /\
  (forall s i ins, fp_div.st s = fp_div.IDLE -> dv_valid i = true -> length ins = 7%nat ->
   2 <= bits (dv_rs1 i) 30 23 - bits (dv_rs2 i) 30 23 + 127 <= 254 ->
   exists w, fp_div.cdb_o (foldl div_edge (div_edge s i) ins) = mkCdb (dv_tag i) w true /\
     bits w 22 0 = if mantissa (dv_rs2 i) <=? mantissa (dv_rs1 i) then 2 else 0).
Proof.
  split; [|split; [|split; [|split]]].
  - intros a b subtract Ha Hb. by apply fp_add_rounded.
  - intros s i ins Hv Hadv Hm Ha Hb He. eexists. split; [by apply fp_mul_run|].
    eapply round_up_within. by apply mul_word_rounded.
  - intros z Hz. destruct (decide (z = 0)) as [->|Hne]; [by left|].
    rewrite int_to_fp_word by done. eapply round_up_within. by apply i2f_word.
  - intros a. apply fp_to_int_f2i.
  - intros s i ins Hs Hv Hl He. eexists. split; [by apply fp_div_run|].
    unfold div_word. assert (_ <=? 1 = false) as -> by (apply Z.leb_gt; lia).
    assert (254 <? _ = false) as -> by (apply Z.ltb_ge; lia).
    destruct (_ <=? _); rewrite bits_cat_low by lia; apply bits_full; lia.
Qed.

(** 1 + 3.14159274. *)
Lemma float_units_accuracy_witness :
  normal 0x3F800000 /\
  within_one_word (float_to_bits (fp_arith (FE := x86_fp) FAdd (bits_to_float 0x3F800000) (bits_to_float 0x40490FDB)))
    (fp_add.fp_add_core 0x3F800000 0x40490FDB false).
Proof.
  assert (Hn : normal 0x3F800000 /\ normal 0x40490FDB) by (repeat split; vm_compute; discriminate).
  split; [apply Hn|].
  destruct (float_units_accuracy (FE := x86_fp)) as [Hadd _].
  destruct (Hadd 0x3F800000 0x40490FDB false (proj1 Hn) (proj2 Hn)) as [_ H].
  apply H; [by vm_compute|]. split; by vm_compute.
Defined.

(** ** The common data bus *)

(** C22. In every state the core reaches, whatever is fetched and whatever the
    memory returns: a result that a functional unit presents (for the
    load/store buffer, the data of a load) is on the bus within seven cycles
    without a flush, unchanged. *)
Theorem results_are_broadcast pre ins i u :
  (u < 7)%nat -> length ins = 7%nat -> ins !! 0%nat = Some i ->
  let c := core_run tomasulo_core.reset pre in
  cdb_valid (result c i u) = true -> holds c u ->
  (forall m, (m < 7)%nat -> tomasulo_core.flush_w (core_run c (take m ins)) = false) ->
  exists m im, ins !! m = Some im /\
    granted (core_run c (take m ins)) im u = true /\
    bus (core_run c (take m ins)) im = result (core_run c (take m ins)) im u /\
    same_result u (result c i u) (result (core_run c (take m ins)) im u).
Proof.
  intros Hu Hl Hi c Hv Hh Hfl.
  pose proof (run_bus_inv pre _ reset_bus_inv) as Hinv. destruct (bi_hot _ Hinv) as (k & Hk & Hc).
  destruct (broadcast_within u 7 Hu c ins k Hk Hc (before_lt k u) Hl Hinv Hh Hfl) as (m & im & H1 & H2 & H3 & H4).
  { by exists i. }
  exists m, im. auto.
Qed.

(** Three cycles after two additions came in the first result is on its way. *)
Definition two_additions : list cycle_in :=
  [mkCycleIn true 0x00100093 0 0; mkCycleIn true 0x00200113 4 0; mkCycleIn false 0 0 0;
   mkCycleIn false 0 0 0].

Lemma results_are_broadcast_witness :
  exists m im, replicate 7 (mkCycleIn false 0 0 0) !! m = Some im /\
    cdb_valid (bus (core_run (core_run tomasulo_core.reset two_additions) (take m (replicate 7 (mkCycleIn false 0 0 0)))) im) = true.
Proof.
  destruct (results_are_broadcast two_additions (replicate 7 (mkCycleIn false 0 0 0)) (mkCycleIn false 0 0 0) 0)
    as (m & im & Hm & _ & Hb & _ & Hv & _); [lia|reflexivity|reflexivity|by vm_compute|by intros ?| |].
  - intros m Hm. do 7 (destruct m as [|m]; [by vm_compute|]). lia.
  - exists m, im. split; [exact Hm|]. rewrite Hb, <- Hv. by vm_compute.
Defined.

(** ** The reorder buffer *)

(** The inputs of the reorder buffer in a run of the core. *)
Fixpoint rob_inputs_of (n : nat) (s : sim_compliance.System) : list rob_unit.inputs :=
  match n with
  | O => []
  | S k =>
      let c := sim_compliance.core s in
      tomasulo_core.rob_inputs c (tomasulo_core.cdb_w c (sim_compliance.mem_rd_data s)) ::
      rob_inputs_of k (sim_compliance.next s)
  end.

(** What the core sees of its reorder buffer, cycle by cycle. *)
Definition rob_outputs_of (n : nat) (s : sim_compliance.System) : list rob_queue.outputs :=
  map (fun k => rob_queue.unit_outputs (tomasulo_core.u_rob (sim_compliance.core (sim_compliance.run k s))))
    (seq 0 n).

Lemma rob_outputs_run n s :
  rob_outputs_of n s = unit_run (tomasulo_core.u_rob (sim_compliance.core s)) (rob_inputs_of n s).
Proof.
  revert s. induction n as [|n IH]; intros s; [done|].
  unfold rob_outputs_of in *. cbn [seq map rob_inputs_of unit_run]. f_equal.
  rewrite <- seq_shift, map_map. exact (IH (sim_compliance.next s)).
Qed.

Lemma run_next n s :
  sim_compliance.run (S n) s = sim_compliance.next (sim_compliance.run n s).
Proof. revert s. induction n as [|n IH]; intros s; [done|]. exact (IH (sim_compliance.next s)). Qed.

Lemma straight_wf_run words n :
  hw_seq.straight (sim_compliance.load words) = true ->
  wf_run rob_queue.empty (rob_inputs_of n (sim_compliance.reset words)).
Proof.
  intros H. assert (Hrun : forall j s q, s = sim_compliance.run j (sim_compliance.reset words) ->
    wf_run q (rob_inputs_of n s)).
  { induction n as [|n IH]; intros j s q Hs; [done|]. cbn [rob_inputs_of wf_run]. split.
    - destruct (straight_ports words H j) as [Hbus Hbr]. rewrite <- Hs in *. split; cbn; [exact Hbus|].
      by rewrite Hbr.
    - apply (IH (S j)). by rewrite Hs, run_next. }
  by apply (Hrun 0%nat).
Qed.

(** C36. The circular reorder buffer of the core is a queue. For every sequence
    of clock edges, with any combination of a bus result, a branch result, an
    allocation, a commit and a flush in one edge, in which the tags of bus
    results have four bits and a branch result names an entry of the queue, or
    nothing has been allocated since a flush ([wf_run]): its tag, full flag,
    committed entries and looked-up values are those of a list of entries,
    oldest first. In the core the assumption holds for every image of the
    memories in which no word is a branch or a jump: in every cycle of such a
    run the other units see the outputs of the queue. (With branches it can
    fail: a late broadcast can let a branch commit before its result comes.) *)
Theorem hw_rob_refines_queue :
  (forall ins, wf_run rob_queue.empty ins -> unit_run rob_unit.reset ins = queue_run rob_queue.empty ins) /\
  (forall words n, hw_seq.straight (sim_compliance.load words) = true ->
     let s := sim_compliance.reset words in
     rob_outputs_of n s = queue_run rob_queue.empty (rob_inputs_of n s)).
Proof.
  assert (H : forall ins, wf_run rob_queue.empty ins ->
    unit_run rob_unit.reset ins = queue_run rob_queue.empty ins) by (intros ins; apply run_sim, reset_sim).
  split; [exact H|]. intros words n Hs s. unfold s. rewrite rob_outputs_run. by apply H, straight_wf_run.
Qed.

(** The inputs of the second recorded run, with its jumps, branches and
    flushes, and the loads and stores of sim/test_sim. *)
Lemma hw_rob_refines_queue_witness :
  let ins := rob_inputs_of 212 (sim_compliance.reset i_delay_slots_01) in
  let s := sim_compliance.reset (image load_store_asm) in
  (wf_run rob_queue.empty ins /\ unit_run rob_unit.reset ins = queue_run rob_queue.empty ins) /\
  rob_outputs_of 40 s = queue_run rob_queue.empty (rob_inputs_of 40 s).
Proof.
  destruct hw_rob_refines_queue as [Hall Hcore]. intros ins s.
  assert (Hw : wf_run rob_queue.empty ins) by (apply (bool_decide_unpack _); by vm_compute).
  split; [split; [exact Hw|exact (Hall ins Hw)]|].
  apply (Hcore (image load_store_asm) 40%nat). vm_compute. reflexivity.
Defined.

(** ** Jumps *)

Lemma run_values ins c :
  rob_values (tomasulo_core.u_rob c) -> rob_values (tomasulo_core.u_rob (core_run c ins)).
Proof. revert c. induction ins as [|i ins IH]; intros c Hc; [done|]. by apply IH, next_values. Qed.

(** No flush in the cycle, and slot [t] is not given to a new instruction. *)
Definition keeps_slot (t : Z) (c : tomasulo_core.Core) : Prop :=
  tomasulo_core.flush_w c = false /\
  (tomasulo_core.iq_pop_w c = true -> rob_unit.alloc_tag_o (tomasulo_core.u_rob c) <> t).

Lemma keeps_alloc t c :
  0 <= t -> rob_values (tomasulo_core.u_rob c) -> keeps_slot t c -> forall bus,
  rob_unit.do_alloc (tomasulo_core.u_rob c) (tomasulo_core.rob_inputs c bus) = true ->
  Z.to_nat (rob_unit.tail (tomasulo_core.u_rob c)) <> Z.to_nat t.
Proof.
  intros Ht [Htail _] [_ Hk] bus Ha. unfold rob_unit.do_alloc in Ha. apply andb_true_iff in Ha as [Ha _].
  specialize (Hk Ha). unfold rob_unit.alloc_tag_o in Hk. lia.
Qed.

Lemma run_settled t ins c :
  0 <= t -> rob_values (tomasulo_core.u_rob c) ->
  settled (rob_unit.entries (tomasulo_core.u_rob c)) (Z.to_nat t) 0 ->
  (forall m, (m < length ins)%nat -> keeps_slot t (core_run c (take m ins))) ->
  settled (rob_unit.entries (tomasulo_core.u_rob (core_run c ins))) (Z.to_nat t) 0.
Proof.
  intros Ht. revert c. induction ins as [|i ins IH]; intros c Hc Hs Hk; [done|].
  pose proof (Hk 0%nat ltac:(cbn; lia)) as Hk0. apply (IH (edge c i)).
  - by apply next_values.
  - apply next_settled; [exact Hs|apply Hk0|by apply keeps_alloc].
  - intros m Hm. apply (Hk (S m)). cbn. lia.
Qed.

(** C33. The link register of a jump is lost. In every state the core reaches,
    when the branch unit has the result of an entry [t] in flight, the entry is
    done with the next clock edge with the result 0, and keeps it until it is
    flushed or its slot is allocated again, whatever comes in and whatever is
    on the bus. The latch of the unit presents the value of the link register,
    the address behind the jump, but one cycle later: an instruction that waits
    for the register gets it from the bus, while the entry ignores it, and the
    commit of the jump writes 0 to the register. *)
Theorem jump_writes_zero pre ins t :
  let c := core_run tomasulo_core.reset pre in
  let entry c := rob_unit.entry (tomasulo_core.u_rob c) t in
  0 <= t -> branch_unit.valid_o (tomasulo_core.u_br c) = true ->
  branch_unit.tag_o (tomasulo_core.u_br c) = t ->
  ro_is_branch (entry c) = true -> ro_state (entry c) = ROB_IN_FLIGHT ->
  (forall m, (m < length ins)%nat -> keeps_slot t (core_run c (take m ins))) ->
  forall m, (0 < m <= length ins)%nat ->
    let c' := core_run c (take m ins) in
    (m = 1%nat -> tomasulo_core.br_cdb c' = mkCdb t (tomasulo_core.br_cdb_val c) true) /\
    ro_state (entry c') <> ROB_IN_FLIGHT /\ ro_result (entry c') = 0 /\
    (rob_unit.head (tomasulo_core.u_rob c') = t -> regfile.wr_val (tomasulo_core.x_wr_w c') = 0).
Proof.
  intros c entry Ht Hv Htag Hbr Hst Hk m Hm c'.
  pose proof (run_values pre tomasulo_core.reset reset_values) as Hval. fold c in Hval.
  destruct ins as [|i ins]; [cbn in Hm; lia|]. destruct m as [|m]; [lia|].
  pose proof (Hk 0%nat ltac:(cbn; lia)) as Hk0. cbn [take core_run foldl] in Hk0.
  assert (Hs : settled (rob_unit.entries (tomasulo_core.u_rob (edge c i))) (Z.to_nat t) 0).
  { unfold entry in *. subst t. apply branch_settles; [exact Hval|exact Hv|exact Hbr|exact Hst|apply Hk0|].
    by apply keeps_alloc. }
  assert (Hs' : settled (rob_unit.entries (tomasulo_core.u_rob c')) (Z.to_nat t) 0).
  { apply (run_settled t (take m ins) (edge c i)); [done|by apply next_values|exact Hs|].
    intros k Hlt. rewrite length_take in Hlt. cbn [length] in Hm. rewrite take_take.
    replace (k `min` m)%nat with k by lia. apply (Hk (S k)). cbn. lia. }
  destruct (settled_entry _ t _ _ Hs' eq_refl) as [Hr Hd]. split; [|split; [exact Hd|split; [exact Hr|]]].
  - intros [= ->]. unfold c'. cbn [take core_run foldl edge]. unfold edge, tomasulo_core.next.
    cbn [tomasulo_core.br_cdb]. unfold tomasulo_core.latch. by rewrite (proj1 Hk0), Hv, Htag.
  - intros Hh. unfold tomasulo_core.x_wr_w. cbn [regfile.wr_val]. unfold commit_unit.gate.
    destruct (tomasulo_core.x_wr_en_w c'); [|done]. unfold tomasulo_core.rob_commit_entry_w,
      rob_unit.commit_entry_o. by rewrite Hh.
Qed.

(** ADDI x1, x0, 5 and JAL x1, 8: the bus gets 8, the register 0. *)
Definition idle_in : cycle_in := mkCycleIn false 0 0 0.
Definition link_in : list cycle_in :=
  [mkCycleIn true 0x00500093 0 0; mkCycleIn true 0x008000EF 4 0; idle_in; idle_in].

Lemma jump_writes_zero_witness :
  let c := core_run tomasulo_core.reset link_in in
  branch_unit.valid_o (tomasulo_core.u_br c) = true /\
  tomasulo_core.br_cdb (core_run c [idle_in]) = mkCdb 1 8 true /\
  regfile.wr_en (tomasulo_core.x_wr_w (core_run c [idle_in; idle_in])) = true /\
  regfile.wr_addr (tomasulo_core.x_wr_w (core_run c [idle_in; idle_in])) = 1 /\
  regfile.wr_val (tomasulo_core.x_wr_w (core_run c [idle_in; idle_in])) = 0.
Proof.
  intros c. pose proof (jump_writes_zero link_in [idle_in; idle_in] 1) as H. cbn zeta in H. fold c in H.
  assert (H0 : forall m, (m < length [idle_in; idle_in])%nat -> keeps_slot 1 (core_run c (take m [idle_in; idle_in]))).
  { intros [|[|m]] Hm; [..|cbn in Hm; lia]; (split; [vm_compute; reflexivity|vm_compute; discriminate]). }
  specialize (H ltac:(lia) ltac:(vm_compute; reflexivity) ltac:(vm_compute; reflexivity)
    ltac:(vm_compute; reflexivity) ltac:(vm_compute; reflexivity) H0).
  split; [vm_compute; reflexivity|]. split; [|split; [vm_compute; reflexivity|split; [vm_compute; reflexivity|]]].
  - destruct (H 1%nat ltac:(cbn; lia)) as [Hb _]. cbn [take] in Hb. rewrite (Hb eq_refl). vm_compute. reflexivity.
  - destruct (H 2%nat ltac:(cbn; lia)) as (_ & _ & _ & Hw). apply Hw. vm_compute. reflexivity.
Defined.

(** ** The core and the simulator *)

(** C11. Out-of-order execution is invisible. For every image of the memories in
    which no word is a branch or a jump, after any number [n] of cycles both
    register files, the data memory and the halt flag of the core, with its
    queues, renaming tables, stations, units, bus, reorder buffer and load/store
    buffer, are exactly those of the sequential machine after the first [k]
    words, one instruction after another, where [k] is the number of
    instructions that committed; and [k] grows by one in 13 cycles at least, after
    a start of at most 194. *)
Theorem straight_programs_run_in_order words n :
  hw_seq.straight (sim_compliance.load words) = true ->
  let s := sim_compliance.run n (sim_compliance.reset words) in
  let k := committed n (sim_compliance.reset words) in
  let ins := hw_seq.fetched (sim_compliance.load words) in
  let t := hw_seq.run (hw_seq.initial words) ins k in
  int_regs s = hw_seq.xs t /\ fp_regs s = hw_seq.fs t /\
  data_mem.mem (sim_compliance.dmem s) = hw_seq.mem t /\
  sim_compliance.halted s = existsb (fun j => halts (ins j)) (seq 0 k) /\
  (n <= 13 * k + 194)%nat.
Proof. intros H. exact (straight_run words H n). Qed.

(** The loads and stores of sim/test_sim. *)
Lemma straight_programs_run_in_order_witness :
  let w := image load_store_asm in
  hw_seq.straight (sim_compliance.load w) = true /\
  int_regs (sim_compliance.run 40 (sim_compliance.reset w)) =
    hw_seq.xs (hw_seq.run (hw_seq.initial w) (hw_seq.fetched (sim_compliance.load w))
                 (committed 40 (sim_compliance.reset w))).
Proof.
  intros w. assert (H : hw_seq.straight (sim_compliance.load w) = true) by (vm_compute; reflexivity).
  split; [exact H|]. exact (proj1 (straight_programs_run_in_order w 40 H)).
Defined.

(** C13. The two implementations of the repository agree. For every program of
    integer operations, loads and stores, without branches and with HALT at the
    end, that fits the instruction memory, accesses the data memory behind the
    words of the program and keeps its loads clear of hazards of the simulator:
    the simulator, run on the instructions, and the core, run on their
    encodings, both halt, the core within 13 cycles an instruction and 195 more,
    with the same 32 integer and 32 floating-point registers and the same data
    memory behind the program. *)
Theorem core_agrees_with_simulator `{FE : FPEnv} body :
  let p := body ++ [halt_instr] in
  Forall (fun i => agreed i = true) body -> len p <= MEM_SIZE ->
  data_behind p = true -> forwarding_safe (stamp p) ->
  exists s n c, simulate p = Ok s /\
    run_to_halt (13 * length body + 195) 0 (sim_compliance.reset (map encode p)) = Some (n, c) /\
    (forall r, 0 <= r < 32 ->
      read_bits (rf s) r false = Ok (at_ 0 (int_regs c) r) /\
      read_bits (rf s) r true = Ok (at_ 0 (fp_regs c) r)) /\
    (forall w, (length p <= w < Z.to_nat MEM_SIZE)%nat -> mem s !! w = Some (mem_word c w)).
Proof. intros p Hb Hl Hd Hs. by apply core_agrees. Qed.

(** x1 = 5, x2 = x1 << 8, x3 = x2 - x1, in the words 20 and 21 and f4. *)
Definition agreed_sample : list Instruction :=
  [ mkInstruction ADDI 1 0 (-1) 5 false false false 0; mkInstruction SLLI 2 1 (-1) 8 false false false 0;
    mkInstruction SUB 3 2 1 0 false false false 0; mkInstruction SW (-1) 0 3 80 false false false 0;
    mkInstruction FLW 4 0 (-1) 80 true false false 0; mkInstruction FSW (-1) 0 4 84 false false true 0 ].

Lemma core_agrees_with_simulator_witness :
  exists s n c, simulate (FE := x86_fp) (agreed_sample ++ [halt_instr]) = Ok s /\
    run_to_halt (13 * length agreed_sample + 195) 0
      (sim_compliance.reset (map encode (agreed_sample ++ [halt_instr]))) = Some (n, c) /\
    mem s !! 21%nat = Some (mem_word c 21).
Proof.
  destruct (core_agrees_with_simulator (FE := x86_fp) agreed_sample) as (s & n & c & Hs & Hc & _ & Hm).
  - repeat (apply Forall_cons_2; [reflexivity|]). apply Forall_nil_2.
  - by vm_compute.
  - by vm_compute.
  - apply (safe_run_sound (FE := x86_fp) _ 20). by vm_compute.
  - exists s, n, c. split; [exact Hs|]. split; [exact Hc|]. apply Hm. vm_compute. lia.
Defined.

(** ** The board *)

(** C23. The board runs the selected program. Whatever it did before: when
    KEY0 was pressed for a cycle and is released, 1027 cycles later both
    memories hold the program of the ROM that the switches selected in the second
    of these cycles, the first one when there is none with that number; and from
    then on, whatever the switches, core, data memory and halt flag are in every
    cycle those of the testbench on that image, until HALT commits, and the
    counter is the number of cycles before it. Then switch 9 shows the
    signature: two cycles later the display is the window of the word of the
    data memory at HALT that switches 5 to 0 select. *)
Theorem board_runs_selected_program rom s press release sel go :
  (forall a, is_u32 (rom a)) -> memories s -> cpu.KEY0 press = false ->
  Forall (fun i => cpu.KEY0 i = true) release -> length release = 1027%nat -> release !! 1%nat = Some sel ->
  let p := cpu.clamp_program_sel (bits (cpu.SW sel) 5 0) in
  let t m := sim_compliance.run m (sim_compliance.reset (program rom p)) in
  let b := cpu.run rom s ((press :: release) ++ go) in
  Forall (fun i => cpu.KEY0 i = true) go ->
  (forall m, (m < length go)%nat -> sim_compliance.halted (t m) = false) ->
  cpu.u_core b = sim_compliance.core (t (length go)) /\
  data_mem.mem (cpu.u_dmem b) = data_mem.mem (sim_compliance.dmem (t (length go))) /\
  cpu.halted b = sim_compliance.halted (t (length go)) /\
  cpu.cycle_count b = trunc 32 (len go - Z.b2z (cpu.halted b)) /\
  (forall view, cpu.halted b = true -> cpu.KEY0 view = true -> Z.testbit (cpu.SW view) 9 = true ->
    bits (cpu.SW view) 5 0 < bits (program_word rom p cpu.META_COUNT_WORD) 9 0 ->
    cpu.hex_display_value (cpu.run rom b [view; view]) view =
    word_window (cpu.SW view) (at_ 0 (data_mem.mem (cpu.u_dmem b))
      (trunc 10 (bits (program_word rom p cpu.META_BEGIN_WORD) 9 0 + bits (cpu.SW view) 5 0)))).
Proof. intros Hrom Hm Hp Hr Hl Hs. by apply board_run. Qed.

(** A ROM with one program, whose signature is the words 20 and 21. *)
Definition sample_image : list Z := map encode (agreed_sample ++ [halt_instr]) ++ replicate 1014 0 ++ [20; 22; 2].
Definition sample_rom (a : Z) : Z := at_ 0 sample_image (bits a 9 0).

Lemma sample_rom_u32 a : is_u32 (sample_rom a).
Proof.
  assert (H : Forall is_u32 sample_image) by (apply (bool_decide_unpack _); by vm_compute).
  unfold sample_rom, at_. rewrite nth_lookup. destruct (_ !! _) as [w|] eqn:E; [|by unfold is_u32].
  exact (Forall_lookup_1 _ _ _ _ H E).
Qed.

Definition power_on : cpu.state :=
  cpu.mk false false 0 (cpu.mkLoader 0 true 0 0 false 0 0 0) (instr_mem.mk (replicate 1024 0) 0)
    (data_mem.mk (replicate 1024 0) 0) 0 0 false tomasulo_core.reset false 0 0.

Definition switches (sw : Z) : cpu.inputs := cpu.mkInputs true sw.

(** Switches 9 and 0: word 20 + 1, which is 0x4FB. *)
Lemma board_runs_selected_program_witness :
  let b := cpu.run sample_rom power_on
    ((cpu.mkInputs false 0 :: replicate 1027 (switches 0)) ++ replicate 38 (switches 0x200)) in
  cpu.cycle_count b = 37 /\ cpu.hex_display_value (cpu.run sample_rom b [switches 0x201; switches 0x201]) (switches 0x201) = 0x4FB.
Proof.
  destruct (board_runs_selected_program sample_rom power_on (cpu.mkInputs false 0) (replicate 1027 (switches 0))
    (switches 0) (replicate 38 (switches 0x200))) as (_ & Hmem & Hhalt & Hcount & Hview).
  - exact sample_rom_u32.
  - by constructor.
  - reflexivity.
  - by apply Forall_replicate.
  - reflexivity.
  - reflexivity.
  - by apply Forall_replicate.
  - intros m Hlt. apply (no_halt_run 38); [by vm_compute|exact Hlt].
  - rewrite Hhalt in Hcount. split.
    + rewrite Hcount. by vm_compute.
    + rewrite Hview; [rewrite Hmem; by vm_compute|rewrite Hhalt; by vm_compute|reflexivity|reflexivity|by vm_compute].
Defined.

(** ** Recorded runs

    Validation of the definitions on what the repository recorded, by
    evaluation. *)

(** From the memory images of two compliance programs the core, with its
    memories and its fetch stage, dispatches, fetches, broadcasts and commits in
    every cycle what the recorded RTL simulation of the repository printed. *)
Example recorded_rtl_traces :
  log 1000 0 (sim_compliance.reset i_endianess_01) = i_endianess_01_log /\
  log 1000 0 (sim_compliance.reset i_delay_slots_01) = i_delay_slots_01_log.
Proof. split; by vm_compute. Qed.

(** Assembled, encoded and run on the core, five of the programs of
    sim/test_sim halt with their recorded registers and memory words. Four
    programs show where the core departs from the simulator. The call test
    never halts: the link register of JAL is 0. 6 / 3 is 0x3F800002, close to 1.
    HALT sets a flag and the core runs on: a store behind it reaches the memory,
    within ten cycles. And a branch that was not taken, whose broadcast is late, completes the
    instruction that has taken over its tag: ADDI x21, x0, 7 leaves 36, the
    address behind the branch, in x21. *)
Example core_versus_simulator :
  Forall (fun t => core_ends 400 (fst t) (snd t) = true)
    [ (int_alu_asm, int_alu_final); (load_store_asm, load_store_final); (branch_asm, branch_final);
      (fp_alu_asm, fp_alu_final); (combined_asm, combined_final) ] /\
  (main (FE := x86_fp) jal_jalr_asm = Ok (Some jal_jalr_final) /\
   forall n, sim_compliance.halted (sim_compliance.run n (sim_compliance.reset (image jal_jalr_asm))) = false) /\
  (let ints := regs [(1%nat, 6); (2%nat, 3)] in
   let fps f3 := regs [(1%nat, 0x40C00000); (2%nat, 0x40400000); (3%nat, f3)] in
   sim_regs (FE := x86_fp) divide_asm = Some (ints, fps 0x40000000) /\
   core_regs 200 divide_asm = Some (ints, fps 0x3F800002)) /\
  (match main (FE := x86_fp) behind_halt_asm with
   | Ok (Some f) => fin_mem f = []
   | _ => False
   end /\
   core_word 100 10 behind_halt_asm 16 = Some (0, 1)) /\
  (let fps := regs [(1%nat, 0x3F800000)] in
   sim_regs (FE := x86_fp) late_branch_asm = Some (late_branch_regs 7, fps) /\
   core_regs 200 late_branch_asm = Some (late_branch_regs 36, fps)).
Proof.
  split; [repeat (apply Forall_cons_2; [vm_compute; reflexivity|]); apply Forall_nil_2|].
  split; [split; [by vm_compute|]|split_and!; by vm_compute].
  apply (never_halts 64 16); [lia|by vm_compute|by vm_compute].
Qed.
